(* ===== verification/_CoqProject ===== *)
-Q . S2P
Prelude.v
Libc.v
Platform.v
Malloc.v
Thread.v
Fdtable.v
Vdso.v
Boot.v
Rumpuser.v
Virtif.v
Netpoll.v
Spwire.v
Spserver.v
Spsystem.v
Loader.v
Rexec.v
Bsd.v
