(* ===== verification/Prelude.v ===== *)
(** * A verification of frankenlibc

    frankenlibc runs an unmodified kernel (a NetBSD rump kernel or the Linux
    kernel library) as a library inside one host process.  The parts of the
    program, from the outside in:

    - the loader ([tools/rexec.c], [tools/linux.c]) opens the files and network
      devices of its command line, drops privileges, installs a system call
      filter, describes the open descriptors in the environment and executes the
      program;
    - the start-up code ([franken/init]) finds these descriptors again, hands
      them to the guest kernel as disks and network devices, boots it, and calls
      [main] with the handlers of [atexit] around it;
    - the platform layer ([platform]) is what the program asks of the machine:
      memory, clocks, randomness, polling; on Linux by system calls, on bare
      metal (qemu-arm, spike) from a static array and a counter;
    - the C library of the host side ([franken/libc], [franken/malloc]) and the
      cooperative threads ([franken/thread]) are built on the platform;
    - the hypercalls ([librumpuser]) are the interface the guest kernel uses;
      among them is the system call proxy ([librumpuser/sysproxy.c]), a server
      through which other processes make system calls of the guest;
    - the network driver and the time counter ([libvirtif], [libtc]) are parts
      of the guest kernel that call the platform.

    ** Files

    - [Prelude]: machine integers with their wrap-around, the [outcome] monad
      (a value, an abort, undefined behaviour, or no fuel left), a byte memory,
      alignment, error numbers, tactics and hint databases.
    - [Libc]: [Str] is [franken/libc/{str*,mem*,atoi,getenv}.c] on the byte
      memory, [AtExit] is [exit.c].
    - [Platform]: the classes [PageSource] and [Clock] that the allocator and
      the scheduler are written against; [Bump], [QemuArm], [Spike], [Stubs],
      [FakeClock] and [Linux] are the files of [platform/*/{mmap,munmap,clock_*,
      getrandom,syscall_ret,...}.c] and [franken/stubs].
    - [Malloc]: [franken/malloc/malloc.c]; the free lists and headers are in the
      bytes of memory.  [MallocInv.heap_rep] is the abstract view: a map of the
      live allocations.
    - [Thread]: [franken/thread/thread.c]; [Sched.sched] has the threads, wait
      queues and locks, a blocked call is the continuation [kont] it is in.  What
      the platform does while the scheduler sleeps, the waking of threads
      included, is the class [Clock].
    - [Fdtable]: the descriptor table of [init.h], and [fstat], the scan of the
      descriptors, [poll] and [clock_nanosleep] of [platform/linux].
    - [Vdso]: [platform/linux/vdso.c] on the byte memory, with [ElfImage], the
      contents of an image, and the use of it in [clock_gettime.c].
    - [Boot]: [franken/init/fdinit.c] and [start_main.c].
    - [Rumpuser]: [rumpuser_mem.c], [rumpuser_file.c], [rumpuser_random.c] and
      parts of [rumpuser.c].
    - [Virtif]: [libvirtif/if_virt.c], [libvirtif/virtif_user.c] and
      [libtc/franken_tc.c].
    - [Netpoll]: where the scheduler, the poll of [platform/linux] and the
      receive threads of the driver meet: Linux as an instance of [Clock].
    - [Spwire], [Spserver], [Spsystem]: [sysproxy.c], as messages, as
      operations on the server's state, and as a system of threads with a step
      relation; [Startup] is [rumpuser_sp_init].
    - [Loader], [Rexec]: [tools/linux.c] and [tools/rexec.c] in a monad over the
      loader's globals and the calls it makes of the host.  [Rexec.os_ops] is
      what [rexec.c] asks of the file of its host.
    - [Bsd]: the hosts [FreeBSD], [NetBSD] and [Darwin], from [platform/freebsd],
      [platform/netbsd], [platform/darwin], and their instances of [os_ops], from
      [tools/freebsd.c], [netbsd.c] and [darwin.c].

    In each file a Module has the definitions of a part, named as in the C code,
    Modules named [...Facts], [...Inv] have the lemmas, and a Module named
    [...Properties] has the theorems and examples that use them.

    ** What the theorems show

    - Memory: a program that keeps the rules of malloc has its allocations
      mapped, apart and unchanged ([malloc_program_safe]); [aligned_alloc],
      [free], [realloc] refine operations on a map of allocations; so do
      [rumpuser_malloc] and [rumpuser_free], which choose between the allocator
      and a mapping ([guest_malloc_refines], [guest_free_refines], on the
      bare-metal target); requests of
      the bare-metal [mmap] are apart ([bump_requests_disjoint]).
    - Threads: no wake-up is lost, mutexes exclude, the scheduler picks the first
      thread that is due and passes over a runnable one a bounded number of
      times ([no_lost_wakeup], [mutex_exclusive], [bounded_bypass]); all this with
      threads woken by the platform.  A packet gets the receive thread of its
      interface to run ([packet_runs_receiver]).
    - Start-up: the descriptor table and the devices are those of the
      environment, the calls of a whole run are those the descriptors ask for, in
      the right order ([fdinit_finds_descriptors], [start_main_sequence]), network
      descriptors are polled ([network_fds_polled]) and their threads woken.
    - The proxy: frames survive any fragmentation, sends make progress, requests
      are not lost, answers reach the thread that asked, a client with work in
      progress keeps its slot, nothing is served before the handshake; the main
      loop refines the step relation ([main_loop_refines]).
    - The loader: the filter admits what the open descriptors allow and nothing
      else ([sandbox_confines]); what is opened for the guest is found by the
      start-up code ([descriptors_reach_guest], [file_argument_is_disk], which
      compose [Rexec] with [Boot]); arguments, privileges, the identifier of the
      machine ([uuid_of_random_bytes]), the default gateway.
    - Hosts: the lookup of a function in the mapped vdso is the lookup in its
      contents ([vdsosym_is_lookup]); on FreeBSD the loader enters capability mode
      and limits every descriptor before it executes the program it has opened
      ([capsicum_confines]); the time of Darwin is exact in its seconds and within
      a microsecond ([commpage_time_exact]), and its poll reports the right
      events for descriptors below 32 ([sc_poll_reports]).
    - Devices: block requests are completed ([bio_completes_once]);
      packets another interface has sent are passed up unchanged and in order
      ([packets_cross]).
    - Errors: theorems of kind error describe what the code does where that is
      not what it should do.

    ** Parameters, fuel and bounds

    Code outside the repository is a parameter: the host's system calls answer by
    a function of the calls made before (records [host], arguments [answer],
    [verdict], [kernel]); a theorem that needs something of them has it as a
    hypothesis, and its example shows an instance.  The guest kernel is such a
    parameter, too.

    Loops that end for a reason that is not structural take fuel and run out
    with [NoFuel] (or undefined behaviour in the loader's monad); the theorems
    say how much is enough.  The string loops need more than the length of the
    string.  [bucket_loop] and [page_loop] have 33, as a 32-bit value doubles at
    most 32 times; [align_loop] and [mask_loop] have 32 and 33 for the same
    reason.  [max_attrs] and [max_msgs] are the most attributes and messages a
    buffer of 8192 bytes can hold.  The start-up loop over the 64 descriptors
    starts at 5 and needs 60, exit needs 35 for its 34 handlers.  The loops of
    [Vdso] need more than the entries of the table they walk over,
    [memset_pattern] more than the number of bytes.

    Integers are LP64; times in [Thread] are unbounded.

    ** Not modelled

    Output on the terminal; huge pages; the debugging configurations of malloc;
    the configuration of fdinit.c without MUSL_LIBC, whose braces do not balance
    (its loop over the environment closes one block too many, so it does not
    compile); functions registered while the program exits; on the BSD hosts the
    system calls in assembly and signals; 32-bit images; the device registers of
    the bare-metal targets; context switches in assembly (a switch is the change
    of the current thread); functions that pass their arguments on to another
    one; the vendored kernels. *)

From Stdlib Require Import ZArith Lia Ascii String.
From stdpp Require Import base numbers list gmap.

#[global] Open Scope Z_scope.

(** ** Machine integers

    The modelled targets are LP64: [size_t], [uintptr_t], [unsigned long] and
    pointers are 64 bits wide, [int] and [unsigned] 32.  A value of a w-bit
    unsigned type is a [Z] between 0 and 2^w; the functions below are the
    conversions the C code performs. *)

Definition u8 (z : Z) : Z := z mod 2 ^ 8.
Definition u16 (z : Z) : Z := z mod 2 ^ 16.
Definition u32 (z : Z) : Z := z mod 2 ^ 32.
Definition u64 (z : Z) : Z := z mod 2 ^ 64.
Definition i32 (z : Z) : Z := (z + 2 ^ 31) mod 2 ^ 32 - 2 ^ 31.
Definition i64 (z : Z) : Z := (z + 2 ^ 63) mod 2 ^ 64 - 2 ^ 63.

(** C's [~m] on a 64-bit unsigned value. *)
Definition not64 (m : Z) : Z := u64 (Z.lnot m).

(** C's truth values. *)
Definition b2z (b : bool) : Z := if b then 1 else 0.

(** ** Outcomes

    What running a piece of C code yields: a value, a call of [abort] (or a
    failed [assert], which calls it), undefined behaviour, or no answer
    because the model's loop bound was too small. *)

Inductive outcome (A : Type) : Type :=
  | Ret (a : A)
  | Abort
  | UB
  | NoFuel.
Arguments Ret {A} a.
Arguments Abort {A}.
Arguments UB {A}.
Arguments NoFuel {A}.

#[global] Instance outcome_ret : MRet outcome := fun A a => Ret a.
#[global] Instance outcome_bind : MBind outcome := fun A B f o =>
  match o with Ret a => f a | Abort => Abort | UB => UB | NoFuel => NoFuel end.

(** An [int] computation that overflows is undefined in C. *)
Definition int32 (z : Z) : outcome Z :=
  if (- 2 ^ 31 <=? z) && (z <? 2 ^ 31) then Ret z else UB.
Definition int64 (z : Z) : outcome Z :=
  if (- 2 ^ 63 <=? z) && (z <? 2 ^ 63) then Ret z else UB.

Definition assert_ (b : bool) : outcome unit := if b then Ret tt else Abort.

(** ** Byte memory

    The address space is a set of mapped ranges and the bytes written so far;
    an anonymous page reads as zero until it is written.  Touching an address
    outside every mapped range is undefined behaviour. *)

Record mem : Type := Mem {
  mapped : list (Z * Z);     (* base, length *)
  bytes : gmap Z Z;
}.

Definition in_range (a : Z) (r : Z * Z) : bool :=
  (r.1 <=? a) && (a <? r.1 + r.2).

Definition mapped_at (m : mem) (a : Z) : bool := existsb (in_range a) (mapped m).

Definition peek (m : mem) (a : Z) : Z := default 0 (bytes m !! a).

Definition poke (m : mem) (a v : Z) : mem :=
  {| mapped := mapped m; bytes := <[a := u8 v]> (bytes m) |}.

Definition load8 (m : mem) (a : Z) : outcome Z :=
  if mapped_at m a then Ret (peek m a) else UB.

Definition store8 (m : mem) (a v : Z) : outcome mem :=
  if mapped_at m a then Ret (poke m a v) else UB.

(** Little-endian multi-byte accesses. *)
Fixpoint loadn (n : nat) (m : mem) (a : Z) : outcome Z :=
  match n with
  | O => Ret 0
  | S n => b ← load8 m a; r ← loadn n m (a + 1); Ret (b + 256 * r)
  end.

Fixpoint storen (n : nat) (m : mem) (a v : Z) : outcome mem :=
  match n with
  | O => Ret m
  | S n => m ← store8 m a v; storen n m (a + 1) (v / 256)
  end.

Abbreviation load64 := (loadn 8).
Abbreviation store64 := (storen 8).

(** Two half-open ranges [a, a+n) and [b, b+k) do not meet. *)
Definition apart (a n b k : Z) : Prop := a + n <= b \/ b + k <= a \/ n <= 0 \/ k <= 0.

(** Every address of [a, a+n) is mapped. *)
Definition range_mapped (m : mem) (a n : Z) : Prop :=
  forall i, 0 <= i < n -> mapped_at m (a + i) = true.

(** The memories agree outside [a, a+n). *)
Definition same_outside (m m' : mem) (a n : Z) : Prop :=
  mapped m' = mapped m /\
  forall x, (x < a \/ a + n <= x) -> peek m' x = peek m x.

(** A memory holds bytes: every stored value is between 0 and 255. *)
Definition mem_wf (m : mem) : Prop := forall a, 0 <= peek m a < 256.

(** The total counterparts of the multi-byte accesses. *)
Fixpoint peekn (n : nat) (m : mem) (a : Z) : Z :=
  match n with
  | O => 0
  | S n => peek m a + 256 * peekn n m (a + 1)
  end.

Fixpoint poken (n : nat) (m : mem) (a v : Z) : mem :=
  match n with
  | O => m
  | S n => poken n (poke m a v) (a + 1) (v / 256)
  end.

(** The bytes [a, a + length bs) of the memory are [bs]. *)
Definition bytes_at (m : mem) (a : Z) (bs : list Z) : Prop :=
  forall i b, bs !! i = Some b -> mapped_at m (a + Z.of_nat i) = true /\ peek m (a + Z.of_nat i) = b.

(** A NUL-terminated string at an address. *)
Fixpoint cstr (m : mem) (a : Z) (bs : list Z) : Prop :=
  match bs with
  | [] => mapped_at m a = true /\ peek m a = 0
  | b :: bs => mapped_at m a = true /\ peek m a = b /\ b <> 0 /\ cstr m (a + 1) bs
  end.

(** The bytes of a string literal, without the terminator. *)
Definition lit (s : string) : list Z :=
  map (fun c => Z.of_N (N_of_ascii c)) (list_ascii_of_string s).
Arguments lit s%_string.

(** A memory with one mapped range that starts with the given bytes. *)
Fixpoint poke_list (m : mem) (a : Z) (bs : list Z) : mem :=
  match bs with
  | [] => m
  | b :: bs => poke_list (poke m a b) (a + 1) bs
  end.

(** The [n] bytes at an address. *)
Fixpoint peeks (n : nat) (m : mem) (a : Z) : list Z :=
  match n with
  | O => []
  | S n => peek m a :: peeks n m (a + 1)
  end.

(** ** errno values (the NetBSD ABI, which the library's callers use) *)

Definition ENOENT : Z := 2.
Definition EIO : Z := 5.
Definition EPERM : Z := 1.
Definition ESRCH : Z := 3.
Definition EINTR : Z := 4.
Definition EBADF : Z := 9.
Definition ENOMEM : Z := 12.
Definition EFAULT : Z := 14.
Definition EBUSY : Z := 16.
Definition EINVAL : Z := 22.
Definition ESPIPE : Z := 29.
Definition EPIPE : Z := 32.
Definition ERANGE : Z := 34.
Definition EAGAIN : Z := 35.
Definition EOPNOTSUPP : Z := 45.
Definition ENOTCONN : Z := 57.
Definition ETIMEDOUT : Z := 60.
Definition ENAMETOOLONG : Z := 63.
Definition ENOSYS : Z := 78.
Definition ENOTSUP : Z := 86.

(** ** Tactics and hints of the development *)

Create HintDb cmem.
Create Rewrite HintDb cmem.

(** Split every boolean connective and comparison of the hypotheses. *)
Ltac to_prop :=
  repeat match goal with
  | H : _ && _ = true |- _ => apply andb_true_iff in H; destruct H
  | H : _ || _ = false |- _ => apply orb_false_iff in H; destruct H
  | H : negb _ = true |- _ => apply negb_true_iff in H
  | H : negb _ = false |- _ => apply negb_false_iff in H
  | H : (_ =? _) = true |- _ => apply Z.eqb_eq in H
  | H : (_ =? _) = false |- _ => apply Z.eqb_neq in H
  | H : (_ <? _) = true |- _ => apply Z.ltb_lt in H
  | H : (_ <? _) = false |- _ => apply Z.ltb_ge in H
  | H : (_ <=? _) = true |- _ => apply Z.leb_le in H
  | H : (_ <=? _) = false |- _ => apply Z.leb_gt in H
  | H : (_ >? _) = true |- _ => rewrite Z.gtb_ltb in H; apply Z.ltb_lt in H
  | H : (_ >? _) = false |- _ => rewrite Z.gtb_ltb in H; apply Z.ltb_ge in H
  | H : (_ >=? _) = true |- _ => rewrite Z.geb_leb in H; apply Z.leb_le in H
  | H : (_ >=? _) = false |- _ => rewrite Z.geb_leb in H; apply Z.leb_gt in H
  end.

(** Case on the comparison that the goal branches on. *)
Ltac case_cmp :=
  match goal with
  | |- context [if ?b then _ else _] =>
      let E := fresh "E" in destruct b eqn:E; to_prop
  end.

(** Invert the successful run of a bind. *)
Ltac inv_bind H :=
  match type of H with
  | mbind _ ?o = Ret _ =>
      let E := fresh "E" in
      destruct o eqn:E; [cbn [mbind outcome_bind] in H | discriminate H ..]
  end.

(** ** Lemmas on integers *)

Lemma land_mask x k : 0 <= k -> Z.land x (2 ^ k - 1) = x mod 2 ^ k.
Proof.
  intros Hk. replace (2 ^ k - 1) with (Z.ones k) by (rewrite Z.ones_equiv; lia).
  by apply Z.land_ones.
Qed.

(** Testing one bit. *)
Lemma land_bit w d : 0 <= d -> negb (Z.land w (Z.shiftl 1 d) =? 0) = Z.testbit w d.
Proof.
  intros Hd. rewrite Z.shiftl_1_l. destruct (Z.testbit w d) eqn:E.
  - assert (Z.land w (2 ^ d) <> 0) as H%Z.eqb_neq; [|by rewrite H].
    intros H. assert (Hb : Z.testbit (Z.land w (2 ^ d)) d = false) by (rewrite H; apply Z.bits_0).
    rewrite Z.land_spec, E, Z.pow2_bits_true in Hb by lia. done.
  - assert (Z.land w (2 ^ d) = 0) as ->; [|done]. apply Z.bits_inj'. intros i Hi. rewrite Z.land_spec, Z.bits_0.
    destruct (decide (i = d)) as [->|]; [by rewrite E|]. by rewrite Z.pow2_bits_false, andb_false_r.
Qed.

Lemma land_not_mask w x k :
  0 <= k <= w -> 0 <= x < 2 ^ w ->
  Z.land x (Z.lnot (2 ^ k - 1) mod 2 ^ w) = x - x mod 2 ^ k.
Proof.
  intros Hk Hx. replace (2 ^ k - 1) with (Z.ones k) by (rewrite Z.ones_equiv; lia).
  rewrite <- Z.land_ones by lia. rewrite (Z.land_comm (Z.lnot _)), Z.land_assoc.
  rewrite (Z.land_ones x w), (Z.mod_small x) by lia.
  change (Z.land x (Z.lnot (Z.ones k))) with (Z.ldiff x (Z.ones k)) ||
    rewrite <- Z.ldiff_land.
  rewrite Z.ldiff_ones_r by lia. rewrite Z.shiftl_mul_pow2, Z.shiftr_div_pow2 by lia.
  pose proof (Z.div_mod x (2 ^ k)). lia.
Qed.

(** The smallest multiple of [2^k] that is not below [x]. *)
Definition align_up (k x : Z) : Z := x + (2 ^ k - 1) - (x + (2 ^ k - 1)) mod 2 ^ k.

Lemma align_up_spec k x :
  0 <= k -> align_up k x mod 2 ^ k = 0 /\ x <= align_up k x < x + 2 ^ k.
Proof.
  intros Hk. unfold align_up. assert (0 < 2 ^ k) by lia.
  pose proof (Z.mod_pos_bound (x + (2 ^ k - 1)) (2 ^ k) ltac:(lia)). split; [|lia].
  rewrite Zminus_mod, Z.mod_mod, Z.sub_diag by lia. by apply Z.mod_0_l; lia.
Qed.

Lemma align_up_le k x y :
  0 <= k -> y mod 2 ^ k = 0 -> x <= y -> align_up k x <= y.
Proof.
  intros Hk Hy Hxy. destruct (align_up_spec k x Hk) as [Ha Hb].
  assert (0 < 2 ^ k) by lia.
  apply Z.mod_divide in Hy as [p ->]; [|lia]. apply Z.mod_divide in Ha as [q Hq]; [|lia].
  rewrite Hq in *. destruct (Z.le_gt_cases q p); [nia|]. nia.
Qed.

Lemma align_up_unique k x y :
  0 <= k -> y mod 2 ^ k = 0 -> x <= y < x + 2 ^ k -> align_up k x = y.
Proof.
  intros Hk Hy Hxy. destruct (align_up_spec k x Hk) as [Ha Hb].
  assert (0 < 2 ^ k) by lia.
  apply Z.mod_divide in Hy as [p ->]; [|lia]. apply Z.mod_divide in Ha as [q Hq]; [|lia].
  rewrite Hq in *. f_equal. nia.
Qed.

(** Rounding up as the code does it, [(x + A - 1) & ~(A - 1)]. *)
Lemma align_up_land w k x :
  0 <= k <= w -> 0 <= x -> x + (2 ^ k - 1) < 2 ^ w ->
  Z.land (x + (2 ^ k - 1)) (Z.lnot (2 ^ k - 1) mod 2 ^ w) = align_up k x.
Proof. intros. rewrite land_not_mask by lia. done. Qed.

Lemma mod_le_pow a j k : 0 <= j <= k -> a mod 2 ^ k = 0 -> a mod 2 ^ j = 0.
Proof.
  intros Hjk Ha. apply Z.mod_divide in Ha as [q ->]; [|lia].
  replace k with (k - j + j) by lia. rewrite Z.pow_add_r by lia.
  rewrite Z.mul_assoc. apply Z_mod_mult.
Qed.

(** ** Lemmas on memory *)

Lemma u8_range z : 0 <= u8 z < 256.
Proof. unfold u8. apply Z.mod_pos_bound. lia. Qed.

Lemma u8_small z : 0 <= z < 256 -> u8 z = z.
Proof. intros. unfold u8. by apply Z.mod_small. Qed.

Lemma u64_small z : 0 <= z < 2 ^ 64 -> u64 z = z.
Proof. intros. unfold u64. by apply Z.mod_small. Qed.

Lemma u32_small z : 0 <= z < 2 ^ 32 -> u32 z = z.
Proof. intros. unfold u32. by apply Z.mod_small. Qed.

Lemma i64_small z : - 2 ^ 63 <= z < 2 ^ 63 -> i64 z = z.
Proof. intros. unfold i64. rewrite Z.mod_small; lia. Qed.

Lemma i32_small z : - 2 ^ 31 <= z < 2 ^ 31 -> i32 z = z.
Proof. intros H. unfold i32. rewrite Z.mod_small by lia. lia. Qed.

Lemma u64_range z : 0 <= u64 z < 2 ^ 64.
Proof. unfold u64. apply Z.mod_pos_bound. lia. Qed.

Lemma peek_poke_eq m a v : peek (poke m a v) a = u8 v.
Proof. unfold peek, poke; cbn. by rewrite lookup_insert_eq. Qed.

Lemma peek_poke_ne m a b v : a <> b -> peek (poke m a v) b = peek m b.
Proof. intros. unfold peek, poke; cbn. by rewrite lookup_insert_ne. Qed.

Lemma mem_wf_poke m a v : mem_wf m -> mem_wf (poke m a v).
Proof.
  intros Hwf b. destruct (decide (a = b)) as [->|].
  - rewrite peek_poke_eq. apply u8_range.
  - by rewrite peek_poke_ne.
Qed.

Lemma mem_wf_fresh rs : mem_wf (Mem rs ∅).
Proof. intros a. unfold peek. cbn [bytes]. rewrite lookup_empty. cbn. lia. Qed.

Lemma mapped_poken n m a v : mapped (poken n m a v) = mapped m.
Proof. revert m a v. induction n; intros; cbn; [done|]. by rewrite IHn. Qed.

Lemma mapped_at_poken n m a v b : mapped_at (poken n m a v) b = mapped_at m b.
Proof. unfold mapped_at. by rewrite mapped_poken. Qed.

Lemma mem_wf_poken n m a v : mem_wf m -> mem_wf (poken n m a v).
Proof. revert m a v. induction n; intros; cbn; auto using mem_wf_poke. Qed.

Lemma peek_poken_ne n m a v b :
  b < a \/ a + Z.of_nat n <= b -> peek (poken n m a v) b = peek m b.
Proof.
  revert m a v. induction n as [|n IH]; intros m a v Hb; cbn; [done|].
  rewrite IH by lia. apply peek_poke_ne. lia.
Qed.

Lemma peekn_ext n m m' a :
  (forall i, 0 <= i < Z.of_nat n -> peek m' (a + i) = peek m (a + i)) ->
  peekn n m' a = peekn n m a.
Proof.
  revert a. induction n as [|n IH]; intros a H; cbn; [done|].
  specialize (H 0) as H0. rewrite Z.add_0_r in H0. rewrite H0 by lia.
  rewrite IH; [done|]. intros i Hi.
  replace (a + 1 + i) with (a + (1 + i)) by lia. apply H. lia.
Qed.

Lemma peekn_poken_ne n k m a v b :
  apart a (Z.of_nat n) b (Z.of_nat k) -> peekn k (poken n m a v) b = peekn k m b.
Proof.
  intros H. apply peekn_ext. intros i Hi. apply peek_poken_ne.
  unfold apart in H. lia.
Qed.

Lemma peekn_poken_eq n m a v : peekn n (poken n m a v) a = v mod 256 ^ Z.of_nat n.
Proof.
  revert m a v. induction n as [|n IH]; intros m a v.
  - cbn. by rewrite Z.mod_1_r.
  - cbn [peekn poken]. rewrite IH, peek_poken_ne, peek_poke_eq by lia.
    rewrite Nat2Z.inj_succ, Z.pow_succ_r by lia.
    rewrite Z.rem_mul_r by lia. reflexivity.
Qed.

Lemma peekn_range n m a : mem_wf m -> 0 <= peekn n m a < 256 ^ Z.of_nat n.
Proof.
  intros Hwf. revert a. induction n as [|n IH]; intros a; [cbn; lia|].
  cbn [peekn]. rewrite Nat2Z.inj_succ, Z.pow_succ_r by lia.
  specialize (IH (a + 1)). specialize (Hwf a). lia.
Qed.

Lemma loadn_mapped n m a :
  range_mapped m a (Z.of_nat n) -> loadn n m a = Ret (peekn n m a).
Proof.
  revert a. induction n as [|n IH]; intros a H; cbn; [done|].
  unfold load8. specialize (H 0) as H0. rewrite Z.add_0_r in H0.
  rewrite H0 by lia. cbn. rewrite IH; [done|]. intros i Hi.
  replace (a + 1 + i) with (a + (1 + i)) by lia. apply H. lia.
Qed.

Lemma storen_mapped n m a v :
  range_mapped m a (Z.of_nat n) -> storen n m a v = Ret (poken n m a v).
Proof.
  revert m a v. induction n as [|n IH]; intros m a v H; cbn; [done|].
  unfold store8. specialize (H 0) as H0. rewrite Z.add_0_r in H0.
  rewrite H0 by lia. cbn. apply IH. intros i Hi.
  unfold mapped_at, poke; cbn. replace (a + 1 + i) with (a + (1 + i)) by lia.
  apply H. lia.
Qed.

Lemma load8_mapped m a : mapped_at m a = true -> load8 m a = Ret (peek m a).
Proof. unfold load8. by intros ->. Qed.

Lemma store8_mapped m a v : mapped_at m a = true -> store8 m a v = Ret (poke m a v).
Proof. unfold store8. by intros ->. Qed.

Lemma range_mapped_sub m a n b k :
  range_mapped m a n -> a <= b -> b + k <= a + n -> range_mapped m b k.
Proof.
  intros H ?? i Hi. replace (b + i) with (a + (b - a + i)) by lia. apply H. lia.
Qed.

Lemma range_mapped_poken n m a v b k :
  range_mapped m b k -> range_mapped (poken n m a v) b k.
Proof. intros H i Hi. rewrite mapped_at_poken. by apply H. Qed.

Lemma mapped_at_cons r rs bs a :
  mapped_at (Mem (r :: rs) bs) a = in_range a r || mapped_at (Mem rs bs) a.
Proof. done. Qed.

(** *** Writing and reading runs of bytes *)

Lemma mapped_poke_list m a bs : mapped (poke_list m a bs) = mapped m.
Proof. revert m a. induction bs as [|b bs IH]; intros; cbn; [done|]. by rewrite IH. Qed.

Lemma mapped_at_poke_list m a bs x : mapped_at (poke_list m a bs) x = mapped_at m x.
Proof. unfold mapped_at. by rewrite mapped_poke_list. Qed.

Lemma mem_wf_poke_list m a bs : mem_wf m -> mem_wf (poke_list m a bs).
Proof. revert m a. induction bs; intros; cbn; auto using mem_wf_poke. Qed.

Lemma peek_poke_list_ne m a bs x :
  x < a \/ a + Z.of_nat (length bs) <= x -> peek (poke_list m a bs) x = peek m x.
Proof.
  revert m a. induction bs as [|b bs IH]; intros m a Hx; cbn in *; [done|].
  rewrite IH by lia. apply peek_poke_ne. lia.
Qed.

Lemma peek_poke_list_eq m a bs i b :
  bs !! i = Some b -> peek (poke_list m a bs) (a + Z.of_nat i) = u8 b.
Proof.
  revert m a i. induction bs as [|c bs IH]; intros m a [|i] Hi; cbn [poke_list]; try done.
  - injection Hi as ->. rewrite Z.add_0_r, peek_poke_list_ne by lia. apply peek_poke_eq.
  - rewrite Nat2Z.inj_succ. replace (a + Z.succ (Z.of_nat i)) with (a + 1 + Z.of_nat i) by lia.
    by apply IH.
Qed.

Lemma poke_list_app m a bs cs :
  poke_list m a (bs ++ cs) = poke_list (poke_list m a bs) (a + Z.of_nat (length bs)) cs.
Proof.
  revert m a. induction bs as [|b bs IH]; intros m a; cbn.
  - by rewrite Z.add_0_r.
  - rewrite IH. f_equal. lia.
Qed.

Lemma length_peeks n m a : length (peeks n m a) = n.
Proof. revert a. induction n; intros; cbn; auto. Qed.

Lemma lookup_peeks n m a i : (i < n)%nat -> peeks n m a !! i = Some (peek m (a + Z.of_nat i)).
Proof.
  revert a i. induction n as [|n IH]; intros a [|i] Hi; cbn; try lia.
  - by rewrite Z.add_0_r.
  - rewrite IH by lia. do 2 f_equal. lia.
Qed.

Lemma peeks_ext n m m' a :
  (forall i, 0 <= i < Z.of_nat n -> peek m' (a + i) = peek m (a + i)) ->
  peeks n m' a = peeks n m a.
Proof.
  revert a. induction n as [|n IH]; intros a H; cbn; [done|].
  specialize (H 0) as H0. rewrite Z.add_0_r in H0. rewrite H0 by lia. f_equal.
  apply IH. intros i Hi. replace (a + 1 + i) with (a + (1 + i)) by lia. apply H. lia.
Qed.

Lemma peeks_poke_list m a bs :
  Forall (fun b => 0 <= b < 256) bs -> peeks (length bs) (poke_list m a bs) a = bs.
Proof.
  intros Hb. apply list_eq. intros i. destruct (decide (i < length bs)%nat).
  - rewrite lookup_peeks by done. destruct (lookup_lt_is_Some_2 bs i) as [b Hi]; [done|].
    rewrite Hi. f_equal. rewrite (peek_poke_list_eq _ _ _ _ b) by done.
    apply u8_small. eapply Forall_lookup_1 in Hb; eauto.
  - rewrite !lookup_ge_None_2; [done|lia|rewrite length_peeks; lia].
Qed.

Lemma range_mapped_tl m a n :
  0 <= n -> range_mapped m a (n + 1) -> mapped_at m a = true /\ range_mapped m (a + 1) n.
Proof.
  intros Hn H. split.
  - specialize (H 0). rewrite Z.add_0_r in H. apply H. lia.
  - eapply range_mapped_sub; eauto; lia.
Qed.

(** *** Strings in memory *)

Lemma cstr_mapped m a bs : cstr m a bs -> range_mapped m a (Z.of_nat (length bs) + 1).
Proof.
  revert a. induction bs as [|b bs IH]; intros a; cbn [cstr length].
  - intros [H _] i Hi. replace (a + i) with a by (cbn in Hi; lia). done.
  - intros (Hm & _ & _ & H) i Hi. destruct (decide (i = 0)) as [->|].
    + by rewrite Z.add_0_r.
    + replace (a + i) with (a + 1 + (i - 1)) by lia. eapply IH; [done|lia].
Qed.

Lemma cstr_ext m m' a bs :
  mapped m' = mapped m ->
  (forall i, 0 <= i <= Z.of_nat (length bs) -> peek m' (a + i) = peek m (a + i)) ->
  cstr m a bs -> cstr m' a bs.
Proof.
  intros Hm. revert a. induction bs as [|b bs IH]; intros a Hp; cbn [cstr length] in *;
    specialize (Hp 0) as H0; rewrite Z.add_0_r in H0;
    unfold mapped_at in *; rewrite Hm, H0 by lia.
  - done.
  - intros (? & ? & ? & H). repeat split; try done. apply IH; [|done].
    intros i Hi. replace (a + 1 + i) with (a + (1 + i)) by lia. apply Hp. lia.
Qed.

Lemma cstr_same m m' a bs :
  (forall i, 0 <= i <= Z.of_nat (length bs) ->
     mapped_at m' (a + i) = true /\ peek m' (a + i) = peek m (a + i)) ->
  cstr m a bs -> cstr m' a bs.
Proof.
  revert a. induction bs as [|b bs IH]; intros a Hp; cbn [cstr length] in *;
    destruct (Hp 0) as [H0 H1]; [lia| |lia|]; rewrite Z.add_0_r in H0, H1; rewrite H0, H1.
  - by intros [_ ?].
  - intros (_ & ? & ? & Hc). split_and!; [done..|]. apply IH; [|done].
    intros i Hi. replace (a + 1 + i) with (a + (i + 1)) by lia. apply Hp. lia.
Qed.

Lemma cstr_poke_ne m a bs x v :
  cstr m a bs -> x < a \/ a + Z.of_nat (length bs) < x -> cstr (poke m x v) a bs.
Proof.
  intros H Hx. apply (cstr_ext m); [done| |done]. intros i Hi. apply peek_poke_ne. lia.
Qed.

Lemma cstr_app m a bs cs : cstr m a (bs ++ cs) -> cstr m (a + Z.of_nat (length bs)) cs.
Proof.
  revert a. induction bs as [|b bs IH]; intros a; cbn [app cstr length].
  - by rewrite Z.add_0_r.
  - intros (_ & _ & _ & H). rewrite Nat2Z.inj_succ.
    replace (a + Z.succ (Z.of_nat (length bs))) with (a + 1 + Z.of_nat (length bs)) by lia. auto.
Qed.

Lemma cstr_poke_list m a bs :
  Forall (fun b => 0 < b < 256) bs ->
  range_mapped m a (Z.of_nat (length bs) + 1) ->
  cstr (poke_list m a (bs ++ [0])) a bs.
Proof.
  intros Hb. revert m a. induction Hb as [|b bs Hb Hbs IH]; intros m a Hm; cbn in *.
  - apply range_mapped_tl in Hm as [Hm _]; [|lia]. split; [done|].
    by rewrite peek_poke_eq.
  - apply range_mapped_tl in Hm as [Hm Hm']; [|lia].
    rewrite mapped_at_poke_list, peek_poke_list_ne by lia.
    rewrite peek_poke_eq, u8_small by lia. repeat split; try done; [lia|].
    apply IH. intros i Hi. unfold mapped_at, poke; cbn. apply Hm'. lia.
Qed.

Lemma cstr_bytes m a bs :
  mem_wf m -> cstr m a bs -> Forall (fun b => 0 < b < 256) bs.
Proof.
  intros Hwf. revert a. induction bs as [|b bs IH]; intros a; cbn; [done|].
  intros (_ & <- & Hb & H). constructor; [specialize (Hwf a); lia|eauto].
Qed.

Lemma cstr_unique m a bs cs : cstr m a bs -> cstr m a cs -> bs = cs.
Proof.
  revert a cs. induction bs as [|b bs IH]; intros a [|c cs]; cbn; try done.
  - intros [_ H] (_ & H' & H'' & _). congruence.
  - intros (_ & H' & H'' & _) [_ H]. congruence.
  - intros (_ & <- & _ & H1) (_ & <- & _ & H2). f_equal. eauto.
Qed.

#[export] Hint Resolve mem_wf_poke_list length_peeks : cmem.
#[export] Hint Rewrite mapped_poke_list mapped_at_poke_list length_peeks : cmem.
#[export] Hint Resolve u8_range u64_range mem_wf_poke mem_wf_poken range_mapped_poken : cmem.
#[export] Hint Rewrite mapped_poken mapped_at_poken peek_poke_eq peekn_poken_eq : cmem.
