(* ===== verification/Libc.v ===== *)
(** * The stub C library

    [franken/libc]: the string and memory routines, [atoi], [getenv] and the
    [atexit] handlers that the rest of the system is linked against.  Each
    routine is a function on the byte memory of [Prelude]; a loop without a
    bound of its own takes fuel, and every result below is stated for any fuel
    that is larger than the length of the string read. *)

From S2P Require Import Prelude.
From Stdlib Require Import ZArith Lia String.
From stdpp Require Import base numbers list gmap.
Local Open Scope Z_scope.

(** ** Strings *)

Module Str.

(** strlen.c *)
Fixpoint strlen_loop (fuel : nat) (m : mem) (s len : Z) : outcome Z :=
  match fuel with
  | O => NoFuel
  | S fuel =>
      c ← load8 m s;
      if c =? 0 then Ret len else strlen_loop fuel m (s + 1) (u64 (len + 1))
  end.

Definition strlen (fuel : nat) (m : mem) (s : Z) : outcome Z := strlen_loop fuel m s 0.

(** strchr.c: the address of the first [c], 0 for NULL. *)
Fixpoint strchr_loop (fuel : nat) (m : mem) (ls lc : Z) : outcome Z :=
  match fuel with
  | O => NoFuel
  | S fuel =>
      x ← load8 m ls;
      if x =? 0 then Ret (if lc =? 0 then ls else 0)
      else if x =? lc then Ret ls
      else strchr_loop fuel m (ls + 1) lc
  end.

Definition strchr (fuel : nat) (m : mem) (s c : Z) : outcome Z :=
  strchr_loop fuel m s (u8 c).

(** strcmp.c *)
Fixpoint strcmp (fuel : nat) (m : mem) (u1 u2 : Z) : outcome Z :=
  match fuel with
  | O => NoFuel
  | S fuel =>
      x ← load8 m u1; y ← load8 m u2;
      if negb (x =? 0) && negb (y =? 0) && (x =? y)
      then strcmp fuel m (u1 + 1) (u2 + 1)
      else Ret (x - y)
  end.

(** strncmp.c: the counter is decremented before it is tested. *)
Fixpoint strncmp (fuel : nat) (m : mem) (u1 u2 n : Z) : outcome Z :=
  match fuel with
  | O => NoFuel
  | S fuel =>
      let n := u64 (n - 1) in
      x ← load8 m u1; y ← load8 m u2;
      if negb (n =? 0) && negb (x =? 0) && negb (y =? 0) && (x =? y)
      then strncmp fuel m (u1 + 1) (u2 + 1) n
      else Ret (x - y)
  end.

(** strcpy.c *)
Fixpoint strcpy_loop (fuel : nat) (m : mem) (i src : Z) : outcome mem :=
  match fuel with
  | O => NoFuel
  | S fuel =>
      c ← load8 m src; m ← store8 m i c;
      if c =? 0 then Ret m else strcpy_loop fuel m (i + 1) (src + 1)
  end.

Definition strcpy (fuel : nat) (m : mem) (dest src : Z) : outcome (Z * mem) :=
  m ← strcpy_loop fuel m dest src; Ret (dest, m).

(** strncpy.c *)
Fixpoint strncpy_loop (n : nat) (m : mem) (d src : Z) : outcome mem :=
  match n with
  | O => Ret m
  | S n =>
      c ← load8 m src;
      if negb (c =? 0)
      then m ← store8 m d c; strncpy_loop n m (d + 1) (src + 1)
      else m ← store8 m d 0; strncpy_loop n m (d + 1) src
  end.

Definition strncpy (m : mem) (dest src n : Z) : outcome (Z * mem) :=
  m ← strncpy_loop (Z.to_nat n) m dest src; Ret (dest, m).

(** memcpy.c *)
Fixpoint memcpy_loop (n : nat) (m : mem) (d s : Z) : outcome mem :=
  match n with
  | O => Ret m
  | S n => c ← load8 m s; m ← store8 m d c; memcpy_loop n m (d + 1) (s + 1)
  end.

Definition memcpy (m : mem) (dest src n : Z) : outcome (Z * mem) :=
  m ← memcpy_loop (Z.to_nat n) m dest src; Ret (dest, m).

(** memset.c *)
Fixpoint memset_loop (n : nat) (m : mem) (d c : Z) : outcome mem :=
  match n with
  | O => Ret m
  | S n => m ← store8 m d c; memset_loop n m (d + 1) c
  end.

Definition memset (m : mem) (dest c n : Z) : outcome (Z * mem) :=
  m ← memset_loop (Z.to_nat n) m dest c; Ret (dest, m).

(** vsnprintf.c: the stub copies a fixed message, whose literal is at [msg]. *)
Definition vsnprintf (fuel : nat) (m : mem) (msg str size : Z) : outcome (Z * mem) :=
  '(_, m) ← strncpy m str msg size;
  l ← strlen fuel m msg;
  Ret (i32 (if u64 (l + 1) <? size then u64 (l + 1) else size), m).

(** atoi.c *)
Definition isspace (c : Z) : bool := (c =? 32) || ((9 <=? c) && (c <=? 13)).

Definition isdigit (c : Z) : bool := (48 <=? c) && (c <=? 57).

Fixpoint atoi_skip (fuel : nat) (m : mem) (str : Z) : outcome Z :=
  match fuel with
  | O => NoFuel
  | S fuel =>
      c ← load8 m str;
      if isspace c then atoi_skip fuel m (str + 1) else Ret str
  end.

Fixpoint atoi_digits (fuel : nat) (m : mem) (str pos ret : Z) : outcome Z :=
  match fuel with
  | O => NoFuel
  | S fuel =>
      c ← load8 m str;
      if isdigit c then
        ret ← int32 (ret * 10);
        ret ← int32 (ret + pos * (c - 48));
        atoi_digits fuel m (str + 1) pos ret
      else Ret ret
  end.

Definition atoi (fuel : nat) (m : mem) (str : Z) : outcome Z :=
  str ← atoi_skip fuel m str;
  c ← load8 m str;
  if c =? 45 then atoi_digits fuel m (str + 1) (-1) 0
  else atoi_digits fuel m str 1 0.

(** getenv.c: the result pointer (0 for NULL) and the new value of [errno],
    if it is set. *)
Fixpoint getenv_loop (fuel sfuel : nat) (m : mem) (p name len : Z) : outcome Z :=
  match fuel with
  | O => NoFuel
  | S fuel =>
      e ← load64 m p;
      if e =? 0 then Ret 0
      else
        r ← strncmp sfuel m e name len;
        if negb (r =? 0) then getenv_loop fuel sfuel m (p + 8) name len
        else
          c ← load8 m (e + len);
          if negb (c =? 61) then getenv_loop fuel sfuel m (p + 8) name len
          else Ret (e + len + 1)
  end.

Definition getenv (fuel : nat) (m : mem) (environ name : Z) : outcome (Z * option Z) :=
  len ← strlen fuel m name;
  q ← strchr fuel m name 61;
  if negb (q =? 0) then Ret (0, Some EINVAL)
  else r ← getenv_loop fuel fuel m environ name len; Ret (r, None).

(** *** Reference definitions on byte strings *)

(** The sign of the first difference, a missing byte counting as 0. *)
Fixpoint cmp_bytes (a b : list Z) : Z :=
  match a, b with
  | [], [] => 0
  | x :: _, [] => x
  | [], y :: _ => - y
  | x :: a, y :: b => if x =? y then cmp_bytes a b else x - y
  end.

Inductive lex_lt : list Z -> list Z -> Prop :=
  | lex_nil y b : lex_lt [] (y :: b)
  | lex_here x y a b : x < y -> lex_lt (x :: a) (y :: b)
  | lex_there x a b : lex_lt a b -> lex_lt (x :: a) (x :: b).

(** The decimal value of a digit string. *)
Fixpoint dec_value (acc : Z) (ds : list Z) : Z :=
  match ds with
  | [] => acc
  | d :: ds => dec_value (acc * 10 + (d - 48)) ds
  end.

(** [atoi] of a byte string. *)
Fixpoint skip_spaces (bs : list Z) : list Z :=
  match bs with
  | c :: bs' => if isspace c then skip_spaces bs' else bs
  | [] => []
  end.

Fixpoint digits_from (pos ret : Z) (bs : list Z) : outcome Z :=
  match bs with
  | c :: bs =>
      if isdigit c then
        ret ← int32 (ret * 10);
        ret ← int32 (ret + pos * (c - 48));
        digits_from pos ret bs
      else Ret ret
  | [] => Ret ret
  end.

Definition atoi_bytes (bs : list Z) : outcome Z :=
  match skip_spaces bs with
  | 45 :: bs => digits_from (-1) 0 bs
  | bs => digits_from 1 0 bs
  end.

(** What printf's [%d] writes for a number. *)
Fixpoint print_nat (fuel : nat) (n : Z) : list Z :=
  match fuel with
  | O => []
  | S fuel => (if n <? 10 then [] else print_nat fuel (n / 10)) ++ [48 + n mod 10]
  end.

Definition print_dec (n : Z) : list Z :=
  if n <? 0 then 45 :: print_nat 20 (- n) else print_nat 20 n.

(** What [strncpy] leaves in an array of [n] bytes. *)
Definition strncpy_bytes (n : nat) (s : list Z) : list Z := take n s ++ repeat 0 (n - length s).

(** The value of an environment entry [name=value]. *)
Fixpoint env_value (name entry : list Z) : option (list Z) :=
  match name, entry with
  | [], 61 :: v => Some v
  | x :: name, y :: entry => if x =? y then env_value name entry else None
  | _, _ => None
  end.

(** The environment array: pointers to strings, closed by NULL. *)
Fixpoint env_at (m : mem) (p : Z) (env : list (Z * list Z)) : Prop :=
  range_mapped m p 8 /\
  match env with
  | [] => peekn 8 m p = 0
  | (e, s) :: env => peekn 8 m p = e /\ e <> 0 /\ cstr m e s /\ env_at m (p + 8) env
  end.

Fixpoint env_find (name : list Z) (env : list (Z * list Z)) : Z :=
  match env with
  | [] => 0
  | (e, s) :: env =>
      match env_value name s with
      | Some _ => e + Z.of_nat (length name) + 1
      | None => env_find name env
      end
  end.

End Str.

(** ** Exit handlers (exit.c) *)

Module AtExit.
Section Handlers.
Variable fn : Type.

Definition COUNT : Z := 34.

Record handlers : Type := Handlers { n : Z; f : list (option fn) }.

Definition empty_handlers : handlers := {| n := 0; f := replicate 34 None |}.

(** The return value and [errno] when it is set. *)
Definition atexit (function : fn) (h : handlers) : Z * option Z * handlers :=
  if n h =? COUNT then (-1, Some ENOMEM, h)
  else (0, None, {| n := n h + 1; f := <[Z.to_nat (n h) := Some function]> (f h) |}).

(** A handler is the program's own code: the only effect on this state is a
    sequence of further registrations. *)
Variable registers : fn -> list fn.

Definition run_handler (g : fn) (h : handlers) : handlers :=
  fold_left (fun h g => (atexit g h).2) (registers g) h.

(** [exit]: the handlers called, in order, then the status given to [_exit]. *)
Fixpoint exit_loop (fuel : nat) (h : handlers) (trace : list fn) : outcome (list fn * handlers) :=
  match fuel with
  | O => NoFuel
  | S fuel =>
      if 0 <? n h then
        match f h !! Z.to_nat (n h - 1) with
        | Some (Some g) =>
            let h := {| n := n h - 1; f := f h |} in
            exit_loop fuel (run_handler g h) (trace ++ [g])
        | _ => UB
        end
      else Ret (trace, h)
  end.

Definition exit (fuel : nat) (status : Z) (h : handlers) : outcome (list fn * Z) :=
  '(trace, _) ← exit_loop fuel h []; Ret (trace, status).

(** The handlers hold exactly the functions [l], oldest first. *)
Definition holds (h : handlers) (l : list fn) : Prop :=
  n h = Z.of_nat (length l) /\ length (f h) = 34%nat /\
  forall i g, l !! i = Some g -> f h !! i = Some (Some g).

End Handlers.
Arguments n {fn} _.
Arguments f {fn} _.
Arguments atexit {fn} function h.
Arguments exit {fn} registers fuel status h.
Arguments exit_loop {fn} registers fuel h trace.
Arguments run_handler {fn} registers g h.
Arguments holds {fn} h l.
Arguments empty_handlers {fn}.
End AtExit.

(** ** Facts: reading strings *)

Module StrFacts.
Import Str.

(** Step through the load that the goal starts with. *)
Ltac load_step :=
  match goal with
  | H : mapped_at ?m ?a = true |- context [load8 ?m ?a] =>
      rewrite (load8_mapped m a H); cbn [mbind outcome_bind]
  end.

Lemma strlen_loop_spec fuel m s bs len :
  cstr m s bs -> (length bs < fuel)%nat -> 0 <= len -> len + Z.of_nat (length bs) < 2 ^ 64 ->
  strlen_loop fuel m s len = Ret (len + Z.of_nat (length bs)).
Proof.
  revert fuel s len. induction bs as [|b bs IH]; intros [|fuel] s len Hs Hf H0 Hl;
    cbn [length] in *; try lia; cbn [strlen_loop cstr] in *.
  - destruct Hs as [Hm Hp]. load_step. rewrite Hp. cbn. f_equal. lia.
  - destruct Hs as (Hm & Hp & Hnz & Hs). load_step.
    rewrite Hp. apply Z.eqb_neq in Hnz as ->.
    rewrite u64_small by lia. rewrite IH by (done || lia). f_equal. lia.
Qed.

Lemma strlen_eq fuel m s bs :
  cstr m s bs -> (length bs < fuel)%nat -> Z.of_nat (length bs) < 2 ^ 64 ->
  strlen fuel m s = Ret (Z.of_nat (length bs)).
Proof. intros. unfold strlen. rewrite (strlen_loop_spec _ _ _ bs); (done || lia). Qed.

Lemma strchr_loop_absent fuel m s bs c :
  cstr m s bs -> (length bs < fuel)%nat -> c <> 0 -> c ∉ bs ->
  strchr_loop fuel m s c = Ret 0.
Proof.
  revert fuel s. induction bs as [|b bs IH]; intros [|fuel] s Hs Hf Hc Hin;
    cbn [length] in *; try lia; cbn [strchr_loop cstr] in *.
  - destruct Hs as [Hm Hp]. load_step. rewrite Hp. cbn.
    by apply Z.eqb_neq in Hc as ->.
  - destruct Hs as (Hm & Hp & Hnz & Hs). load_step.
    apply not_elem_of_cons in Hin as [Hbc Hin]. rewrite Hp.
    apply Z.eqb_neq in Hnz as ->. assert ((b =? c) = false) as -> by (apply Z.eqb_neq; congruence).
    apply IH; (done || lia).
Qed.

Lemma strchr_loop_found fuel m s pre post c :
  cstr m s (pre ++ c :: post) -> (length pre < fuel)%nat -> c ∉ pre ->
  strchr_loop fuel m s c = Ret (s + Z.of_nat (length pre)).
Proof.
  revert fuel s. induction pre as [|b pre IH]; intros [|fuel] s Hs Hf Hin;
    cbn [length app] in *; try lia; cbn [strchr_loop cstr] in *;
    destruct Hs as (Hm & Hp & Hnz & Hs); load_step; rewrite Hp;
    apply Z.eqb_neq in Hnz as ->.
  - rewrite Z.eqb_refl. by rewrite Z.add_0_r.
  - apply not_elem_of_cons in Hin as [Hbc Hin].
    assert ((b =? c) = false) as -> by (apply Z.eqb_neq; congruence).
    rewrite IH by (done || lia). f_equal. lia.
Qed.

(** *** Comparison *)

(** The branch condition of the two comparison loops. *)
Ltac cmp_branch :=
  cbn [mbind outcome_bind];
  repeat match goal with
  | |- context [?x =? ?y] => let E := fresh "E" in destruct (x =? y) eqn:E
  end; to_prop; cbn [negb andb]; subst.

Lemma strcmp_eq fuel m u1 u2 a b :
  cstr m u1 a -> cstr m u2 b -> (length a < fuel)%nat ->
  strcmp fuel m u1 u2 = Ret (cmp_bytes a b).
Proof.
  revert fuel u1 u2 b. induction a as [|x a IH]; intros [|fuel] u1 u2 [|y b] H1 H2 Hf;
    cbn [length] in *; try lia; cbn [strcmp cstr cmp_bytes] in *; destruct_and?;
    repeat load_step; simplify_eq.
  - by replace (peek m u1) with 0 by lia; replace (peek m u2) with 0 by lia.
  - replace (peek m u1) with 0 by lia. done.
  - replace (peek m u2) with 0 by lia. rewrite andb_false_r. cbn. f_equal. lia.
  - cmp_branch; try congruence. apply IH; (done || lia).
Qed.

Lemma strncmp_eq fuel m u1 u2 n a b :
  cstr m u1 a -> cstr m u2 b -> (length a < fuel)%nat -> 1 <= n < 2 ^ 64 ->
  strncmp fuel m u1 u2 n = Ret (cmp_bytes (take (Z.to_nat n) a) (take (Z.to_nat n) b)).
Proof.
  revert fuel u1 u2 b n. induction a as [|x a IH]; intros [|fuel] u1 u2 [|y b] n H1 H2 Hf Hn;
    cbn [length] in *; try lia; cbn [strncmp cstr] in *; destruct_and?;
    repeat load_step; simplify_eq;
    (assert (Hk : Z.to_nat n = S (Z.to_nat (n - 1))) by lia); rewrite Hk;
    rewrite u64_small by lia; cbn [take cmp_bytes].
  - replace (peek m u1) with 0 by lia. replace (peek m u2) with 0 by lia.
    by rewrite andb_false_r.
  - replace (peek m u1) with 0 by lia. by rewrite andb_false_r.
  - replace (peek m u2) with 0 by lia. rewrite andb_false_r. cbn. f_equal. lia.
  - cmp_branch; try congruence; try lia.
    + by rewrite E, E2, Z.sub_diag.
    + apply IH; (done || lia).
Qed.

(** With a count of 0 the first decrement wraps and the whole strings are
    compared. *)
Lemma strncmp_wraps fuel m u1 u2 a b :
  cstr m u1 a -> cstr m u2 b -> (length a < fuel)%nat ->
  Z.of_nat (length a) < 2 ^ 64 - 1 -> Z.of_nat (length b) < 2 ^ 64 - 1 ->
  strncmp fuel m u1 u2 0 = Ret (cmp_bytes a b).
Proof.
  intros H1 H2 Hf Ha Hb. destruct fuel as [|fuel]; [lia|].
  cbn [strncmp]. change (u64 (0 - 1)) with (2 ^ 64 - 1).
  destruct a as [|x a], b as [|y b]; cbn [cstr length] in *; destruct_and?;
    repeat load_step; simplify_eq; cbn [cmp_bytes].
  - replace (peek m u1) with 0 by lia. replace (peek m u2) with 0 by lia. done.
  - by replace (peek m u1) with 0 by lia.
  - replace (peek m u2) with 0 by lia. rewrite andb_false_r. cbn. f_equal. lia.
  - cmp_branch; try congruence; try lia.
    rewrite (strncmp_eq _ _ _ _ _ a b) by (done || lia).
    rewrite !firstn_all2 by lia. done.
Qed.

Lemma cmp_bytes_eq0 a b :
  Forall (fun x => 0 < x < 256) a -> Forall (fun x => 0 < x < 256) b ->
  cmp_bytes a b = 0 <-> a = b.
Proof.
  revert b. induction a as [|x a IH]; intros [|y b] Ha Hb; cbn; try done.
  - apply Forall_cons in Hb as [? _]. split; [lia|done].
  - apply Forall_cons in Ha as [? _]. split; [lia|done].
  - apply Forall_cons in Ha as [? ?]. apply Forall_cons in Hb as [? ?].
    case_cmp; [subst; rewrite IH by done|]; split; intros; simplify_eq; try done; lia.
Qed.

Lemma cmp_bytes_lt a b :
  Forall (fun x => 0 < x < 256) a -> Forall (fun x => 0 < x < 256) b ->
  cmp_bytes a b < 0 <-> lex_lt a b.
Proof.
  revert b. induction a as [|x a IH]; intros [|y b] Ha Hb; cbn;
    try apply Forall_cons in Ha as [? ?]; try apply Forall_cons in Hb as [? ?].
  - split; [lia|inversion 1].
  - split; [constructor|lia].
  - split; [lia|inversion 1].
  - case_cmp; subst.
    + rewrite IH by done. split; [by constructor|inversion 1; [lia|done]].
    + split; [intros; apply lex_here; lia|inversion 1; lia].
Qed.

End StrFacts.

(** ** Facts: copying *)

Module CopyFacts.
Import Str.

Lemma memcpy_loop_eq n m d s :
  range_mapped m s (Z.of_nat n) -> range_mapped m d (Z.of_nat n) ->
  apart d (Z.of_nat n) s (Z.of_nat n) -> mem_wf m ->
  memcpy_loop n m d s = Ret (poke_list m d (peeks n m s)).
Proof.
  revert m d s. induction n as [|n IH]; intros m d s Hs Hd Hap Hwf; [done|].
  rewrite Nat2Z.inj_succ in *. unfold Z.succ in *.
  apply range_mapped_tl in Hs as [Hs0 Hs]; [|lia].
  apply range_mapped_tl in Hd as [Hd0 Hd]; [|lia].
  cbn [memcpy_loop peeks poke_list]. rewrite load8_mapped by done.
  cbn [mbind outcome_bind]. rewrite store8_mapped by done. cbn [mbind outcome_bind].
  unfold apart in *. rewrite IH; [|done|done|lia|auto with cmem]. do 2 f_equal.
  apply peeks_ext. intros i Hi. apply peek_poke_ne. lia.
Qed.

Lemma memcpy_eq m d s n :
  0 <= n -> range_mapped m s n -> range_mapped m d n -> apart d n s n -> mem_wf m ->
  memcpy m d s n = Ret (d, poke_list m d (peeks (Z.to_nat n) m s)).
Proof.
  intros Hn ????. unfold memcpy. rewrite memcpy_loop_eq; rewrite ?Z2Nat.id by done; done.
Qed.

Lemma memset_eq m d c n :
  0 <= n -> range_mapped m d n ->
  memset m d c n = Ret (d, poke_list m d (replicate (Z.to_nat n) c)).
Proof.
  intros Hn Hd. unfold memset. rewrite <- (Z2Nat.id n Hn) in Hd.
  generalize dependent (Z.to_nat n). clear n Hn. intros n Hd.
  assert (memset_loop n m d c = Ret (poke_list m d (replicate n c))) as ->; [|done].
  revert m d Hd. induction n as [|n IH]; intros m d Hd; [done|].
  rewrite Nat2Z.inj_succ in Hd. apply range_mapped_tl in Hd as [Hd0 Hd]; [|lia].
  cbn [memset_loop replicate poke_list]. rewrite store8_mapped by done. cbn [mbind outcome_bind].
  by apply IH.
Qed.

Lemma strcpy_loop_eq fuel m d s bs :
  cstr m s bs -> range_mapped m d (Z.of_nat (length bs) + 1) ->
  apart d (Z.of_nat (length bs) + 1) s (Z.of_nat (length bs) + 1) ->
  (length bs < fuel)%nat ->
  strcpy_loop fuel m d s = Ret (poke_list m d (bs ++ [0])).
Proof.
  revert fuel m d s. induction bs as [|b bs IH]; intros [|fuel] m d s Hs Hd Hap Hf;
    cbn [length] in *; try lia; cbn [cstr strcpy_loop app poke_list] in *;
    rewrite ?Nat2Z.inj_succ in Hd; apply range_mapped_tl in Hd as [Hd0 Hd]; try lia.
  - destruct Hs as [Hm Hp]. rewrite load8_mapped by done. cbn [mbind outcome_bind].
    rewrite store8_mapped by done. cbn [mbind outcome_bind]. by rewrite Hp.
  - destruct Hs as (Hm & Hp & Hnz & Hs). rewrite load8_mapped by done. cbn [mbind outcome_bind].
    rewrite store8_mapped by done. cbn [mbind outcome_bind]. rewrite Hp.
    apply Z.eqb_neq in Hnz as ->. unfold apart in *. apply IH; [|done|lia|lia].
    apply cstr_poke_ne; [done|lia].
Qed.

Lemma strcpy_eq fuel m d s bs :
  cstr m s bs -> range_mapped m d (Z.of_nat (length bs) + 1) ->
  apart d (Z.of_nat (length bs) + 1) s (Z.of_nat (length bs) + 1) ->
  (length bs < fuel)%nat ->
  strcpy fuel m d s = Ret (d, poke_list m d (bs ++ [0])).
Proof. intros. unfold strcpy. by rewrite (strcpy_loop_eq _ _ _ _ bs). Qed.

Lemma strncpy_loop_eq n m d s bs :
  cstr m s bs -> range_mapped m d (Z.of_nat n) ->
  apart d (Z.of_nat n) s (Z.of_nat (length bs) + 1) ->
  strncpy_loop n m d s = Ret (poke_list m d (take n (bs ++ replicate n 0))).
Proof.
  revert m d s bs. induction n as [|n IH]; intros m d s bs Hs Hd Hap; [done|].
  rewrite Nat2Z.inj_succ in *. apply range_mapped_tl in Hd as [Hd0 Hd]; [|lia].
  unfold apart in *. destruct bs as [|b bs]; cbn [length cstr strncpy_loop app] in *.
  - destruct Hs as [Hm Hp]. rewrite load8_mapped by done. cbn [mbind outcome_bind].
    rewrite Hp. cbn. rewrite store8_mapped by done. cbn [mbind outcome_bind].
    rewrite (IH _ _ _ []); [| |done|cbn; lia].
    + done.
    + apply (cstr_poke_ne _ _ []); [done|cbn; lia].
  - destruct Hs as (Hm & Hp & Hnz & Hs). rewrite load8_mapped by done. cbn [mbind outcome_bind].
    rewrite Hp. apply Z.eqb_neq in Hnz as Hb. rewrite Hb. cbn [negb].
    rewrite store8_mapped by done. cbn [mbind outcome_bind take poke_list].
    rewrite (IH _ _ _ bs); [|apply cstr_poke_ne; [done|lia]|done|lia].
    do 2 f_equal. rewrite !firstn_app. f_equal. rewrite !take_replicate. f_equal. lia.
Qed.

Lemma strncpy_eq m d s bs n :
  0 <= n -> cstr m s bs -> range_mapped m d n -> apart d n s (Z.of_nat (length bs) + 1) ->
  strncpy m d s n = Ret (d, poke_list m d (take (Z.to_nat n) (bs ++ replicate (Z.to_nat n) 0))).
Proof.
  intros Hn ???. unfold strncpy. rewrite (strncpy_loop_eq _ _ _ _ bs); rewrite ?Z2Nat.id by done; done.
Qed.

End CopyFacts.

(** ** Facts: numbers *)

Module NumFacts.
Import Str StrFacts.

Definition digits (ds : list Z) : Prop := Forall (fun d => 48 <= d <= 57) ds.

Lemma isdigit_true d : 48 <= d <= 57 -> isdigit d = true.
Proof. intros. unfold isdigit. apply andb_true_iff. split; apply Z.leb_le; lia. Qed.

Lemma dec_value_ge acc ds : 0 <= acc -> digits ds -> acc <= dec_value acc ds.
Proof.
  intros Hacc Hd. revert acc Hacc. induction Hd as [|d ds Hd Hds IH]; intros acc Hacc; cbn [dec_value]; [lia|].
  specialize (IH (acc * 10 + (d - 48))). lia.
Qed.

Lemma int32_in z : - 2 ^ 31 <= z < 2 ^ 31 -> int32 z = Ret z.
Proof.
  intros [H1 H2]. unfold int32. apply Z.leb_le in H1 as ->. apply Z.ltb_lt in H2 as ->. done.
Qed.

(** The digit loop computes the decimal value with the sign applied to each
    digit, so the most negative [int] is read without an overflow. *)
Lemma atoi_digits_eq fuel m s pos acc ds rest :
  pos = 1 \/ pos = -1 -> digits ds -> 0 <= acc ->
  (forall c rest', rest = c :: rest' -> isdigit c = false) ->
  cstr m s (ds ++ rest) -> (length ds < fuel)%nat ->
  - 2 ^ 31 <= pos * dec_value acc ds < 2 ^ 31 ->
  atoi_digits fuel m s pos (pos * acc) = Ret (pos * dec_value acc ds).
Proof.
  intros Hpos Hd. revert fuel s acc. induction Hd as [|d ds Hd Hds IH];
    intros [|fuel] s acc Hacc Hrest Hs Hf Hr; cbn [length app] in *; try lia;
    cbn [atoi_digits dec_value] in *.
  - destruct rest as [|c rest]; cbn [cstr] in Hs; destruct_and?; load_step; subst.
    + by replace (peek m s) with 0 by lia.
    + by rewrite (Hrest (peek m s) rest).
  - cbn [cstr] in Hs. destruct_and?. load_step. subst d.
    rewrite isdigit_true by done.
    pose proof (dec_value_ge (acc * 10 + (peek m s - 48)) ds ltac:(lia) Hds).
    rewrite int32_in by (destruct Hpos; subst; lia). cbn [mbind outcome_bind].
    rewrite int32_in by (destruct Hpos; subst; lia). cbn [mbind outcome_bind].
    replace (pos * acc * 10 + pos * (peek m s - 48)) with (pos * (acc * 10 + (peek m s - 48))) by lia.
    apply IH; (done || lia).
Qed.

Lemma atoi_skip_eq fuel m s sp rest :
  Forall (fun c => isspace c = true) sp ->
  (forall c rest', rest = c :: rest' -> isspace c = false) ->
  cstr m s (sp ++ rest) -> (length sp < fuel)%nat ->
  atoi_skip fuel m s = Ret (s + Z.of_nat (length sp)).
Proof.
  intros Hsp. revert fuel s. induction Hsp as [|c sp Hc Hsp IH];
    intros [|fuel] s Hrest Hs Hf; cbn [length app] in *; try lia; cbn [atoi_skip].
  - rewrite Z.add_0_r. destruct rest as [|c rest]; cbn [cstr] in Hs; destruct_and?; load_step; subst.
    + by replace (peek m s) with 0 by lia.
    + by rewrite (Hrest (peek m s) rest).
  - cbn [cstr] in Hs. destruct_and?. load_step. subst c. rewrite Hc.
    rewrite IH by (done || lia). f_equal. lia.
Qed.

(** On a string in memory, [atoi] is [atoi_bytes]. *)
Lemma atoi_digits_bytes fuel m s bs pos ret :
  cstr m s bs -> (length bs < fuel)%nat -> atoi_digits fuel m s pos ret = digits_from pos ret bs.
Proof.
  revert fuel s ret. induction bs as [|c bs IH]; intros [|fuel] s ret Hs Hf; cbn [length] in *; try lia;
    cbn [atoi_digits digits_from cstr] in *; destruct_and?; load_step; subst.
  - by replace (peek m s) with 0 by lia.
  - destruct (isdigit (peek m s)); [|done]. destruct (int32 (ret * 10)); cbn [mbind outcome_bind]; try done.
    destruct (int32 _); cbn [mbind outcome_bind]; try done. apply IH; [done|lia].
Qed.

Lemma atoi_skip_bytes fuel m s bs :
  cstr m s bs -> (length bs < fuel)%nat ->
  exists a, atoi_skip fuel m s = Ret a /\ cstr m a (skip_spaces bs) /\ (length (skip_spaces bs) <= length bs)%nat.
Proof.
  revert fuel s. induction bs as [|c bs IH]; intros [|fuel] s Hs Hf; cbn [length] in *; try lia;
    cbn [atoi_skip skip_spaces]; cbn [cstr] in Hs; destruct_and?; load_step.
  - replace (peek m s) with 0 by lia. exists s. by cbn.
  - subst c. destruct (isspace (peek m s)) eqn:E.
    + destruct (IH fuel (s + 1)) as (a & ? & ? & ?); [done|lia|]. exists a. split_and!; (done || lia).
    + exists s. split_and!; done.
Qed.

Lemma atoi_refines fuel m s bs :
  cstr m s bs -> (length bs < fuel)%nat -> atoi fuel m s = atoi_bytes bs.
Proof.
  intros Hs Hf. destruct (atoi_skip_bytes fuel m s bs Hs Hf) as (a & Ha & Hc & Hl).
  unfold atoi, atoi_bytes. rewrite Ha. cbn [mbind outcome_bind].
  destruct (skip_spaces bs) as [|c bs'] eqn:Eb; cbn [cstr] in Hc; destruct_and?; load_step.
  - replace (peek m a) with 0 by lia. by rewrite (atoi_digits_bytes fuel m a []) by (done || cbn; lia).
  - subst c. destruct (Z.eqb_spec (peek m a) 45) as [->|Hne]; cbn [length] in Hl.
    + apply atoi_digits_bytes; [done|lia].
    + rewrite (atoi_digits_bytes fuel m a (peek m a :: bs')) by (done || cbn; lia).
      destruct (peek m a) as [|q|q]; try done. do 6 (destruct q as [q|q|]; try done).
Qed.

Lemma dec_value_app acc ds d : dec_value acc (ds ++ [d]) = dec_value acc ds * 10 + (d - 48).
Proof. revert acc. induction ds as [|x ds IH]; intros acc; cbn; [done|]. by rewrite IH. Qed.

Lemma print_nat_digits fuel n : 0 <= n -> digits (print_nat fuel n).
Proof.
  revert n. induction fuel as [|fuel IH]; intros n Hn; cbn [print_nat]; [constructor|].
  apply Forall_app. pose proof (Z.mod_pos_bound n 10). split; [|repeat constructor; lia].
  case_cmp; [constructor|]. apply IH. apply Z.div_pos; lia.
Qed.

Lemma print_nat_value fuel n :
  0 <= n < 10 ^ Z.of_nat fuel -> dec_value 0 (print_nat fuel n) = n.
Proof.
  revert n. induction fuel as [|fuel IH]; intros n Hn; cbn [print_nat].
  - cbn in *. lia.
  - rewrite dec_value_app. pose proof (Z.div_mod n 10). case_cmp.
    + rewrite Z.mod_small by lia. cbn. lia.
    + rewrite IH; [lia|]. rewrite Nat2Z.inj_succ, Z.pow_succ_r in Hn by lia.
      split; [apply Z.div_pos; lia|]. apply Z.div_lt_upper_bound; lia.
Qed.

Lemma print_nat_nonempty fuel n : (0 < fuel)%nat -> exists d ds, print_nat fuel n = d :: ds.
Proof.
  destruct fuel as [|fuel]; [lia|]. intros _. cbn [print_nat].
  destruct (if n <? 10 then [] else print_nat fuel (n / 10)) as [|d ds]; cbn; eauto.
Qed.

Lemma digit_not_space d : 48 <= d <= 57 -> isspace d = false.
Proof.
  intros Hd. unfold isspace. apply orb_false_iff. split; [apply Z.eqb_neq; lia|].
  apply andb_false_iff. right. apply Z.leb_gt. lia.
Qed.

Lemma atoi_negative fuel m s sp ds rest :
  Forall (fun c => isspace c = true) sp -> digits ds ->
  (forall c rest', rest = c :: rest' -> isdigit c = false) ->
  cstr m s (sp ++ 45 :: ds ++ rest) -> (length sp + length ds < fuel)%nat ->
  dec_value 0 ds <= 2 ^ 31 ->
  atoi fuel m s = Ret (- dec_value 0 ds).
Proof.
  intros Hsp Hds Hrest Hs Hf Hv. unfold atoi.
  rewrite (atoi_skip_eq _ _ _ sp (45 :: ds ++ rest)); [|done|by intros ?? [= <- _]|done|lia].
  cbn [mbind outcome_bind]. apply cstr_app in Hs. cbn [cstr] in Hs.
  destruct Hs as (Hm & Hp & _ & Hs). load_step. rewrite Hp, Z.eqb_refl.
  pose proof (dec_value_ge 0 ds ltac:(lia) Hds).
  rewrite (atoi_digits_eq _ _ _ (-1) 0 ds rest) by (done || lia || auto).
  f_equal; lia.
Qed.

Lemma atoi_positive fuel m s sp d ds rest :
  Forall (fun c => isspace c = true) sp -> digits (d :: ds) ->
  (forall c rest', rest = c :: rest' -> isdigit c = false) ->
  cstr m s (sp ++ (d :: ds) ++ rest) -> (length sp + length (d :: ds) < fuel)%nat ->
  dec_value 0 (d :: ds) < 2 ^ 31 ->
  atoi fuel m s = Ret (dec_value 0 (d :: ds)).
Proof.
  intros Hsp Hds Hrest Hs Hf Hv. unfold atoi. pose proof Hds as [Hd _]%Forall_cons.
  rewrite (atoi_skip_eq _ _ _ sp ((d :: ds) ++ rest));
    [|done|intros ?? [= <- _]; by apply digit_not_space|done|lia].
  cbn [mbind outcome_bind]. apply cstr_app in Hs.
  pose proof Hs as (Hm & Hp & _ & _). load_step. rewrite Hp.
  assert ((d =? 45) = false) as -> by (apply Z.eqb_neq; lia).
  pose proof (dec_value_ge 0 (d :: ds) ltac:(lia) Hds).
  rewrite (atoi_digits_eq _ _ _ 1 0 (d :: ds) rest) by (done || lia || auto).
  f_equal; lia.
Qed.

Lemma atoi_print_eq fuel m s sp n rest :
  - 2 ^ 31 <= n < 2 ^ 31 ->
  Forall (fun c => isspace c = true) sp ->
  (forall c rest', rest = c :: rest' -> isdigit c = false) ->
  cstr m s (sp ++ print_dec n ++ rest) ->
  (length (sp ++ print_dec n ++ rest) < fuel)%nat ->
  atoi fuel m s = Ret n.
Proof.
  intros Hn Hsp Hrest Hs Hf. rewrite !length_app in Hf. unfold print_dec in *.
  destruct (n <? 0) eqn:E; to_prop.
  - cbn [length] in Hf.
    rewrite (atoi_negative _ _ _ sp (print_nat 20 (- n)) rest); try done; try lia.
    + rewrite print_nat_value by lia. f_equal. lia.
    + apply print_nat_digits. lia.
    + rewrite print_nat_value by lia. lia.
  - pose proof (print_nat_digits 20 n ltac:(lia)) as Hds.
    pose proof (print_nat_value 20 n ltac:(lia)) as Hv.
    destruct (print_nat_nonempty 20 n ltac:(lia)) as (d & ds & Heq).
    rewrite Heq in *. rewrite <- Hv.
    apply (atoi_positive _ _ _ sp d ds rest); try done; lia.
Qed.

(** Reading a printed number. *)
Lemma digits_from_eq ds acc :
  digits ds -> 0 <= acc -> dec_value acc ds < 2 ^ 31 -> digits_from 1 acc ds = Ret (dec_value acc ds).
Proof.
  intros Hd. induction Hd as [|d ds Hd Hds IH] in acc |- *; intros Ha Hv; cbn [digits_from dec_value] in *; [done|].
  rewrite isdigit_true by done.
  pose proof (dec_value_ge (acc * 10 + (d - 48)) ds ltac:(lia) Hds).
  rewrite int32_in by lia. cbn [mbind outcome_bind]. rewrite int32_in by lia.
  cbn [mbind outcome_bind]. rewrite Z.mul_1_l. apply IH; [lia|done].
Qed.

Lemma atoi_bytes_print n :
  0 <= n < 2 ^ 31 -> digits (print_dec n) /\ atoi_bytes (print_dec n) = Ret n /\
  (0 < length (print_dec n) <= 20)%nat.
Proof.
  intros Hn. unfold print_dec. case_cmp; [lia|].
  pose proof (print_nat_digits 20 n ltac:(lia)) as Hd.
  pose proof (print_nat_value 20 n) as Hv.
  destruct (print_nat_nonempty 20 n ltac:(lia)) as (d & ds & Hds).
  split; [done|]. split.
  - unfold atoi_bytes. rewrite Hds in *. apply Forall_cons in Hd as [Hd1 Hd2].
    cbn [skip_spaces]. rewrite digit_not_space by done.
    assert (Hne : d <> 45) by lia.
    assert (Hgen : forall bs, (match d :: bs with 45 :: bs => digits_from (-1) 0 bs | bs => digits_from 1 0 bs end)
                              = digits_from 1 0 (d :: bs)).
    { intros bs. destruct d as [|q|q]; try done. do 6 (destruct q as [q|q|]; try done). }
    rewrite Hgen. rewrite digits_from_eq; [|by constructor|lia|].
    + f_equal. apply Hv; lia.
    + rewrite Hv by lia. lia.
  - rewrite Hds. cbn [length]. split; [lia|].
    assert (Hlen : forall f n, (length (print_nat f n) <= f)%nat).
    { clear. induction f as [|f IH]; intros n; cbn; [lia|]. rewrite length_app. cbn.
      destruct (n <? 10); cbn; [lia|]. specialize (IH (n / 10)). lia. }
    specialize (Hlen 20%nat n). rewrite Hds in Hlen. cbn [length] in Hlen. lia.
Qed.

End NumFacts.

(** ** Facts: the environment *)

Module EnvFacts.
Import Str StrFacts.

Lemma env_value_Some name s v : env_value name s = Some v <-> s = name ++ 61 :: v.
Proof.
  revert s. induction name as [|x name IH]; intros s; cbn [env_value app].
  - destruct s as [|y s]; [done|]. destruct (decide (y = 61)) as [->|Hy].
    + split; congruence.
    + split; [|congruence].
      intros H. exfalso. revert H. by repeat (case_match; try done).
  - destruct s as [|y s]; [done|]. case_cmp; [subst; rewrite IH|]; split; congruence.
Qed.

(** What the two tests of the loop body decide for one entry. *)
Lemma env_test fuel m e s name nm :
  mem_wf m -> cstr m e s -> cstr m name nm -> nm <> [] -> 61 ∉ nm ->
  (length s < fuel)%nat -> Z.of_nat (length nm) < 2 ^ 64 ->
  exists r, strncmp fuel m e name (Z.of_nat (length nm)) = Ret r /\
    match env_value nm s with
    | Some _ => r = 0 /\ load8 m (e + Z.of_nat (length nm)) = Ret 61
    | None => r <> 0 \/ exists c, load8 m (e + Z.of_nat (length nm)) = Ret c /\ c <> 61
    end.
Proof.
  intros Hwf Hs Hnm Hne Heq Hf Hl.
  assert (0 < Z.of_nat (length nm)) by (destruct nm; cbn; [done|lia]).
  exists (cmp_bytes (take (length nm) s) nm). split.
  { rewrite (strncmp_eq _ _ _ _ _ s nm) by (done || lia).
    rewrite Nat2Z.id, (firstn_all2 nm) by lia. done. }
  assert (Hb : cmp_bytes (take (length nm) s) nm = 0 <-> take (length nm) s = nm).
  { apply cmp_bytes_eq0; [apply Forall_take|]; eapply cstr_bytes; eauto. }
  destruct (env_value nm s) as [v|] eqn:Ev.
  - apply env_value_Some in Ev as ->. rewrite take_app_length in *.
    split; [tauto|]. apply cstr_app in Hs. cbn [cstr] in Hs. destruct Hs as (Hm & Hp & _).
    by rewrite load8_mapped, Hp.
  - destruct (decide (take (length nm) s = nm)) as [Ht|Ht]; [|left; tauto].
    right. rewrite <- (take_drop (length nm) s), Ht in Hs, Ev. apply cstr_app in Hs.
    destruct (drop (length nm) s) as [|c s'] eqn:Ed; cbn [cstr] in Hs.
    + destruct Hs as [Hm Hp]. exists 0. by rewrite load8_mapped, Hp.
    + destruct Hs as (Hm & Hp & _ & _). exists c. rewrite load8_mapped, Hp by done.
      split; [done|]. intros ->. assert (env_value nm (nm ++ 61 :: s') = Some s') by (by apply env_value_Some).
      congruence.
Qed.

Lemma getenv_loop_eq fuel sfuel m p env name nm :
  mem_wf m -> env_at m p env -> cstr m name nm -> nm <> [] -> 61 ∉ nm ->
  (length env < fuel)%nat -> Forall (fun es => length es.2 < sfuel)%nat env ->
  Z.of_nat (length nm) < 2 ^ 64 ->
  getenv_loop fuel sfuel m p name (Z.of_nat (length nm)) = Ret (env_find nm env).
Proof.
  intros Hwf Henv Hnm Hne Heq Hf Hall Hl. revert p fuel Henv Hf.
  induction env as [|[e s] env IH]; intros p [|fuel] Henv Hf; cbn [length] in *; try lia;
    cbn [env_at getenv_loop env_find] in *; destruct Henv as [Hm Henv];
    rewrite loadn_mapped by done; cbn [mbind outcome_bind].
  - by rewrite Henv.
  - destruct Henv as (-> & He & Hs & Henv). apply Forall_cons in Hall as [Hsf Hall].
    apply Z.eqb_neq in He as ->.
    destruct (env_test sfuel m e s name nm) as (r & -> & Hr); try done.
    cbn [mbind outcome_bind]. destruct (env_value nm s).
    + destruct Hr as [-> ->]. done.
    + destruct Hr as [Hr|(c & -> & Hc)].
      * apply Z.eqb_neq in Hr as ->. cbn [negb]. apply IH; (done || lia).
      * apply Z.eqb_neq in Hc as Hc'. cbn [mbind outcome_bind]. rewrite Hc'. cbn [negb].
        case_match; apply IH; (done || lia).
Qed.

Lemma getenv_eq fuel m environ env name nm :
  mem_wf m -> env_at m environ env -> cstr m name nm -> nm <> [] -> 61 ∉ nm ->
  (length env < fuel)%nat -> (length nm < fuel)%nat ->
  Forall (fun es => length es.2 < fuel)%nat env -> Z.of_nat (length nm) < 2 ^ 64 ->
  getenv fuel m environ name = Ret (env_find nm env, None).
Proof.
  intros. unfold getenv. rewrite (strlen_eq _ _ _ nm) by done. cbn [mbind outcome_bind].
  unfold strchr. change (u8 61) with 61. rewrite (strchr_loop_absent _ _ _ nm) by done.
  cbn [mbind outcome_bind negb Z.eqb]. by rewrite (getenv_loop_eq _ _ _ _ env _ nm).
Qed.

End EnvFacts.

(** ** Facts: exit handlers *)

Module AtExitFacts.
Import AtExit.
Section Handlers.
Context {fn : Type} (registers : fn -> list fn).

Lemma holds_empty : holds (@empty_handlers fn) [].
Proof. split_and!; [done..|]. intros i g H. by rewrite lookup_nil in H. Qed.

Lemma atexit_room (h : handlers fn) (l : list fn) (g : fn) :
  holds h l -> (length l < 34)%nat ->
  exists h', atexit g h = (0, None, h') /\ holds h' (l ++ [g]).
Proof.
  intros (Hn & Hlen & Hf) Hl. unfold atexit, COUNT. rewrite Hn.
  assert ((Z.of_nat (length l) =? 34) = false) as -> by (apply Z.eqb_neq; lia).
  eexists. split; [done|]. rewrite Nat2Z.id. split_and!; cbn [AtExit.n AtExit.f].
  - rewrite length_app. cbn. lia.
  - by rewrite length_insert.
  - intros i g' [H|[Hi H]]%lookup_app_Some.
    + rewrite list_lookup_insert_ne; [by apply Hf|]. apply lookup_lt_Some in H. lia.
    + apply list_lookup_singleton_Some in H as [Hi' ->].
      replace i with (length l) by lia. apply list_lookup_insert_eq. lia.
Qed.

Lemma atexit_full (h : handlers fn) (l : list fn) (g : fn) :
  holds h l -> length l = 34%nat -> atexit g h = (-1, Some ENOMEM, h).
Proof. intros (Hn & _) Hl. unfold atexit. by rewrite Hn, Hl. Qed.

(** The bounded stack that the handlers implement. *)
Definition push (l : list fn) (g : fn) : list fn :=
  if decide (length l < 34)%nat then l ++ [g] else l.

Lemma atexit_push (h : handlers fn) (l : list fn) (g : fn) : holds h l -> (length l <= 34)%nat -> holds (atexit g h).2 (push l g).
Proof.
  intros Hh Hl. unfold push. case_decide.
  - by destruct (atexit_room h l g) as (h' & -> & ?).
  - by rewrite (atexit_full h l) by (done || lia).
Qed.

Lemma push_length (l : list fn) (g : fn) : (length l <= 34)%nat -> (length (push l g) <= 34)%nat.
Proof. unfold push. case_decide; rewrite ?length_app; cbn; lia. Qed.

Lemma register_all (h : handlers fn) (l gs : list fn) :
  holds h l -> (length l <= 34)%nat ->
  holds (fold_left (fun h g => (atexit g h).2) gs h) (fold_left push gs l) /\
  (length (fold_left push gs l) <= 34)%nat.
Proof.
  revert h l. induction gs as [|g gs IH]; intros h l Hh Hl; cbn [fold_left]; [done|].
  apply IH; auto using atexit_push, push_length.
Qed.

Lemma holds_top (h : handlers fn) (l : list fn) (g : fn) :
  holds h (l ++ [g]) ->
  f h !! Z.to_nat (n h - 1) = Some (Some g) /\ holds (Handlers _ (n h - 1) (f h)) l.
Proof.
  intros (Hn & Hlen & Hf). rewrite length_app in Hn. cbn in Hn.
  assert (Z.to_nat (n h - 1) = length l) as -> by lia. split.
  - apply Hf. by apply list_lookup_middle.
  - split_and!; cbn; [lia|done|]. intros i x Hi. apply Hf. by apply lookup_app_l_Some.
Qed.

(** [exit] pops and runs until nothing is left, as the abstract stack does. *)
Fixpoint drain (fuel : nat) (l : list fn) (trace : list fn) : option (list fn) :=
  match fuel with
  | O => None
  | S fuel =>
      match rev l with
      | [] => Some trace
      | g :: r => drain fuel (fold_left push (registers g) (rev r)) (trace ++ [g])
      end
  end.

Lemma exit_loop_drain fuel (h : handlers fn) (l trace : list fn) :
  holds h l -> (length l <= 34)%nat ->
  match drain fuel l trace with
  | Some t => exists h', exit_loop registers fuel h trace = Ret (t, h')
  | None => exit_loop registers fuel h trace = NoFuel
  end.
Proof.
  revert h l trace. induction fuel as [|fuel IH]; intros h l trace Hh Hl; cbn [drain exit_loop]; [done|].
  destruct (rev l) as [|g r] eqn:Er.
  - assert (l = []) as -> by (by rewrite <- (rev_involutive l), Er).
    pose proof Hh as (Hn & _). rewrite Hn. cbn. eauto.
  - assert (l = rev r ++ [g]) as -> by (by rewrite <- (rev_involutive l), Er).
    pose proof Hh as (Hn & _). rewrite length_app in Hn, Hl. cbn in Hn, Hl.
    assert ((0 <? n h) = true) as -> by (apply Z.ltb_lt; lia).
    destruct (holds_top _ _ _ Hh) as [-> Hh'].
    destruct (register_all _ _ (registers g) Hh' ltac:(lia)) as [??].
    unfold run_handler. by apply IH.
Qed.

Lemma drain_lifo fuel (l trace : list fn) :
  (forall g, registers g = []) -> (length l < fuel)%nat ->
  drain fuel l trace = Some (trace ++ rev l).
Proof.
  intros Hreg. revert l trace. induction fuel as [|fuel IH]; intros l trace Hf; [lia|].
  cbn [drain]. destruct (rev l) as [|g r] eqn:Er.
  - by rewrite app_nil_r.
  - assert (l = rev r ++ [g]) as -> by (by rewrite <- (rev_involutive l), Er).
    rewrite length_app in Hf. cbn in Hf. rewrite Hreg. cbn [fold_left].
    rewrite IH by lia. by rewrite rev_involutive, <- app_assoc.
Qed.

End Handlers.

(** After registering [gs] in order, the first 34 of them are held. *)
Lemma holds_registered {fn} (gs : list fn) :
  holds (fold_left (fun h g => (atexit g h).2) gs empty_handlers) (take 34 gs) /\ (length (take 34 gs) <= 34)%nat.
Proof.
  destruct (register_all empty_handlers [] gs holds_empty ltac:(cbn; lia)) as [Hh Hl].
  assert (Ht : forall l, (length l <= 34)%nat -> fold_left push gs l = l ++ take (34 - length l) gs).
  { clear. induction gs as [|g gs IH]; intros l Hl; cbn [fold_left].
    - by rewrite take_nil, app_nil_r.
    - unfold push at 2. case_decide.
      + rewrite IH by (rewrite length_app; cbn; lia). rewrite length_app, <- app_assoc. cbn [length app].
        by replace (34 - length l)%nat with (S (34 - (length l + 1)))%nat by lia.
      + rewrite IH by done. by replace (34 - length l)%nat with 0%nat by lia. }
  rewrite Ht in Hh, Hl by (cbn; lia). done.
Qed.

Lemma exit_registered {fn} (gs : list fn) status fuel :
  (34 < fuel)%nat ->
  exit (fun _ => []) fuel status (fold_left (fun h g => (atexit g h).2) gs empty_handlers)
  = Ret (rev (take 34 gs), status).
Proof.
  intros Hf. destruct (holds_registered gs) as [Hh Hl].
  unfold exit. pose proof (exit_loop_drain (fun _ => []) fuel _ _ [] Hh Hl) as H.
  rewrite drain_lifo in H by (done || lia). by destruct H as [h' ->].
Qed.

End AtExitFacts.

(** ** Properties *)

Module LibcProperties.
Import Str AtExit.

(** strcmp returns 0 exactly when the two strings are equal, and a negative
    value exactly when the first precedes the second in the lexicographic order
    of their bytes. *)
Theorem strcmp_order fuel m u1 u2 a b :
  mem_wf m -> cstr m u1 a -> cstr m u2 b -> (length a < fuel)%nat ->
  exists r, strcmp fuel m u1 u2 = Ret r /\ (r = 0 <-> a = b) /\ (r < 0 <-> lex_lt a b).
Proof.
  intros Hwf Ha Hb Hf. exists (cmp_bytes a b). split; [by apply StrFacts.strcmp_eq|].
  split; [apply StrFacts.cmp_bytes_eq0|apply StrFacts.cmp_bytes_lt]; eapply cstr_bytes; eauto.
Qed.

(** strncmp with a positive count compares the first [n] bytes; with a
    count of 0, for which the standard asks for the result 0, the decrement
    wraps around and the whole strings are compared. *)
Theorem strncmp_count fuel m u1 u2 n a b :
  cstr m u1 a -> cstr m u2 b -> (length a < fuel)%nat -> 0 <= n < 2 ^ 64 ->
  Z.of_nat (length a) < 2 ^ 64 - 1 -> Z.of_nat (length b) < 2 ^ 64 - 1 ->
  strncmp fuel m u1 u2 n =
    Ret (if n =? 0 then cmp_bytes a b
         else cmp_bytes (take (Z.to_nat n) a) (take (Z.to_nat n) b)).
Proof.
  intros. case_cmp; [subst; by apply StrFacts.strncmp_wraps|].
  apply StrFacts.strncmp_eq; (done || lia).
Qed.

(** strncpy fills exactly [n] bytes of the destination: the source string
    as far as it goes, zero bytes after it, and no terminator when the source
    has [n] bytes or more; nothing else in memory changes. *)
Theorem strncpy_fills m d s bs n :
  mem_wf m -> 0 <= n -> cstr m s bs -> range_mapped m d n ->
  apart d n s (Z.of_nat (length bs) + 1) ->
  exists m', strncpy m d s n = Ret (d, m') /\
    peeks (Z.to_nat n) m' d = take (Z.to_nat n) (bs ++ replicate (Z.to_nat n) 0) /\
    same_outside m m' d n.
Proof.
  intros Hwf Hn Hs Hd Hap. eexists. split; [by apply CopyFacts.strncpy_eq|].
  set (k := Z.to_nat n). set (l := take k (bs ++ replicate k 0)).
  assert (Hl : length l = k).
  { unfold l. rewrite length_take, length_app, length_replicate. lia. }
  split; [|split].
  - rewrite <- Hl at 1. apply peeks_poke_list. unfold l. apply Forall_take, Forall_app. split.
    + eapply Forall_impl; [eapply cstr_bytes; eauto|]. cbn. lia.
    + apply Forall_replicate. lia.
  - apply mapped_poke_list.
  - intros x Hx. apply peek_poke_list_ne. lia.
Qed.

(** atoi inverts the decimal printing that passes descriptor numbers in
    the environment: for every [int], leading blanks and trailing text that
    does not start with a digit included, it returns the number and never
    overflows. *)
Theorem atoi_print_roundtrip fuel m s sp n rest :
  - 2 ^ 31 <= n < 2 ^ 31 ->
  Forall (fun c => isspace c = true) sp ->
  (forall c rest', rest = c :: rest' -> isdigit c = false) ->
  cstr m s (sp ++ print_dec n ++ rest) ->
  (length (sp ++ print_dec n ++ rest) < fuel)%nat ->
  atoi fuel m s = Ret n.
Proof. apply NumFacts.atoi_print_eq. Qed.

(** getenv returns the address of the value of the first entry of the form
    [name=value], or NULL when there is none. *)
Theorem getenv_first_match fuel m environ env name nm :
  mem_wf m -> env_at m environ env -> cstr m name nm -> nm <> [] -> 61 ∉ nm ->
  (length env < fuel)%nat -> (length nm < fuel)%nat ->
  Forall (fun es => length es.2 < fuel)%nat env -> Z.of_nat (length nm) < 2 ^ 64 ->
  exists r, getenv fuel m environ name = Ret (r, None) /\
    ((r = 0 /\ Forall (fun es => forall v, es.2 <> nm ++ 61 :: v) env) \/
     exists pre e v post, env = pre ++ (e, nm ++ 61 :: v) :: post /\
       Forall (fun es => forall v', es.2 <> nm ++ 61 :: v') pre /\
       r = e + Z.of_nat (length nm) + 1 /\ cstr m r v).
Proof.
  intros Hwf Henv Hnm Hne Heq ????. exists (env_find nm env).
  split; [by apply EnvFacts.getenv_eq|].
  clear - Henv. revert environ Henv. induction env as [|[e s] env IH]; intros p [_ Henv]; cbn [env_find].
  - by left.
  - destruct Henv as (_ & _ & Hs & Henv). destruct (env_value nm s) as [v|] eqn:Ev.
    + apply EnvFacts.env_value_Some in Ev as ->. right. exists [], e, v, env.
      split_and!; try done. apply cstr_app in Hs. cbn [cstr] in Hs. by destruct_and?.
    + assert (Hns : forall v, s <> nm ++ 61 :: v).
      { intros v H. apply EnvFacts.env_value_Some in H. congruence. }
      destruct (IH _ Henv) as [[-> Hall]|(pre & e' & v & post & -> & Hall & ? & ?)].
      * left. split; [done|]. by constructor.
      * right. exists ((e, s) :: pre), e', v, post. split_and!; try done. by constructor.
Qed.

(** exit runs the registered handlers, newest first, and passes the status
    on; registering more than 34 handlers fails with ENOMEM and leaves the
    first 34 in place. *)
Theorem exit_runs_newest_first {fn} (gs : list fn) status fuel :
  (34 < fuel)%nat ->
  let h := fold_left (fun h g => (atexit g h).2) gs empty_handlers in
  exit (fun _ => []) fuel status h = Ret (rev (take 34 gs), status) /\
  (forall g, (34 <= length gs)%nat -> atexit g h = (-1, Some ENOMEM, h)).
Proof.
  intros Hf h. destruct (AtExitFacts.holds_registered gs) as [Hh Hl]. split.
  - by apply AtExitFacts.exit_registered.
  - intros g Hg. eapply AtExitFacts.atexit_full; [done|]. rewrite length_take. lia.
Qed.

(** *** Witnesses *)

Definition demo : mem :=
  poke_list (poken 8 (Mem [(4096, 256)] ∅) 4200 4112) 4096
    (lit "eth0" ++ [0] ++ lit "eth1" ++ [0] ++ repeat 0 6 ++ lit "FD=-12x" ++ [0]).

Lemma demo_wf : mem_wf demo.
Proof. apply mem_wf_poke_list, mem_wf_poken, mem_wf_fresh. Qed.

(** Evaluate a hypothesis on the concrete memory. *)
Ltac on_demo := first [apply demo_wf | lia | vm_compute; repeat split; lia].

Lemma strcmp_order_witness :
  exists r, strcmp 9 demo 4096 4101 = Ret r /\
    (r = 0 <-> lit "eth0" = lit "eth1") /\ (r < 0 <-> lex_lt (lit "eth0") (lit "eth1")).
Proof. apply (strcmp_order 9 demo 4096 4101); on_demo. Defined.

Lemma strncmp_count_witness :
  strncmp 9 demo 4096 4101 0 = Ret (-1) /\ strncmp 9 demo 4096 4101 3 = Ret 0.
Proof.
  split.
  - rewrite (strncmp_count 9 demo 4096 4101 0 (lit "eth0") (lit "eth1")); [reflexivity|on_demo..].
  - rewrite (strncmp_count 9 demo 4096 4101 3 (lit "eth0") (lit "eth1")); [reflexivity|on_demo..].
Defined.

Lemma in_demo n : 0 <= n <= 256 -> range_mapped demo 4096 n.
Proof.
  intros Hn i Hi. unfold mapped_at. change (mapped demo) with [(4096, 256)]. cbn.
  unfold in_range; cbn [fst snd]. rewrite orb_false_r. apply andb_true_iff.
  split; [apply Z.leb_le|apply Z.ltb_lt]; lia.
Qed.

Lemma strncpy_fills_witness :
  exists m', strncpy demo 4300 4096 6 = Ret (4300, m') /\
    peeks 6 m' 4300 = lit "eth0" ++ [0; 0] /\ same_outside demo m' 4300 6.
Proof.
  apply (strncpy_fills demo 4300 4096 (lit "eth0") 6);
    [on_demo|lia|on_demo|apply (range_mapped_sub _ 4096 256); [apply in_demo|..]; lia|
     right; left; vm_compute; discriminate].
Defined.

Lemma atoi_print_roundtrip_witness : atoi 20 demo 4115 = Ret (-12).
Proof.
  apply (atoi_print_roundtrip 20 demo 4115 [] (-12) (lit "x"));
    [lia|constructor|by intros c r [= <- _]|on_demo|on_demo].
Defined.

Lemma env_mapped p : 4096 <= p -> p + 8 <= 4352 -> range_mapped (poke_list demo 4140 (lit "FD")) p 8.
Proof.
  intros ?? i Hi. rewrite mapped_at_poke_list.
  apply (range_mapped_sub _ 4096 256 p 8); [apply in_demo|..]; lia.
Qed.

Lemma getenv_first_match_witness :
  exists r, getenv 20 (poke_list demo 4140 (lit "FD")) 4200 4140 = Ret (r, None) /\
    ((r = 0 /\ Forall (fun es => forall v, es.2 <> lit "FD" ++ 61 :: v) [(4112, lit "FD=-12x")]) \/
     exists pre e v post, [(4112, lit "FD=-12x")] = pre ++ (e, lit "FD" ++ 61 :: v) :: post /\
       Forall (fun es => forall v', es.2 <> lit "FD" ++ 61 :: v') pre /\
       r = e + Z.of_nat (length (lit "FD")) + 1 /\ cstr (poke_list demo 4140 (lit "FD")) r v).
Proof.
  apply (getenv_first_match 20 (poke_list demo 4140 (lit "FD")) 4200 [(4112, lit "FD=-12x")] 4140 (lit "FD")).
  - apply mem_wf_poke_list, demo_wf.
  - cbn [env_at]. split; [by apply env_mapped|]. split; [vm_compute; reflexivity|]. split; [lia|].
    split; [vm_compute; repeat split; lia|]. split; [by apply env_mapped|reflexivity].
  - vm_compute; repeat split; lia.
  - discriminate.
  - apply (bool_decide_unpack _). vm_compute. exact I.
  - vm_compute; lia.
  - vm_compute; lia.
  - repeat constructor.
  - reflexivity.
Defined.

Lemma exit_runs_newest_first_witness :
  let h := fold_left (fun h g => (atexit g h).2) [1; 2; 3] empty_handlers in
  exit (fun _ => []) 35 0 h = Ret ([3; 2; 1], 0) /\
  (forall g, (34 <= 3)%nat -> atexit g h = (-1, Some ENOMEM, h)).
Proof. apply (exit_runs_newest_first [1; 2; 3] 0 35). lia. Defined.

End LibcProperties.
