(* ===== verification/Platform.v ===== *)
(** * The platform layer

    [platform/]: the few services the library asks of the machine below it.
    The bare-metal targets (qemu-arm, spike) hand out memory from a static
    array and keep a clock that only advances when it is read; the Linux target
    turns the calls into system calls.  The services other components rely on
    are stated as interfaces ([PageSource], [Clock]) that the bare-metal
    implementations are shown to satisfy. *)

From S2P Require Import Prelude.
From Stdlib Require Import ZArith Lia.
From stdpp Require Import base numbers list gmap.
Local Open Scope Z_scope.

Definition MAP_FAILED : Z := 2 ^ 64 - 1.
Definition MAP_SHARED : Z := 1.
Definition MAP_PRIVATE : Z := 2.
Definition MAP_FIXED : Z := 16.
Definition MAP_ANON : Z := 32.
Definition MAP_STACK : Z := 8192.
Definition MAP_ALIGNMENT_SHIFT : Z := 24.

(** [MAP_ALIGNED(n)], an [int] shift. *)
Definition MAP_ALIGNED (n : Z) : Z := i32 (Z.shiftl n MAP_ALIGNMENT_SHIFT).
Definition MAP_ALIGNMENT_MASK : Z := MAP_ALIGNED 255.

(** ** Interfaces *)

(** What the allocator and the thread library expect of [mmap]: a request for
    anonymous memory is answered with MAP_FAILED or with page-aligned memory
    that nobody else holds. *)
Class PageSource (P : Type) : Type := {
  ps_pagesz : Z;
  ps_mmap : Z -> P -> outcome (Z * P);
  ps_ok : P -> Prop;
  ps_free : P -> Z -> Prop;
  ps_pagesz_pow : exists b, 0 <= b <= 25 /\ ps_pagesz = 2 ^ (b + 5);
  ps_mmap_spec len p :
    ps_ok p -> 0 < len <= 2 ^ 32 ->
    exists a p', ps_mmap len p = Ret (a, p') /\ ps_ok p' /\
      (forall x, ps_free p' x -> ps_free p x) /\
      (a <> MAP_FAILED ->
         0 < a /\ a mod ps_pagesz = 0 /\ a + len < MAP_FAILED /\
         forall x, a <= x < a + len -> ps_free p x /\ ~ ps_free p' x);
}.

Module Timespec.

Record timespec : Type := TS { tv_sec : Z; tv_nsec : Z }.

(** Nanoseconds since the epoch of the clock. *)
Definition nanos (t : timespec) : Z := tv_sec t * 1000000000 + tv_nsec t.

Definition normal (t : timespec) : Prop := 0 <= tv_nsec t < 1000000000.

End Timespec.

(** What the scheduler expects of the platform: clock readings never go back,
    and a sleep lasts at least as long as asked, unless it ends early because the
    platform has woken threads that wait for input ([clk_receivers] are the
    threads it may wake). *)
Class Clock (C : Type) : Type := {
  clk_gettime : C -> Timespec.timespec * C;
  clk_nanosleep : Timespec.timespec -> C -> list Z * C;
  clk_receivers : C -> list Z;
  clk_ok : C -> Prop;
  clk_time : C -> Z;
  clk_gettime_spec c :
    clk_ok c ->
    clk_ok (clk_gettime c).2 /\ Timespec.normal (clk_gettime c).1 /\
    clk_time c <= Timespec.nanos (clk_gettime c).1 <= clk_time (clk_gettime c).2;
  clk_nanosleep_spec c t :
    clk_ok c -> Timespec.normal t -> 0 <= Timespec.tv_sec t ->
    clk_ok (clk_nanosleep t c).2 /\ clk_time c <= clk_time (clk_nanosleep t c).2 /\
    ((clk_nanosleep t c).1 = [] -> clk_time c + Timespec.nanos t <= clk_time (clk_nanosleep t c).2);
  clk_gettime_receivers c : clk_receivers (clk_gettime c).2 = clk_receivers c;
  clk_nanosleep_receivers t c :
    clk_receivers (clk_nanosleep t c).2 = clk_receivers c /\ (clk_nanosleep t c).1 ⊆ clk_receivers c;
}.

(** ** Bare metal: a bump allocator over a static array *)

Module Bump.

Record core : Type := Core { core_base : Z; core_top : Z }.

(** The static initialisers, for an array of [size] bytes at [__core]. *)
Definition core_init (__core size : Z) : core :=
  {| core_base := __core; core_top := __core + size |}.

Definition getpagesize : Z := 4096.

Section Width.

(** The width of [uintptr_t] and [unsigned long] on the target. *)
Variable w : Z.

Definition uptr (z : Z) : Z := z mod 2 ^ w.

(** [MAP_FAILED], the all-ones pointer. *)
Definition map_failed : Z := 2 ^ w - 1.

(** The alignment the flags ask for: [1UL << shift] is undefined from the
    width on. *)
Definition mmap_align (nflags : Z) : outcome Z :=
  let shift := u32 (Z.shiftr (Z.land nflags MAP_ALIGNMENT_MASK) MAP_ALIGNMENT_SHIFT) in
  if shift =? 0 then Ret getpagesize
  else if shift <? w then Ret (Z.shiftl 1 shift) else UB.

(** The address (or MAP_FAILED) and the value stored in [errno], if any. *)
Definition mmap (addr length prot nflags fd offset : Z) (c : core) : outcome (Z * option Z * core) :=
  if negb (fd =? -1) || negb (offset =? 0) || negb (addr =? 0) then
    Ret (map_failed, Some EINVAL, c)
  else
    align ← mmap_align nflags;
    let amask := uptr (align - 1) in
    let base :=
      if negb (Z.land (core_base c) amask =? 0)
      then uptr (Z.land (core_base c) (uptr (Z.lnot amask)) + align) else core_base c in
    let c := {| core_base := base; core_top := core_top c |} in
    if uptr (base + length) >? core_top c then Ret (map_failed, Some ENOMEM, c)
    else Ret (base, None, {| core_base := uptr (base + length); core_top := core_top c |}).

Definition munmap (addr length : Z) (c : core) : Z * core := (0, c).

End Width.
End Bump.

(** qemu-arm is a 32-bit target. *)
Module QemuArm.
Definition CORESIZE : Z := 16777216 * 8.
Definition core_init (__core : Z) : Bump.core := Bump.core_init __core CORESIZE.
Definition mmap := Bump.mmap 32.
Definition munmap := Bump.munmap.
End QemuArm.

(** spike is a 64-bit target. *)
Module Spike.
Definition CORESIZE : Z := 16777216.
Definition core_init (__core : Z) : Bump.core := Bump.core_init __core CORESIZE.
Definition mmap := Bump.mmap 64.
Definition munmap := Bump.munmap.
End Spike.

(** ** The NetBSD-facing wrapper (franken/stubs/_mmap.c) *)

Module Stubs.

(** [_mmap] refuses everything but anonymous mappings and repairs the flags
    before it calls the platform. *)
Definition _mmap {P} (mmap : Z -> Z -> Z -> Z -> Z -> Z -> P -> outcome (Z * option Z * P))
    (addr length prot flags fd offset : Z) (p : P) : outcome (Z * option Z * P) :=
  if negb ((fd =? -1) && negb (Z.land flags MAP_ANON =? 0)) then
    Ret (MAP_FAILED, Some ENOSYS, p)
  else
    let flags := if flags =? MAP_ANON then Z.lor flags MAP_PRIVATE else flags in
    mmap addr length prot flags fd offset p.

Definition mmap {P} := @_mmap P.

Definition _munmap {P} (munmap : Z -> Z -> P -> Z * P) (addr length : Z) (p : P) : Z * P :=
  munmap addr length p.

Definition munmap {P} := @_munmap P.

End Stubs.

(** ** Clocks *)

Module FakeClock.
Import Timespec.

Definition __platform_now : timespec := TS 0 0.

(** [tick] is the amount a reading advances the clock by: 1000 on qemu-arm,
    1000000 on spike and in the deterministic build.  [tp] is the caller's
    buffer, [None] for NULL; the result is the return value, the value put in
    [errno] and the new contents of the buffer. *)
Definition clock_gettime (tick : Z) (tp : option timespec) (now : timespec) :
    Z * option Z * option timespec * timespec :=
  match tp with
  | None => (-1, Some EFAULT, None, now)
  | Some _ =>
      let nsec := tv_nsec now + tick in
      let now :=
        if 1000000000 <=? nsec then TS (tv_sec now + 1) (nsec - 1000000000)
        else TS (tv_sec now) nsec in
      (0, None, Some now, now)
  end.

Definition clock_nanosleep (request remain : option timespec) (now : timespec) :
    Z * option Z * option timespec * timespec :=
  match request with
  | None => (-1, Some EFAULT, remain, now)
  | Some request =>
      let nsec := tv_nsec now + tv_nsec request in
      let now :=
        if 1000000000 <=? nsec then TS (tv_sec now + 1) (nsec - 1000000000)
        else TS (tv_sec now) nsec in
      let now := TS (tv_sec now + tv_sec request) (tv_nsec now) in
      (0, None, match remain with Some _ => Some (TS 0 0) | None => None end, now)
  end.

Definition clock_getres (tp : option timespec) : Z * option Z * option timespec :=
  match tp with
  | None => (-1, Some EFAULT, None)
  | Some _ => (0, None, Some (TS 0 1000000))
  end.

End FakeClock.

Module QemuArmClock.
Definition clock_gettime := FakeClock.clock_gettime 1000.
Definition clock_nanosleep := FakeClock.clock_nanosleep.
Definition clock_getres := FakeClock.clock_getres.
End QemuArmClock.

Module SpikeClock.
Definition clock_gettime := FakeClock.clock_gettime 1000000.
Definition clock_nanosleep := FakeClock.clock_nanosleep.
Definition clock_getres := FakeClock.clock_getres.
End SpikeClock.

Module DeterministicClock.
Definition clock_gettime := FakeClock.clock_gettime 1000000.
Definition clock_nanosleep := FakeClock.clock_nanosleep.
Definition clock_getres := FakeClock.clock_getres.
End DeterministicClock.

(** ** Linux *)

Module Linux.
Import Timespec.

(** syscall_ret.c: the kernel reports an error as a small negative number. *)
Definition __syscall_ret (r : Z) : Z * option Z :=
  if u64 (-4096) <? r then (-1, Some (i32 (u64 (- r)))) else (i64 r, None).

(** The translation of the kernel's error numbers, in read.c, readv.c, write.c
    and writev.c.  [r] is what [syscall] returned, with its errno. *)
Definition LINUX_EAGAIN : Z := 11.
Definition LINUX_ESPIPE : Z := 29.

Definition read_ret (r : Z) (errno : Z) : Z * Z :=
  if r =? -1 then (r, if errno =? LINUX_EAGAIN then EAGAIN else EBADF) else (r, errno).
Definition readv_ret := read_ret.
Definition write_ret := read_ret.
Definition writev_ret := read_ret.

(** The same in preadv.c and pwritev.c. *)
Definition preadv_ret (r : Z) (errno : Z) : Z * Z :=
  if r =? -1 then
    (r, if errno =? LINUX_EAGAIN then EAGAIN
        else if errno =? LINUX_ESPIPE then ESPIPE else EBADF)
  else (r, errno).
Definition pwritev_ret := preadv_ret.

(** pwrite.c: a descriptor opened read-only is refused without a system call,
    with the error number as the return value. *)
Definition pwrite (flags : Z) (sys : Z * option Z) : Z * option Z :=
  if Z.land flags 3 =? 0 then (EBADF, None) else sys.

(** close.c *)
Definition close_ (r : Z) : Z * option Z :=
  __syscall_ret (u64 (if r =? - EINTR then 0 else r)).

(** clock_nanosleep.c *)
Definition NSEC_PER_SEC : Z := 1000000000.
Definition MIN_SLEEP_INTERVAL_NSEC : Z := 60 * 1000.

Definition timespec_diff_ns (start end_ : timespec) : Z :=
  let temp :=
    if tv_nsec end_ - tv_nsec start <? 0
    then TS (tv_sec end_ - tv_sec start - 1) (NSEC_PER_SEC + tv_nsec end_ - tv_nsec start)
    else TS (tv_sec end_ - tv_sec start) (tv_nsec end_ - tv_nsec start) in
  tv_sec temp * NSEC_PER_SEC + tv_nsec temp.

(** The busy loop, on the sequence of readings [clock_gettime] gives ([None] when
    it fails): the return value, the errno and the number of the last reading. *)
Fixpoint fast_path_loop (fuel : nat) (readings : nat -> option timespec) (i : nat)
    (start ltp : timespec) : outcome (Z * option Z * nat) :=
  match fuel with
  | O => NoFuel
  | S fuel =>
      match readings i with
      | None => Ret (-1, Some EINVAL, i)
      | Some now =>
          if tv_sec ltp * NSEC_PER_SEC + tv_nsec ltp <? timespec_diff_ns start now
          then Ret (0, None, i) else fast_path_loop fuel readings (S i) start ltp
      end
  end.

Definition sleep_fast_path (fuel : nat) (readings : nat -> option timespec) (ltp : timespec) :
    outcome (Z * option Z * nat) :=
  match readings 0%nat with
  | None => Ret (-1, Some EINVAL, 0%nat)
  | Some start => fast_path_loop fuel readings 1 start ltp
  end.

(** mmap.c and munmap.c.  The kernel is a parameter: a state and the two system
    calls on it, each returning the raw result (-1 for an error). *)
Record kernel (K : Type) : Type := Kernel {
  sys_mmap : Z -> Z -> Z -> Z -> Z -> Z -> K -> Z * K;
  sys_munmap : Z -> Z -> K -> Z * K;
}.
Arguments sys_mmap {K} _ _ _ _ _ _ _ _.
Arguments sys_munmap {K} _ _ _ _.

Section Mmap.
Context {K : Type} (k : kernel K).

Definition munmap (addr length : Z) (s : K) : Z * option Z * K :=
  let '(ret, s) := sys_munmap k addr length s in
  (ret, if ret =? -1 then Some EINVAL else None, s).

Definition __mmap (addr length prot nflags fd offset : Z) (s : K) : Z * K :=
  let '(r, s) := sys_mmap k addr length prot nflags fd offset s in (u64 r, s).

Definition linux_flags (nflags : Z) : Z :=
  let has f g := if negb (Z.land nflags f =? 0) then g else 0 in
  Z.lor (Z.lor (Z.lor (Z.lor (has MAP_SHARED 1) (has MAP_PRIVATE 2)) (has MAP_FIXED 16))
               (has MAP_ANON 32)) (has MAP_STACK 131072).

(** Without huge pages.  [__mmap] leaves the kernel's errno in place. *)
Definition mmap (__pagesize addr length prot nflags fd offset : Z) (s : K) :
    outcome (Z * option Z * K) :=
  let align := u64 (Z.shiftr (Z.land nflags MAP_ALIGNMENT_MASK) MAP_ALIGNMENT_SHIFT) in
  if 63 <=? align then UB
  else
    let amask := Z.shiftl 1 align - 1 in
    let flags := linux_flags nflags in
    if (align =? 0) || (Z.shiftl 1 align <=? __pagesize) then
      let '(r, s) := __mmap addr length prot flags fd offset s in Ret (r, None, s)
    else if negb (fd =? -1) || negb (offset =? 0) then Ret (MAP_FAILED, Some EINVAL, s)
    else
      let '(mem, s) := __mmap addr (u64 (length * 2)) prot flags (-1) 0 s in
      if mem =? MAP_FAILED then Ret (MAP_FAILED, Some ENOMEM, s)
      else
        let off := Z.land mem amask in
        if off =? 0 then
          let '(r, _, s) := munmap (u64 (mem + length)) length s in
          if r =? -1 then Ret (MAP_FAILED, Some ENOMEM, s) else Ret (mem, None, s)
        else
          let '(r, _, s) := munmap mem (u64 (length * 2)) s in
          if r =? -1 then Ret (MAP_FAILED, Some ENOMEM, s)
          else
            let '(r, s) := __mmap (u64 (mem + length - off)) length prot
                              (Z.lor flags MAP_FIXED) (-1) 0 s in
            Ret (r, None, s).
End Mmap.

(** getrandom.c: the sources are tried in order and the choice is remembered. *)
Inductive randsrc := PLATFORM_RND_AT | PLATFORM_RND_GR | PLATFORM_RND_FD.

Section Random.
(** The 16 bytes the kernel passes to the program (if any), the descriptor of
    /dev/urandom (-1 for none), and the two system calls. *)
Variable __random : option (list Z).
Variable __platform_random_fd : Z.
Variable sys_read : Z -> Z -> Z * list Z.
Variable sys_getrandom : Z -> Z * list Z.

(** The return value, the bytes put in the buffer and the new source. *)
Definition getrandom (size : Z) (src : randsrc) : Z * list Z * randsrc :=
  match src with
  | PLATFORM_RND_AT =>
      match __random with
      | None => (0, [], PLATFORM_RND_FD)
      | Some bs =>
          let size := if 16 <? size then 16 else size in
          (i32 size, take (Z.to_nat size) bs, PLATFORM_RND_FD)
      end
  | PLATFORM_RND_FD =>
      if negb (__platform_random_fd =? -1) then
        (sys_read __platform_random_fd size, PLATFORM_RND_FD)
      else (sys_getrandom size, PLATFORM_RND_GR)
  | PLATFORM_RND_GR => (sys_getrandom size, PLATFORM_RND_GR)
  end.
End Random.

End Linux.

(** ** Facts: the bump allocator *)

Module BumpFacts.
Import Bump.

(** Flags that ask for an alignment of [2^k] ([k = 0]: the page size). *)
Definition flags_shift (nflags : Z) : Z :=
  u32 (Z.shiftr (Z.land nflags MAP_ALIGNMENT_MASK) MAP_ALIGNMENT_SHIFT).
Definition flags_bits (nflags : Z) : Z := if flags_shift nflags =? 0 then 12 else flags_shift nflags.

Lemma flags_bits_nonneg f : 0 <= flags_bits f.
Proof.
  unfold flags_bits, flags_shift, u32. case_cmp; [lia|]. apply Z.mod_pos_bound. lia.
Qed.

Lemma mmap_align_eq w f : flags_bits f < w -> mmap_align w f = Ret (2 ^ flags_bits f).
Proof.
  unfold mmap_align, flags_bits. fold (flags_shift f). intros Hw. destruct (flags_shift f =? 0) eqn:E; [done|].
  apply Z.ltb_lt in Hw as ->. rewrite Z.shiftl_mul_pow2, Z.mul_1_l; [done|].
  pose proof (flags_bits_nonneg f). unfold flags_bits in *. by rewrite E in *.
Qed.

(** The first multiple of the alignment in the rest of the array. *)
Lemma bump_base w b k :
  0 <= k < w -> 0 <= b -> b + 2 ^ k <= 2 ^ w ->
  (if negb (Z.land b (uptr w (2 ^ k - 1)) =? 0)
   then uptr w (Z.land b (uptr w (Z.lnot (uptr w (2 ^ k - 1)))) + 2 ^ k) else b) = align_up k b.
Proof.
  intros Hk Hb Hw. assert (2 ^ k < 2 ^ w) by (apply Z.pow_lt_mono_r; lia).
  unfold uptr. rewrite (Z.mod_small (2 ^ k - 1)) by lia.
  rewrite land_mask, land_not_mask by lia. pose proof (Z.mod_pos_bound b (2 ^ k) ltac:(lia)).
  symmetry. destruct (Z.eqb_spec (b mod 2 ^ k) 0) as [E|E]; cbn [negb];
    (apply align_up_unique; [lia|..]).
  - done.
  - lia.
  - rewrite (Z.mod_small _ (2 ^ w)) by lia. rewrite Z.add_mod, Z_mod_same_full, Z.add_0_r, Z.mod_mod by lia.
    rewrite Zminus_mod_idemp_r, Z.sub_diag. done.
  - rewrite Z.mod_small by lia. lia.
Qed.

Lemma mmap_eq w len prot f c :
  let k := flags_bits f in
  let base := align_up k (core_base c) in
  0 <= core_base c -> k < w -> 0 <= len -> core_base c + 2 ^ k + len <= 2 ^ w ->
  mmap w 0 len prot f (-1) 0 c =
    if core_top c <? base + len then Ret (map_failed w, Some ENOMEM, Core base (core_top c))
    else Ret (base, None, Core (base + len) (core_top c)).
Proof.
  intros k base Hb Hk Hl Hw. pose proof (flags_bits_nonneg f).
  destruct (align_up_spec k (core_base c)) as [_ Hr]; [done..|]. fold base in Hr.
  unfold mmap. cbn [Z.eqb negb orb]. rewrite mmap_align_eq by done. cbn [mbind outcome_bind core_base core_top].
  fold k. rewrite bump_base by lia. fold base.
  unfold uptr. rewrite Z.mod_small by lia. by rewrite Z.gtb_ltb.
Qed.

End BumpFacts.

(** ** The bare-metal targets implement the interfaces *)

(** The rest of the static array, which requests of alignments up to 2^31 keep
    going through. *)
Definition spike_ok (c : Bump.core) : Prop :=
  0 < Bump.core_base c <= align_up 31 (Bump.core_top c) /\ Bump.core_top c < 2 ^ 63.
Definition in_core (c : Bump.core) (x : Z) : Prop := Bump.core_base c <= x < Bump.core_top c.

Lemma spike_mmap_spec len prot f c :
  spike_ok c -> 0 < len <= 2 ^ 62 -> BumpFacts.flags_bits f <= 31 ->
  exists a e c', Spike.mmap 0 len prot f (-1) 0 c = Ret (a, e, c') /\ spike_ok c' /\
    (forall x, in_core c' x -> in_core c x) /\
    (a <> MAP_FAILED -> 0 < a /\ a mod 2 ^ BumpFacts.flags_bits f = 0 /\ a + len < MAP_FAILED /\
       forall x, a <= x < a + len -> in_core c x /\ ~ in_core c' x).
Proof.
  destruct c as [b t]. unfold spike_ok, in_core. cbn [Bump.core_base Bump.core_top]. intros [Hb Ht] Hl Hk.
  pose proof (BumpFacts.flags_bits_nonneg f) as Hk0. set (k := BumpFacts.flags_bits f) in *.
  destruct (align_up_spec 31 t) as [Hm Hr]; [lia|]. destruct (align_up_spec k b) as [Hm' Hr']; [lia|].
  pose proof (align_up_le k b (align_up 31 t) Hk0 ltac:(apply (mod_le_pow _ _ 31); [lia|done]) ltac:(lia)) as Hle.
  assert (2 ^ k <= 2 ^ 31) by (apply Z.pow_le_mono_r; lia).
  unfold Spike.mmap. rewrite BumpFacts.mmap_eq by (cbn [Bump.core_base]; fold k; lia). fold k. cbn [Bump.core_base Bump.core_top].
  unfold MAP_FAILED, Bump.map_failed. case_cmp; eexists _, _, _; (split; [reflexivity|]);
    cbn [Bump.core_base Bump.core_top]; split_and!; try lia; intros; split_and!; lia || done.
Qed.

(** Memory for the C library on the spike target. *)
Definition spike_anon (len : Z) (c : Bump.core) : outcome (Z * Bump.core) :=
  '(a, _, c) ← Spike.mmap 0 len 3 (Z.lor MAP_PRIVATE MAP_ANON) (-1) 0 c;
  Ret (a, c).

#[export] Program Instance spike_pages : PageSource Bump.core := {|
  ps_pagesz := Bump.getpagesize;
  ps_mmap := spike_anon;
  ps_ok := spike_ok;
  ps_free := in_core;
|}.
Next Obligation. exists 7. split; [lia|done]. Qed.
Next Obligation.
  intros len c Hc Hl. unfold spike_anon.
  destruct (spike_mmap_spec len 3 (Z.lor MAP_PRIVATE MAP_ANON) c Hc ltac:(lia) ltac:(vm_compute; discriminate)) as (a & e & c' & -> & H).
  exists a, c'. split; [done|]. exact H.
Qed.

Module SpikeTime.
Import Timespec.

Definition gettime (now : timespec) : timespec * timespec :=
  let '(_, _, tp, now) := SpikeClock.clock_gettime (Some (TS 0 0)) now in (default now tp, now).

Definition nanosleep (t now : timespec) : timespec :=
  (SpikeClock.clock_nanosleep (Some t) None now).2.

(** Every operation leaves a normal time and advances it by a known amount. *)
Lemma gettime_spec now :
  normal now -> normal (gettime now).2 /\ (gettime now).1 = (gettime now).2 /\
  nanos (gettime now).2 = nanos now + 1000000.
Proof.
  destruct now as [s n]. unfold normal, nanos. cbn. intros Hn. case_cmp; cbn; split_and!; lia || done.
Qed.

Lemma nanosleep_spec t now :
  normal t -> normal now ->
  normal (nanosleep t now) /\ nanos (nanosleep t now) = nanos now + nanos t.
Proof.
  destruct now as [s n], t as [ts tn]. unfold normal, nanos. cbn. intros. case_cmp; cbn; lia.
Qed.

End SpikeTime.

(** No descriptors are polled on the spike target: a sleep wakes nobody. *)
#[export] Program Instance spike_clock : Clock Timespec.timespec := {|
  clk_gettime := SpikeTime.gettime;
  clk_nanosleep := fun t now => ([], SpikeTime.nanosleep t now);
  clk_receivers := fun _ => [];
  clk_ok := Timespec.normal;
  clk_time := Timespec.nanos;
|}.
Next Obligation.
  intros now Hn. destruct (SpikeTime.gettime_spec now Hn) as (? & -> & ?). split_and!; done || lia.
Qed.
Next Obligation.
  intros now t Hn Ht Hs. cbn [fst snd]. destruct (SpikeTime.nanosleep_spec t now Ht Hn) as [? ->].
  unfold Timespec.normal, Timespec.nanos in *. split_and!; try done; lia.
Qed.
Next Obligation. done. Qed.
Next Obligation. done. Qed.

(** ** Facts: the Linux target *)

Module LinuxFacts.
Import Linux Timespec.

(** What the manual promises of the two system calls: memory lies in the lower
    half of the address space, and a fixed mapping goes where it is asked. *)
Record kernel_ok {K} (k : kernel K) : Prop := {
  kernel_range addr len prot fl fd off s :
    let r := (sys_mmap k addr len prot fl fd off s).1 in
    r = -1 \/ 0 <= r /\ r + len <= 2 ^ 63;
  kernel_fixed addr len prot fl fd off s :
    Z.land fl MAP_FIXED <> 0 ->
    let r := (sys_mmap k addr len prot fl fd off s).1 in r = -1 \/ r = addr;
}.

Definition align_bits (nflags : Z) : Z :=
  u64 (Z.shiftr (Z.land nflags MAP_ALIGNMENT_MASK) MAP_ALIGNMENT_SHIFT).

Lemma lor_fixed fl : Z.land (Z.lor fl MAP_FIXED) MAP_FIXED <> 0.
Proof.
  intros H. apply (f_equal (fun z => Z.testbit z 4)) in H.
  rewrite Z.land_spec, Z.lor_spec, orb_true_r in H. done.
Qed.

(** Where an aligned request lands: on a multiple of the alignment, or as far
    behind one as the length is. *)
Lemma mmap_residue {K} (k : kernel K) pagesz len prot fl s r e s' :
  kernel_ok k -> 0 <= len < 2 ^ 62 -> 0 < align_bits fl < 63 -> pagesz < 2 ^ align_bits fl ->
  mmap k pagesz 0 len prot fl (-1) 0 s = Ret (r, e, s') ->
  r = MAP_FAILED \/ r mod 2 ^ align_bits fl = 0 \/ r mod 2 ^ align_bits fl = len mod 2 ^ align_bits fl.
Proof.
  intros [Hrange Hfix] Hl Ha Hp. unfold mmap. fold (align_bits fl). rewrite Z.shiftl_1_l.
  do 2 (case_cmp; [lia|]). cbn [orb].
  unfold __mmap at 1. destruct (sys_mmap k 0 _ prot _ _ _ s) as [m s1] eqn:Em.
  destruct (Hrange 0 (u64 (len * 2)) prot (linux_flags fl) (-1) 0 s) as [Hm|Hm];
    rewrite Em in Hm; cbn in Hm; [subst m; replace (u64 (-1) =? MAP_FAILED) with true by done; cbn [negb Z.eqb Pos.eqb orb]; intros [= <- <- <-]; by left|].
  unfold u64 in Hm at 1. rewrite Z.mod_small in Hm by lia.
  assert (u64 m = m) as -> by (apply Z.mod_small; lia). rewrite land_mask by lia. cbn [negb Z.eqb Pos.eqb orb].
  pose proof (Z.mod_pos_bound m (2 ^ align_bits fl) ltac:(lia)).
  pose proof (Z.mod_le m (2 ^ align_bits fl) ltac:(lia) ltac:(lia)).
  case_cmp; [intros; simplify_eq; by left|]. case_cmp.
  - destruct (munmap k _ _ s1) as [[r0 e0] s0]. case_cmp; intros; simplify_eq; auto.
  - destruct (munmap k _ _ s1) as [[r0 e0] s0]. case_cmp; [intros; simplify_eq; by left|].
    unfold __mmap. destruct (sys_mmap k _ len _ _ _ _ s0) as [m' s2] eqn:Em'.
    destruct (Hfix (u64 (m + len - m mod 2 ^ align_bits fl)) len prot _ (-1) 0 s0 (lor_fixed (linux_flags fl))) as [Hm'|Hm'];
      rewrite Em' in Hm'; cbn in Hm'; subst m'; intros; simplify_eq; [by left; vm_compute|].
    do 2 right. unfold u64. rewrite Z.mod_mod, (Z.mod_small _ (2 ^ 64)) by lia.
    replace (m + len - m mod 2 ^ align_bits fl) with (len + (m / 2 ^ align_bits fl) * 2 ^ align_bits fl)
      by (pose proof (Z.div_mod m (2 ^ align_bits fl) ltac:(lia)); lia).
    apply Z_mod_plus_full.
Qed.

Lemma timespec_diff_ns_eq a b : timespec_diff_ns a b = nanos b - nanos a.
Proof.
  destruct a as [s n], b as [s' n']. unfold timespec_diff_ns, nanos, NSEC_PER_SEC. cbn. case_cmp; cbn; lia.
Qed.

(** The clock gives [r] at reading [i]. *)
Definition reads (readings : nat -> option timespec) (i : nat) (P : Z -> Prop) : Prop :=
  exists t, readings i = Some t /\ P (nanos t).

(** The busy loop stops at the first reading more than the interval after the
    first one. *)
Lemma fast_path_loop_spec readings start ltp (n i : nat) (fuel : nat) :
  (i <= n)%nat -> reads readings n (fun t => nanos start + nanos ltp < t) ->
  (forall j, (i <= j < n)%nat -> reads readings j (fun t => t <= nanos start + nanos ltp)) ->
  (n - i < fuel)%nat -> fast_path_loop fuel readings i start ltp = Ret (0, None, n).
Proof.
  intros Hi Hn Hall. induction fuel as [|fuel IH] in i, Hi, Hall |- *; [lia|]. intros Hf. cbn.
  destruct (decide (i = n)) as [->|].
  - destruct Hn as (t & -> & Ht). rewrite timespec_diff_ns_eq.
    change (tv_sec ltp * NSEC_PER_SEC + tv_nsec ltp) with (nanos ltp). case_cmp; [done|lia].
  - destruct (Hall i ltac:(lia)) as (t & -> & Ht). rewrite timespec_diff_ns_eq.
    change (tv_sec ltp * NSEC_PER_SEC + tv_nsec ltp) with (nanos ltp).
    case_cmp; [lia|]. apply IH; [lia| |lia]. intros. apply Hall. lia.
Qed.

End LinuxFacts.

(** ** Sequences of requests to the bump allocator *)

Module BumpRequests.
Import Bump BumpFacts.

(** The ranges granted to a list of requests, each a length and flags. *)
Fixpoint requests (w : Z) (rs : list (Z * Z)) (c : core) : outcome (list (Z * Z) * core) :=
  match rs with
  | [] => Ret ([], c)
  | (len, fl) :: rs =>
      '(a, _, c) ← mmap w 0 len 3 fl (-1) 0 c;
      '(gs, c) ← requests w rs c;
      Ret (if a =? map_failed w then gs else (a, len) :: gs, c)
  end.

(** Requests of at most [L] bytes aligned to at most [2^n]. *)
Definition small (L n : Z) (r : Z * Z) : Prop := 0 <= r.1 <= L /\ flags_bits r.2 <= n.

Definition room (w L n : Z) (c : core) : Prop :=
  0 <= core_base c <= align_up n (core_top c) /\ n < w /\ core_top c + 2 * 2 ^ n + L <= 2 ^ w - 1.

Lemma mmap_room w L n c len fl :
  0 <= n -> room w L n c -> small L n (len, fl) ->
  let base := align_up (flags_bits fl) (core_base c) in
  core_base c <= base /\
  ((mmap w 0 len 3 fl (-1) 0 c = Ret (map_failed w, Some ENOMEM, Core base (core_top c)) /\
      room w L n (Core base (core_top c))) \/
   (base + len <= core_top c /\ base < map_failed w /\
      mmap w 0 len 3 fl (-1) 0 c = Ret (base, None, Core (base + len) (core_top c)) /\
      room w L n (Core (base + len) (core_top c)))).
Proof.
  intros Hn (Hb & Hnw & Ht) [Hl Hf] base. cbn in Hl, Hf. pose proof (flags_bits_nonneg fl).
  destruct (align_up_spec (flags_bits fl) (core_base c)) as [_ Hr]; [done|]. fold base in Hr.
  destruct (align_up_spec n (core_top c)) as [Hm Hr']; [done|].
  assert (2 ^ flags_bits fl <= 2 ^ n) by (apply Z.pow_le_mono_r; lia).
  assert (base <= align_up n (core_top c)).
  { apply align_up_le; [done| |lia]. by apply (mod_le_pow _ _ n). }
  split; [lia|]. pose proof (mmap_eq w len 3 fl c) as E. cbv zeta in E. fold base in E.
  rewrite E by lia. unfold room, map_failed. cbn [core_base core_top].
  case_cmp; [left|right]; split_and!; lia || done.
Qed.

End BumpRequests.

Module PlatformProperties.
Import Bump BumpFacts BumpRequests Timespec.

(** The bare-metal [mmap] answers any sequence of anonymous requests (with
    any mix of alignments) with ranges inside the static array that follow one
    another without overlap, each aligned as its request asked. *)
Theorem bump_requests_disjoint w L n rs c :
  0 <= n -> room w L n c -> Forall (small L n) rs ->
  exists gs c', requests w rs c = Ret (gs, c') /\
    (forall a len, (a, len) ∈ gs -> core_base c <= a /\ a + len <= core_top c) /\
    (forall i j a len a' len', (i < j)%nat -> gs !! i = Some (a, len) -> gs !! j = Some (a', len') ->
       a + len <= a') /\
    (forall a len, (a, len) ∈ gs -> exists fl, (len, fl) ∈ rs /\ a mod 2 ^ flags_bits fl = 0).
Proof.
  intros Hn Hroom Hrs. induction Hrs as [|[len fl] rs Hr Hrs IH] in c, Hroom |- *.
  { eexists [], c. split_and!; try done; intros; by set_solver. }
  destruct (mmap_room w L n c len fl Hn Hroom Hr) as [Hle [[E Hroom']|(Hfit & Hlt & E & Hroom')]];
    cbn [requests]; rewrite E; cbn [mbind outcome_bind];
    destruct (IH _ Hroom') as (gs & c' & -> & Hin & Hord & Hal); cbn [core_base core_top] in Hin;
    eexists _, c'; (split; [reflexivity|]).
  - rewrite Z.eqb_refl. split_and!; [|done|].
    + intros a l H. destruct (Hin a l H). lia.
    + intros a l H. destruct (Hal a l H) as (f & ? & ?). exists f. split; [by right|done].
  - destruct (Z.eqb_spec (align_up (flags_bits fl) (core_base c)) (map_failed w)); [lia|].
    destruct Hr as [Hr _]. cbn in Hr.
    assert (Hhd : forall i a l, gs !! i = Some (a, l) -> align_up (flags_bits fl) (core_base c) + len <= a).
    { intros i a l H. apply list_elem_of_lookup_2 in H. destruct (Hin a l H). lia. }
    split_and!.
    + intros a l [[= -> ->]|H]%elem_of_cons; [lia|]. destruct (Hin a l H). lia.
    + intros [|i] [|j] a l a' l' Hij; cbn; try lia; intros; simplify_eq; [by eapply Hhd|].
      eapply (Hord i j); [lia|done..].
    + intros a l [[= -> ->]|H]%elem_of_cons.
      * exists fl. split; [by left|]. apply align_up_spec, flags_bits_nonneg.
      * destruct (Hal a l H) as (f & ? & ?). exists f. split; [by right|done].
Qed.

Lemma bump_requests_disjoint_witness :
  exists gs c', requests 64 [(100, 34); (5000, 34); (2 ^ 30, 34); (64, 16 * 2 ^ 24 + 34)]
                  (Spike.core_init 1000) = Ret (gs, c') /\ length gs = 3%nat.
Proof.
  destruct (bump_requests_disjoint 64 (2 ^ 30) 16
    [(100, 34); (5000, 34); (2 ^ 30, 34); (64, 16 * 2 ^ 24 + 34)] (Spike.core_init 1000))
    as (gs & c' & E & _).
  - lia.
  - unfold room. vm_compute. repeat split; discriminate || reflexivity.
  - repeat constructor; vm_compute; discriminate.
  - exists gs, c'. split; [done|]. vm_compute in E. by simplify_eq.
Defined.

(** A length that takes the end of the range around the end of the address
    space passes the bare-metal [mmap]'s bound: the call succeeds, and the whole
    array (and all below it) will be handed out again. *)
Theorem bump_length_wraps w b t prot :
  12 < w -> 0 < b -> b mod 2 ^ 12 = 0 -> b < 2 ^ w -> 0 <= t ->
  mmap w 0 (2 ^ w - b) prot (Z.lor MAP_PRIVATE MAP_ANON) (-1) 0 (Core b t) = Ret (b, None, Core 0 t).
Proof.
  intros Hw Hb Hal Hlt Ht. assert (2 ^ 12 < 2 ^ w) by (apply Z.pow_lt_mono_r; lia).
  unfold mmap. cbn [Z.eqb Pos.eqb negb orb core_base core_top].
  rewrite mmap_align_eq by done. cbn [mbind outcome_bind].
  change (flags_bits _) with 12. unfold uptr.
  rewrite (Z.mod_small (2 ^ 12 - 1)) by lia. rewrite land_mask, Hal by lia. cbn [Z.eqb negb].
  replace (b + (2 ^ w - b)) with (2 ^ w) by lia. rewrite Z_mod_same_full.
  rewrite Z.gtb_ltb. by case_cmp; [lia|].
Qed.

Lemma bump_length_wraps_witness :
  Spike.mmap 0 (2 ^ 64 - 8192) 3 (Z.lor MAP_PRIVATE MAP_ANON) (-1) 0 (Core 8192 20000)
  = Ret (8192, None, Core 0 20000).
Proof. apply (bump_length_wraps 64 8192 20000 3); (reflexivity || discriminate). Defined.

(** On Linux an anonymous request aligned to [2^k], above the page size, is
    answered with memory so aligned whenever [2^k] divides the length, as long
    as the kernel honours fixed mappings. *)
Theorem linux_mmap_aligned {K} (k : Linux.kernel K) pagesz len prot fl s r e s' :
  LinuxFacts.kernel_ok k -> 0 <= len < 2 ^ 62 -> 0 < LinuxFacts.align_bits fl < 63 ->
  pagesz < 2 ^ LinuxFacts.align_bits fl -> len mod 2 ^ LinuxFacts.align_bits fl = 0 ->
  Linux.mmap k pagesz 0 len prot fl (-1) 0 s = Ret (r, e, s') ->
  r = MAP_FAILED \/ r mod 2 ^ LinuxFacts.align_bits fl = 0.
Proof.
  intros Hk Hl Ha Hp Hd E. destruct (LinuxFacts.mmap_residue k pagesz len prot fl s r e s') as [?|[?|?]];
    auto. right. congruence.
Qed.

(** A kernel that always offers the same address. *)
Definition stubborn_kernel : Linux.kernel unit := {|
  Linux.sys_mmap addr len prot fl fd off s :=
    (if Z.land fl MAP_FIXED =? 0 then if len <=? 2 ^ 62 then 20480 else -1
     else if (0 <=? addr) && (addr + len <=? 2 ^ 63) then addr else -1, s);
  Linux.sys_munmap addr len s := (0, s);
|}.

Lemma stubborn_kernel_ok : LinuxFacts.kernel_ok stubborn_kernel.
Proof.
  split; intros; subst r; cbn.
  - repeat case_cmp; cbn; lia.
  - case_cmp; [done|]. repeat case_cmp; cbn; auto.
Qed.

Lemma linux_mmap_aligned_witness :
  Linux.mmap stubborn_kernel 4096 0 65536 3 (16 * 2 ^ 24 + 34) (-1) 0 tt = Ret (65536, None, tt) /\
  (65536 = MAP_FAILED \/ 65536 mod 2 ^ 16 = 0).
Proof.
  assert (E : Linux.mmap stubborn_kernel 4096 0 65536 3 (16 * 2 ^ 24 + 34) (-1) 0 tt
              = Ret (65536, None, tt)) by reflexivity.
  split; [exact E|].
  apply (linux_mmap_aligned stubborn_kernel 4096 65536 3 (16 * 2 ^ 24 + 34) tt 65536 None tt);
    [apply stubborn_kernel_ok|lia|vm_compute; auto|reflexivity|reflexivity|exact E].
Defined.

(** The busy wait of the Linux sleep returns, at the first clock reading
    that is later than the interval asked after the reading it started with. *)
Theorem sleep_fast_path_waits readings start ltp (n : nat) fuel :
  (0 < n < fuel)%nat -> readings 0%nat = Some start ->
  LinuxFacts.reads readings n (fun t => nanos start + nanos ltp < t) ->
  (forall j, (0 < j < n)%nat -> LinuxFacts.reads readings j (fun t => t <= nanos start + nanos ltp)) ->
  Linux.sleep_fast_path fuel readings ltp = Ret (0, None, n).
Proof.
  intros Hn Hs Hlt Hall. unfold Linux.sleep_fast_path. rewrite Hs.
  apply LinuxFacts.fast_path_loop_spec; [lia|done| |lia].
  intros. apply Hall. lia.
Qed.

Lemma sleep_fast_path_waits_witness :
  Linux.sleep_fast_path 10 (fun i => Some (TS (Z.of_nat i) 0)) (TS 2 500) = Ret (0, None, 3%nat).
Proof.
  apply (sleep_fast_path_waits _ (TS 0 0)); [lia|reflexivity|eexists; split; [reflexivity|]; vm_compute; reflexivity|].
  intros [|[|[|j]]] Hj; [lia| | |lia]; (eexists; split; [reflexivity|]; vm_compute; discriminate).
Defined.

End PlatformProperties.
