(* ===== verification/Malloc.v ===== *)
(** * The allocator

    [franken/malloc/malloc.c]: a power-of-two allocator with one free list per
    size class, over pages obtained from [mmap].  The model keeps the free lists
    and the block headers where the code keeps them, in the bytes of memory
    (union overhead: [ov_next] and [ov_alignpad] share the first eight bytes,
    [ov_magic] and [ov_index] are bytes 8 and 9 of the sixteen).  The pages come
    from any [PageSource].  The build modelled is the library's own, without
    RCHECK, MSTATS and MEMALLOC_TESTING, where the lock macros are empty. *)

From S2P Require Import Prelude Libc Platform.
From Stdlib Require Import ZArith Lia.
From stdpp Require Import base numbers list gmap functions.
Local Open Scope Z_scope.

Module Malloc.

Definition MAGIC : Z := 239.
Definition MINSHIFT : Z := 5.
Definition NBUCKETS : Z := 30.
Definition MINALIGN : Z := 16.

(** sizeof (union overhead), and the offsets of its fields. *)
Definition overhead : Z := 16.
Definition ov_magic : Z := 8.
Definition ov_index : Z := 9.

(** The static variables, the memory and the state of the page source. *)
Record heap (P : Type) : Type := Heap {
  nextf : list Z;
  pagesz : Z;
  pagebucket : Z;
  hmem : mem;
  pages : P;
}.
Arguments Heap {P} _ _ _ _ _.
Arguments nextf {P} _.
Arguments pagesz {P} _.
Arguments pagebucket {P} _.
Arguments hmem {P} _.
Arguments pages {P} _.

(** Fresh anonymous memory reads as zero. *)
Definition map_zero (m : mem) (a len : Z) : mem :=
  {| mapped := (a, len) :: mapped m;
     bytes := filter (fun xv => ~ (a <= xv.1 < a + len)) (bytes m) |}.

(** [while (pagesz > amt) { amt <<= 1; bucket++; }] on a 32-bit [amt]. *)
Fixpoint page_loop (fuel : nat) (pagesz amt bucket : Z) : outcome Z :=
  match fuel with
  | O => NoFuel
  | S fuel =>
      if pagesz >? amt then page_loop fuel pagesz (u32 (Z.shiftl amt 1)) (bucket + 1)
      else Ret bucket
  end.

(** [while (allocbytes > amt) ...]; [None] when [amt] wraps to zero. *)
Fixpoint bucket_loop (fuel : nat) (allocbytes amt bucket : Z) : outcome (option Z) :=
  match fuel with
  | O => NoFuel
  | S fuel =>
      if allocbytes >? amt then
        let amt := u32 (Z.shiftl amt 1) in
        if amt =? 0 then Ret None else bucket_loop fuel allocbytes amt (bucket + 1)
      else Ret (Some bucket)
  end.

(** [while (--nblks > 0)]: thread [n] more blocks behind [op]. *)
Fixpoint carve (n : nat) (m : mem) (op sz : Z) : outcome mem :=
  match n with
  | O => store64 m op 0
  | S n =>
      m ← store64 m op (u64 (op + sz));
      op ← load64 m op;
      carve n m op sz
  end.

Section Alloc.
Context {P : Type} `{PageSource P}.

Definition set_mem (h : heap P) (m : mem) : heap P :=
  Heap (nextf h) (pagesz h) (pagebucket h) m (pages h).

(** Indexing the array outside its bounds is undefined. *)
Definition get_nextf (h : heap P) (bucket : Z) : outcome Z :=
  if (0 <=? bucket) && (bucket <? NBUCKETS) then
    match nextf h !! Z.to_nat bucket with Some op => Ret op | None => UB end
  else UB.

Definition set_nextf (h : heap P) (bucket op : Z) : outcome (heap P) :=
  if (0 <=? bucket) && (bucket <? NBUCKETS) then
    Ret (Heap (<[Z.to_nat bucket := op]> (nextf h)) (pagesz h) (pagebucket h) (hmem h) (pages h))
  else UB.

(** [1 << shift] on [int]. *)
Definition int_shl1 (shift : Z) : outcome Z :=
  if (0 <=? shift) && (shift <? 31) then Ret (Z.shiftl 1 shift) else UB.

Definition corealloc (shift : Z) (h : heap P) : outcome (Z * heap P) :=
  one ← int_shl1 shift;
  let len := u64 (one * pagesz h) in
  '(mem, p) ← ps_mmap len (pages h);
  if mem =? MAP_FAILED then Ret (0, Heap (nextf h) (pagesz h) (pagebucket h) (hmem h) p)
  else Ret (mem, Heap (nextf h) (pagesz h) (pagebucket h) (map_zero (hmem h) mem len) p).

(** [amt], [nblks] and [sz] of [morecore]. *)
Definition morecore_sizes (bucket : Z) (h : heap P) : outcome (Z * Z * Z) :=
  if bucket <? pagebucket h then
    b ← int_shl1 (bucket + MINSHIFT);
    let nblks := i64 (pagesz h / b) in
    if nblks =? 0 then UB else Ret (0, nblks, i64 (pagesz h / u64 nblks))
  else Ret (bucket - pagebucket h, 1, 0).

Definition morecore (bucket : Z) (h : heap P) : outcome (heap P) :=
  '(amt, nblks, sz) ← morecore_sizes bucket h;
  '(op, h) ← corealloc amt h;
  if op =? 0 then Ret h
  else
    h ← set_nextf h bucket op;
    m ← carve (Z.to_nat (nblks - 1)) (hmem h) op (u64 sz);
    Ret (set_mem h m).

(** The first call sets the page size and its bucket. *)
Definition init_pagesz (h : heap P) : outcome (heap P) :=
  if pagesz h =? 0 then
    let n := ps_pagesz in
    assert_ (0 <? n);;
    bucket ← page_loop 33 n (Z.shiftl 1 MINSHIFT) 0;
    Ret (Heap (nextf h) n bucket (hmem h) (pages h))
  else Ret h.

Definition round_up (x align : Z) : Z :=
  Z.land (u64 (x + u64 (align - 1))) (u64 (Z.lnot (u64 (align - 1)))).

(** An empty bucket gets more memory. *)
Definition refill (bucket : Z) (h : heap P) : outcome (heap P) :=
  op ← get_nextf h bucket;
  if op =? 0 then morecore bucket h else Ret h.

(** Unlink [op] from its free list and write the header. *)
Definition take_block (bucket op align : Z) (h : heap P) : outcome (Z * heap P) :=
  next ← load64 (hmem h) op;
  h ← set_nextf h bucket next;
  let rv := round_up (u64 (op + overhead)) align in
  let alignpad := u64 (rv - op) in
  let op := u64 (rv - overhead) in
  m ← store8 (hmem h) (op + ov_magic) MAGIC;
  m ← store8 m (op + ov_index) bucket;
  m ← store64 m op alignpad;
  Ret (rv, set_mem h m).

Definition aligned_alloc (align nbytes : Z) (h : heap P) : outcome (Z * heap P) :=
  h ← init_pagesz h;
  if negb (Z.land align (u64 (align - 1)) =? 0) then Ret (0, h)
  else
    let align := if align <? MINALIGN then MINALIGN else align in
    let allocbytes := u64 (nbytes + round_up overhead align) in
    let '(amt, bucket) :=
      if allocbytes <=? pagesz h then (Z.shiftl 1 MINSHIFT, 0) else (u32 (pagesz h), pagebucket h) in
    ob ← bucket_loop 33 allocbytes amt bucket;
    match ob with
    | None => Ret (0, h)
    | Some bucket =>
        h ← refill bucket h;
        op ← get_nextf h bucket;
        if op =? 0 then Ret (0, h)
        else
          take_block bucket op align h
    end.

(** The result and, when it is 0, the pointer stored through [ptr]. *)
Definition posix_memalign (align size : Z) (h : heap P) : outcome (Z * option Z * heap P) :=
  '(mem, h) ← aligned_alloc align size h;
  if mem =? 0 then Ret (ENOMEM, None, h) else Ret (0, Some mem, h).

Definition calloc (nmemb size : Z) (h : heap P) : outcome (Z * heap P) :=
  let n := u64 (nmemb * size) in
  '(mem, h) ← aligned_alloc 8 n h;
  if mem =? 0 then Ret (0, h)
  else '(_, m) ← Str.memset (hmem h) mem 0 n; Ret (mem, set_mem h m).

Definition malloc (size : Z) (h : heap P) : outcome (Z * heap P) := aligned_alloc 0 size h.

Definition free (cp : Z) (h : heap P) : outcome (heap P) :=
  if cp =? 0 then Ret h
  else
    let op := u64 (cp - overhead) in
    magic ← load8 (hmem h) (op + ov_magic);
    if negb (magic =? MAGIC) then Ret h
    else
      size ← load8 (hmem h) (op + ov_index);
      alignpad ← load64 (hmem h) op;
      assert_ (size <? NBUCKETS);;
      let origp := u64 (cp - alignpad) in
      next ← get_nextf h size;
      m ← store64 (hmem h) origp next;
      set_nextf (set_mem h m) size origp.

Definition realloc (cp nbytes : Z) (h : heap P) : outcome (Z * heap P) :=
  if cp =? 0 then malloc nbytes h
  else if nbytes =? 0 then h ← free cp h; Ret (0, h)
  else
    let op := u64 (cp - overhead) in
    size ← load8 (hmem h) (op + ov_index);
    alignpad ← load64 (hmem h) op;
    bsz ← int_shl1 (size + MINSHIFT);
    if nbytes <=? u64 (bsz - alignpad) then Ret (cp, h)
    else
      '(np, h) ← malloc nbytes h;
      if np =? 0 then Ret (0, h)
      else
        '(_, m) ← Str.memcpy (hmem h) np cp (u64 (bsz - alignpad));
        h ← free cp (set_mem h m);
        Ret (np, h).

Definition strdup (fuel : nat) (s : Z) (h : heap P) : outcome (Z * heap P) :=
  l ← Str.strlen fuel (hmem h) s;
  let len := u64 (l + 1) in
  '(str, h) ← malloc len h;
  if str =? 0 then Ret (0, h)
  else '(_, m) ← Str.strcpy fuel (hmem h) str s; Ret (str, set_mem h m).

End Alloc.
End Malloc.

(** ** Arithmetic of the size classes *)

Module MallocArith.
Import Malloc.

(** The size of a block of a bucket. *)
Definition bsize (b : Z) : Z := 2 ^ (b + MINSHIFT).

Lemma bsize_succ b : 0 <= b -> bsize (b + 1) = 2 * bsize b.
Proof.
  intros. unfold bsize, MINSHIFT. replace (b + 1 + 5) with (1 + (b + 5)) by lia.
  rewrite Z.pow_add_r by lia. done.
Qed.

Lemma bsize_mono b b' : 0 <= b <= b' -> bsize b <= bsize b'.
Proof. intros. apply Z.pow_le_mono_r; unfold MINSHIFT; lia. Qed.

Lemma bsize_max b : 0 <= b <= 26 -> 32 <= bsize b <= 2 ^ 31.
Proof.
  intros. split; [apply (bsize_mono 0 b)|apply (bsize_mono b 26)]; lia.
Qed.

Lemma bsize_mod b : 0 <= b -> bsize b mod 16 = 0.
Proof. intros. apply (mod_le_pow _ 4 (b + 5)); [lia|apply Z_mod_same_full]. Qed.

Lemma align_up_overhead k : 4 <= k -> align_up k overhead = 2 ^ k.
Proof.
  intros Hk. assert (2 ^ 4 <= 2 ^ k) by (apply Z.pow_le_mono_r; lia).
  apply align_up_unique; [lia|apply Z_mod_same_full|unfold overhead; lia].
Qed.

(** The next class, or the wrap of the 32-bit counter after the largest. *)
Lemma bsize_shift b :
  0 <= b <= 26 -> u32 (Z.shiftl (bsize b) 1) = if b =? 26 then 0 else bsize (b + 1).
Proof.
  intros Hb. rewrite Z.shiftl_mul_pow2, Z.mul_comm by lia.
  change (2 ^ 1) with 2. rewrite <- bsize_succ by lia. case_cmp; [by subst b|].
  apply u32_small. pose proof (bsize_max (b + 1)). lia.
Qed.

Lemma page_loop_spec fuel n b c :
  0 <= c <= b -> b <= 26 -> n = bsize b -> b - c < Z.of_nat fuel ->
  page_loop fuel n (bsize c) c = Ret b.
Proof.
  intros Hc Hb ->. induction fuel as [|fuel IH] in c, Hc |- *; [lia|]. intros Hf.
  cbn [page_loop]. destruct (decide (c = b)) as [->|].
  - case_cmp; [lia|done].
  - pose proof (bsize_mono (c + 1) b). pose proof (bsize_succ c). pose proof (bsize_max c).
    case_cmp; [|lia]. rewrite bsize_shift by lia. destruct (Z.eqb_spec c 26); [lia|].
    apply IH; lia.
Qed.

(** The loop finds the smallest class from [c] on that holds [n] bytes, and
    gives up exactly when no class does. *)
Lemma bucket_loop_spec fuel n c :
  0 <= c <= 26 -> 26 - c < Z.of_nat fuel ->
  (n <= 2 ^ 31 /\ exists b, bucket_loop fuel n (bsize c) c = Ret (Some b) /\
     c <= b <= 26 /\ n <= bsize b /\ (b = c \/ bsize (b - 1) < n)) \/
  (2 ^ 31 < n /\ bucket_loop fuel n (bsize c) c = Ret None).
Proof.
  intros Hc. induction fuel as [|fuel IH] in c, Hc |- *; [lia|]. intros Hf.
  cbn [bucket_loop]. pose proof (bsize_max c Hc). case_cmp.
  - rewrite bsize_shift by done. destruct (Z.eqb_spec c 26) as [->|].
    + right. change (bsize 26) with (2 ^ 31) in *. split; [lia|done].
    + pose proof (bsize_max (c + 1)). destruct (Z.eqb_spec (bsize (c + 1)) 0); [lia|].
      destruct (IH (c + 1)) as [(? & b & -> & ? & ? & Hmin)|[? ->]]; [lia..| |by right].
      left. split; [done|]. exists b. split_and!; [done|lia..|]. right.
      destruct Hmin as [->|]; [|done]. by replace (c + 1 - 1) with c by lia.
  - left. split; [lia|]. exists c. split_and!; auto; lia.
Qed.

Lemma round_up_eq x k :
  0 <= k < 64 -> 0 <= x -> x + 2 ^ k <= 2 ^ 64 -> round_up x (2 ^ k) = align_up k x.
Proof.
  intros Hk Hx Hb. assert (2 ^ k < 2 ^ 64) by (apply Z.pow_lt_mono_r; lia).
  unfold round_up. rewrite (u64_small (2 ^ k - 1)), u64_small by lia.
  unfold u64. apply align_up_land; lia.
Qed.

(** The bit trick that tests for a power of two. *)
Lemma land_pred a : 0 < a -> Z.land a (a - 1) = 0 -> exists k, 0 <= k /\ a = 2 ^ k.
Proof.
  intros Ha E. exists (Z.log2 a). split; [apply Z.log2_nonneg|].
  destruct (Z.log2_spec a Ha) as [Hlo Hhi].
  destruct (Z.eq_dec a (2 ^ Z.log2 a)) as [|Hne]; [done|exfalso].
  apply (f_equal (fun z => Z.testbit z (Z.log2 a))) in E.
  rewrite Z.land_spec, Z.bit_log2, Z.bits_0 in E by done. cbn [andb] in E.
  assert (Z.log2 (a - 1) = Z.log2 a) as El.
  { apply Z.log2_unique; [apply Z.log2_nonneg|lia]. }
  rewrite <- El in E. rewrite Z.bit_log2 in E; [done|].
  pose proof (Z.pow_pos_nonneg 2 (Z.log2 a)). pose proof (Z.log2_nonneg a). lia.
Qed.

(** The alignment the code works with. *)
Definition eff_align (align : Z) : Z := if align <? MINALIGN then MINALIGN else align.

Lemma align_test align :
  0 <= align < 2 ^ 64 -> Z.land align (u64 (align - 1)) = 0 ->
  exists k, 4 <= k < 64 /\ eff_align align = 2 ^ k.
Proof.
  intros Ha E. unfold eff_align, MINALIGN. case_cmp; [exists 4; split; [lia|done]|].
  rewrite u64_small in E by lia. destruct (land_pred align) as (k & Hk & ->); [lia|done|].
  exists k. split; [|done]. split; [apply Z.pow_le_mono_r_iff with 2|apply Z.pow_lt_mono_r_iff with 2]; lia.
Qed.

(** The padding never exceeds what the size computation set aside for it. *)
Lemma padding_le k op :
  4 <= k < 64 -> op mod 16 = 0 ->
  overhead <= align_up k (op + overhead) - op <= align_up k overhead.
Proof.
  intros Hk Hop. destruct (align_up_spec k (op + overhead)) as [Hm Hr]; [lia|].
  rewrite align_up_overhead by lia.
  apply (mod_le_pow _ 4) in Hm; [|lia]. change (2 ^ 4) with 16 in Hm.
  split; [lia|]. assert (2 ^ k mod 16 = 0) as Hk'.
  { apply (mod_le_pow _ 4 k); [lia|apply Z_mod_same_full]. }
  apply Z.mod_divide in Hm as [p Hp], Hop as [q ->], Hk' as [r Hr']; [|lia..].
  unfold overhead in *. lia.
Qed.

End MallocArith.

(** ** The invariant of the heap

    Every block ever carved out of a page is either on the free list of its
    bucket, exactly once, or live: handed out at an address [rv], with the
    header that [free] needs in the sixteen bytes below [rv]. *)

Module MallocInv.
Import Malloc MallocArith.

(** A null-terminated list of blocks linked through [ov_next]. *)
Fixpoint chain (m : mem) (p : Z) (l : list Z) : Prop :=
  match l with
  | [] => p = 0
  | a :: l => p = a /\ a <> 0 /\ chain m (peekn 8 m a) l
  end.

(** The header of a live block: the block is [a, a + bsize b), the caller's
    memory starts at [rv]. *)
Record header_ok (m : mem) (a b rv : Z) : Prop := {
  hd_lo : a + overhead <= rv;
  hd_hi : rv <= a + bsize b;
  hd_pad : peekn 8 m (rv - overhead) = rv - a;
  hd_magic : peek m (rv - overhead + ov_magic) = MAGIC;
  hd_index : peek m (rv - overhead + ov_index) = b;
}.

Record block_ok (m : mem) (a b : Z) : Prop := {
  blk_bucket : 0 <= b <= 26;
  blk_pos : 0 < a;
  blk_align : a mod 16 = 0;
  blk_end : a + bsize b < MAP_FAILED;
  blk_mapped : range_mapped m a (bsize b);
}.

Section Inv.
Context {P : Type} `{PageSource P}.

(** [bl] gives the bucket of every block and, if it is live, its address;
    [fr] the free list of every bucket. *)
Record inv (h : heap P) (bl : gmap Z (Z * option Z)) (fr : Z -> list Z) : Prop := {
  inv_len : length (nextf h) = Z.to_nat NBUCKETS;
  inv_page : pagesz h = 0 \/
    pagesz h = ps_pagesz /\ 0 <= pagebucket h <= 25 /\ pagesz h = bsize (pagebucket h);
  inv_pages : ps_ok (pages h);
  inv_wf : mem_wf (hmem h);
  inv_mapped x : mapped_at (hmem h) x = true -> ~ ps_free (pages h) x;
  inv_blocks a b st : bl !! a = Some (b, st) -> block_ok (hmem h) a b;
  inv_disj a b st a' b' st' : bl !! a = Some (b, st) -> bl !! a' = Some (b', st') -> a <> a' ->
    apart a (bsize b) a' (bsize b');
  inv_live a b rv : bl !! a = Some (b, Some rv) -> header_ok (hmem h) a b rv;
  inv_chain b p : nextf h !! Z.to_nat b = Some p -> 0 <= b -> chain (hmem h) p (fr b);
  inv_free a b : a ∈ fr b <-> bl !! a = Some (b, None);
  inv_nodup b : NoDup (fr b);
}.

(** The heap holds exactly the allocations of [R], an address and a size each,
    and leaves alone the memory [E] that the program has from elsewhere. *)
Record rep (h : heap P) (R : gmap Z Z) (E : Z -> Prop) (bl : gmap Z (Z * option Z))
    (fr : Z -> list Z) : Prop := {
  rep_inv : inv h bl fr;
  rep_has rv n : R !! rv = Some n ->
    0 <= n /\ exists a b, bl !! a = Some (b, Some rv) /\ rv + n <= a + bsize b;
  rep_only a b rv : bl !! a = Some (b, Some rv) -> is_Some (R !! rv);
  rep_mapped x : E x -> mapped_at (hmem h) x = true;
  rep_outside x a b st : E x -> bl !! a = Some (b, st) -> ~ (a <= x < a + bsize b);
}.

Definition heap_rep (h : heap P) (R : gmap Z Z) (E : Z -> Prop) : Prop :=
  exists bl fr, rep h R E bl fr.

(** The addresses the program may use. *)
Definition owned (R : gmap Z Z) (E : Z -> Prop) (x : Z) : Prop :=
  E x \/ exists rv n, R !! rv = Some n /\ rv <= x < rv + n.

End Inv.
End MallocInv.

(** ** Lemmas on chains, carved pages and blocks *)

Module MallocLemmas.
Import Malloc MallocArith MallocInv.

Lemma chain_ext m m' p l :
  (forall x, x ∈ l -> peekn 8 m' x = peekn 8 m x) -> chain m p l -> chain m' p l.
Proof.
  induction l as [|a l IH] in p |- *; intros Hx; cbn [chain]; [done|]. intros (-> & ? & Hc).
  split_and!; [done..|]. rewrite Hx by by left. apply IH; [|done]. intros x ?. apply Hx. by right.
Qed.

Lemma header_ext m m' a b rv :
  (forall x, a <= x < a + bsize b -> peek m' x = peek m x) -> header_ok m a b rv -> header_ok m' a b rv.
Proof.
  unfold overhead, ov_magic, ov_index. intros Hx [? ? Hp Hm Hi].
  unfold overhead, ov_magic, ov_index in *. split; unfold overhead, ov_magic, ov_index; [done..| | |].
  - rewrite <- Hp. apply peekn_ext. intros x ?. apply Hx. lia.
  - rewrite Hx by lia. done.
  - rewrite Hx by lia. done.
Qed.

Lemma in_range_iff x a n : in_range x (a, n) = true <-> a <= x < a + n.
Proof. unfold in_range. cbn. rewrite andb_true_iff, Z.leb_le, Z.ltb_lt. done. Qed.

Lemma mapped_at_map_zero m a len x :
  mapped_at (map_zero m a len) x = in_range x (a, len) || mapped_at m x.
Proof. done. Qed.

Lemma peek_map_zero_out m a len x :
  x < a \/ a + len <= x -> peek (map_zero m a len) x = peek m x.
Proof.
  intros Hx. unfold peek, map_zero. cbn. f_equal. destruct (bytes m !! x) as [v|] eqn:E.
  - apply map_lookup_filter_Some. split; [done|cbn; lia].
  - apply map_lookup_filter_None. by left.
Qed.

Lemma peek_map_zero_in m a len x : a <= x < a + len -> peek (map_zero m a len) x = 0.
Proof.
  intros Hx. unfold peek, map_zero. cbn.
  replace (filter _ _ !! x) with (@None Z); [done|]. symmetry.
  apply map_lookup_filter_None. right. cbn. intros. lia.
Qed.

Lemma mem_wf_map_zero m a len : mem_wf m -> mem_wf (map_zero m a len).
Proof.
  intros Hm x. destruct (decide (a <= x < a + len)).
  - rewrite peek_map_zero_in by done. lia.
  - rewrite peek_map_zero_out by lia. apply Hm.
Qed.

(** The addresses of [n + 1] blocks of [sz] bytes from [op] on. *)
Fixpoint blocks_from (n : nat) (op sz : Z) : list Z :=
  match n with
  | O => [op]
  | S n => op :: blocks_from n (op + sz) sz
  end.

Lemma elem_of_blocks_from n op sz x :
  x ∈ blocks_from n op sz <-> exists i, 0 <= i <= Z.of_nat n /\ x = op + i * sz.
Proof.
  induction n as [|n IH] in op |- *; cbn [blocks_from].
  - rewrite list_elem_of_singleton. split; [intros ->; exists 0; lia|]. intros (i & ? & ->).
    replace i with 0 by lia. lia.
  - rewrite elem_of_cons, IH. split.
    + intros [->|(i & ? & ->)]; [exists 0; lia|]. exists (i + 1). lia.
    + intros (i & ? & ->). destruct (decide (i = 0)) as [->|]; [left; lia|].
      right. exists (i - 1). lia.
Qed.

Lemma NoDup_blocks_from n op sz : 0 < sz -> NoDup (blocks_from n op sz).
Proof.
  intros Hsz. induction n as [|n IH] in op |- *; cbn [blocks_from].
  - apply NoDup_singleton.
  - apply list.NoDup_cons. split; [|apply IH]. rewrite elem_of_blocks_from. intros (i & ? & ?). nia.
Qed.

Lemma carve_spec n m op sz :
  mem_wf m -> 16 <= sz -> 0 < op -> op + (Z.of_nat n + 1) * sz < 2 ^ 64 ->
  range_mapped m op ((Z.of_nat n + 1) * sz) ->
  exists m', carve n m op sz = Ret m' /\ chain m' op (blocks_from n op sz) /\
    same_outside m m' op ((Z.of_nat n + 1) * sz) /\ mem_wf m'.
Proof.
  intros Hm Hsz. induction n as [|n IH] in m, op, Hm |- *; intros Hop Hend Hmap; cbn [carve blocks_from].
  - rewrite storen_mapped by (eapply range_mapped_sub; [done|lia..]).
    eexists. split; [reflexivity|]. split_and!.
    + cbn [chain]. split_and!; [done|lia|]. by rewrite peekn_poken_eq.
    + split; [apply mapped_poken|]. intros x Hx. apply peek_poken_ne. lia.
    + by apply mem_wf_poken.
  - rewrite storen_mapped by (eapply range_mapped_sub; [done|lia..]). cbn [mbind outcome_bind].
    rewrite loadn_mapped by (apply range_mapped_poken; eapply range_mapped_sub; [done|lia..]).
    cbn [mbind outcome_bind]. rewrite peekn_poken_eq. rewrite u64_small by lia.
    rewrite (Z.mod_small (op + sz)) by (change (256 ^ Z.of_nat 8) with (2 ^ 64); lia).
    destruct (IH (poken 8 m op (op + sz)) (op + sz)) as (m' & E & Hc & [Hmp Hs] & Hw);
      [by apply mem_wf_poken|lia|lia|apply range_mapped_poken; eapply range_mapped_sub; [done|lia..]|].
    exists m'. split; [done|]. split_and!; [| |done].
    + cbn [chain]. split_and!; [done|lia|].
      rewrite (peekn_ext 8 (poken 8 m op (op + sz)) m') by (intros; apply Hs; lia).
      rewrite peekn_poken_eq, Z.mod_small by (change (256 ^ Z.of_nat 8) with (2 ^ 64); lia). done.
    + split; [by rewrite Hmp, mapped_poken|]. intros x Hx.
      rewrite Hs by lia. apply peek_poken_ne. lia.
Qed.

Lemma blocks_from_inside n a sz x :
  0 < sz -> x ∈ blocks_from n a sz -> a <= x /\ x + sz <= a + (Z.of_nat n + 1) * sz.
Proof. intros Hsz (i & Hi & ->)%elem_of_blocks_from. nia. Qed.

Lemma blocks_from_apart n a sz x y :
  0 < sz -> x ∈ blocks_from n a sz -> y ∈ blocks_from n a sz -> x <> y -> apart x sz y sz.
Proof.
  intros Hsz (i & Hi & ->)%elem_of_blocks_from (j & Hj & ->)%elem_of_blocks_from Hne.
  unfold apart. destruct (Z.lt_trichotomy i j) as [?|[->|?]]; [nia|done|nia].
Qed.

Lemma blocks_from_mod n a b x :
  0 <= b -> a mod 16 = 0 -> x ∈ blocks_from n a (bsize b) -> x mod 16 = 0.
Proof.
  intros Hb Ha (i & Hi & ->)%elem_of_blocks_from. unfold bsize, MINSHIFT.
  replace (b + 5) with (b + 1 + 4) by lia. rewrite Z.pow_add_r by lia. change (2 ^ 4) with 16.
  rewrite Z.mul_assoc, Z_mod_plus_full. done.
Qed.

(** Blocks entered into the map as free. *)
Definition add_blocks (l : list Z) (b : Z) (bl : gmap Z (Z * option Z)) : gmap Z (Z * option Z) :=
  foldr (fun a => <[a := (b, None)]>) bl l.

Lemma lookup_add_blocks l b bl x :
  add_blocks l b bl !! x = if decide (x ∈ l) then Some (b, None) else bl !! x.
Proof.
  induction l as [|a l IH].
  - by rewrite decide_False by apply not_elem_of_nil.
  - change (add_blocks (a :: l) b bl) with (<[a := (b, None)]> (add_blocks l b bl)).
    destruct (decide (a = x)) as [->|Hne].
    + rewrite lookup_insert_eq. rewrite decide_True by (by left). done.
    + rewrite lookup_insert_ne, IH by done. apply decide_ext. rewrite elem_of_cons.
      split; [by right|by intros [->|]].
Qed.

Lemma add_blocks_Some l b bl x b' st :
  add_blocks l b bl !! x = Some (b', st) ->
  (x ∈ l /\ b' = b /\ st = None) \/ (~ x ∈ l /\ bl !! x = Some (b', st)).
Proof.
  rewrite lookup_add_blocks. case_decide; [|by right]. intros [= <- <-]. by left.
Qed.

Lemma apart_sym a n a' n' : apart a n a' n' -> apart a' n' a n.
Proof. unfold apart. lia. Qed.

Lemma apart_intro a n a' n' : (forall x, a <= x < a + n -> a' <= x < a' + n' -> False) -> apart a n a' n'.
Proof.
  intros Hx. unfold apart. destruct (decide (a <= a')).
  - destruct (decide (a' < a + n)), (decide (0 < n')); try lia. destruct (Hx a'); lia.
  - destruct (decide (a < a' + n')), (decide (0 < n)); try lia. destruct (Hx a); lia.
Qed.

End MallocLemmas.

(** ** Changes of the heap that keep the invariant *)

Module MallocSteps.
Import Malloc MallocArith MallocInv MallocLemmas.

Section Steps.
Context {P : Type} `{PageSource P}.
Implicit Types (h : heap P) (bl : gmap Z (Z * option Z)) (fr : Z -> list Z).

Lemma inv_inside h bl fr a b st x :
  inv h bl fr -> bl !! a = Some (b, st) -> a <= x < a + bsize b -> 0 < x < 2 ^ 64 - 1.
Proof.
  intros Hi Ha Hx. destruct (inv_blocks _ _ _ Hi a b st Ha). unfold MAP_FAILED in *. lia.
Qed.

(** Writing inside a block does not touch the other blocks. *)
Lemma other_block_same h bl fr m' a b st a' b' st' x :
  inv h bl fr -> bl !! a = Some (b, st) -> same_outside (hmem h) m' a (bsize b) ->
  bl !! a' = Some (b', st') -> a' <> a -> a' <= x < a' + bsize b' ->
  peek m' x = peek (hmem h) x.
Proof.
  intros Hi Ha [_ Hs] Ha' Hne Hx. apply Hs.
  pose proof (inv_disj _ _ _ Hi _ _ _ _ _ _ Ha' Ha Hne) as Hd.
  pose proof (blk_bucket _ _ _ (inv_blocks _ _ _ Hi _ _ _ Ha)).
  pose proof (bsize_max b). unfold apart in Hd. lia.
Qed.

Lemma free_block_same h bl fr m' a b st a' b' :
  inv h bl fr -> bl !! a = Some (b, st) -> same_outside (hmem h) m' a (bsize b) ->
  bl !! a' = Some (b', None) -> a' <> a -> peekn 8 m' a' = peekn 8 (hmem h) a'.
Proof.
  intros Hi Ha Hs Ha' Hne. apply peekn_ext. intros i Hx.
  pose proof (blk_bucket _ _ _ (inv_blocks _ _ _ Hi _ _ _ Ha')).
  pose proof (bsize_max b'). apply (other_block_same h bl fr m' a b st a' b' None); done || lia.
Qed.

(** A change of state keeps the bucket. *)
Lemma lookup_bucket bl a b st0 st a' b' st' :
  bl !! a = Some (b, st0) -> <[a := (b, st)]> bl !! a' = Some (b', st') ->
  exists st'', bl !! a' = Some (b', st'').
Proof.
  intros Ha Ha'. destruct (decide (a = a')) as [<-|];
    [rewrite lookup_insert_eq in Ha'|rewrite lookup_insert_ne in Ha' by done]; simplify_eq; eauto.
Qed.

(** One block changes its state: its bytes, and the free list of its bucket. *)
Lemma inv_update h bl fr a b st0 st m' p l :
  inv h bl fr -> bl !! a = Some (b, st0) ->
  same_outside (hmem h) m' a (bsize b) -> mem_wf m' ->
  (forall rv, st = Some rv -> header_ok m' a b rv) ->
  chain m' p l -> NoDup l ->
  (forall x, x ∈ l <-> (x = a /\ st = None) \/ (x <> a /\ x ∈ fr b)) ->
  inv (Heap (<[Z.to_nat b := p]> (nextf h)) (pagesz h) (pagebucket h) m' (pages h))
      (<[a := (b, st)]> bl) (<[b := l]> fr).
Proof.
  intros Hi Ha Hs Hw Hh Hc Hnd Hl. pose proof (blk_bucket _ _ _ (inv_blocks _ _ _ Hi _ _ _ Ha)) as Hb.
  split; cbn [nextf pagesz pagebucket hmem pages].
  - rewrite length_insert. apply Hi.
  - apply Hi.
  - apply Hi.
  - done.
  - intros x. unfold mapped_at. rewrite (proj1 Hs). apply (inv_mapped _ _ _ Hi).
  - intros a' b' st' Ha'. destruct (lookup_bucket _ _ _ _ _ _ _ _ Ha Ha') as [st'' Hold].
    destruct (inv_blocks _ _ _ Hi _ _ _ Hold) as [? ? ? ? Hmp]. split; try done.
    intros i ?. unfold mapped_at. rewrite (proj1 Hs). by apply Hmp.
  - intros a1 b1 s1 a2 b2 s2 H1 H2 Hne.
    destruct (lookup_bucket _ _ _ _ _ _ _ _ Ha H1), (lookup_bucket _ _ _ _ _ _ _ _ Ha H2). by eapply (inv_disj _ _ _ Hi).
  - intros a' b' rv Ha'. destruct (decide (a = a')) as [<-|Hne].
    + rewrite lookup_insert_eq in Ha'. simplify_eq. by apply Hh.
    + rewrite lookup_insert_ne in Ha' by done. eapply header_ext; [|by apply (inv_live _ _ _ Hi)].
      intros x Hx. apply (other_block_same h bl fr m' a b st0 a' b' (Some rv)); done || congruence.
  - intros b' p' Hp' Hb'. destruct (decide (b = b')) as [<-|Hne].
    + rewrite fn_lookup_insert. rewrite list_lookup_insert_eq in Hp'; [by simplify_eq|].
      rewrite (inv_len _ _ _ Hi). unfold NBUCKETS. lia.
    + rewrite fn_lookup_insert_ne by done. rewrite list_lookup_insert_ne in Hp' by lia.
      eapply chain_ext; [|by apply (inv_chain _ _ _ Hi)].
      intros x Hx. apply (inv_free _ _ _ Hi) in Hx. apply (free_block_same h bl fr m' a b st0 x b'); done || congruence.
  - intros x b'. destruct (decide (b = b')) as [<-|Hne].
    + rewrite fn_lookup_insert, Hl. destruct (decide (a = x)) as [<-|].
      * rewrite lookup_insert_eq. split; [intros [[_ ->]|[? _]]; done|intros [= ->]; by left].
      * rewrite lookup_insert_ne, <- (inv_free _ _ _ Hi) by done.
        split; [by intros [[-> _]|[_ ?]]|by right].
    + rewrite fn_lookup_insert_ne by done. destruct (decide (a = x)) as [<-|].
      * rewrite lookup_insert_eq. rewrite (inv_free _ _ _ Hi), Ha. split; congruence.
      * rewrite lookup_insert_ne by done. apply Hi.
  - intros b'. destruct (decide (b = b')) as [<-|Hne].
    + by rewrite fn_lookup_insert.
    + rewrite fn_lookup_insert_ne by done. apply Hi.
Qed.

(** New blocks on the empty free list of a bucket, in memory nobody held. *)
Lemma inv_grow h bl fr b a n m' p' :
  inv h bl fr -> fr b = [] -> 0 <= b <= 26 ->
  let len := (Z.of_nat n + 1) * bsize b in
  0 < a -> a mod 16 = 0 -> a + len < MAP_FAILED ->
  (forall x, a <= x < a + len -> ps_free (pages h) x /\ ~ ps_free p' x) ->
  (forall x, ps_free p' x -> ps_free (pages h) x) -> ps_ok p' ->
  mapped m' = (a, len) :: mapped (hmem h) -> mem_wf m' ->
  (forall x, x < a \/ a + len <= x -> peek m' x = peek (hmem h) x) ->
  chain m' a (blocks_from n a (bsize b)) ->
  inv (Heap (<[Z.to_nat b := a]> (nextf h)) (pagesz h) (pagebucket h) m' p')
      (add_blocks (blocks_from n a (bsize b)) b bl) (<[b := blocks_from n a (bsize b)]> fr).
Proof.
  intros Hi Hnil Hb len Ha Hal Hend Hfree Hsub Hok Hmp Hw Hs Hc. pose proof (bsize_max b Hb) as Hbs.
  set (l := blocks_from n a (bsize b)) in *.
  assert (Hin : forall x, x ∈ l -> a <= x /\ x + bsize b <= a + len).
  { intros x. apply blocks_from_inside. lia. }
  assert (Hold : forall x b' st y, bl !! x = Some (b', st) -> x <= y < x + bsize b' -> y < a \/ a + len <= y).
  { intros x b' st y Hx Hy. destruct (decide (a <= y < a + len)) as [Hy'|]; [|lia].
    destruct (Hfree y Hy') as [Hf _]. destruct (inv_mapped _ _ _ Hi y); [|done].
    replace y with (x + (y - x)) by lia. apply (blk_mapped _ _ _ (inv_blocks _ _ _ Hi _ _ _ Hx)). lia. }
  assert (Hnew : forall x y b' st, x ∈ l -> bl !! y = Some (b', st) -> apart x (bsize b) y (bsize b')).
  { intros x y b' st Hx Hy. apply apart_intro. intros z Hz Hz'.
    destruct (Hin x Hx). pose proof (Hold y b' st z Hy Hz'). lia. }
  split; cbn [nextf pagesz pagebucket hmem pages].
  - rewrite length_insert. apply Hi.
  - apply Hi.
  - done.
  - done.
  - intros x. unfold mapped_at. rewrite Hmp. cbn [existsb]. intros [Hx|Hx]%orb_true_iff Hf.
    + apply in_range_iff in Hx. by destruct (Hfree x Hx).
    + apply (inv_mapped _ _ _ Hi x); auto.
  - intros x b' st [(Hx & -> & ->)|[_ Hx]]%add_blocks_Some.
    + destruct (Hin x Hx). split; [done|lia|by eapply blocks_from_mod; [|done..]; lia|lia|].
      intros i ?. unfold mapped_at. rewrite Hmp. cbn [existsb]. apply orb_true_iff. left.
      apply in_range_iff. lia.
    + destruct (inv_blocks _ _ _ Hi _ _ _ Hx) as [? ? ? ? Hm']. split; try done.
      intros i ?. unfold mapped_at. rewrite Hmp. cbn [existsb]. apply orb_true_iff. right. by apply Hm'.
  - intros x b1 s1 y b2 s2 [(Hx & -> & ->)|[_ Hx]]%add_blocks_Some [(Hy & -> & ->)|[_ Hy]]%add_blocks_Some Hne.
    + eapply blocks_from_apart; done || lia.
    + eauto.
    + apply apart_sym. eauto.
    + by eapply (inv_disj _ _ _ Hi).
  - intros x b' rv [(_ & _ & ?)|[_ Hx]]%add_blocks_Some; [done|].
    eapply header_ext; [|by apply (inv_live _ _ _ Hi)]. intros y Hy. apply Hs. by eapply Hold.
  - intros b' p Hp Hb'. destruct (decide (b = b')) as [<-|Hne].
    + rewrite fn_lookup_insert. rewrite list_lookup_insert_eq in Hp; [by simplify_eq|].
      rewrite (inv_len _ _ _ Hi). unfold NBUCKETS. lia.
    + rewrite fn_lookup_insert_ne by done. rewrite list_lookup_insert_ne in Hp by lia.
      eapply chain_ext; [|by apply (inv_chain _ _ _ Hi)]. intros x Hx%(inv_free _ _ _ Hi).
      pose proof (blk_bucket _ _ _ (inv_blocks _ _ _ Hi _ _ _ Hx)). pose proof (bsize_max b').
      apply peekn_ext. intros i ?. apply Hs. apply (Hold x b' None); [done|lia].
  - intros x b'. rewrite lookup_add_blocks. destruct (decide (b = b')) as [<-|Hne].
    + rewrite fn_lookup_insert. fold l. case_decide; [done|].
      rewrite <- (inv_free _ _ _ Hi), Hnil. split; [done|]. by intros ?%not_elem_of_nil.
    + rewrite fn_lookup_insert_ne by done. fold l. case_decide as Hx; [|apply Hi].
      split; [|congruence]. intros Hx'%(inv_free _ _ _ Hi).
      pose proof (blk_bucket _ _ _ (inv_blocks _ _ _ Hi _ _ _ Hx')). pose proof (bsize_max b').
      destruct (Hin x Hx), (Hold x b' None x Hx'); lia.
  - intros b'. destruct (decide (b = b')) as [<-|Hne].
    + rewrite fn_lookup_insert. apply NoDup_blocks_from. lia.
    + rewrite fn_lookup_insert_ne by done. apply Hi.
Qed.

Lemma get_nextf_eq h bl fr b :
  inv h bl fr -> 0 <= b < NBUCKETS ->
  exists p, get_nextf h b = Ret p /\ chain (hmem h) p (fr b) /\ nextf h !! Z.to_nat b = Some p.
Proof.
  intros Hi Hb. unfold get_nextf. replace ((0 <=? b) && (b <? NBUCKETS)) with true
    by (symmetry; apply andb_true_iff; split; [apply Z.leb_le|apply Z.ltb_lt]; lia).
  destruct (lookup_lt_is_Some_2 (nextf h) (Z.to_nat b)) as [p Hp].
  { rewrite (inv_len _ _ _ Hi). lia. }
  exists p. rewrite Hp. split_and!; [done| |done]. apply (inv_chain _ _ _ Hi); [done|lia].
Qed.

Lemma set_nextf_eq h b p :
  0 <= b < NBUCKETS ->
  set_nextf h b p = Ret (Heap (<[Z.to_nat b := p]> (nextf h)) (pagesz h) (pagebucket h) (hmem h) (pages h)).
Proof.
  intros Hb. unfold set_nextf. replace ((0 <=? b) && (b <? NBUCKETS)) with true; [done|].
  symmetry. apply andb_true_iff. split; [apply Z.leb_le|apply Z.ltb_lt]; lia.
Qed.

Lemma int_shl1_eq n : 0 <= n < 31 -> int_shl1 n = Ret (2 ^ n).
Proof.
  intros Hn. unfold int_shl1. replace ((0 <=? n) && (n <? 31)) with true.
  - by rewrite Z.shiftl_1_l.
  - symmetry. apply andb_true_iff. split; [apply Z.leb_le|apply Z.ltb_lt]; lia.
Qed.

(** The plan of [morecore]: how many blocks of the bucket it gets from a
    request of how many bytes. *)
Lemma morecore_plan h b :
  0 <= b <= 26 -> 0 <= pagebucket h <= 25 -> pagesz h = bsize (pagebucket h) ->
  exists shift n sz,
    morecore_sizes b h = Ret (shift, Z.of_nat n + 1, sz) /\
    0 <= shift <= 26 /\ 2 ^ shift * pagesz h = (Z.of_nat n + 1) * bsize b /\
    (Z.of_nat n + 1) * bsize b <= 2 ^ 31 /\ (n = 0%nat \/ sz = bsize b).
Proof.
  intros Hb Hpb Hp. unfold morecore_sizes. pose proof (bsize_max (pagebucket h)). case_cmp.
  - unfold MINSHIFT. rewrite int_shl1_eq by lia. cbn [mbind outcome_bind].
    assert (pagesz h = 2 ^ (pagebucket h - b) * bsize b) as E'.
    { rewrite Hp. unfold bsize, MINSHIFT. rewrite <- Z.pow_add_r by lia. f_equal. lia. }
    assert (2 ^ (pagebucket h - b) <= 2 ^ 25) by (apply Z.pow_le_mono_r; lia).
    assert (0 < 2 ^ (pagebucket h - b)) by lia.
    pose proof (bsize_max b Hb). change (2 ^ (b + 5)) with (bsize b).
    rewrite E', Z.div_mul, i64_small by lia. destruct (Z.eqb_spec (2 ^ (pagebucket h - b)) 0); [lia|].
    rewrite u64_small, (Z.mul_comm _ (bsize b)), Z.div_mul, i64_small by lia.
    exists 0, (Z.to_nat (2 ^ (pagebucket h - b) - 1)), (bsize b).
    rewrite Z2Nat.id by lia. split_and!; [do 3 f_equal; lia|lia..|by right].
  - pose proof (bsize_max b Hb). exists (b - pagebucket h), 0%nat, 0. split_and!; [done|lia..| |lia|by left].
    rewrite Hp. unfold bsize, MINSHIFT. rewrite <- Z.pow_add_r by lia. rewrite Z.mul_1_l. f_equal. lia.
Qed.

(** The page source refuses a request. *)
Definition no_memory h : Prop :=
  exists len p', 0 < len <= 2 ^ 31 /\ ps_mmap len (pages h) = Ret (MAP_FAILED, p').

(** The program's memory is the same after the operation, [T] apart. *)
Definition keeps h h' (T : Z -> Prop) : Prop :=
  forall x, mapped_at (hmem h) x = true -> ~ T x ->
    mapped_at (hmem h') x = true /\ peek (hmem h') x = peek (hmem h) x.

(** The addresses of the free blocks. *)
Definition in_free bl (x : Z) : Prop :=
  exists a b, bl !! a = Some (b, None) /\ a <= x < a + bsize b.

Definition same_live bl bl' : Prop :=
  forall a b rv, bl' !! a = Some (b, Some rv) <-> bl !! a = Some (b, Some rv).

(** A change of the page source alone. *)
Lemma inv_pages_change h bl fr p' :
  inv h bl fr -> ps_ok p' -> (forall x, ps_free p' x -> ps_free (pages h) x) ->
  inv (Heap (nextf h) (pagesz h) (pagebucket h) (hmem h) p') bl fr.
Proof.
  intros [? ? ? ? Hm ? ? ? ? ? ?] Hok Hsub. split; cbn; try done. intros x Hx Hf. apply (Hm x); auto.
Qed.

Lemma corealloc_spec h shift len :
  ps_ok (pages h) -> 0 <= shift <= 26 -> 2 ^ shift * pagesz h = len -> 0 < len <= 2 ^ 31 ->
  exists a p', ps_ok p' /\ (forall x, ps_free p' x -> ps_free (pages h) x) /\
    ((a = 0 /\ ps_mmap len (pages h) = Ret (MAP_FAILED, p') /\ corealloc shift h = Ret (0, Heap (nextf h) (pagesz h) (pagebucket h) (hmem h) p')) \/
     (0 < a /\ a mod 16 = 0 /\ a + len < MAP_FAILED /\
        (forall x, a <= x < a + len -> ps_free (pages h) x /\ ~ ps_free p' x) /\
        corealloc shift h =
          Ret (a, Heap (nextf h) (pagesz h) (pagebucket h) (map_zero (hmem h) a len) p'))).
Proof.
  intros Hok Hs <- Hl. unfold corealloc. rewrite int_shl1_eq by lia. cbn [mbind outcome_bind].
  rewrite u64_small by lia.
  destruct (ps_mmap_spec (2 ^ shift * pagesz h) (pages h)) as (a & p' & -> & Hok' & Hsub & Ha); [done|lia|].
  cbn [mbind outcome_bind]. destruct (Z.eqb_spec a MAP_FAILED) as [->|].
  - exists 0, p'. split_and!; [done..|]. by left.
  - destruct Ha as (Ha & Hmod & Hend & Hfree); [done|]. exists a, p'. split_and!; [done..|]. right.
    split_and!; try done. destruct ps_pagesz_pow as (b & Hb & E). rewrite E in Hmod.
    apply (mod_le_pow _ 4) in Hmod; [done|lia].
Qed.

Lemma morecore_spec h bl fr b :
  inv h bl fr -> pagesz h <> 0 -> 0 <= b <= 26 -> fr b = [] ->
  exists h' bl' fr', morecore b h = Ret h' /\ inv h' bl' fr' /\ same_live bl bl' /\
    keeps h h' (fun _ => False) /\ pagesz h' = pagesz h /\ (fr' b = [] -> no_memory h) /\
    (forall x, in_free bl' x -> in_free bl x \/ mapped_at (hmem h) x = false).
Proof.
  intros Hi Hpz Hb Hnil. destruct (inv_page _ _ _ Hi) as [|(_ & Hpb & Hp)]; [done|].
  destruct (morecore_plan h b Hb Hpb Hp) as (shift & n & sz & E & Hsh & Hlen & Hsz).
  pose proof (bsize_max b Hb). set (len := (Z.of_nat n + 1) * bsize b) in *.
  unfold morecore. rewrite E. cbn [mbind outcome_bind].
  destruct (corealloc_spec h shift len) as (a & p' & Hok & Hsub & [(-> & Hno & ->)|(Ha & Hal & Hend & Hfree & ->)]);
    [apply Hi|lia|done|nia|..]; cbn [mbind outcome_bind].
  { eexists _, bl, fr. split; [reflexivity|]. split_and!; try done.
    - by apply inv_pages_change.
    - intros _. exists len, p'. split; [nia|done].
    - by left. }
  destruct (Z.eqb_spec a 0); [lia|]. rewrite set_nextf_eq by (unfold NBUCKETS; lia).
  cbn [mbind outcome_bind nextf pagesz pagebucket hmem pages].
  replace (Z.to_nat (Z.of_nat n + 1 - 1)) with n by lia.
  assert (carve n (map_zero (hmem h) a len) a (u64 sz) = carve n (map_zero (hmem h) a len) a (bsize b)) as ->.
  { destruct Hsz as [_ [->| ->]]; [done|]. rewrite u64_small; [done|lia]. }
  destruct (carve_spec n (map_zero (hmem h) a len) a (bsize b)) as (m' & -> & Hc & [Hmp Hs] & Hw).
  { apply mem_wf_map_zero, Hi. } { lia. } { done. } { fold len. unfold MAP_FAILED in Hend. lia. }
  { intros i Hx. rewrite mapped_at_map_zero. apply orb_true_iff. left. apply in_range_iff. unfold len. lia. }
  fold len in Hs.
  assert (Hout : forall x, x < a \/ a + len <= x -> peek m' x = peek (hmem h) x).
  { intros x Hx. rewrite Hs by done. by apply peek_map_zero_out. }
  assert (Hmap : forall x, a <= x < a + len -> mapped_at (hmem h) x = false).
  { intros x Hx. apply not_true_is_false. intros Hx'. by apply (inv_mapped _ _ _ Hi x Hx'), Hfree. }
  eexists _, (add_blocks (blocks_from n a (bsize b)) b bl), (<[b := blocks_from n a (bsize b)]> fr).
  split; [reflexivity|]. unfold set_mem. cbn [nextf pagesz pagebucket hmem pages]. split_and!.
  - by apply inv_grow.
  - intros x c rv. rewrite lookup_add_blocks. case_decide as Hx; [|done]. split; [done|]. intros Hx'.
    pose proof (blk_mapped _ _ _ (inv_blocks _ _ _ Hi _ _ _ Hx') 0) as Hm0.
    pose proof (bsize_max c (blk_bucket _ _ _ (inv_blocks _ _ _ Hi _ _ _ Hx'))).
    pose proof (blocks_from_inside n a (bsize b) x ltac:(lia) Hx).
    rewrite Z.add_0_r, Hmap in Hm0 by (unfold len; lia). discriminate Hm0. lia.
  - intros x Hx _. cbn [hmem]. unfold mapped_at. rewrite Hmp. split; [apply orb_true_iff; by right|].
    apply Hout. destruct (decide (a <= x < a + len)); [|lia]. by rewrite Hmap in Hx.
  - done.
  - rewrite fn_lookup_insert. by destruct n.
  - intros y (x & c & [(Hx & -> & _)|[_ Hx]]%add_blocks_Some & Hy); [|left; by exists x, c].
    right. apply Hmap. pose proof (blocks_from_inside n a (bsize b) x ltac:(lia) Hx). unfold len. lia.
Qed.

Lemma init_spec h bl fr :
  inv h bl fr ->
  exists h', init_pagesz h = Ret h' /\ inv h' bl fr /\ pagesz h' <> 0 /\
    hmem h' = hmem h /\ pages h' = pages h /\ nextf h' = nextf h.
Proof.
  intros Hi. unfold init_pagesz. destruct (Z.eqb_spec (pagesz h) 0); [|by exists h].
  destruct ps_pagesz_pow as (b & Hb & E). change (2 ^ (b + 5)) with (bsize b) in E.
  pose proof (bsize_max b). rewrite E. unfold assert_. destruct (Z.ltb_spec 0 (bsize b)); [|lia].
  cbn [mbind outcome_bind]. change (Z.shiftl 1 MINSHIFT) with (bsize 0).
  rewrite (page_loop_spec 33 (bsize b) b 0) by lia. cbn [mbind outcome_bind].
  eexists. split; [reflexivity|]. cbn. split_and!; try done; [|lia].
  destruct Hi. split; cbn; try done. right. rewrite E. done.
Qed.

(** The header writes of [take_block], on the bytes of memory. *)
Definition put_header (m : mem) (rv b pad : Z) : mem :=
  poken 8 (poke (poke m (rv - overhead + ov_magic) MAGIC) (rv - overhead + ov_index) b) (rv - overhead) pad.

Lemma put_header_ok m a b rv :
  0 <= b <= 26 -> a + overhead <= rv <= a + bsize b -> header_ok (put_header m rv b (rv - a)) a b rv.
Proof.
  intros Hb Hrv. pose proof (bsize_max b Hb). unfold put_header, overhead, ov_magic, ov_index in *.
  split; unfold overhead, ov_magic, ov_index; [lia..| | |].
  - rewrite peekn_poken_eq. apply Z.mod_small. change (256 ^ Z.of_nat 8) with (2 ^ 64). lia.
  - rewrite peek_poken_ne, peek_poke_ne, peek_poke_eq by lia. done.
  - rewrite peek_poken_ne, peek_poke_eq by lia. apply u8_small. lia.
Qed.

Lemma put_header_same m a b rv :
  a + overhead <= rv <= a + bsize b -> same_outside m (put_header m rv b (rv - a)) a (rv - a).
Proof.
  intros Hrv. unfold put_header, overhead, ov_magic, ov_index in *. split; [by rewrite mapped_poken|].
  intros x Hx. rewrite peek_poken_ne, !peek_poke_ne by lia. done.
Qed.

Lemma take_block_spec h bl fr b op l k :
  inv h bl fr -> fr b = op :: l -> 4 <= k < 64 -> align_up k overhead <= bsize b ->
  let rv := align_up k (op + overhead) in
  let m' := put_header (hmem h) rv b (rv - op) in
  take_block b op (2 ^ k) h =
    Ret (rv, Heap (<[Z.to_nat b := peekn 8 (hmem h) op]> (nextf h)) (pagesz h) (pagebucket h) m' (pages h)) /\
  op + overhead <= rv <= op + align_up k overhead /\
  inv (Heap (<[Z.to_nat b := peekn 8 (hmem h) op]> (nextf h)) (pagesz h) (pagebucket h) m' (pages h))
      (<[op := (b, Some rv)]> bl) (<[b := l]> fr).
Proof.
  intros Hi Hfr Hk Hle rv m'. assert (bl !! op = Some (b, None)) as Hop.
  { apply (inv_free _ _ _ Hi). rewrite Hfr. by left. }
  destruct (inv_blocks _ _ _ Hi _ _ _ Hop) as [Hb Hpos Hal Hend Hmp].
  pose proof (bsize_max b Hb). pose proof (padding_le k op Hk Hal) as Hpad. fold rv in Hpad.
  destruct (get_nextf_eq h bl fr b Hi) as (p & _ & Hc & Hp); [unfold NBUCKETS; lia|].
  rewrite Hfr in Hc. destruct Hc as (-> & Hne & Hc).
  assert (op + bsize b <= 2 ^ 64 - 16).
  { pose proof (bsize_mod b ltac:(lia)) as Hbm. unfold MAP_FAILED in Hend.
    apply Z.mod_divide in Hbm as [u Hu], Hal as [v Hv]; lia. }
  pose proof (put_header_same (hmem h) op b rv ltac:(lia)) as [Hmm Hs]. split_and!; [|lia..|].
  - unfold take_block. rewrite loadn_mapped by (eapply range_mapped_sub; [done|lia..]).
    cbn [mbind outcome_bind]. rewrite set_nextf_eq by (unfold NBUCKETS; lia). cbn [mbind outcome_bind hmem].
    rewrite align_up_overhead in Hle, Hpad by lia. rewrite (u64_small (op + overhead)) by (unfold overhead; lia).
    rewrite round_up_eq by (unfold overhead; lia). fold rv. rewrite !u64_small by (unfold overhead in *; lia).
    rewrite store8_mapped by (rewrite <- (Zplus_minus op (rv - overhead + ov_magic)); apply Hmp;
      unfold overhead, ov_magic in *; lia). cbn [mbind outcome_bind].
    rewrite store8_mapped by (rewrite <- (Zplus_minus op (rv - overhead + ov_index)); apply Hmp;
      unfold overhead, ov_index in *; lia). cbn [mbind outcome_bind].
    rewrite storen_mapped; [done|]. apply (range_mapped_sub _ op (bsize b)); unfold overhead in *; [done|lia..].
  - apply (inv_update h bl fr op b None); [done..| | | | | |].
    + split; [done|]. intros x Hx. apply Hs. lia.
    + by apply mem_wf_poken, mem_wf_poke, mem_wf_poke, Hi.
    + intros ? [= <-]. apply put_header_ok; lia.
    + eapply chain_ext; [|done]. intros x Hx.
      assert (bl !! x = Some (b, None)) as Hx' by (apply (inv_free _ _ _ Hi); rewrite Hfr; by right).
      pose proof (inv_nodup _ _ _ Hi b) as Hnd. rewrite Hfr in Hnd. apply list.NoDup_cons in Hnd as [Hnd _].
      apply (free_block_same h bl fr m' op b None x b); [done..| |done|congruence].
      split; [done|]. intros y Hy. apply Hs. lia.
    + pose proof (inv_nodup _ _ _ Hi b) as Hnd. rewrite Hfr in Hnd. by apply list.NoDup_cons in Hnd as [_ ?].
    + intros x. pose proof (inv_nodup _ _ _ Hi b) as Hnd. rewrite Hfr in Hnd |- *.
      apply list.NoDup_cons in Hnd as [Hnd _]. rewrite elem_of_cons. split.
      * intros Hx. right. split; [congruence|by right].
      * by intros [[_ ?]|[? [?|?]]].
Qed.

(** The start of the search gives a class of the right size. *)
Lemma find_bucket h bl fr n :
  inv h bl fr -> pagesz h <> 0 ->
  let '(amt, c) := if n <=? pagesz h then (Z.shiftl 1 MINSHIFT, 0) else (u32 (pagesz h), pagebucket h) in
  (exists b, bucket_loop 33 n amt c = Ret (Some b) /\ 0 <= b <= 26 /\ n <= bsize b) \/
  (2 ^ 31 < n /\ bucket_loop 33 n amt c = Ret None).
Proof.
  intros Hi Hpz. destruct (inv_page _ _ _ Hi) as [|(_ & Hpb & Hp)]; [done|].
  pose proof (bsize_max (pagebucket h)). case_cmp.
  - change (Z.shiftl 1 MINSHIFT) with (bsize 0).
    destruct (bucket_loop_spec 33 n 0) as [(? & b & ? & ? & ? & ?)|[? ?]]; [lia..| |by right].
    left. exists b. split_and!; [done|lia..].
  - rewrite u32_small by lia. rewrite Hp.
    destruct (bucket_loop_spec 33 n (pagebucket h)) as [(? & b & ? & ? & ? & ?)|[? ?]]; [lia..| |by right].
    left. exists b. split_and!; [done|lia..].
Qed.

(** A block for bucket [b] is on its free list after [morecore], if need be. *)
Lemma refill_spec h bl fr b :
  inv h bl fr -> pagesz h <> 0 -> 0 <= b <= 26 ->
  exists op h' bl' fr',
    refill b h = Ret h' /\ get_nextf h' b = Ret op /\
    inv h' bl' fr' /\ same_live bl bl' /\ keeps h h' (fun _ => False) /\
    (forall x, in_free bl' x -> in_free bl x \/ mapped_at (hmem h) x = false) /\
    ((op = 0 /\ no_memory h) \/ (op <> 0 /\ exists l, fr' b = op :: l)).
Proof.
  intros Hi Hpz Hb. destruct (get_nextf_eq h bl fr b Hi) as (p & E & Hc & _); [unfold NBUCKETS; lia|].
  unfold refill. rewrite E. cbn [mbind outcome_bind]. destruct (fr b) as [|op l] eqn:Hfr.
  - rewrite Hc. cbn [Z.eqb].
    destruct (morecore_spec h bl fr b) as (h' & bl' & fr' & -> & Hi' & Hsl & Hk & Hpz' & Hno & Hfree); try done.
    destruct (get_nextf_eq h' bl' fr' b Hi') as (p' & E' & Hc' & _); [unfold NBUCKETS; lia|].
    exists p', h', bl', fr'. split_and!; try done.
    destruct (fr' b) as [|op l]; [left; auto|]. right. destruct Hc' as (-> & ? & _). eauto.
  - destruct Hc as (-> & Hne & _). apply Z.eqb_neq in Hne as Hne'. rewrite Hne'.
    exists op, h, bl, fr. split_and!; try done; [by left|]. right. eauto.
Qed.

(** The size the code looks for. *)
Definition alloc_size (align nbytes : Z) : Z := u64 (nbytes + eff_align align).

(** The block of [rv] is new in [bl'], and nothing else became live. *)
Record new_block bl bl' (align nbytes rv op b : Z) : Prop := {
  nb_here : bl' !! op = Some (b, Some rv);
  nb_fresh c r : bl !! op <> Some (c, Some r);
  nb_rest a c r : a <> op -> bl' !! a = Some (c, Some r) <-> bl !! a = Some (c, Some r);
  nb_size : alloc_size align nbytes <= bsize b;
  nb_pad : op + overhead <= rv <= op + eff_align align;
  nb_align : rv mod eff_align align = 0;
}.

Lemma aligned_alloc_inv align nbytes h bl fr :
  inv h bl fr -> 0 <= align < 2 ^ 64 -> 0 <= nbytes < 2 ^ 64 ->
  eff_align align <= Z.max 32 (alloc_size align nbytes) ->
  exists rv h' bl' fr', aligned_alloc align nbytes h = Ret (rv, h') /\ inv h' bl' fr' /\
    keeps h h' (in_free bl) /\
    (forall x, in_free bl' x -> in_free bl x \/ mapped_at (hmem h) x = false) /\
    ((rv = 0 /\ same_live bl bl' /\
        (Z.land align (u64 (align - 1)) <> 0 \/ 2 ^ 31 < alloc_size align nbytes \/ no_memory h)) \/
     (0 < rv /\ exists op b, new_block bl bl' align nbytes rv op b /\
        (forall x, op <= x < op + bsize b -> in_free bl x \/ mapped_at (hmem h) x = false))).
Proof.
  intros Hi Ha Hn Hsz. destruct (init_spec h bl fr Hi) as (h1 & E1 & Hi1 & Hpz & Hm1 & Hp1 & _).
  unfold aligned_alloc. rewrite E1. cbn [mbind outcome_bind]. case_cmp.
  { exists 0, h1, bl, fr. split_and!; try done; [|by left|].
    - intros x ?. by rewrite Hm1.
    - left. split_and!; [done..|]. by left. }
  destruct (align_test align Ha) as (k & Hk & Hal); [done|]. fold (eff_align align).
  assert (2 ^ k < 2 ^ 64) by (apply Z.pow_lt_mono_r; lia).
  assert (2 ^ k <= 2 ^ 63) by (apply Z.pow_le_mono_r; lia).
  rewrite Hal in Hsz |- *. rewrite round_up_eq, align_up_overhead by (unfold overhead; lia).
  assert (u64 (nbytes + 2 ^ k) = alloc_size align nbytes) as -> by (unfold alloc_size; by rewrite Hal).
  pose proof (find_bucket h1 bl fr (alloc_size align nbytes) Hi1 Hpz) as Hfind.
  destruct (if _ <=? pagesz h1 then _ else _) as [amt c0].
  destruct Hfind as [(b & -> & Hb & Hfit)|[Hbig ->]]; cbn [mbind outcome_bind].
  2: { exists 0, h1, bl, fr. split_and!; try done; [|by left|].
       - intros x ?. by rewrite Hm1.
       - left. split_and!; [done..|]. right. by left. }
  destruct (refill_spec h1 bl fr b Hi1 Hpz Hb)
    as (op & h2 & bl2 & fr2 & -> & E2 & Hi2 & Hsl & Hk2 & Hfree & Hop).
  cbn [mbind outcome_bind]. rewrite E2. cbn [mbind outcome_bind]. rewrite Hm1 in Hfree.
  assert (Hk2' : keeps h h2 (in_free bl)).
  { intros x Hx _. rewrite <- Hm1 in Hx |- *. apply Hk2; [done|by intros []]. }
  destruct Hop as [[-> Hno]|[Hne [l Hl]]].
  { exists 0, h2, bl2, fr2. split_and!; try done. left. split_and!; [done..|].
    right. right. unfold no_memory in *. by rewrite Hp1 in Hno. }
  apply Z.eqb_neq in Hne as ->. pose proof (bsize_max b Hb).
  destruct (take_block_spec h2 bl2 fr2 b op l k Hi2 Hl Hk) as (-> & Hpad & Hi3).
  { rewrite align_up_overhead by lia. lia. }
  rewrite align_up_overhead in Hpad by lia.
  assert (bl2 !! op = Some (b, None)) as Hopf.
  { apply (inv_free _ _ _ Hi2). rewrite Hl. by left. }
  assert (Hblk : forall x, op <= x < op + bsize b -> in_free bl x \/ mapped_at (hmem h) x = false).
  { intros x Hx. apply Hfree. by exists op, b. }
  set (rv := align_up k (op + overhead)) in *.
  destruct (inv_blocks _ _ _ Hi2 _ _ _ Hopf) as [_ Hpos _ _ _].
  eexists _, _, _, _. split; [reflexivity|]. split; [exact Hi3|]. split_and!.
  - intros x Hx Hnf. destruct (Hk2' x Hx Hnf) as [Hx2 <-]. cbn [hmem].
    destruct (put_header_same (hmem h2) op b rv ltac:(lia)) as [Hmm Hs].
    split; [unfold mapped_at; by rewrite Hmm|]. apply Hs.
    destruct (decide (op <= x < op + bsize b)) as [Hin|]; [|lia].
    destruct (Hblk x Hin); congruence.
  - intros x (a & c & Hac & Hx). apply Hfree. exists a, c. split; [|done].
    destruct (decide (op = a)) as [->|]; [by rewrite lookup_insert_eq in Hac|].
    by rewrite lookup_insert_ne in Hac by done.
  - right. split; [unfold overhead in Hpad; lia|]. exists op, b. split; [|exact Hblk]. split.
    + apply lookup_insert_eq.
    + intros c r Hx. apply Hsl in Hx. congruence.
    + intros a c r Hne'. rewrite lookup_insert_ne by done. apply Hsl.
    + done.
    + rewrite Hal. lia.
    + rewrite Hal. apply align_up_spec. lia.
Qed.

Lemma chain_range h bl fr b p : inv h bl fr -> chain (hmem h) p (fr b) -> 0 <= p < 2 ^ 64.
Proof.
  intros Hi Hc. destruct (fr b) as [|op l] eqn:Hfr; [cbn in Hc; lia|]. destruct Hc as (-> & _).
  assert (bl !! op = Some (b, None)) as Hop by (apply (inv_free _ _ _ Hi); rewrite Hfr; by left).
  destruct (inv_blocks _ _ _ Hi _ _ _ Hop) as [Hb ? ? ? ?]. pose proof (bsize_max b Hb).
  unfold MAP_FAILED in *. lia.
Qed.

Lemma free_inv h bl fr a b rv :
  inv h bl fr -> bl !! a = Some (b, Some rv) ->
  exists h', free rv h = Ret h' /\ inv h' (<[a := (b, None)]> bl) (<[b := a :: fr b]> fr) /\
    same_outside (hmem h) (hmem h') a 8 /\ nextf h' !! Z.to_nat b = Some a.
Proof.
  intros Hi Ha. destruct (inv_blocks _ _ _ Hi _ _ _ Ha) as [Hb Hpos Hal Hend Hmp].
  destruct (inv_live _ _ _ Hi _ _ _ Ha) as [Hlo Hhi Hpad Hmag Hidx]. pose proof (bsize_max b Hb).
  unfold MAP_FAILED in Hend. destruct (get_nextf_eq h bl fr b Hi) as (p & Ep & Hc & _); [unfold NBUCKETS; lia|].
  assert (Hat : forall x, a <= x < a + bsize b -> mapped_at (hmem h) x = true).
  { intros x Hx. rewrite <- (Zplus_minus a x). apply Hmp. lia. }
  unfold free. destruct (Z.eqb_spec rv 0); [unfold overhead in *; lia|].
  rewrite (u64_small (rv - overhead)) by (unfold overhead in *; lia).
  rewrite !load8_mapped by (apply Hat; unfold overhead, ov_magic, ov_index in *; lia).
  rewrite loadn_mapped by (apply (range_mapped_sub _ a (bsize b)); [done|unfold overhead in *; lia..]).
  cbn [mbind outcome_bind]. rewrite Hmag. cbn [Z.eqb Pos.eqb MAGIC negb]. rewrite Hidx, Hpad. unfold assert_. destruct (Z.ltb_spec b NBUCKETS); [|unfold NBUCKETS in *; lia].
  cbn [mbind outcome_bind]. rewrite Ep. cbn [mbind outcome_bind].
  rewrite u64_small by lia. replace (rv - (rv - a)) with a by lia.
  rewrite storen_mapped by (apply (range_mapped_sub _ a (bsize b)); [done|lia..]).
  cbn [mbind outcome_bind]. rewrite set_nextf_eq by lia. eexists. split; [reflexivity|].
  cbn [set_mem nextf pagesz pagebucket hmem pages]. split_and!.
  - assert (a ∉ fr b) as Hnin by (rewrite (inv_free _ _ _ Hi); congruence).
    assert (same_outside (hmem h) (poken 8 (hmem h) a p) a (bsize b)) as Hs.
    { split; [apply mapped_poken|]. intros x Hx. apply peek_poken_ne. lia. }
    assert (0 <= p < 2 ^ 64) as Hpr by (by eapply chain_range).
    apply (inv_update h bl fr a b (Some rv)); try done.
    + by apply mem_wf_poken, Hi.
    + cbn [chain]. split_and!; [done|lia|]. rewrite peekn_poken_eq, Z.mod_small by done.
      eapply chain_ext; [|done]. intros x Hx.
      assert (x <> a) by congruence. apply (inv_free _ _ _ Hi) in Hx.
      by apply (free_block_same h bl fr _ a b (Some rv) x b).
    + apply list.NoDup_cons. split; [done|apply Hi].
    + intros x. rewrite elem_of_cons. destruct (decide (x = a)) as [->|]; tauto.
  - split; [apply mapped_poken|]. intros x Hx. apply peek_poken_ne. lia.
  - apply list_lookup_insert_eq. rewrite (inv_len _ _ _ Hi). lia.
Qed.

End Steps.
End MallocSteps.

(** ** The allocator in terms of its allocations *)

Module MallocRep.
Import Malloc MallocArith MallocInv MallocLemmas MallocSteps.

Section Rep.
Context {P : Type} `{PageSource P}.
Implicit Types (h : heap P) (R : gmap Z Z) (E : Z -> Prop)
  (bl : gmap Z (Z * option Z)) (fr : Z -> list Z).

(** An allocation lies in its own block. *)
Lemma live_block h R E bl fr rv n :
  rep h R E bl fr -> R !! rv = Some n ->
  exists a b, bl !! a = Some (b, Some rv) /\ a + overhead <= rv /\ rv + n <= a + bsize b /\ 0 <= n.
Proof.
  intros Hr Hrv. destruct (rep_has _ _ _ _ _ Hr _ _ Hrv) as (? & a & b & Ha & ?).
  destruct (inv_live _ _ _ (rep_inv _ _ _ _ _ Hr) _ _ _ Ha). eauto 10.
Qed.

(** A point in two blocks identifies them. *)
Lemma same_block h bl fr a b st a' b' st' x :
  inv h bl fr -> bl !! a = Some (b, st) -> bl !! a' = Some (b', st') ->
  a <= x < a + bsize b -> a' <= x < a' + bsize b' -> a = a'.
Proof.
  intros Hi Ha Ha' ? ?. destruct (decide (a = a')) as [|Hne]; [done|].
  pose proof (inv_disj _ _ _ Hi _ _ _ _ _ _ Ha Ha' Hne) as Hd. unfold apart in Hd. lia.
Qed.

(** The header identifies the block of an allocation. *)
Lemma same_rv h bl fr a b a' b' rv :
  inv h bl fr -> bl !! a = Some (b, Some rv) -> bl !! a' = Some (b', Some rv) -> a = a'.
Proof.
  intros Hi Ha Ha'. destruct (inv_live _ _ _ Hi _ _ _ Ha), (inv_live _ _ _ Hi _ _ _ Ha').
  unfold overhead in *. apply (same_block h bl fr a b (Some rv) a' b' (Some rv) (rv - 1)); done || lia.
Qed.

Lemma owned_ok h R E bl fr x :
  rep h R E bl fr -> owned R E x -> mapped_at (hmem h) x = true /\ ~ in_free bl x.
Proof.
  intros Hr [HE|(rv & n & Hrv & Hx)].
  - split; [by apply (rep_mapped _ _ _ _ _ Hr)|]. intros (a & b & Ha & ?).
    by apply (rep_outside _ _ _ _ _ Hr x a b None).
  - destruct (live_block _ _ _ _ _ _ _ Hr Hrv) as (a & b & Ha & ? & ? & ?). unfold overhead in *.
    pose proof (rep_inv _ _ _ _ _ Hr) as Hi. split.
    + rewrite <- (Zplus_minus a x). apply (blk_mapped _ _ _ (inv_blocks _ _ _ Hi _ _ _ Ha)). lia.
    + intros (a' & b' & Ha' & Hx'). assert (a = a') as <-; [|congruence].
      apply (same_block h bl fr a b (Some rv) a' b' None x); done || lia.
Qed.

(** The program's memory survives an operation. *)
Definition preserves h h' (T : Z -> Prop) : Prop :=
  forall x, T x -> mapped_at (hmem h') x = true /\ peek (hmem h') x = peek (hmem h) x.

(** Why an allocation fails: a bad alignment, a size above the largest class,
    or no memory. *)
Definition refused h align nbytes : Prop :=
  Z.land align (u64 (align - 1)) <> 0 \/ 2 ^ 31 < alloc_size align nbytes \/ no_memory h.

Lemma rep_alloc_gen align nbytes cap h R E bl fr :
  rep h R E bl fr -> 0 <= align < 2 ^ 64 -> 0 <= nbytes < 2 ^ 64 ->
  eff_align align <= Z.max 32 (alloc_size align nbytes) ->
  0 <= cap -> cap + eff_align align <= Z.max 32 (alloc_size align nbytes) ->
  exists rv h', aligned_alloc align nbytes h = Ret (rv, h') /\ preserves h h' (owned R E) /\
    ((rv = 0 /\ heap_rep h' R E /\ refused h align nbytes) \/
     (0 < rv /\ R !! rv = None /\ rv mod eff_align align = 0 /\ rv + cap < 2 ^ 64 /\
        (forall x, rv <= x < rv + cap -> ~ owned R E x) /\ heap_rep h' (<[rv := cap]> R) E)).
Proof.
  intros Hr Ha Hn Hsz Hcap Hfit. pose proof (rep_inv _ _ _ _ _ Hr) as Hi.
  destruct (aligned_alloc_inv align nbytes h bl fr Hi Ha Hn Hsz)
    as (rv & h' & bl' & fr' & E' & Hi' & Hk & Hfree & Hres).
  assert (Hp : preserves h h' (owned R E)).
  { intros x Hx. destruct (owned_ok _ _ _ _ _ _ Hr Hx). by apply Hk. }
  exists rv, h'. split_and!; [done..|]. destruct Hres as [(-> & Hsl & Hwhy)|(Hpos & op & b & Hnb & Hblk)].
  - left. split_and!; [done| |done]. exists bl', fr'. split; [done|..].
    + intros rv n Hrv. destruct (rep_has _ _ _ _ _ Hr _ _ Hrv) as (? & a & b & ? & ?).
      split; [done|]. exists a, b. split; [|done]. by apply Hsl.
    + intros a b rv Hab. apply Hsl in Hab. by eapply (rep_only _ _ _ _ _ Hr).
    + intros x Hx. apply Hp. by left.
    + intros x a b st HE Hab Hx. destruct (owned_ok _ _ _ _ _ x Hr (or_introl HE)) as [Hm Hnf].
      destruct st as [r|]; [apply Hsl in Hab; by apply (rep_outside _ _ _ _ _ Hr x a b (Some r))|].
      destruct (Hfree x); [by exists a, b|done|congruence].
  - right. destruct Hnb as [Hop Hfresh Hrest Hsize Hpad Hal].
    assert (Hnot : forall x, op <= x < op + bsize b -> ~ owned R E x).
    { intros x Hx Ho. destruct (owned_ok _ _ _ _ _ x Hr Ho). destruct (Hblk x Hx); [done|congruence]. }
    destruct (inv_blocks _ _ _ Hi' _ _ _ Hop) as [Hb _ _ Hend _]. pose proof (bsize_max b Hb).
    assert (R !! rv = None) as Hnone.
    { apply eq_None_not_Some. intros [n Hrv]. destruct (live_block _ _ _ _ _ _ _ Hr Hrv) as (a & c & Hab & ? & _).
      assert (a <> op) by (intros ->; by eapply Hfresh). apply Hrest in Hab; [|done].
      by pose proof (same_rv _ _ _ _ _ _ _ _ Hi' Hab Hop). }
    unfold MAP_FAILED in Hend. split_and!; [done..|lia| |].
    { intros x Hx. apply Hnot. unfold overhead in *. lia. }
    exists bl', fr'. split; [done|..].
    + intros r n Hrn. destruct (decide (rv = r)) as [<-|Hne].
      * rewrite lookup_insert_eq in Hrn. simplify_eq. split; [done|]. exists op, b. split; [done|lia].
      * rewrite lookup_insert_ne in Hrn by done.
        destruct (rep_has _ _ _ _ _ Hr _ _ Hrn) as (? & a & c & Hab & ?).
        split; [done|]. exists a, c. split; [|done]. apply Hrest; [|done]. intros ->. by eapply Hfresh.
    + intros a c r Hab. destruct (decide (a = op)) as [->|Hne]; simplify_eq; [by rewrite lookup_insert_eq|].
      apply Hrest in Hab; [|done]. destruct (rep_only _ _ _ _ _ Hr _ _ _ Hab) as [n Hn'].
      rewrite lookup_insert_ne by congruence. eauto.
    + intros x Hx. apply Hp. by left.
    + intros x a c st HE Hab Hx. destruct (owned_ok _ _ _ _ _ x Hr (or_introl HE)) as [Hm Hnf].
      destruct st as [r|]; [|destruct (Hfree x); [by exists a, c|done|congruence]].
      destruct (decide (a = op)) as [->|Hne].
      * simplify_eq. apply (Hnot x Hx). by left.
      * apply Hrest in Hab; [|done]. by apply (rep_outside _ _ _ _ _ Hr x a c (Some r)).
Qed.

Lemma rep_free h R E rv n :
  heap_rep h R E -> R !! rv = Some n ->
  exists h', free rv h = Ret h' /\ heap_rep h' (delete rv R) E /\
    preserves h h' (owned (delete rv R) E).
Proof.
  intros (bl & fr & Hr) Hrv. pose proof (rep_inv _ _ _ _ _ Hr) as Hi.
  destruct (live_block _ _ _ _ _ _ _ Hr Hrv) as (a & b & Hab & Hlo & Hhi & Hn).
  destruct (free_inv h bl fr a b rv Hi Hab) as (h' & E' & Hi' & [Hmp Hs] & _).
  destruct (inv_blocks _ _ _ Hi _ _ _ Hab) as [Hb _ _ _ _]. pose proof (bsize_max b Hb).
  assert (Hout : forall x, owned (delete rv R) E x -> ~ (a <= x < a + bsize b)).
  { intros x [HE|(r & k & Hrk & Hx)] Hin.
    - by apply (rep_outside _ _ _ _ _ Hr x a b (Some rv)).
    - apply lookup_delete_Some in Hrk as [Hne Hrk].
      destruct (live_block _ _ _ _ _ _ _ Hr Hrk) as (a' & b' & Hab' & ? & ? & ?). unfold overhead in *.
      assert (a = a') as <-; [|congruence].
      apply (same_block h bl fr a b (Some rv) a' b' (Some r) x); done || lia. }
  exists h'. split_and!; [done| |].
  - exists (<[a := (b, None)]> bl), (<[b := a :: fr b]> fr). split; [done|..].
    + intros r k [Hne Hrk]%lookup_delete_Some. destruct (rep_has _ _ _ _ _ Hr _ _ Hrk) as (? & a' & b' & ? & ?).
      split; [done|]. exists a', b'. split; [|done]. rewrite lookup_insert_ne; [done|]. congruence.
    + intros a' b' r [[? ?]|[Hne Hab']]%lookup_insert_Some; [simplify_eq|].
      rewrite lookup_delete_ne; [by eapply (rep_only _ _ _ _ _ Hr)|].
      intros <-. by pose proof (same_rv _ _ _ _ _ _ _ _ Hi Hab Hab').
    + intros x HE. unfold mapped_at. rewrite Hmp. by apply (rep_mapped _ _ _ _ _ Hr).
    + intros x a' b' st HE [[<- ?]|[Hne Hab']]%lookup_insert_Some;
        [simplify_eq; apply Hout; by left|by apply (rep_outside _ _ _ _ _ Hr x a' b' st)].
  - intros x Hx. unfold mapped_at. rewrite Hmp. split.
    + apply (owned_ok h R E bl fr); [done|]. destruct Hx as [?|(r & k & Hrk & ?)]; [by left|right].
      apply lookup_delete_Some in Hrk as [_ Hrk]. eauto.
    + apply Hs. pose proof (Hout x Hx). lia.
Qed.

(** The program may write to its allocations. *)
Lemma rep_write h R E rv n m' :
  heap_rep h R E -> R !! rv = Some n -> same_outside (hmem h) m' rv n -> mem_wf m' ->
  heap_rep (set_mem h m') R E.
Proof.
  intros (bl & fr & Hr) Hrv [Hmp Hs] Hw. pose proof (rep_inv _ _ _ _ _ Hr) as Hi.
  destruct (live_block _ _ _ _ _ _ _ Hr Hrv) as (a & b & Hab & Hlo & Hhi & Hn).
  destruct (inv_blocks _ _ _ Hi _ _ _ Hab) as [Hb _ _ _ _]. pose proof (bsize_max b Hb). unfold overhead in *.
  assert (Hs' : same_outside (hmem h) m' a (bsize b)) by (split; [done|intros x ?; apply Hs; lia]).
  destruct (get_nextf_eq h bl fr b Hi) as (p & _ & Hc & Hp); [unfold NBUCKETS; lia|].
  exists bl, (<[b := fr b]> fr). split; [|try apply Hr..].
  - rewrite <- (insert_id bl a (b, Some rv)) by done. unfold set_mem.
    rewrite <- (list_insert_id (nextf h) (Z.to_nat b) p) by done.
    apply (inv_update h bl fr a b (Some rv)); try done.
    + intros ? [= <-]. destruct (inv_live _ _ _ Hi _ _ _ Hab) as [? ? Hpad Hmag Hidx].
      unfold overhead, ov_magic, ov_index in *. split; unfold overhead, ov_magic, ov_index; try done.
      * rewrite <- Hpad. apply peekn_ext. intros i ?. apply Hs. lia.
      * rewrite <- Hmag. apply Hs. lia.
      * rewrite <- Hidx. apply Hs. lia.
    + eapply chain_ext; [|done]. intros x Hx%(inv_free _ _ _ Hi).
      apply (free_block_same h bl fr m' a b (Some rv) x b); done || congruence.
    + apply Hi.
    + intros x. split; [|by intros [[_ ?]|[_ ?]]]. intros Hx. right. split; [|done].
      apply (inv_free _ _ _ Hi) in Hx. congruence.
  - intros x HE. cbn. unfold mapped_at. rewrite Hmp. by apply (rep_mapped _ _ _ _ _ Hr).
Qed.

Lemma rep_resize h R E bl fr rv n a b c :
  rep h R E bl fr -> R !! rv = Some n -> bl !! a = Some (b, Some rv) -> 0 <= c -> rv + c <= a + bsize b ->
  rep h (<[rv := c]> R) E bl fr.
Proof.
  intros Hr Hrv Hab Hc Hfit. split; try apply Hr.
  - intros r k [[<- <-]|[Hne Hrk]]%lookup_insert_Some; [eauto|by apply (rep_has _ _ _ _ _ Hr)].
  - intros a' b' r Hab'. destruct (decide (rv = r)) as [<-|]; [rewrite lookup_insert_eq; eauto|].
    rewrite lookup_insert_ne by done. by eapply (rep_only _ _ _ _ _ Hr).
Qed.

Lemma alloc_size_small align n :
  0 <= n -> n + eff_align align < 2 ^ 64 -> 0 <= eff_align align -> alloc_size align n = n + eff_align align.
Proof. intros. apply u64_small. lia. Qed.

Lemma eff_align_pos align : 0 < eff_align align.
Proof. unfold eff_align, MINALIGN. case_cmp; lia. Qed.

(** An allocation whose size computation does not wrap. *)
Lemma rep_alloc align n h R E :
  heap_rep h R E -> 0 <= align < 2 ^ 64 -> 0 <= n -> n + eff_align align < 2 ^ 64 ->
  exists rv h', aligned_alloc align n h = Ret (rv, h') /\ preserves h h' (owned R E) /\
    ((rv = 0 /\ heap_rep h' R E /\ refused h align n) \/
     (0 < rv /\ R !! rv = None /\ rv mod eff_align align = 0 /\ rv + n < 2 ^ 64 /\
        (forall x, rv <= x < rv + n -> ~ owned R E x) /\ heap_rep h' (<[rv := n]> R) E)).
Proof.
  intros (bl & fr & Hr) Ha Hn Hlt. pose proof (eff_align_pos align).
  pose proof (alloc_size_small align n Hn Hlt ltac:(lia)).
  apply (rep_alloc_gen align n n h R E bl fr); try done; lia.
Qed.

(** The allocation at [rv] is mapped, and apart from the rest of the program. *)
Lemma rep_mapped_at h R E rv n :
  heap_rep h R E -> R !! rv = Some n -> range_mapped (hmem h) rv n.
Proof.
  intros (bl & fr & Hr) Hrv i Hi. apply (owned_ok h R E bl fr); [done|]. right. exists rv, n. split; [done|lia].
Qed.

Lemma rep_apart h R E r1 n1 r2 n2 :
  heap_rep h R E -> R !! r1 = Some n1 -> R !! r2 = Some n2 -> r1 <> r2 -> apart r1 n1 r2 n2.
Proof.
  intros (bl & fr & Hr) H1 H2 Hne. pose proof (rep_inv _ _ _ _ _ Hr) as Hi.
  destruct (live_block _ _ _ _ _ _ _ Hr H1) as (a1 & b1 & Ha1 & ? & ? & ?).
  destruct (live_block _ _ _ _ _ _ _ Hr H2) as (a2 & b2 & Ha2 & ? & ? & ?). unfold overhead in *.
  apply apart_intro. intros x Hx1 Hx2.
  assert (a1 = a2) as <-; [|congruence].
  apply (same_block h bl fr a1 b1 (Some r1) a2 b2 (Some r2) x); done || lia.
Qed.

Lemma rep_wf h R E : heap_rep h R E -> mem_wf (hmem h).
Proof. intros (bl & fr & Hr). apply (rep_inv _ _ _ _ _ Hr). Qed.

(** Filling an allocation. *)
Lemma rep_fill h R E rv n bs :
  heap_rep h R E -> R !! rv = Some n -> Z.of_nat (length bs) <= n ->
  heap_rep (set_mem h (poke_list (hmem h) rv bs)) R E /\
  (forall x, x < rv \/ rv + n <= x -> peek (poke_list (hmem h) rv bs) x = peek (hmem h) x).
Proof.
  intros Hr Hrv Hlen.
  assert (Hs : forall x, x < rv \/ rv + n <= x -> peek (poke_list (hmem h) rv bs) x = peek (hmem h) x).
  { intros x Hx. apply peek_poke_list_ne. lia. }
  split; [|done]. eapply rep_write; [done..| |by eapply mem_wf_poke_list, rep_wf].
  split; [apply mapped_poke_list|done].
Qed.

(** The header of an allocation, as [realloc] reads it. *)
Lemma read_header h R E bl fr rv n :
  rep h R E bl fr -> R !! rv = Some n ->
  exists a b, bl !! a = Some (b, Some rv) /\ rv + n <= a + bsize b /\ 0 <= b <= 26 /\
    0 < a /\ a + overhead <= rv <= a + bsize b /\ a + bsize b < MAP_FAILED /\
    peek (hmem h) (rv - overhead + ov_index) = b /\
    u64 (rv - overhead) = rv - overhead /\
    load8 (hmem h) (rv - overhead + ov_index) = Ret b /\
    load64 (hmem h) (rv - overhead) = Ret (rv - a).
Proof.
  intros Hr Hrv. pose proof (rep_inv _ _ _ _ _ Hr) as Hi.
  destruct (live_block _ _ _ _ _ _ _ Hr Hrv) as (a & b & Hab & Hlo & Hhi & Hn).
  destruct (inv_blocks _ _ _ Hi _ _ _ Hab) as [Hb Hpos _ Hend Hmp].
  destruct (inv_live _ _ _ Hi _ _ _ Hab) as [_ Hhi' Hpad _ Hidx]. exists a, b.
  unfold MAP_FAILED, overhead, ov_index in *. split_and!; try (done || lia).
  - apply u64_small. lia.
  - rewrite load8_mapped; [by rewrite Hidx|]. rewrite <- (Zplus_minus a (rv - 16 + 9)). apply Hmp. lia.
  - rewrite loadn_mapped; [by rewrite Hpad|]. eapply range_mapped_sub; [done|lia..].
Qed.

(** The copying branch of [realloc], from a block with [c] usable bytes. *)
Lemma rep_move h R E cp c np h1 nbytes :
  heap_rep h1 (<[np := nbytes]> R) E -> preserves h h1 (owned R E) -> R !! cp = Some c -> R !! np = None ->
  0 <= c < nbytes -> (forall x, np <= x < np + nbytes -> ~ owned R E x) ->
  exists m h', Str.memcpy (hmem h1) np cp c = Ret (np, m) /\ free cp (set_mem h1 m) = Ret h' /\
    heap_rep h' (<[np := nbytes]> (delete cp R)) E /\ preserves h h' (owned (delete cp R) E) /\
    (forall i, 0 <= i < c -> peek (hmem h') (np + i) = peek (hmem h) (cp + i)).
Proof.
  intros Hr Hp Hcp Hnp Hc Hdis. assert (np <> cp) as Hne by congruence.
  set (R1 := <[np := nbytes]> R) in *.
  assert (R1 !! cp = Some c) as Hcp1 by (by unfold R1; rewrite lookup_insert_ne).
  assert (R1 !! np = Some nbytes) as Hnp1 by apply lookup_insert_eq.
  pose proof (rep_apart _ _ _ _ _ _ _ Hr Hnp1 Hcp1 Hne) as Hap.
  set (bs := peeks (Z.to_nat c) (hmem h1) cp).
  assert (Hlen : Z.of_nat (length bs) = c) by (unfold bs; rewrite length_peeks; lia).
  destruct (rep_fill h1 R1 E np nbytes bs Hr Hnp1) as [Hr2 Hout]; [lia|].
  destruct (rep_free _ R1 E cp c Hr2 Hcp1) as (h' & E' & Hr' & Hp').
  exists (poke_list (hmem h1) np bs), h'. split_and!; [|done|..].
  - apply CopyFacts.memcpy_eq; [lia|by eapply rep_mapped_at| | |by eapply rep_wf].
    + eapply range_mapped_sub; [by eapply rep_mapped_at|lia..].
    + unfold apart in *. lia.
  - unfold R1 in Hr'. by rewrite delete_insert_ne in Hr' by done.
  - intros x Hx. assert (owned R E x) as Hx'.
    { destruct Hx as [?|(r & k & [_ ?]%lookup_delete_Some & ?)]; [by left|right; eauto]. }
    assert (owned (delete cp R1) E x) as Hx1.
    { destruct Hx as [?|(r & k & Hrk & ?)]; [by left|right]. exists r, k. split; [|done].
      unfold R1. rewrite delete_insert_ne, lookup_insert_ne; [done| |done].
      apply lookup_delete_Some in Hrk as [_ ?]. congruence. }
    destruct (Hp' x Hx1) as [? ->]. split; [done|]. cbn [hmem set_mem].
    rewrite Hout; [by apply Hp|]. destruct (decide (np <= x < np + nbytes)); [by destruct (Hdis x)|lia].
  - intros i Hi. destruct (Hp' (np + i)) as [_ ->].
    { right. exists np, nbytes. split; [|lia]. by rewrite lookup_delete_ne. }
    cbn [hmem set_mem]. replace i with (Z.of_nat (Z.to_nat i)) at 1 by lia.
    rewrite (peek_poke_list_eq _ _ _ _ (peek (hmem h1) (cp + i)));
      [|unfold bs; rewrite lookup_peeks by lia; do 3 f_equal; lia].
    rewrite u8_small by (by eapply rep_wf). apply Hp. right. exists cp, c. split; [done|lia].
Qed.

Lemma rep_shrink h R E rv n c :
  heap_rep h R E -> R !! rv = Some c -> 0 <= n <= c -> heap_rep h (<[rv := n]> R) E.
Proof.
  intros (bl & fr & Hr) Hrv Hn. destruct (live_block _ _ _ _ _ _ _ Hr Hrv) as (a & b & Hab & ? & ? & ?).
  exists bl, fr. apply (rep_resize h R E bl fr rv c a b); done || lia.
Qed.

(** The three outcomes of [realloc] on an allocation. *)
Lemma rep_realloc h R E cp n nbytes :
  heap_rep h R E -> R !! cp = Some n -> 0 < nbytes -> nbytes + MINALIGN < 2 ^ 64 ->
  peek (hmem h) (cp - overhead + ov_index) < 26 ->
  exists rv h', realloc cp nbytes h = Ret (rv, h') /\ preserves h h' (owned (delete cp R) E) /\
    ((rv = 0 /\ heap_rep h' R E) \/
     (0 < rv /\ heap_rep h' (<[rv := nbytes]> (delete cp R)) E /\
      forall i, 0 <= i < Z.min n nbytes -> peek (hmem h') (rv + i) = peek (hmem h) (cp + i))).
Proof.
  intros (bl & fr & Hr) Hcp Hnb Hlt Hbk.
  destruct (read_header _ _ _ _ _ _ _ Hr Hcp)
    as (a & b & Hab & Hfit & Hb & Hpos & Hcpr & Hend & Hidx & Hu & Hl8 & Hl64).
  pose proof (bsize_max b Hb). unfold MAP_FAILED, overhead in *.
  unfold realloc. destruct (Z.eqb_spec cp 0); [lia|]. destruct (Z.eqb_spec nbytes 0); [lia|].
  unfold overhead. rewrite Hu, Hl8. cbn [mbind outcome_bind]. rewrite Hl64. cbn [mbind outcome_bind].
  rewrite int_shl1_eq by (unfold MINSHIFT; lia). cbn [mbind outcome_bind]. fold (bsize b).
  rewrite u64_small by lia. set (c := bsize b - (cp - a)).
  assert (0 <= n) by (destruct (rep_has _ _ _ _ _ Hr _ _ Hcp); done).
  assert (Hsub : forall x, owned (delete cp R) E x -> owned R E x).
  { intros x [?|(r & k & [_ ?]%lookup_delete_Some & ?)]; [by left|right; eauto]. }
  case_cmp.
  { exists cp, h. split_and!; [done| |].
    - intros x Hx. split; [|done]. apply (owned_ok h R E bl fr); auto.
    - right. split_and!; [lia| |done]. exists bl, fr. rewrite insert_delete_eq.
      apply (rep_resize h R E bl fr cp n a b); done || lia. }
  assert (Hr1 : heap_rep h (<[cp := c]> R) E).
  { exists bl, fr. apply (rep_resize h R E bl fr cp n a b); done || lia. }
  assert (Hsub1 : forall x, owned (delete cp R) E x -> owned (<[cp := c]> R) E x).
  { intros x [?|(r & k & [? ?]%lookup_delete_Some & ?)]; [by left|right]. exists r, k.
    by rewrite lookup_insert_ne. }
  destruct (rep_alloc 0 nbytes h _ E Hr1) as (np & h1 & E1 & Hp1 & Hres); [lia|lia|exact Hlt|].
  unfold malloc. rewrite E1. cbn [mbind outcome_bind].
  destruct Hres as [(-> & Hr2 & _)|(Hnp & Hnone & _ & _ & Hdis & Hr2)].
  - exists 0, h1. split_and!; [done|by intros x ?%Hsub1; apply Hp1|]. left. split; [done|].
    rewrite <- (insert_id R cp n) by done. rewrite <- (insert_insert_eq R cp n c).
    eapply rep_shrink; [done|apply lookup_insert_eq|lia].
  - destruct (Z.eqb_spec np 0); [lia|].
    destruct (rep_move h (<[cp := c]> R) E cp c np h1 nbytes) as (m & h' & -> & E' & Hr' & Hp' & Hcopy);
      [done..|apply lookup_insert_eq|done|lia|done|].
    rewrite delete_insert_eq in Hr', Hp'. cbn [mbind outcome_bind]. rewrite E'. cbn [mbind outcome_bind].
    exists np, h'. split_and!; [done..|]. right. split_and!; [done..|]. intros i Hi. apply Hcopy. lia.
Qed.

End Rep.
End MallocRep.

(** ** Programs that use the allocator *)

Module MallocClient.
Import Malloc MallocArith MallocInv MallocSteps MallocRep.

Section Client.
Context {P : Type} `{PageSource P}.

(** The static initialisers. *)
Definition heap_init (m : mem) (p : P) : heap P := Heap (replicate (Z.to_nat NBUCKETS) 0) 0 0 m p.

(** What the program relied on having written: the bytes of a freed range are
    forgotten. *)
Definition forget (rv n : Z) (S : gmap Z Z) : gmap Z Z :=
  filter (fun xv => ~ (rv <= xv.1 < rv + n)) S.

(** The states a program reaches that frees and resizes only what it allocated
    and writes only inside its allocations.  [R] holds its allocations, [S] the
    bytes it wrote last at each address. *)
Inductive reach (m0 : mem) (p0 : P) : heap P -> gmap Z Z -> gmap Z Z -> Prop :=
  | reach_init : reach m0 p0 (heap_init m0 p0) ∅ ∅
  | reach_alloc h R S align n rv h' :
      reach m0 p0 h R S -> 0 <= align < 2 ^ 64 -> 0 <= n -> n + eff_align align < 2 ^ 64 ->
      aligned_alloc align n h = Ret (rv, h') -> rv <> 0 -> reach m0 p0 h' (<[rv := n]> R) S
  | reach_fail h R S align n h' :
      reach m0 p0 h R S -> 0 <= align < 2 ^ 64 -> 0 <= n -> n + eff_align align < 2 ^ 64 ->
      aligned_alloc align n h = Ret (0, h') -> reach m0 p0 h' R S
  | reach_free h R S rv n h' :
      reach m0 p0 h R S -> R !! rv = Some n -> free rv h = Ret h' ->
      reach m0 p0 h' (delete rv R) (forget rv n S)
  | reach_write h R S rv n i v m' :
      reach m0 p0 h R S -> R !! rv = Some n -> 0 <= i < n -> store8 (hmem h) (rv + i) v = Ret m' ->
      reach m0 p0 (set_mem h m') R (<[rv + i := u8 v]> S).

Lemma heap_rep_init m p (E : Z -> Prop) :
  ps_ok p -> mem_wf m -> (forall x, mapped_at m x = true -> ~ ps_free p x) ->
  (forall x, E x -> mapped_at m x = true) -> heap_rep (heap_init m p) ∅ E.
Proof.
  intros Hok Hw Hm HE. exists ∅, (fun _ => []). split; try done.
  split; cbn; try done.
  - by left.
  - intros b q Hq _. apply lookup_replicate in Hq as [-> _]. done.
  - intros a b. rewrite lookup_empty. split; [|done]. by intros ?%not_elem_of_nil.
  - intros _. constructor.
Qed.

(** Every reachable heap represents the allocations the program holds, and has
    the bytes it wrote. *)
Lemma reach_rep m0 p0 E h R S :
  ps_ok p0 -> mem_wf m0 -> (forall x, mapped_at m0 x = true -> ~ ps_free p0 x) ->
  (forall x, E x -> mapped_at m0 x = true) -> reach m0 p0 h R S ->
  heap_rep h R E /\ forall x v, S !! x = Some v ->
    peek (hmem h) x = v /\ exists rv n, R !! rv = Some n /\ rv <= x < rv + n.
Proof.
  intros Hok Hw Hm HE Hre. induction Hre as [|h R S align n rv h' _ IH Ha Hn Hlt Hop Hrv|h R S align n h' _ IH Ha Hn Hlt Hop
      |h R S rv n h' _ IH Hrv Hop|h R S rv n i v m' _ IH Hrv Hi Hop].
  - split; [by apply heap_rep_init|done].
  - destruct IH as [Hr HS]. destruct (rep_alloc align n h R E Hr Ha Hn Hlt) as (rv' & h'' & Hop' & Hp & Hres).
    rewrite Hop in Hop'. injection Hop' as <- <-.
    destruct Hres as [(-> & _)|(_ & Hnone & _ & _ & _ & Hr')]; [done|]. split; [done|].
    intros x v Hx. destruct (HS x v Hx) as (<- & r & k & Hrk & Hxr).
    split; [apply Hp; right; eauto|]. exists r, k. split; [|done]. rewrite lookup_insert_ne; [done|congruence].
  - destruct IH as [Hr HS]. destruct (rep_alloc align n h R E Hr Ha Hn Hlt) as (rv' & h'' & Hop' & Hp & Hres).
    rewrite Hop in Hop'. injection Hop' as <- <-. destruct Hres as [(_ & Hr' & _)|[? _]]; [|lia].
    split; [done|]. intros x v Hx. destruct (HS x v Hx) as (<- & r & k & Hrk & Hxr).
    split; [apply Hp; right; eauto|eauto].
  - destruct IH as [Hr HS]. destruct (rep_free h R E rv n Hr Hrv) as (h'' & Hop' & Hr' & Hp).
    rewrite Hop in Hop'. injection Hop' as <-. split; [done|].
    intros x v [Hx Hout]%map_lookup_filter_Some. cbn in Hout.
    destruct (HS x v Hx) as (<- & r & k & Hrk & Hxr).
    assert (delete rv R !! r = Some k) by (apply lookup_delete_Some; split; [|done]; intros ->; simplify_eq; lia).
    split; [apply Hp; right; eauto|eauto].
  - destruct IH as [Hr HS].
    assert (mapped_at (hmem h) (rv + i) = true) as Hmp by (by eapply rep_mapped_at).
    rewrite store8_mapped in Hop by done. injection Hop as <-. split.
    + eapply rep_write; [done..| |by apply mem_wf_poke; eapply rep_wf].
      split; [done|]. intros x Hx. apply peek_poke_ne. lia.
    + intros x w [[<- <-]|[Hne Hx]]%lookup_insert_Some; cbn [hmem set_mem].
      * rewrite peek_poke_eq. split; [done|]. exists rv, n. split; [done|lia].
      * rewrite peek_poke_ne by done. by apply HS.
Qed.

End Client.

(** A small heap for the examples: half a megabyte of core at 1 MiB, and a string
    in the program's own data. *)
Definition demo_mem : mem := poke_list (Mem [(1000, 100)] ∅) 1000 [104; 105; 0].
Definition demo_core : Bump.core := Bump.Core (2 ^ 20) (2 ^ 20 + 2 ^ 19).
Definition demo : heap Bump.core := heap_init demo_mem demo_core.

Lemma demo_pages_ok : ps_ok demo_core.
Proof. vm_compute. split; [split; [reflexivity|discriminate]|reflexivity]. Qed.

Lemma demo_mem_wf : mem_wf demo_mem.
Proof. apply mem_wf_poke_list, mem_wf_fresh. Qed.

Lemma demo_mapped x : mapped_at demo_mem x = true <-> 1000 <= x < 1100.
Proof.
  unfold demo_mem. rewrite mapped_at_poke_list. unfold mapped_at. cbn [mapped existsb].
  rewrite orb_false_r. apply MallocLemmas.in_range_iff.
Qed.

Lemma demo_apart x : mapped_at demo_mem x = true -> ~ ps_free demo_core x.
Proof. rewrite demo_mapped. unfold ps_free, spike_pages, in_core. cbn. lia. Qed.

Lemma demo_rep : heap_rep demo ∅ (fun x => 1000 <= x < 1100).
Proof. apply heap_rep_init; [apply demo_pages_ok|apply demo_mem_wf|apply demo_apart|]. intros x. apply demo_mapped. Qed.

End MallocClient.

Module MallocProperties.
Import Malloc MallocArith MallocInv MallocSteps MallocRep MallocClient.

Section Properties.
Context {P : Type} `{PageSource P}.

(** C1. A program that frees only what it allocated and writes only inside its
    allocations is safe with the allocator: whatever sequence of calls it makes,
    its allocations are mapped and do not overlap, they miss the memory it has
    from elsewhere, every byte it wrote is still there, and the next [free] or
    [aligned_alloc] is defined and returns.  Sizes are such that the size and the
    alignment together are below 2^64. *)
Theorem malloc_program_safe (m0 : mem) (p0 : P) (E : Z -> Prop) h R S :
  ps_ok p0 -> mem_wf m0 -> (forall x, mapped_at m0 x = true -> ~ ps_free p0 x) ->
  (forall x, E x -> mapped_at m0 x = true) -> reach m0 p0 h R S ->
  (forall rv n, R !! rv = Some n -> range_mapped (hmem h) rv n) /\
  (forall r1 n1 r2 n2, R !! r1 = Some n1 -> R !! r2 = Some n2 -> r1 <> r2 -> apart r1 n1 r2 n2) /\
  (forall rv n x, R !! rv = Some n -> rv <= x < rv + n -> ~ E x) /\
  (forall x v, S !! x = Some v -> peek (hmem h) x = v) /\
  (forall rv n, R !! rv = Some n -> exists h', free rv h = Ret h') /\
  (forall align n, 0 <= align < 2 ^ 64 -> 0 <= n -> n + eff_align align < 2 ^ 64 ->
     exists rv h', aligned_alloc align n h = Ret (rv, h')).
Proof.
  intros Hok Hw Hm HE Hre. destruct (reach_rep m0 p0 E h R S) as [Hr HS]; try done. split_and!.
  - intros. by eapply rep_mapped_at.
  - intros. by eapply rep_apart.
  - intros rv n x Hrv Hx HEx. destruct Hr as (bl & fr & Hr).
    destruct (live_block _ _ _ _ _ _ _ Hr Hrv) as (a & b & Hab & ? & ? & ?). unfold overhead in *.
    apply (rep_outside _ _ _ _ _ Hr x a b (Some rv)); done || lia.
  - intros x v Hx. by apply HS.
  - intros rv n Hrv. destruct (rep_free h R E rv n Hr Hrv) as (h' & ? & _). eauto.
  - intros align n Ha Hn Hlt. destruct (rep_alloc align n h R E Hr Ha Hn Hlt) as (rv & h' & ? & _). eauto.
Qed.

(** C5. [aligned_alloc], as the allocator's callers see it: on a heap with
    allocations [R] a request either leaves [R] as it is, and then the alignment
    is not a power of two, the size is above the largest class or the platform
    has no memory; or it adds an allocation of the size asked, aligned as asked,
    apart from all memory the program has.  All the program's bytes stay.  The
    size and the alignment together are below 2^64. *)
Theorem aligned_alloc_refines align n (h : heap P) R E :
  heap_rep h R E -> 0 <= align < 2 ^ 64 -> 0 <= n -> n + eff_align align < 2 ^ 64 ->
  exists rv h', aligned_alloc align n h = Ret (rv, h') /\ preserves h h' (owned R E) /\
    ((rv = 0 /\ heap_rep h' R E /\ refused h align n) \/
     (0 < rv /\ R !! rv = None /\ rv mod eff_align align = 0 /\ rv + n < 2 ^ 64 /\
        (forall x, rv <= x < rv + n -> ~ owned R E x) /\ heap_rep h' (<[rv := n]> R) E)).
Proof. apply rep_alloc. Qed.


(** C22. [realloc] to a nonzero size either fails and changes no allocation, or
    gives an allocation of the new size, in place or elsewhere, that starts
    with the old contents up to the smaller of the sizes; the other allocations
    keep their bytes.  (For blocks below the largest class, and a new size that
    does not wrap around with the alignment.) *)
Theorem realloc_keeps_contents (h : heap P) R E cp n nbytes :
  heap_rep h R E -> R !! cp = Some n -> 0 < nbytes -> nbytes + MINALIGN < 2 ^ 64 ->
  peek (hmem h) (cp - overhead + ov_index) < 26 ->
  exists rv h', realloc cp nbytes h = Ret (rv, h') /\ preserves h h' (owned (delete cp R) E) /\
    ((rv = 0 /\ heap_rep h' R E) \/
     (0 < rv /\ heap_rep h' (<[rv := nbytes]> (delete cp R)) E /\
      forall i, 0 <= i < Z.min n nbytes -> peek (hmem h') (rv + i) = peek (hmem h) (cp + i))).
Proof. apply rep_realloc. Qed.

(** [calloc] of a product that does not wrap gives zeroed memory apart from
    everything the program has, or fails and changes nothing. *)
Theorem calloc_zeroes (h : heap P) R E nmemb size :
  heap_rep h R E -> 0 <= nmemb -> 0 <= size -> nmemb * size + MINALIGN < 2 ^ 64 ->
  exists rv h', calloc nmemb size h = Ret (rv, h') /\ preserves h h' (owned R E) /\
    ((rv = 0 /\ heap_rep h' R E) \/
     (0 < rv /\ (forall x, rv <= x < rv + nmemb * size -> ~ owned R E x) /\
        heap_rep h' (<[rv := nmemb * size]> R) E /\
        forall i, 0 <= i < nmemb * size -> peek (hmem h') (rv + i) = 0)).
Proof.
  intros Hr Hm Hs Hlt. unfold MINALIGN in Hlt. unfold calloc. rewrite u64_small by nia.
  set (n := nmemb * size) in *. assert (0 <= n) by (unfold n; nia).
  destruct (rep_alloc 8 n h R E Hr) as (rv & h1 & -> & Hp & Hres); [lia|done|exact Hlt|].
  cbn [mbind outcome_bind]. destruct Hres as [(-> & Hr' & _)|(Hpos & Hnone & _ & _ & Hdis & Hr')].
  { exists 0, h1. split_and!; auto. }
  destruct (Z.eqb_spec rv 0); [lia|].
  rewrite CopyFacts.memset_eq by (done || by eapply rep_mapped_at; [|apply lookup_insert_eq]).
  cbn [mbind outcome_bind]. set (bs := replicate (Z.to_nat n) 0).
  destruct (rep_fill h1 (<[rv := n]> R) E rv n bs Hr') as [Hr2 Hout];
    [apply lookup_insert_eq|unfold bs; rewrite length_replicate; lia|].
  exists rv, (set_mem h1 (poke_list (hmem h1) rv bs)). split_and!; [done|..].
  - intros x Hx. cbn [set_mem hmem]. rewrite mapped_at_poke_list, Hout; [by apply Hp|].
    destruct (decide (rv <= x < rv + n)); [by destruct (Hdis x)|lia].
  - right. split_and!; [done..|]. intros i Hi. cbn [set_mem hmem].
    replace i with (Z.of_nat (Z.to_nat i)) by lia. rewrite (peek_poke_list_eq _ _ _ _ 0); [done|].
    apply lookup_replicate. split; [done|lia].
Qed.

(** [strdup] of a string the program holds gives a copy of it in an
    allocation of its own, or fails and changes nothing. *)
Theorem strdup_copies (h : heap P) R E fuel s bs :
  heap_rep h R E -> cstr (hmem h) s bs -> (length bs < fuel)%nat ->
  Z.of_nat (length bs) + 1 + MINALIGN < 2 ^ 64 ->
  (forall i, 0 <= i <= Z.of_nat (length bs) -> owned R E (s + i)) ->
  exists rv h', strdup fuel s h = Ret (rv, h') /\ preserves h h' (owned R E) /\
    ((rv = 0 /\ heap_rep h' R E) \/
     (0 < rv /\ heap_rep h' (<[rv := Z.of_nat (length bs) + 1]> R) E /\ cstr (hmem h') rv bs)).
Proof.
  intros Hr Hs Hf Hlt Hown. unfold MINALIGN in Hlt. set (n := Z.of_nat (length bs) + 1) in *.
  unfold strdup. rewrite (StrFacts.strlen_eq fuel _ s bs) by (done || lia). cbn [mbind outcome_bind].
  fold n. rewrite u64_small by lia. unfold malloc.
  destruct (rep_alloc 0 n h R E Hr) as (rv & h1 & -> & Hp & Hres); [lia|lia|exact Hlt|].
  cbn [mbind outcome_bind]. destruct Hres as [(-> & Hr' & _)|(Hpos & Hnone & _ & _ & Hdis & Hr')].
  { exists 0, h1. split_and!; auto. }
  destruct (Z.eqb_spec rv 0); [lia|].
  assert (cstr (hmem h1) s bs) as Hs1.
  { eapply cstr_same; [|done]. intros i Hi. apply Hp, Hown. lia. }
  assert (range_mapped (hmem h1) rv n) as Hmp by (by eapply rep_mapped_at; [|apply lookup_insert_eq]).
  rewrite (CopyFacts.strcpy_eq fuel _ rv s bs); [|done..| |done].
  2: { apply MallocLemmas.apart_intro. intros x Hx Hx'. apply (Hdis x); [lia|].
       rewrite <- (Zplus_minus s x). apply Hown. lia. }
  cbn [mbind outcome_bind].
  destruct (rep_fill h1 (<[rv := n]> R) E rv n (bs ++ [0]) Hr') as [Hr2 Hout];
    [apply lookup_insert_eq|rewrite length_app; cbn; lia|].
  exists rv, (set_mem h1 (poke_list (hmem h1) rv (bs ++ [0]))). split_and!; [done|..].
  - intros x Hx. cbn [set_mem hmem]. rewrite mapped_at_poke_list, Hout; [by apply Hp|].
    destruct (decide (rv <= x < rv + n)); [by destruct (Hdis x)|lia].
  - right. split_and!; [done..|]. apply cstr_poke_list; [|done].
    eapply cstr_bytes; [|done]. by eapply rep_wf.
Qed.

(** C40. The size computation wraps: a request for one of the sixteen largest
    sizes is served like a request for no bytes at all, with a pointer to
    sixteen usable bytes. *)
Theorem malloc_size_wraps (h : heap P) R E n :
  heap_rep h R E -> 2 ^ 64 - MINALIGN <= n < 2 ^ 64 -> malloc n h = malloc 0 h.
Proof.
  intros (bl & fr & Hr) Hn. unfold MINALIGN in Hn. unfold malloc, aligned_alloc.
  destruct (init_spec h bl fr (rep_inv _ _ _ _ _ Hr)) as (h1 & -> & Hi & Hpz & _).
  cbn [mbind outcome_bind]. change (Z.land 0 _) with 0. cbn [Z.eqb negb].
  change (round_up overhead (if 0 <? MINALIGN then MINALIGN else 0)) with 16.
  destruct (inv_page _ _ _ Hi) as [|(_ & Hpb & Hp)]; [done|]. pose proof (bsize_max (pagebucket h1)).
  assert (u64 (n + 16) = n + 16 - 2 ^ 64) as ->.
  { unfold u64. symmetry. apply Z.mod_unique_pos with 1; lia. }
  change (u64 (0 + 16)) with 16.
  destruct (Z.leb_spec (n + 16 - 2 ^ 64) (pagesz h1)), (Z.leb_spec 16 (pagesz h1)); [|lia..].
  change (Z.shiftl 1 MINSHIFT) with 32. cbn [bucket_loop].
  destruct (n + 16 - 2 ^ 64 >? 32) eqn:E1; [to_prop; lia|]. done.
Qed.

(** Freeing twice is not caught: the link that [free] writes overlays the
    alignment field and leaves the magic number in place, so the second call
    takes the link for the padding and writes through a wild address, [rv]
    minus the old head of the free list. *)
Theorem double_free_undetected (h h1 : heap P) R E rv n b p :
  heap_rep h R E -> R !! rv = Some n -> peekn 8 (hmem h) (rv - overhead) = overhead ->
  peek (hmem h) (rv - overhead + ov_index) = b -> get_nextf h b = Ret p -> free rv h = Ret h1 ->
  free rv h1 = (m ← store64 (hmem h1) (u64 (rv - p)) (rv - overhead);
                set_nextf (set_mem h1 m) b (u64 (rv - p))).
Proof.
  intros (bl & fr & Hr) Hrv Hpad Hidx Hp Hfree. pose proof (rep_inv _ _ _ _ _ Hr) as Hi.
  destruct (read_header _ _ _ _ _ _ _ Hr Hrv)
    as (a & b' & Hab & _ & Hb & Hpos & Hcpr & Hend & Hidx' & Hu & _ & Hl64).
  assert (b' = b) as -> by congruence. assert (a = rv - overhead) as ->.
  { rewrite loadn_mapped, Hpad in Hl64; [injection Hl64; lia|].
    apply (range_mapped_sub _ a (bsize b)); [apply (inv_blocks _ _ _ Hi _ _ _ Hab)|..];
      pose proof (bsize_max b Hb); unfold overhead in *; lia. }
  destruct (free_inv h bl fr _ b rv Hi Hab) as (h1' & E1 & Hi1 & [Hmp Hs] & Hnext).
  rewrite Hfree in E1. injection E1 as <-.
  pose proof (inv_blocks _ _ _ Hi1 (rv - overhead) b None (lookup_insert_eq _ _ _)) as [_ _ _ _ Hmp1].
  pose proof (bsize_max b Hb). destruct (inv_live _ _ _ Hi _ _ _ Hab) as [_ _ _ Hmag _].
  unfold MAP_FAILED, overhead, ov_magic, ov_index in *.
  destruct (get_nextf_eq h bl fr b Hi) as (p' & Hp' & Hc & _); [unfold NBUCKETS; lia|].
  rewrite Hp in Hp'. injection Hp' as <-.
  pose proof (inv_chain _ _ _ Hi1 b _ Hnext ltac:(lia)) as Hc1. rewrite fn_lookup_insert in Hc1.
  destruct Hc1 as (_ & _ & Hc1).
  assert (peekn 8 (hmem h1) (rv - 16) = p) as Hlink.
  { destruct (fr b); [by rewrite Hc, Hc1|]. destruct Hc as (-> & _), Hc1 as (-> & _). done. }
  unfold free at 1. unfold overhead, ov_magic, ov_index. destruct (Z.eqb_spec rv 0); [lia|].
  rewrite Hu, !load8_mapped by (apply Hmp1; lia).
  rewrite loadn_mapped by (eapply range_mapped_sub; [done|lia..]).
  cbn [mbind outcome_bind]. rewrite !Hs, Hmag, Hidx, Hlink by lia. cbn [Z.eqb Pos.eqb MAGIC negb].
  unfold assert_. destruct (Z.ltb_spec b NBUCKETS); [|unfold NBUCKETS in *; lia]. cbn [mbind outcome_bind].
  unfold get_nextf. rewrite Hnext. replace ((0 <=? b) && (b <? NBUCKETS)) with true; [done|].
  symmetry. apply andb_true_iff. split; [apply Z.leb_le; lia|by apply Z.ltb_lt].
Qed.

End Properties.

(** *** The properties at work on the spike target *)

(** The demo heap after [malloc(10)]. *)
Definition demo1 : Z * heap Bump.core :=
  match malloc 10 demo with Ret r => r | _ => (0, demo) end.

(** Whether an allocation succeeded, to be evaluated. *)
Definition returns {A} (ok : Z -> bool) (o : outcome (Z * A)) : bool :=
  match o with Ret (rv, _) => ok rv | _ => false end.

Lemma demo1_rep : demo1.1 = 2 ^ 20 + 16 /\ heap_rep demo1.2 {[2 ^ 20 + 16 := 10]} (fun x => 1000 <= x < 1100).
Proof.
  assert (returns (Z.eqb (2 ^ 20 + 16)) (aligned_alloc 0 10 demo) = true) as Hv by (vm_compute; reflexivity).
  unfold demo1, malloc.
  destruct (rep_alloc 0 10 demo ∅ (fun x => 1000 <= x < 1100) demo_rep)
    as (rv & h & E & _ & Hres); [lia|lia|reflexivity|].
  rewrite E in Hv |- *. cbn [returns] in Hv. apply Z.eqb_eq in Hv as <-.
  destruct Hres as [[? _]|(_ & _ & _ & _ & _ & Hr)]; [lia|]. by split.
Qed.

(** The demo program: allocate ten bytes and write the fourth of them. *)
Lemma demo_reach :
  exists h, reach demo_mem demo_core h (<[2 ^ 20 + 16 := 10]> ∅) (<[2 ^ 20 + 16 + 3 := u8 7]> ∅).
Proof.
  assert (returns (Z.eqb (2 ^ 20 + 16)) (aligned_alloc 0 10 demo) = true) as Hv by (vm_compute; reflexivity).
  destruct (rep_alloc 0 10 demo ∅ (fun x => 1000 <= x < 1100) demo_rep)
    as (rv & h & E & _ & Hres); [lia|lia|reflexivity|].
  rewrite E in Hv. cbn [returns] in Hv. apply Z.eqb_eq in Hv as <-.
  destruct Hres as [[? _]|(_ & _ & _ & _ & _ & Hr)]; [lia|]. eexists.
  eapply (reach_write _ _ h _ _ (2 ^ 20 + 16) 10 3 7); [|apply lookup_insert_eq|lia|].
  - apply (reach_alloc _ _ demo ∅ ∅ 0 10); [apply reach_init|lia|lia|reflexivity|exact E|lia].
  - apply store8_mapped. apply (rep_mapped_at _ _ _ _ 10 Hr); [apply lookup_insert_eq|lia].
Qed.

Lemma malloc_program_safe_witness :
  exists h R S, reach demo_mem demo_core h R S /\ R !! (2 ^ 20 + 16) = Some 10 /\
    peek (hmem h) (2 ^ 20 + 16 + 3) = 7 /\ exists h', free (2 ^ 20 + 16) h = Ret h'.
Proof.
  destruct demo_reach as [h Hre].
  destruct (malloc_program_safe demo_mem demo_core (fun x => 1000 <= x < 1100) h _ _
    demo_pages_ok demo_mem_wf demo_apart (fun x => proj2 (demo_mapped x)) Hre) as (_ & _ & _ & HS & Hf & _).
  eexists h, _, _. split_and!; [exact Hre|apply lookup_insert_eq|apply HS, lookup_insert_eq|].
  apply (Hf _ 10), lookup_insert_eq.
Defined.

Lemma aligned_alloc_refines_witness :
  exists rv h', aligned_alloc 64 100 demo = Ret (rv, h') /\ rv <> 0 /\ rv mod 64 = 0.
Proof.
  assert (returns (Z.ltb 0) (aligned_alloc 64 100 demo) = true) as Hv by (vm_compute; reflexivity).
  destruct (aligned_alloc_refines 64 100 demo ∅ (fun x => 1000 <= x < 1100) demo_rep)
    as (rv & h' & E & _ & [(-> & _ & _)|(? & _ & ? & _)]); [lia|lia|reflexivity|..].
  - rewrite E in Hv. discriminate Hv.
  - exists rv, h'. split_and!; [exact E|lia|assumption].
Defined.


Lemma realloc_keeps_contents_witness :
  exists rv h', realloc (2 ^ 20 + 16) 100 demo1.2 = Ret (rv, h') /\
    heap_rep h' (<[rv := 100]> (delete (2 ^ 20 + 16) {[2 ^ 20 + 16 := 10]})) (fun x => 1000 <= x < 1100).
Proof.
  assert (returns (Z.ltb 0) (realloc (2 ^ 20 + 16) 100 demo1.2) = true) as Hv by (vm_compute; reflexivity).
  destruct (realloc_keeps_contents demo1.2 _ _ (2 ^ 20 + 16) 10 100 (proj2 demo1_rep))
    as (rv & h' & E & _ & [[-> _]|(_ & ? & _)]); [reflexivity|lia|reflexivity|vm_compute; reflexivity|..].
  - rewrite E in Hv. discriminate Hv.
  - exists rv, h'. split; assumption.
Defined.

Lemma calloc_zeroes_witness :
  exists rv h', calloc 5 8 demo = Ret (rv, h') /\ peek (hmem h') (rv + 39) = 0.
Proof.
  assert (returns (Z.ltb 0) (calloc 5 8 demo) = true) as Hv by (vm_compute; reflexivity).
  destruct (calloc_zeroes demo ∅ (fun x => 1000 <= x < 1100) 5 8 demo_rep)
    as (rv & h' & E & _ & [[-> _]|(_ & _ & _ & Hz)]); [lia|lia|reflexivity|..].
  - rewrite E in Hv. discriminate Hv.
  - exists rv, h'. split; [exact E|]. apply Hz. lia.
Defined.

Lemma strdup_copies_witness :
  exists rv h', strdup 10 1000 demo = Ret (rv, h') /\ cstr (hmem h') rv [104; 105].
Proof.
  assert (returns (Z.ltb 0) (strdup 10 1000 demo) = true) as Hv by (vm_compute; reflexivity).
  destruct (strdup_copies demo ∅ (fun x => 1000 <= x < 1100) 10 1000 [104; 105] demo_rep)
    as (rv & h' & E & _ & [[-> _]|(_ & _ & Hc)]).
  - cbn. repeat split; lia.
  - cbn. lia.
  - reflexivity.
  - intros i Hi. cbn in Hi. left. lia.
  - rewrite E in Hv. discriminate Hv.
  - exists rv, h'. split; assumption.
Defined.

Lemma malloc_size_wraps_witness : malloc (2 ^ 64 - 1) demo = malloc 0 demo.
Proof. apply (malloc_size_wraps demo ∅ (fun x => 1000 <= x < 1100)); [apply demo_rep|vm_compute; split; [discriminate|reflexivity]]. Defined.

Lemma double_free_undetected_witness :
  exists h1, free (2 ^ 20 + 16) demo1.2 = Ret h1 /\ free (2 ^ 20 + 16) h1 = UB.
Proof.
  destruct (rep_free demo1.2 _ _ (2 ^ 20 + 16) 10 (proj2 demo1_rep)) as (h1 & E & _); [reflexivity|].
  exists h1. split; [exact E|].
  rewrite (double_free_undetected demo1.2 h1 _ _ (2 ^ 20 + 16) 10 0 (2 ^ 20 + 32) (proj2 demo1_rep));
    [|reflexivity|vm_compute; reflexivity|vm_compute; reflexivity|vm_compute; reflexivity|exact E].
  assert (match free (2 ^ 20 + 16) demo1.2 with
          | Ret h => mapped_at (hmem h) (u64 (2 ^ 20 + 16 - (2 ^ 20 + 32))) | _ => true end = false) as Hv by (vm_compute; reflexivity).
  rewrite E in Hv. cbn [storen]. unfold store8. rewrite Hv. reflexivity.
Defined.

End MallocProperties.
