(* ===== verification/Thread.v ===== *)
(** * The thread library

    [franken/thread/thread.c]: cooperative threads with a round-robin scheduler,
    and the mutexes, read-write locks and condition variables built on it.

    A thread gives up the processor only inside [schedule], so the code between
    two calls of it is atomic.  A call that may block is modelled up to its call
    of [schedule]; the rest of it is the [kont] the thread is suspended in, and
    [resume] runs that rest when the scheduler switches back ([swapcontext]).
    Threads, locks and condition variables are named by their addresses.  Times
    are nanoseconds as mathematical integers (the code's 64-bit counters last
    for 292 years).  The callbacks into the rump kernel
    ([hyp_backend_unschedule], [hyp_backend_schedule]) belong to other code: the
    model records that they are called. *)

From S2P Require Import Prelude Platform.
From Stdlib Require Import ZArith Lia.
From stdpp Require Import base numbers list gmap.
Local Open Scope Z_scope.

Module Sched.
Import Timespec.

Definition RUNNABLE_FLAG : Z := 1.
Definition THREAD_MUSTJOIN : Z := 2.
Definition THREAD_JOINED : Z := 4.
Definition THREAD_EXTSTACK : Z := 8.
Definition THREAD_TIMEDOUT : Z := 16.

(** struct thread; the saved context is the [kont] of the thread. *)
Record thread : Type := Thread {
  lwp : Z;
  cookie : Z;
  wakeup_time : Z;
  stack : Z;
  flags : Z;
}.

Definition set_lwp (l : Z) (t : thread) : thread := Thread l (cookie t) (wakeup_time t) (stack t) (flags t).
Definition set_cookie_ (c : Z) (t : thread) : thread := Thread (lwp t) c (wakeup_time t) (stack t) (flags t).
Definition set_wakeup (w : Z) (t : thread) : thread := Thread (lwp t) (cookie t) w (stack t) (flags t).
Definition set_flags (f : Z) (t : thread) : thread := Thread (lwp t) (cookie t) (wakeup_time t) (stack t) f.

Definition has_flag (f : Z) (t : thread) : bool := negb (Z.land (flags t) f =? 0).
Definition add_flag (f : Z) (t : thread) : thread := set_flags (Z.lor (flags t) f) t.
Definition del_flag (f : Z) (t : thread) : thread := set_flags (Z.land (flags t) (Z.lnot f)) t.

Definition is_runnable (t : thread) : bool := has_flag RUNNABLE_FLAG t.
Definition set_runnable (t : thread) : thread := add_flag RUNNABLE_FLAG t.
Definition clear_runnable (t : thread) : thread := del_flag RUNNABLE_FLAG t.

(** [wake] and [block]. *)
Definition wake (t : thread) : thread := set_runnable (set_wakeup (-1) t).
Definition block (t : thread) : thread := clear_runnable (set_wakeup (-1) t).

(** struct rumpuser_mtx, rumpuser_rw, rumpuser_cv; a wait queue is the list of
    the threads waiting, first in first. *)
Record rumpuser_mtx : Type := Mtx { m_waiters : list Z; m_v : Z; m_flags : Z; m_o : Z }.
Record rumpuser_rw : Type := Rw { rwait : list Z; wwait : list Z; rw_v : Z; rw_o : Z }.
Record rumpuser_cv : Type := Cv { cv_waiters : list Z; nwaiters : Z }.

Inductive cv_kind : Type := CvWait | CvWaitNowrap | CvTimedwait.

(** Where a thread is in its last call of [schedule]: in its own code
    ([KRun]), at the start of its function, or in one of the calls that block. *)
Inductive kont : Type :=
  | KRun
  | KStart
  | KSchedule
  | KSleep
  | KClockSleep
  | KExitGate
  | KExited
  | KJoin (joinable : Z)
  | KMutexEnter (mtx : Z)
  | KRwEnter (lk rw : Z)
  | KCvWait (k : cv_kind) (cv mtx : Z).

(** The queue a thread waits in. *)
Inductive waithead : Type := WMtx (mtx : Z) | WRwR (rw : Z) | WRwW (rw : Z) | WCv (cv : Z).

(** The calls into the rump kernel. *)
Inductive hypcall : Type := Unsched (interlock : Z) | Resched (interlock : Z).

(** What a call gives its caller now: its value, or nothing until the thread is
    scheduled again. *)
Inductive result : Type := Val (v : Z) | Blocked.

#[global] Instance cv_kind_eq_dec : EqDecision cv_kind.
Proof. solve_decision. Defined.
#[global] Instance kont_eq_dec : EqDecision kont.
Proof. solve_decision. Defined.
#[global] Instance waithead_eq_dec : EqDecision waithead.
Proof. solve_decision. Defined.

(** The static variables of the file and the objects they reach.  [onlist] is
    the field of the struct waiter on the stack of the thread that waits. *)
Record sched (C : Type) : Type := Sched {
  threads : gmap Z thread;
  konts : gmap Z kont;
  onlist : gmap Z bool;
  thread_list : list Z;
  exited_threads : list Z;
  current_thread : Z;
  joinwq : list (Z * Z);        (* jw_thread, jw_wanted *)
  mtxs : gmap Z rumpuser_mtx;
  rws : gmap Z rumpuser_rw;
  cvs : gmap Z rumpuser_cv;
  clock : C;
  hyp : list hypcall;
  unmapped : list Z;            (* the stacks given back with munmap *)
}.
Arguments Sched {C} _ _ _ _ _ _ _ _ _ _ _ _ _.
Arguments threads {C} _.
Arguments konts {C} _.
Arguments onlist {C} _.
Arguments thread_list {C} _.
Arguments exited_threads {C} _.
Arguments current_thread {C} _.
Arguments joinwq {C} _.
Arguments mtxs {C} _.
Arguments rws {C} _.
Arguments cvs {C} _.
Arguments clock {C} _.
Arguments hyp {C} _.
Arguments unmapped {C} _.

Section Update.
Context {C : Type}.
Implicit Types st : sched C.

Definition upd_threads f st : sched C :=
  Sched (f (threads st)) (konts st) (onlist st) (thread_list st) (exited_threads st) (current_thread st) (joinwq st) (mtxs st) (rws st) (cvs st) (clock st) (hyp st) (unmapped st).
Definition upd_konts f st : sched C :=
  Sched (threads st) (f (konts st)) (onlist st) (thread_list st) (exited_threads st) (current_thread st) (joinwq st) (mtxs st) (rws st) (cvs st) (clock st) (hyp st) (unmapped st).
Definition upd_onlist f st : sched C :=
  Sched (threads st) (konts st) (f (onlist st)) (thread_list st) (exited_threads st) (current_thread st) (joinwq st) (mtxs st) (rws st) (cvs st) (clock st) (hyp st) (unmapped st).
Definition upd_thread_list f st : sched C :=
  Sched (threads st) (konts st) (onlist st) (f (thread_list st)) (exited_threads st) (current_thread st) (joinwq st) (mtxs st) (rws st) (cvs st) (clock st) (hyp st) (unmapped st).
Definition upd_exited_threads f st : sched C :=
  Sched (threads st) (konts st) (onlist st) (thread_list st) (f (exited_threads st)) (current_thread st) (joinwq st) (mtxs st) (rws st) (cvs st) (clock st) (hyp st) (unmapped st).
Definition upd_current_thread f st : sched C :=
  Sched (threads st) (konts st) (onlist st) (thread_list st) (exited_threads st) (f (current_thread st)) (joinwq st) (mtxs st) (rws st) (cvs st) (clock st) (hyp st) (unmapped st).
Definition upd_joinwq f st : sched C :=
  Sched (threads st) (konts st) (onlist st) (thread_list st) (exited_threads st) (current_thread st) (f (joinwq st)) (mtxs st) (rws st) (cvs st) (clock st) (hyp st) (unmapped st).
Definition upd_mtxs f st : sched C :=
  Sched (threads st) (konts st) (onlist st) (thread_list st) (exited_threads st) (current_thread st) (joinwq st) (f (mtxs st)) (rws st) (cvs st) (clock st) (hyp st) (unmapped st).
Definition upd_rws f st : sched C :=
  Sched (threads st) (konts st) (onlist st) (thread_list st) (exited_threads st) (current_thread st) (joinwq st) (mtxs st) (f (rws st)) (cvs st) (clock st) (hyp st) (unmapped st).
Definition upd_cvs f st : sched C :=
  Sched (threads st) (konts st) (onlist st) (thread_list st) (exited_threads st) (current_thread st) (joinwq st) (mtxs st) (rws st) (f (cvs st)) (clock st) (hyp st) (unmapped st).
Definition upd_clock f st : sched C :=
  Sched (threads st) (konts st) (onlist st) (thread_list st) (exited_threads st) (current_thread st) (joinwq st) (mtxs st) (rws st) (cvs st) (f (clock st)) (hyp st) (unmapped st).
Definition upd_hyp f st : sched C :=
  Sched (threads st) (konts st) (onlist st) (thread_list st) (exited_threads st) (current_thread st) (joinwq st) (mtxs st) (rws st) (cvs st) (clock st) (f (hyp st)) (unmapped st).
Definition upd_unmapped f st : sched C :=
  Sched (threads st) (konts st) (onlist st) (thread_list st) (exited_threads st) (current_thread st) (joinwq st) (mtxs st) (rws st) (cvs st) (clock st) (hyp st) (f (unmapped st)).

End Update.

Section Threads.
Context {C : Type} `{Clock C}.
Implicit Types st : sched C.

(** Dereferencing a pointer to a thread that has been freed is undefined. *)
Definition deref {A} (m : gmap Z A) (p : Z) : outcome A :=
  match m !! p with Some x => Ret x | None => UB end.

Definition get_current st : Z := current_thread st.

Definition on_thread (f : thread -> thread) (t : Z) st : outcome (sched C) :=
  x ← deref (threads st) t;
  Ret (upd_threads <[t := f x]> st).

Definition on_current (f : thread -> thread) st : outcome (sched C) := on_thread f (get_current st) st.

Definition curlwp st : outcome Z := t ← deref (threads st) (get_current st); Ret (lwp t).

Definition set_curlwp (l : Z) st : outcome (sched C) := on_current (set_lwp l) st.

Definition get_cookie st : outcome Z := t ← deref (threads st) (get_current st); Ret (cookie t).

Definition set_cookie (thread c : Z) st : outcome (sched C) :=
  let thread := if thread =? 0 then get_current st else thread in
  on_thread (set_cookie_ c) thread st.

Definition now st : Z * sched C :=
  let '(ts, c) := clk_gettime (clock st) in (nanos ts, upd_clock (fun _ => c) st).

(** Suspend the current thread: it will go on with [k]. *)
Definition suspend (k : kont) st : sched C := upd_konts <[get_current st := k]> st.

Definition rumpkern_unsched (interlock : Z) st : sched C := upd_hyp (fun h => h ++ [Unsched interlock]) st.
Definition rumpkern_sched (interlock : Z) st : sched C := upd_hyp (fun h => h ++ [Resched interlock]) st.

(** *** The scheduler *)

(** The pass over the thread list in [schedule]: the first thread that is
    runnable, or becomes so because its time has come; and the earliest time
    another one has to be looked at. *)
Fixpoint scan (tm wakeup : Z) (ths : gmap Z thread) (l : list Z) :
    outcome (option Z * Z * gmap Z thread) :=
  match l with
  | [] => Ret (None, wakeup, ths)
  | t :: l =>
      th ← deref ths t;
      let '(th, wakeup) :=
        if negb (is_runnable th) && (0 <=? wakeup_time th) then
          if wakeup_time th <=? tm then (wake (add_flag THREAD_TIMEDOUT th), wakeup)
          else (th, if wakeup_time th <? wakeup then wakeup_time th else wakeup)
        else (th, wakeup) in
      let ths := <[t := th]> ths in
      if is_runnable th then Ret (Some t, wakeup, ths) else scan tm wakeup ths l
  end.

(** TAILQ_REMOVE. *)
Definition tailq_remove (t : Z) (l : list Z) : list Z := filter (fun x => x <> t) l.

(** The calls of [wake] that the platform makes while it sleeps. *)
Fixpoint wake_threads (ws : list Z) st : outcome (sched C) :=
  match ws with
  | [] => Ret st
  | w :: ws => st ← on_thread wake w st; wake_threads ws st
  end.

(** The [do ... while (1)] loop: the thread to run next. *)
Fixpoint schedule_loop (fuel : nat) st : outcome (Z * sched C) :=
  match fuel with
  | O => NoFuel
  | S fuel =>
      let '(tm, st) := now st in
      '(next, wakeup, ths) ← scan tm (tm + 1000 * 1000) (threads st) (thread_list st);
      let st := upd_threads (fun _ => ths) st in
      match next with
      | Some t => Ret (t, upd_thread_list (fun l => tailq_remove t l ++ [t]) st)
      | None =>
          let sec := Z.quot (wakeup - tm) (1000 * 1000 * 1000) in
          let sl := TS sec (wakeup - tm - 1000 * 1000 * 1000 * sec) in
          let '(ws, c) := clk_nanosleep sl (clock st) in
          st ← wake_threads ws (upd_clock (fun _ => c) st);
          schedule_loop fuel st
      end
  end.

(** The end of [schedule], in the thread that goes on: free the threads that
    have exited. *)
Fixpoint reap (prev : Z) (l : list Z) st : outcome (sched C) :=
  match l with
  | [] => Ret st
  | t :: l =>
      if t =? prev then reap prev l st
      else
        th ← deref (threads st) t;
        let st := upd_exited_threads (tailq_remove t) st in
        let st := if has_flag THREAD_EXTSTACK th then st
                  else upd_unmapped (fun u => u ++ [stack th]) st in
        reap prev l (upd_threads (delete t) (upd_konts (delete t) st))
  end.

(** *** Wait queues *)

Definition get_wq (wh : waithead) st : outcome (list Z) :=
  match wh with
  | WMtx p => x ← deref (mtxs st) p; Ret (m_waiters x)
  | WRwR p => x ← deref (rws st) p; Ret (rwait x)
  | WRwW p => x ← deref (rws st) p; Ret (wwait x)
  | WCv p => x ← deref (cvs st) p; Ret (cv_waiters x)
  end.

Definition set_wq (wh : waithead) (l : list Z) st : sched C :=
  match wh with
  | WMtx p => upd_mtxs (alter (fun x => Mtx l (m_v x) (m_flags x) (m_o x)) p) st
  | WRwR p => upd_rws (alter (fun x => Rw l (wwait x) (rw_v x) (rw_o x)) p) st
  | WRwW p => upd_rws (alter (fun x => Rw (rwait x) l (rw_v x) (rw_o x)) p) st
  | WCv p => upd_cvs (alter (fun x => Cv l (nwaiters x)) p) st
  end.

Definition WAIT_NOTIMEOUT : Z := -1.

(** [wait] up to its call of [schedule] ... *)
Definition wait_enter (wh : waithead) (nsec : Z) st : outcome (sched C) :=
  if nsec =? 0 then Abort
  else
    let who := get_current st in
    q ← get_wq wh st;
    let st := set_wq wh (q ++ [who]) st in
    let st := upd_onlist <[who := true]> st in
    st ← on_thread block who st;
    let '(tm, st) := if nsec =? WAIT_NOTIMEOUT then (-1, st)
                     else let '(n, st) := now st in (n + nsec, st) in
    on_thread (fun t => clear_runnable (set_wakeup tm t)) who st.

(** ... and after it: the return value. *)
Definition wait_leave (wh : waithead) st : outcome (Z * sched C) :=
  let who := get_current st in
  on ← deref (onlist st) who;
  if on : bool then
    q ← get_wq wh st;
    Ret (ETIMEDOUT, set_wq wh (tailq_remove who q) st)
  else Ret (0, st).

Definition wakeup_one (wh : waithead) st : outcome (sched C) :=
  q ← get_wq wh st;
  match q with
  | [] => Ret st
  | w :: q =>
      let st := upd_onlist <[w := false]> (set_wq wh q st) in
      on_thread wake w st
  end.

(** The queue is emptied from the front. *)
Fixpoint wakeup_all_loop (q : list Z) (wh : waithead) st : outcome (sched C) :=
  match q with
  | [] => Ret st
  | w :: q =>
      let st := upd_onlist <[w := false]> (set_wq wh q st) in
      st ← on_thread wake w st;
      wakeup_all_loop q wh st
  end.

Definition wakeup_all (wh : waithead) st : outcome (sched C) :=
  q ← get_wq wh st; wakeup_all_loop q wh st.

(** *** Mutexes *)

Definition MTX_SPIN : Z := 1.
Definition MTX_KMUTEX : Z := 2.

(** [mtx] is the address [calloc] returned. *)
Definition mutex_init (mtx fl : Z) st : outcome (sched C) :=
  if mtx =? 0 then Abort else Ret (upd_mtxs <[mtx := Mtx [] 0 fl 0]> st).

Definition mutex_tryenter (mtx : Z) st : outcome (Z * sched C) :=
  l ← curlwp st;
  x ← deref (mtxs st) mtx;
  if negb (m_v x =? 0) && negb (m_o x =? l) then Ret (EBUSY, st)
  else
    v ← int32 (m_v x + 1);
    Ret (0, upd_mtxs <[mtx := Mtx (m_waiters x) v (m_flags x) l]> st).

(** [while (mutex_tryenter(mtx) != 0) wait(...); rumpkern_sched(...)] up to the
    next [schedule]. *)
Definition mutex_enter_loop (mtx : Z) st : outcome (result * sched C) :=
  '(r, st) ← mutex_tryenter mtx st;
  if negb (r =? 0) then
    st ← wait_enter (WMtx mtx) WAIT_NOTIMEOUT st;
    Ret (Blocked, suspend (KMutexEnter mtx) st)
  else Ret (Val 0, rumpkern_sched 0 st).

Definition mutex_enter (mtx : Z) st : outcome (result * sched C) :=
  '(r, st) ← mutex_tryenter mtx st;
  if negb (r =? 0) then mutex_enter_loop mtx (rumpkern_unsched 0 st)
  else Ret (Val 0, st).

Definition mutex_enter_nowrap (mtx : Z) st : outcome (sched C) :=
  '(rv, st) ← mutex_tryenter mtx st;
  if negb (rv =? 0) then Abort else Ret st.

Definition mutex_exit (mtx : Z) st : outcome (sched C) :=
  x ← deref (mtxs st) mtx;
  assert_ (0 <? m_v x);;
  let v := m_v x - 1 in
  if v =? 0 then wakeup_one (WMtx mtx) (upd_mtxs <[mtx := Mtx (m_waiters x) v (m_flags x) 0]> st)
  else Ret (upd_mtxs <[mtx := Mtx (m_waiters x) v (m_flags x) (m_o x)]> st).

Definition mutex_destroy (mtx : Z) st : outcome (sched C) :=
  x ← deref (mtxs st) mtx;
  assert_ (match m_waiters x with [] => m_o x =? 0 | _ => false end);;
  Ret (upd_mtxs (delete mtx) st).

Definition mutex_owner (mtx : Z) st : outcome Z := x ← deref (mtxs st) mtx; Ret (m_o x).

(** *** Read-write locks *)

Definition RW_READER : Z := 0.
Definition RW_WRITER : Z := 1.

Definition rw_init (rw : Z) st : outcome (sched C) :=
  if rw =? 0 then Abort else Ret (upd_rws <[rw := Rw [] [] 0 0]> st).

Definition rw_tryenter (lk rw : Z) st : outcome (Z * sched C) :=
  x ← deref (rws st) rw;
  if lk =? RW_WRITER then
    if rw_o x =? 0 then
      l ← curlwp st;
      Ret (0, upd_rws <[rw := Rw (rwait x) (wwait x) (rw_v x) l]> st)
    else Ret (EBUSY, st)
  else if lk =? RW_READER then
    if (rw_o x =? 0) && (match wwait x with [] => true | _ => false end) then
      v ← int32 (rw_v x + 1);
      Ret (0, upd_rws <[rw := Rw (rwait x) (wwait x) v (rw_o x)]> st)
    else Ret (EBUSY, st)
  else Ret (EINVAL, st).

(** The wait queue of the mode; a NULL queue is dereferenced by [wait]. *)
Definition rw_queue (lk rw : Z) : option waithead :=
  if lk =? RW_WRITER then Some (WRwW rw) else if lk =? RW_READER then Some (WRwR rw) else None.

Definition rw_enter_loop (lk rw : Z) st : outcome (result * sched C) :=
  '(r, st) ← rw_tryenter lk rw st;
  if negb (r =? 0) then
    match rw_queue lk rw with
    | None => UB
    | Some wh =>
        st ← wait_enter wh WAIT_NOTIMEOUT st;
        Ret (Blocked, suspend (KRwEnter lk rw) st)
    end
  else Ret (Val 0, rumpkern_sched 0 st).

Definition rw_enter (lk rw : Z) st : outcome (result * sched C) :=
  '(r, st) ← rw_tryenter lk rw st;
  if negb (r =? 0) then rw_enter_loop lk rw (rumpkern_unsched 0 st)
  else Ret (Val 0, st).

Definition rw_exit (rw : Z) st : outcome (sched C) :=
  x ← deref (rws st) rw;
  x ← (if negb (rw_o x =? 0) then Ret (Rw (rwait x) (wwait x) (rw_v x) 0)
       else v ← int32 (rw_v x - 1); Ret (Rw (rwait x) (wwait x) v (rw_o x)));
  let st := upd_rws <[rw := x]> st in
  match wwait x with
  | _ :: _ => if rw_o x =? 0 then wakeup_one (WRwW rw) st else Ret st
  | [] =>
      match rwait x with
      | _ :: _ => if rw_o x =? 0 then wakeup_all (WRwR rw) st else Ret st
      | [] => Ret st
      end
  end.

Definition rw_destroy (rw : Z) st : outcome (sched C) :=
  _ ← deref (rws st) rw; Ret (upd_rws (delete rw) st).

(** [None]: [*rvp] is not written. *)
Definition rw_held (lk rw : Z) st : outcome (option Z) :=
  x ← deref (rws st) rw;
  if lk =? RW_WRITER then l ← curlwp st; Ret (Some (b2z (rw_o x =? l)))
  else if lk =? RW_READER then Ret (Some (b2z (0 <? rw_v x)))
  else Ret None.

Definition rw_downgrade (rw : Z) st : outcome (sched C) :=
  x ← deref (rws st) rw; l ← curlwp st;
  assert_ (rw_o x =? l);;
  Ret (upd_rws <[rw := Rw (rwait x) (wwait x) (-1) (rw_o x)]> st).

Definition rw_tryupgrade (rw : Z) st : outcome (Z * sched C) :=
  x ← deref (rws st) rw;
  if rw_v x =? -1 then
    l ← curlwp st; Ret (0, upd_rws <[rw := Rw (rwait x) (wwait x) 1 l]> st)
  else Ret (EBUSY, st).

(** *** Condition variables *)

Definition cv_init (cv : Z) st : outcome (sched C) :=
  if cv =? 0 then Abort else Ret (upd_cvs <[cv := Cv [] 0]> st).

Definition cv_destroy (cv : Z) st : outcome (sched C) :=
  x ← deref (cvs st) cv;
  assert_ (nwaiters x =? 0);;
  Ret (upd_cvs (delete cv) st).

Definition cv_count (d : Z) (cv : Z) st : outcome (sched C) :=
  x ← deref (cvs st) cv;
  n ← int32 (nwaiters x + d);
  Ret (upd_cvs <[cv := Cv (cv_waiters x) n]> st).

Definition cv_unsched (mtx : Z) st : outcome (sched C) := mutex_exit mtx (rumpkern_unsched mtx st).

Definition cv_resched (mtx : Z) st : outcome (sched C) :=
  x ← deref (mtxs st) mtx;
  if Z.land (m_flags x) (Z.lor MTX_KMUTEX MTX_SPIN) =? Z.lor MTX_KMUTEX MTX_SPIN then
    mutex_enter_nowrap mtx (rumpkern_sched mtx st)
  else
    st ← mutex_enter_nowrap mtx st;
    Ret (rumpkern_sched mtx st).

(** The three waits, up to [schedule]; [nsec] is used by [cv_timedwait]. *)
Definition cv_wait_enter (k : cv_kind) (cv mtx nsec : Z) st : outcome (result * sched C) :=
  st ← cv_count 1 cv st;
  st ← match k with CvWaitNowrap => mutex_exit mtx st | _ => cv_unsched mtx st end;
  st ← wait_enter (WCv cv) nsec st;
  Ret (Blocked, suspend (KCvWait k cv mtx) st).

(** And after it. *)
Definition cv_wait_leave (k : cv_kind) (cv mtx : Z) st : outcome (result * sched C) :=
  '(rv, st) ← wait_leave (WCv cv) st;
  st ← match k with CvWaitNowrap => mutex_enter_nowrap mtx st | _ => cv_resched mtx st end;
  st ← cv_count (-1) cv st;
  Ret (Val (match k with CvTimedwait => rv | _ => 0 end), st).

Definition cv_wait (cv mtx : Z) st : outcome (result * sched C) :=
  cv_wait_enter CvWait cv mtx WAIT_NOTIMEOUT st.

Definition cv_wait_nowrap (cv mtx : Z) st : outcome (result * sched C) :=
  cv_wait_enter CvWaitNowrap cv mtx WAIT_NOTIMEOUT st.

Definition cv_timedwait (cv mtx sec nsec : Z) st : outcome (result * sched C) :=
  cv_wait_enter CvTimedwait cv mtx (sec * 1000 * 1000 * 1000 + nsec) st.

Definition cv_signal (cv : Z) st : outcome (sched C) := wakeup_one (WCv cv) st.

Definition cv_broadcast (cv : Z) st : outcome (sched C) := wakeup_all (WCv cv) st.

Definition cv_has_waiters (cv : Z) st : outcome Z :=
  x ← deref (cvs st) cv; Ret (b2z (negb (nwaiters x =? 0))).

(** *** Threads *)

Definition STACKSIZE : Z := 65536.

(** [addr] is what [calloc] returned, [mem] what [mmap] returned.  The result
    is the new thread, 0 for NULL. *)
Definition create_thread (addr mem cookie stack stack_size : Z) (joinable : bool) st :
    outcome (Z * sched C) :=
  if addr =? 0 then Ret (0, st)
  else
    let fl := if joinable then THREAD_MUSTJOIN else 0 in
    '(stack, fl) ←
      (if stack =? 0 then
         assert_ (stack_size =? 0);;
         Ret (if mem =? MAP_FAILED then None else Some mem, fl)
       else Ret (Some stack, Z.lor fl THREAD_EXTSTACK));
    match stack with
    | None => Ret (0, st)
    | Some stack =>
        let t := set_runnable (Thread 0 cookie (-1) stack fl) in
        Ret (addr, upd_thread_list (fun l => l ++ [addr])
                     (upd_konts <[addr := KStart]> (upd_threads <[addr := t]> st)))
    end.

Definition init_sched (addr : Z) st : outcome (sched C) :=
  if addr =? 0 then Abort
  else
    let t := set_runnable (Thread 0 0 (-1) 0 0) in
    Ret (upd_current_thread (fun _ => addr)
           (upd_thread_list (fun l => l ++ [addr])
              (upd_konts <[addr := KRun]> (upd_threads <[addr := t]> st)))).

(** The first of the threads that wait to join [wanted]. *)
Definition find_joiner (wanted : Z) (q : list (Z * Z)) : option Z :=
  head (map fst (filter (fun jw => jw.2 = wanted) q)).

(** [exit_thread] up to its next [schedule]. *)
Definition exit_thread st : outcome (result * sched C) :=
  let me := get_current st in
  t ← deref (threads st) me;
  if has_flag THREAD_MUSTJOIN t then
    st ← on_thread (add_flag THREAD_JOINED) me st;
    st ← match find_joiner me (joinwq st) with Some w => on_thread wake w st | None => Ret st end;
    st ← on_thread block me st;
    Ret (Blocked, suspend KExitGate st)
  else
    let st := upd_thread_list (tailq_remove me) st in
    st ← on_thread clear_runnable me st;
    let st := upd_exited_threads (cons me) st in
    Ret (Blocked, suspend KExited st).

(** The loop of [join_thread] up to its next [schedule], and what follows it. *)
Definition join_loop (joinable : Z) st : outcome (result * sched C) :=
  let me := get_current st in
  j ← deref (threads st) joinable;
  if negb (has_flag THREAD_JOINED j) then
    let st := upd_joinwq (fun q => q ++ [(me, joinable)]) st in
    st ← on_thread block me st;
    Ret (Blocked, suspend (KJoin joinable) st)
  else
    st ← on_thread (del_flag THREAD_MUSTJOIN) joinable st;
    st ← on_thread wake joinable st;
    Ret (Val 0, st).

Definition join_thread (joinable : Z) st : outcome (result * sched C) :=
  j ← deref (threads st) joinable;
  assert_ (has_flag THREAD_MUSTJOIN j);;
  join_loop joinable st.

(** The sleeps: the time to wake up at, and the continuation. *)
Definition sleep_until (tm : Z) (k : kont) st : outcome (result * sched C) :=
  st ← on_current (fun t => clear_runnable (set_wakeup tm t)) st;
  Ret (Blocked, suspend k st).

Definition msleep (millisecs : Z) st : outcome (result * sched C) :=
  let '(n, st) := now st in sleep_until (n + millisecs * 1000 * 1000) KSleep st.

Definition abssleep (millisecs : Z) st : outcome (result * sched C) :=
  sleep_until (millisecs * 1000 * 1000) KSleep st.

Definition nsleep (nsec : Z) (k : kont) st : outcome (result * sched C) :=
  let '(n, st) := now st in sleep_until (n + nsec) k st.

Definition absnanosleep (nsec : Z) (k : kont) st : outcome (result * sched C) :=
  sleep_until nsec k st.

Definition CLOCK_REALTIME : Z := 0.
Definition CLOCK_MONOTONIC : Z := 3.

Definition clock_sleep (clk sec nsec : Z) st : outcome (result * sched C) :=
  let st := rumpkern_unsched 0 st in
  let nanosec := sec * 1000 * 1000 * 1000 + nsec in
  if clk =? CLOCK_REALTIME then nsleep nanosec KClockSleep st
  else if clk =? CLOCK_MONOTONIC then absnanosleep nanosec KClockSleep st
  else Ret (Val 0, rumpkern_sched 0 st).

(** *** Switching *)

(** What a thread does when [swapcontext] returns in it (or starts it): the end
    of [schedule], then the rest of the call it was suspended in. *)
Definition resume_kont (k : kont) st : outcome (result * sched C) :=
  match k with
  | KRun | KStart | KSchedule | KSleep => Ret (Val 0, st)
  | KClockSleep => Ret (Val 0, rumpkern_sched 0 st)
  | KExitGate => exit_thread st
  | KExited => Ret (Blocked, st)
  | KJoin joinable =>
      let me := get_current st in
      join_loop joinable (upd_joinwq (filter (fun jw => jw.1 <> me)) st)
  | KMutexEnter mtx => '(_, st) ← wait_leave (WMtx mtx) st; mutex_enter_loop mtx st
  | KRwEnter lk rw =>
      match rw_queue lk rw with
      | None => UB
      | Some wh => '(_, st) ← wait_leave wh st; rw_enter_loop lk rw st
      end
  | KCvWait k cv mtx => cv_wait_leave k cv mtx st
  end.

Definition resume st : outcome (result * sched C) :=
  let me := get_current st in
  k ← deref (konts st) me;
  st ← (if decide (k = KStart) then Ret st else reap me (exited_threads st) st);
  '(r, st') ← resume_kont k st;
  Ret (r, match r with Val _ => upd_konts <[me := KRun]> st' | Blocked => st' end).

(** [schedule] in the suspended current thread, up to the point where the
    thread it switches to returns to its own code or blocks again. *)
Definition schedule (fuel : nat) st : outcome (result * sched C) :=
  '(next, st) ← schedule_loop fuel st;
  resume (upd_current_thread (fun _ => next) st).

(** *** The calls a thread can make *)

Inductive call : Type :=
  | CSchedule
  | CSetLwp (l : Z)
  | CSetCookie (t c : Z)
  | CWake (t : Z)
  | CCreate (addr mem cookie stack stack_size : Z) (joinable : bool)
  | CExit
  | CJoin (t : Z)
  | CClockSleep (clk sec nsec : Z)
  | CMutexInit (m fl : Z)
  | CMutexEnter (m : Z)
  | CMutexEnterNowrap (m : Z)
  | CMutexTryenter (m : Z)
  | CMutexExit (m : Z)
  | CMutexDestroy (m : Z)
  | CRwInit (rw : Z)
  | CRwEnter (lk rw : Z)
  | CRwTryenter (lk rw : Z)
  | CRwExit (rw : Z)
  | CRwDowngrade (rw : Z)
  | CRwTryupgrade (rw : Z)
  | CRwDestroy (rw : Z)
  | CCvInit (cv : Z)
  | CCvDestroy (cv : Z)
  | CCvWait (cv m : Z)
  | CCvWaitNowrap (cv m : Z)
  | CCvTimedwait (cv m sec nsec : Z)
  | CCvSignal (cv : Z)
  | CCvBroadcast (cv : Z).

Definition done_ (o : outcome (sched C)) : outcome (result * sched C) := st ← o; Ret (Val 0, st).
Definition value_ (o : outcome (Z * sched C)) : outcome (result * sched C) := '(v, st) ← o; Ret (Val v, st).

Definition exec (c : call) st : outcome (result * sched C) :=
  match c with
  | CSchedule => Ret (Blocked, suspend KSchedule st)
  | CSetLwp l => done_ (set_curlwp l st)
  | CSetCookie t c => done_ (set_cookie t c st)
  | CWake t => done_ (on_thread wake t st)
  | CCreate addr mem cookie stack stack_size joinable =>
      value_ (create_thread addr mem cookie stack stack_size joinable st)
  | CExit => exit_thread st
  | CJoin t => join_thread t st
  | CClockSleep clk sec nsec => clock_sleep clk sec nsec st
  | CMutexInit m fl => done_ (mutex_init m fl st)
  | CMutexEnter m => mutex_enter m st
  | CMutexEnterNowrap m => done_ (mutex_enter_nowrap m st)
  | CMutexTryenter m => value_ (mutex_tryenter m st)
  | CMutexExit m => done_ (mutex_exit m st)
  | CMutexDestroy m => done_ (mutex_destroy m st)
  | CRwInit rw => done_ (rw_init rw st)
  | CRwEnter lk rw => rw_enter lk rw st
  | CRwTryenter lk rw => value_ (rw_tryenter lk rw st)
  | CRwExit rw => done_ (rw_exit rw st)
  | CRwDowngrade rw => done_ (rw_downgrade rw st)
  | CRwTryupgrade rw => value_ (rw_tryupgrade rw st)
  | CRwDestroy rw => done_ (rw_destroy rw st)
  | CCvInit cv => done_ (cv_init cv st)
  | CCvDestroy cv => done_ (cv_destroy cv st)
  | CCvWait cv m => cv_wait cv m st
  | CCvWaitNowrap cv m => cv_wait_nowrap cv m st
  | CCvTimedwait cv m sec nsec => cv_timedwait cv m sec nsec st
  | CCvSignal cv => done_ (cv_signal cv st)
  | CCvBroadcast cv => done_ (cv_broadcast cv st)
  end.

(** The initial contents of the static variables. *)
Definition sched_init (c : C) : sched C := Sched ∅ ∅ ∅ [] [] 0 [] ∅ ∅ ∅ c [] [].

End Threads.
End Sched.

(** ** Facts: flags and the scheduler's pass *)

Module SchedFacts.
Import Sched Timespec.

Definition is_flag (f : Z) : Prop := exists i, 0 <= i /\ f = 2 ^ i.

Lemma flag_runnable : is_flag RUNNABLE_FLAG.
Proof. by exists 0. Qed.
Lemma flag_mustjoin : is_flag THREAD_MUSTJOIN.
Proof. by exists 1. Qed.
Lemma flag_joined : is_flag THREAD_JOINED.
Proof. by exists 2. Qed.
Lemma flag_timedout : is_flag THREAD_TIMEDOUT.
Proof. by exists 4. Qed.

Create HintDb sched.
#[export] Hint Resolve flag_runnable flag_mustjoin flag_joined flag_timedout : sched.

Lemma land_pow2 x i : 0 <= i -> (Z.land x (2 ^ i) =? 0) = negb (Z.testbit x i).
Proof.
  intros Hi. destruct (Z.testbit x i) eqn:E.
  - apply Z.eqb_neq. intros H0. apply (f_equal (fun z => Z.testbit z i)) in H0.
    rewrite Z.land_spec, E, Z.pow2_bits_true, Z.bits_0 in H0 by done. done.
  - apply Z.eqb_eq. apply Z.bits_inj_0. intros j. rewrite Z.land_spec, Z.pow2_bits_eqb by done.
    destruct (Z.eqb_spec i j) as [<-|]; [by rewrite E|apply andb_false_r].
Qed.

Lemma has_add f g t :
  is_flag f -> is_flag g -> has_flag g (add_flag f t) = has_flag g t || (f =? g).
Proof.
  intros (i & Hi & ->) (j & Hj & ->). unfold has_flag, add_flag, set_flags. cbn [flags].
  rewrite !land_pow2, !negb_involutive, Z.lor_spec, Z.pow2_bits_eqb by done. f_equal.
  apply eq_true_iff_eq. rewrite !Z.eqb_eq. split; [by intros ->|]. apply Z.pow_inj_r; lia.
Qed.

Lemma has_del f g t :
  is_flag f -> is_flag g -> has_flag g (del_flag f t) = has_flag g t && negb (f =? g).
Proof.
  intros (i & Hi & ->) (j & Hj & ->). unfold has_flag, del_flag, set_flags. cbn [flags].
  rewrite !land_pow2, !negb_involutive, Z.land_spec, Z.lnot_spec, Z.pow2_bits_eqb by done. do 2 f_equal.
  apply eq_true_iff_eq. rewrite !Z.eqb_eq. split; [by intros ->|]. apply Z.pow_inj_r; lia.
Qed.

Lemma is_runnable_wake t : is_runnable (wake t) = true.
Proof.
  unfold wake, set_runnable, is_runnable. rewrite has_add by eauto with sched. apply orb_true_r.
Qed.

Lemma is_runnable_clear t : is_runnable (clear_runnable t) = false.
Proof.
  unfold clear_runnable, is_runnable. rewrite has_del by eauto with sched. apply andb_false_r.
Qed.

Lemma is_runnable_add f t : is_flag f -> is_runnable t = true -> is_runnable (add_flag f t) = true.
Proof. intros Hf Ht. unfold is_runnable in *. rewrite has_add by eauto with sched. by rewrite Ht. Qed.

(** A thread the scheduler would run at time [tm]. *)
Definition due (tm : Z) (t : thread) : bool :=
  is_runnable t || ((0 <=? wakeup_time t) && (wakeup_time t <=? tm)).

(** What [schedule] makes of it. *)
Definition activate (t : thread) : thread :=
  if is_runnable t then t else wake (add_flag THREAD_TIMEDOUT t).

Lemma is_runnable_activate t : is_runnable (activate t) = true.
Proof. unfold activate. destruct (is_runnable t) eqn:E; [done|apply is_runnable_wake]. Qed.

(** The time to look again, after a thread that is not due. *)
Definition next_look (t : thread) (w : Z) : Z :=
  if (0 <=? wakeup_time t) && (wakeup_time t <? w) then wakeup_time t else w.

Lemma scan_cons tm w ths t l th :
  ths !! t = Some th ->
  scan tm w ths (t :: l) =
    if due tm th then Ret (Some t, w, <[t := activate th]> ths)
    else scan tm (next_look th w) ths l.
Proof.
  intros Hth. cbn [scan]. unfold deref, due, activate, next_look. rewrite Hth. cbn [mbind outcome_bind].
  destruct (is_runnable th) eqn:Er; cbn [negb andb orb]; [by rewrite Er|].
  destruct (0 <=? wakeup_time th); cbn [andb]; [|by rewrite Er, insert_id].
  destruct (wakeup_time th <=? tm); [by rewrite is_runnable_wake|]. by rewrite Er, insert_id.
Qed.

(** The pass finds the first thread that is due, or learns that none is and
    when the next one will be. *)
Lemma scan_spec tm w ths l :
  tm < w -> (forall t, t ∈ l -> is_Some (ths !! t)) ->
  (exists l1 t l2 th w', l = l1 ++ t :: l2 /\ ths !! t = Some th /\ due tm th = true /\
     (forall u x, u ∈ l1 -> ths !! u = Some x -> due tm x = false) /\
     scan tm w ths l = Ret (Some t, w', <[t := activate th]> ths)) \/
  (exists w', scan tm w ths l = Ret (None, w', ths) /\
     (forall u x, u ∈ l -> ths !! u = Some x -> due tm x = false /\ (0 <= wakeup_time x -> w' <= wakeup_time x)) /\
     tm < w' <= w /\
     (w' = w \/ exists u x, u ∈ l /\ ths !! u = Some x /\ wakeup_time x = w' /\ 0 <= w')).
Proof.
  induction l as [|t l IH] in w |- *; intros Hw Hdom.
  { right. exists w. split; [done|]. split; [by intros u x ?%not_elem_of_nil|]. split; [lia|by left]. }
  destruct (Hdom t) as [th Hth]; [by left|]. rewrite (scan_cons _ _ _ _ _ th Hth).
  destruct (due tm th) eqn:Hd.
  { left. exists [], t, l, th, w. split_and!; try done. by intros u x ?%not_elem_of_nil. }
  assert (tm < next_look th w <= w /\ (0 <= wakeup_time th -> next_look th w <= wakeup_time th)) as [Hw' Hlook].
  { unfold due in Hd. apply orb_false_iff in Hd as [_ Hd]. apply andb_false_iff in Hd. unfold next_look.
    case_cmp; [destruct Hd; to_prop; lia|]. apply andb_false_iff in E. destruct E; to_prop; lia. }
  destruct (IH (next_look th w)) as [(l1 & t' & l2 & th' & w' & -> & ? & ? & Hnd & E)|(w' & E & Hnd & ? & Hmin)];
    [lia|intros u ?; apply Hdom; by right|..].
  - left. exists (t :: l1), t', l2, th', w'. split_and!; try done.
    intros u x [->|Hu]%elem_of_cons Hx; [by simplify_eq|by eapply Hnd].
  - right. exists w'. split_and!; [done| |lia|lia|].
    + intros u x [->|Hu]%elem_of_cons Hx; [|by eapply Hnd]. simplify_eq. split; [done|lia].
    + destruct Hmin as [->|(u & x & ? & ? & ?)]; [|right; exists u, x; split; [by right|done]].
      unfold next_look. case_cmp; [|by left]. right. exists t, th. split_and!; [by left|done|done|lia].
Qed.

Section Loop.
Context {C : Type} `{Clock C}.
Implicit Types st : sched C.

(** What the platform's calls of [wake] do to the threads: some of the threads
    [ws] are woken, the others stay as they are. *)
Definition awoken (ws : list Z) (m m' : gmap Z thread) : Prop :=
  forall u, m' !! u = m !! u \/ u ∈ ws /\ m' !! u = wake <$> m !! u.

(** ... and to the state: the clock and the woken threads change. *)
Definition woken st st' : Prop :=
  clk_receivers (clock st') = clk_receivers (clock st) /\
  awoken (clk_receivers (clock st)) (threads st) (threads st') /\
  st' = upd_threads (fun _ => threads st') (upd_clock (fun _ => clock st') st).

Lemma wake_idem x : wake (wake x) = wake x.
Proof.
  unfold wake, set_runnable, add_flag, set_flags, set_wakeup. cbn. f_equal. by rewrite <- Z.lor_assoc, Z.lor_diag.
Qed.

Lemma woken_refl st : woken st st.
Proof. split_and!; [done|by left|by destruct st]. Qed.

Lemma woken_trans st1 st2 st3 : woken st1 st2 -> woken st2 st3 -> woken st1 st3.
Proof.
  intros (R1 & A1 & E1) (R2 & A2 & E2). split_and!; [congruence| |].
  - intros u. rewrite R1 in A2. destruct (A1 u) as [<-|[Hu Hw]]; [apply A2|].
    destruct (A2 u) as [->|[_ ->]]; [by right|right]. split; [done|]. rewrite Hw. destruct (threads st1 !! u); [|done].
    cbn. by rewrite wake_idem.
  - rewrite E2, E1 at 1. done.
Qed.

Lemma woken_clock c st : clk_receivers c = clk_receivers (clock st) -> woken st (upd_clock (fun _ => c) st).
Proof. intros Hc. split_and!; [done|by left|done]. Qed.

Lemma woken_lookup st st' u x' :
  woken st st' -> threads st' !! u = Some x' ->
  exists x, threads st !! u = Some x /\ (x' = x \/ u ∈ clk_receivers (clock st) /\ x' = wake x).
Proof.
  intros (_ & A & _) Hx. destruct (A u) as [Hu|[Hin Hu]]; rewrite Hu in Hx; [eauto|].
  apply fmap_Some in Hx as (x & ? & ->). eauto.
Qed.

Lemma woken_some st st' u :
  woken st st' -> is_Some (threads st' !! u) <-> is_Some (threads st !! u).
Proof. intros (_ & A & _). destruct (A u) as [->|[_ ->]]; [done|apply fmap_is_Some]. Qed.

Lemma woken_runnable st st' u x :
  woken st st' -> threads st !! u = Some x -> is_runnable x = true ->
  exists x', threads st' !! u = Some x' /\ is_runnable x' = true.
Proof.
  intros (_ & A & _) Hx Hr. destruct (A u) as [->|[_ ->]]; [eauto|]. rewrite Hx. cbn.
  eexists. split; [done|apply is_runnable_wake].
Qed.

Lemma woken_list st st' : woken st st' -> thread_list st' = thread_list st.
Proof. by intros (_ & _ & ->). Qed.

Lemma on_thread_woken w st st' :
  on_thread wake w st = Ret st' -> w ∈ clk_receivers (clock st) ->
  woken st st' /\ exists x, threads st' !! w = Some x /\ is_runnable x = true.
Proof.
  unfold on_thread, deref. destruct (threads st !! w) as [x|] eqn:Hx; [|done]. cbn [mbind outcome_bind].
  intros [= <-] Hw. cbn [upd_threads threads]. split.
  - split_and!; [done| |done]. intros u. cbn. destruct (decide (w = u)) as [<-|]; [|by left; rewrite lookup_insert_ne].
    right. by rewrite lookup_insert_eq, Hx.
  - rewrite lookup_insert_eq. eexists. split; [done|apply is_runnable_wake].
Qed.

Lemma wake_threads_woken ws st st' :
  wake_threads ws st = Ret st' -> ws ⊆ clk_receivers (clock st) ->
  woken st st' /\ forall w, w ∈ ws -> exists x, threads st' !! w = Some x /\ is_runnable x = true.
Proof.
  induction ws as [|w ws IH] in st |- *; cbn [wake_threads]; intros Hop Hin.
  { injection Hop as <-. split; [apply woken_refl|by intros w ?%not_elem_of_nil]. }
  inv_bind Hop. destruct (on_thread_woken _ _ _ E) as [W (x & Hx & Hr)]; [apply Hin; by left|].
  destruct (IH _ Hop) as [W' Hw]; [destruct W as (-> & _); intros u Hu; apply Hin; by right|].
  split; [by eapply woken_trans|]. intros u [->|Hu]%elem_of_cons; [|by apply Hw].
  by eapply woken_runnable.
Qed.

Lemma wake_threads_ends ws st :
  (forall w, w ∈ ws -> is_Some (threads st !! w)) -> exists st', wake_threads ws st = Ret st' /\ clock st' = clock st.
Proof.
  induction ws as [|w ws IH] in st |- *; intros Hd; [by exists st|]. cbn [wake_threads].
  destruct (Hd w) as [x Hx]; [by left|]. unfold on_thread, deref. rewrite Hx. cbn [mbind outcome_bind].
  destruct (IH (upd_threads <[w := wake x]> st)) as (st' & -> & Ecl); [|by exists st'].
  intros u Hu. cbn [upd_threads threads]. apply lookup_insert_is_Some'. right. apply Hd. by right.
Qed.

(** The outcome of [schedule]'s loop: after the platform has woken some
    threads, in the state [st1], [t] was the first thread due at time [tm]; it is
    made runnable and goes to the end of the list. *)
Record picked st st1 (t : Z) st' (tm : Z) (th : thread) (l1 l2 : list Z) : Prop := {
  pk_woken : woken st st1;
  pk_list : thread_list st = l1 ++ t :: l2;
  pk_lookup : threads st1 !! t = Some th;
  pk_due : due tm th = true;
  pk_first u x : u ∈ l1 -> threads st1 !! u = Some x -> due tm x = false;
  pk_time : clk_time (clock st) <= tm <= clk_time (clock st1);
  pk_clock : clk_ok (clock st1);
  pk_state : st' = upd_thread_list (fun l => tailq_remove t l ++ [t]) (upd_threads <[t := activate th]> st1);
}.

(** A pause of the loop sleeps until the time found by the pass, or until the
    platform has woken a thread. *)
Lemma pause_time c d :
  0 < d -> clk_ok c ->
  let sec := Z.quot d (1000 * 1000 * 1000) in
  let r := clk_nanosleep (TS sec (d - 1000 * 1000 * 1000 * sec)) c in
  clk_ok r.2 /\ clk_time c <= clk_time r.2 /\ (r.1 = [] -> clk_time c + d <= clk_time r.2).
Proof.
  intros Hd Hc sec r. pose proof (Z.quot_div_nonneg d (1000 * 1000 * 1000) ltac:(lia) ltac:(lia)) as Eq.
  pose proof (Z.div_mod d (1000 * 1000 * 1000) ltac:(lia)).
  pose proof (Z.mod_pos_bound d (1000 * 1000 * 1000) ltac:(lia)).
  pose proof (Z.div_pos d (1000 * 1000 * 1000) ltac:(lia) ltac:(lia)).
  destruct (clk_nanosleep_spec c (TS sec (d - 1000 * 1000 * 1000 * sec))) as (Hok & Hle & Ht); [done|..].
  - unfold normal. cbn [tv_nsec]. lia.
  - cbn [tv_sec]. lia.
  - split_and!; [done..|]. intros Hr. specialize (Ht Hr). unfold nanos in Ht. cbn [tv_sec tv_nsec] in Ht.
    fold r in Ht. lia.
Qed.

(** The loop ends if some thread is runnable or waits for a time: [k] is the
    number of milliseconds to that time. *)
Definition ready_within (k : nat) st : Prop :=
  exists u x, u ∈ thread_list st /\ threads st !! u = Some x /\
    (is_runnable x = true \/ 0 <= wakeup_time x <= clk_time (clock st) + Z.of_nat k * (1000 * 1000)).

(** The state the loop works in: every thread of the list exists, and the
    threads the platform may wake are in the list. *)
Record polled st : Prop := {
  pl_clock : clk_ok (clock st);
  pl_dom t : t ∈ thread_list st -> is_Some (threads st !! t);
  pl_receivers w : w ∈ clk_receivers (clock st) -> w ∈ thread_list st;
}.

Lemma polled_woken st st' : woken st st' -> clk_ok (clock st') -> polled st -> polled st'.
Proof.
  intros W Hc [_ Hd Hr]. pose proof (woken_list _ _ W) as El. split; [done| |].
  - intros t. rewrite El, (woken_some _ _ _ W). apply Hd.
  - intros w. rewrite El. destruct W as (-> & _). apply Hr.
Qed.

(** The pause: the state of the next round. *)
Lemma pause_spec c w st :
  0 < w -> polled st -> clk_ok c -> clk_receivers c = clk_receivers (clock st) ->
  let sec := Z.quot w (1000 * 1000 * 1000) in
  let r := clk_nanosleep (TS sec (w - 1000 * 1000 * 1000 * sec)) c in
  exists st1, wake_threads r.1 (upd_clock (fun _ => r.2) st) = Ret st1 /\ woken st st1 /\
    clk_ok (clock st1) /\ clk_time c <= clk_time (clock st1) /\
    (ready_within 0 st1 \/ threads st1 = threads st /\ clk_time c + w <= clk_time (clock st1)).
Proof.
  intros Hw [_ Hd Hrec] Hc Ec sec r. destruct (pause_time c w Hw Hc) as (Hok & Hle & Hfull).
  destruct (clk_nanosleep_receivers (TS sec (w - 1000 * 1000 * 1000 * sec)) c) as [Er Hin]. fold sec in Hok, Hle, Hfull. fold r in Hok, Hle, Hfull, Er, Hin.
  rewrite Ec in Er, Hin. destruct (wake_threads_ends r.1 (upd_clock (fun _ => r.2) st)) as (st1 & Hst & Ecl).
  { intros u Hu. apply Hd, Hrec, Hin, Hu. }
  cbn in Ecl. destruct (wake_threads_woken _ _ _ Hst) as [W Hwk]; [cbn; by rewrite Er|].
  assert (W0 : woken st st1) by (eapply woken_trans; [by apply woken_clock|exact W]).
  exists st1. rewrite Ecl. split_and!; [done..|]. destruct r.1 as [|u us] eqn:Eu.
  - right. split; [|by apply Hfull]. cbn in Hst. by injection Hst as <-.
  - left. destruct (Hwk u) as (x & Hx & Hr); [by left|]. exists u, x. rewrite (woken_list _ _ W0).
    split_and!; [|done|by left]. apply Hrec, Hin. by left.
Qed.

(** One round of the loop: a thread is picked, or the loop goes on after a
    pause. *)
Lemma schedule_round fuel st :
  polled st ->
  (exists st1 t st' tm th l1 l2, schedule_loop (S fuel) st = Ret (t, st') /\ picked st st1 t st' tm th l1 l2) \/
  (exists tm w st1, schedule_loop (S fuel) st = schedule_loop fuel st1 /\ woken st st1 /\
     clk_ok (clock st1) /\ clk_time (clock st) <= tm < w /\ clk_time (clock st) <= clk_time (clock st1) /\
     (ready_within 0 st1 \/ threads st1 = threads st /\ w <= clk_time (clock st1)) /\
     (forall u x, u ∈ thread_list st -> threads st !! u = Some x -> due tm x = false) /\
     (w = tm + 1000 * 1000 \/
      exists u x, u ∈ thread_list st /\ threads st !! u = Some x /\ wakeup_time x = w /\ 0 <= w)).
Proof.
  intros P. pose proof P as [Hok Hdom _]. destruct (clk_gettime_spec (clock st) Hok) as (Hok' & _ & Ht).
  pose proof (clk_gettime_receivers (clock st)) as Er.
  cbn [schedule_loop]. unfold now. destruct (clk_gettime (clock st)) as [ts c0] eqn:Ec. cbn [fst snd] in *.
  set (tm := nanos ts) in *. cbn [upd_clock threads thread_list].
  destruct (scan_spec tm (tm + 1000 * 1000) (threads st) (thread_list st))
    as [(l1 & t & l2 & th & w & Hl & Hth & Hd & Hnd & ->)|(w & -> & Hnd & Hw & Hmin)]; [lia|done|..];
    cbn [mbind outcome_bind].
  - left. exists (upd_clock (fun _ => c0) st), t. eexists _, tm, th, l1, l2. split; [reflexivity|].
    split; try done. by apply woken_clock.
  - right. destruct (pause_spec c0 (w - tm) st) as (st1 & Hst & W & Hc1 & Hle & Hres); [lia|done..|].
    cbn [clock upd_threads upd_clock] in *.
    set (sl := TS _ _) in *. destruct (clk_nanosleep sl c0) as [ws c1]. cbn [fst snd] in Hst.
    exists tm, w, st1. split; [|split_and!; try done; try lia].
    + transitivity (s ← wake_threads ws (upd_clock (fun _ => c1) st); schedule_loop fuel s);
        [by destruct st|by rewrite Hst].
    + destruct Hres as [?|[? ?]]; [by left|right]. split; [done|lia].
    + intros u x Hu Hx. by eapply Hnd.
Qed.

Lemma picked_woken st st1 st2 t st' tm th l1 l2 :
  woken st st1 -> clk_time (clock st) <= clk_time (clock st1) ->
  picked st1 st2 t st' tm th l1 l2 -> picked st st2 t st' tm th l1 l2.
Proof.
  intros W Hc [W1 Hl ? ? ? Ht ? ->]. rewrite (woken_list _ _ W) in Hl.
  split; try done; [by eapply woken_trans|lia].
Qed.

Lemma schedule_loop_now fuel st :
  polled st -> ready_within 0 st ->
  exists st1 t st' tm th l1 l2, schedule_loop (S fuel) st = Ret (t, st') /\ picked st st1 t st' tm th l1 l2.
Proof.
  intros P (u & x & Hu & Hx & Hr).
  destruct (schedule_round fuel st P) as [?|(tm & w & st1 & _ & _ & _ & Ht & _ & _ & Hnd & _)]; [done|].
  specialize (Hnd u x Hu Hx). unfold due in Hnd. apply orb_false_iff in Hnd as [Hnr Hnd].
  destruct Hr as [|Hr]; [congruence|]. apply andb_false_iff in Hnd. destruct Hnd; to_prop; lia.
Qed.

Lemma schedule_loop_ends k fuel st :
  polled st -> ready_within k st -> (k + 1 < fuel)%nat ->
  exists st1 t st' tm th l1 l2, schedule_loop fuel st = Ret (t, st') /\ picked st st1 t st' tm th l1 l2.
Proof.
  induction k as [|k IH] in fuel, st |- *; intros P Hr Hf; (destruct fuel as [|fuel]; [lia|]);
    [by apply schedule_loop_now|].
  destruct (schedule_round fuel st P) as [?|(tm & w & s & -> & W & Hok & Ht & Hle & Hs & Hnd & Hmin)]; [done|].
  pose proof (polled_woken _ _ W Hok P) as P1. pose proof (woken_list _ _ W) as El.
  assert (Hrec : exists st1 t st' tm th l1 l2, schedule_loop fuel s = Ret (t, st') /\ picked s st1 t st' tm th l1 l2).
  { destruct fuel as [|fuel]; [lia|]. destruct Hs as [Hs|[Eth Hw]]; [by apply schedule_loop_now|].
    destruct Hmin as [->|(u & x & Hu & Hx & Hwx & H0)].
    - apply IH; [done| |lia]. destruct Hr as (u & x & Hu & Hx & Hr). exists u, x. rewrite El, Eth.
      split_and!; [done..|]. destruct Hr as [?|Hr]; [by left|right]. lia.
    - apply schedule_loop_now; [done|]. exists u, x. rewrite El, Eth. split_and!; [done..|right]. lia. }
  destruct Hrec as (st1 & t & st' & tm' & th & l1 & l2 & E & Hp).
  exists st1, t, st', tm', th, l1, l2. split; [done|]. by eapply picked_woken.
Qed.

End Loop.

End SchedFacts.

(** ** The wait-queue invariant *)

Module SchedInv.
Import Sched SchedFacts.

(** The queue a suspended thread waits in. *)
Definition waits_on (k : kont) : option waithead :=
  match k with
  | KMutexEnter m => Some (WMtx m)
  | KRwEnter lk rw => rw_queue lk rw
  | KCvWait _ cv _ => Some (WCv cv)
  | _ => None
  end.

Section Inv.
Context {C : Type} `{Clock C}.
Implicit Types st : sched C.

Definition wq st (wh : waithead) : option (list Z) :=
  match wh with
  | WMtx p => m_waiters <$> mtxs st !! p
  | WRwR p => rwait <$> rws st !! p
  | WRwW p => wwait <$> rws st !! p
  | WCv p => cv_waiters <$> cvs st !! p
  end.

Definition runnable st (t : Z) : Prop := exists x, threads st !! t = Some x /\ is_runnable x = true.

(** Every thread suspended in a wait is in the queue it waits in, or has been
    taken off it and is runnable; and queues hold such threads only.  [ex] is
    the thread that is running inside a call, if any. *)
Record winv (ex : option Z) st : Prop := {
  w_queued wh q t : wq st wh = Some q -> t ∈ q ->
    ex <> Some t /\ onlist st !! t = Some true /\
    exists k, konts st !! t = Some k /\ waits_on k = Some wh;
  w_nodup wh q : wq st wh = Some q -> NoDup q;
  w_waiting t k wh : konts st !! t = Some k -> waits_on k = Some wh -> ex <> Some t ->
    (onlist st !! t = Some true /\ exists q, wq st wh = Some q /\ t ∈ q) \/
    (onlist st !! t = Some false /\ runnable st t);
}.

(** A thread that was taken off the queue of a mutex and has not run yet. *)
Definition pending (ex : option Z) st (m t : Z) : Prop :=
  ex <> Some t /\ konts st !! t = Some (KMutexEnter m) /\ onlist st !! t = Some false.

(** A free mutex with waiters has a thread on its way to take it.  [hole] is the
    mutex the running thread is about to take, if any. *)
Definition minv (ex hole : option Z) st : Prop :=
  forall m x, mtxs st !! m = Some x -> 0 <= m_v x /\
    (m_v x = 0 -> m_waiters x = [] \/ hole = Some m \/ exists t, pending ex st m t).

(** The lists and maps of threads fit together. *)
Record tinv st : Prop := {
  t_nodup : NoDup (thread_list st ++ exited_threads st);
  t_dom t : t ∈ thread_list st ++ exited_threads st <-> is_Some (threads st !! t);
  t_konts t : is_Some (threads st !! t) <-> is_Some (konts st !! t);
  t_exited t : t ∈ exited_threads st <-> konts st !! t = Some KExited;
}.

(** *** Steps that leave the queues alone *)

Record quiet (ex : option Z) st st' : Prop := {
  q_current : current_thread st' = current_thread st;
  q_konts : konts st' = konts st;
  q_onlist : onlist st' = onlist st;
  q_wq wh : wq st' wh = wq st wh;
  q_runnable t : ex <> Some t -> runnable st t -> runnable st' t;
  q_mtxs m x' : mtxs st' !! m = Some x' -> exists x, mtxs st !! m = Some x /\
    m_waiters x' = m_waiters x /\ (m_v x' = m_v x \/ 0 < m_v x');
  q_lists : thread_list st' = thread_list st /\ exited_threads st' = exited_threads st;
  q_dom t : is_Some (threads st' !! t) <-> is_Some (threads st !! t);
}.

Lemma quiet_refl ex st : quiet ex st st.
Proof. split; eauto. Qed.

Lemma quiet_trans ex st1 st2 st3 : quiet ex st1 st2 -> quiet ex st2 st3 -> quiet ex st1 st3.
Proof.
  intros [c1 k1 o1 w1 r1 m1 [l1 e1] d1] [c2 k2 o2 w2 r2 m2 [l2 e2] d2].
  split; [congruence..| | | | |].
  - intros wh. by rewrite w2.
  - intros t Hex Ht. auto.
  - intros m x' Hx. destruct (m2 m x' Hx) as (y & Hy & Hw & Hv). destruct (m1 m y Hy) as (x & Hx' & Hw' & Hv').
    exists x. split_and!; [done|congruence|]. destruct Hv, Hv'; [left; congruence|right; lia..].
  - split; congruence.
  - intros t. by rewrite d2.
Qed.

Lemma winv_ext ex st st' :
  konts st' = konts st -> onlist st' = onlist st -> (forall wh, wq st' wh = wq st wh) ->
  (forall t, ex <> Some t -> runnable st t -> runnable st' t) -> winv ex st -> winv ex st'.
Proof.
  intros Hk Ho Hw Hr [W1 W2 W3]. split.
  - intros wh q t. rewrite Hw, Ho, Hk. apply W1.
  - intros wh q. rewrite Hw. apply W2.
  - intros t k wh. rewrite Hk, Ho. intros Hkt Hwo Hex.
    destruct (W3 t k wh Hkt Hwo Hex) as [(? & q & ? & ?)|[? ?]]; [left|right; auto].
    split; [done|]. exists q. by rewrite Hw.
Qed.

Lemma quiet_winv ex st st' : quiet ex st st' -> winv ex st -> winv ex st'.
Proof. intros []. by apply winv_ext. Qed.

Lemma quiet_minv ex hole st st' : quiet ex st st' -> minv ex hole st -> minv ex hole st'.
Proof.
  intros [_ Hk Ho _ _ Hm _ _] M m x' Hx. destruct (Hm m x' Hx) as (x & Hx0 & Hw & Hv).
  destruct (M m x Hx0) as [Hpos Hz]. unfold pending. rewrite Hk, Ho, Hw.
  destruct Hv as [->|]; [done|split; lia].
Qed.

Lemma quiet_tinv ex st st' : quiet ex st st' -> tinv st -> tinv st'.
Proof.
  intros [_ Hk _ _ _ _ [Hl He] Hd] [T1 T2 T3 T4]. split.
  - by rewrite Hl, He.
  - intros t. by rewrite Hl, He, Hd.
  - intros t. by rewrite Hd, Hk.
  - intros t. by rewrite He, Hk.
Qed.

(** *** Primitive steps *)

Lemma quiet_hyp ex f st : quiet ex st (upd_hyp f st).
Proof. split; try done; eauto. Qed.

Lemma quiet_clock ex f st : quiet ex st (upd_clock f st).
Proof. split; try done; eauto. Qed.

Lemma quiet_joinwq ex f st : quiet ex st (upd_joinwq f st).
Proof. split; try done; eauto. Qed.

Lemma quiet_now ex st n st' : now st = (n, st') -> quiet ex st st'.
Proof. unfold now. destruct (clk_gettime _). intros [= _ <-]. apply quiet_clock. Qed.

Definition keeps_runnable (f : thread -> thread) : Prop :=
  forall x, is_runnable x = true -> is_runnable (f x) = true.

Lemma quiet_on_thread ex f t st st' :
  on_thread f t st = Ret st' -> keeps_runnable f \/ ex = Some t -> quiet ex st st'.
Proof.
  unfold on_thread, deref. destruct (threads st !! t) as [x|] eqn:Hx; [|done]. cbn [mbind outcome_bind].
  intros [= <-] Hf. split; try done; eauto.
  - intros u Hex (y & Hy & Hr). unfold runnable. cbn [upd_threads threads].
    destruct (decide (t = u)) as [<-|]; [|rewrite lookup_insert_ne by done; eauto].
    rewrite lookup_insert_eq. exists (f x). split; [done|]. destruct Hf as [Hf|]; [|done].
    apply Hf. congruence.
  - intros u. cbn [upd_threads threads]. destruct (decide (t = u)) as [<-|];
      [rewrite lookup_insert_eq|by rewrite lookup_insert_ne]. split; eauto.
Qed.

Lemma keeps_wake : keeps_runnable wake.
Proof. intros x _. apply is_runnable_wake. Qed.

Lemma keeps_add f : is_flag f -> keeps_runnable (add_flag f).
Proof. intros Hf x. by apply is_runnable_add. Qed.

Lemma keeps_mustjoin : keeps_runnable (del_flag THREAD_MUSTJOIN).
Proof. intros x Hx. unfold is_runnable in *. rewrite has_del by eauto with sched. by rewrite Hx. Qed.

Lemma wq_mtx m x v fl o st wh :
  mtxs st !! m = Some x -> wq (upd_mtxs <[m := Mtx (m_waiters x) v fl o]> st) wh = wq st wh.
Proof.
  intros Hx. destruct wh as [p|p|p|p]; try done. cbn [wq upd_mtxs mtxs].
  destruct (decide (m = p)) as [<-|]; [rewrite lookup_insert_eq, Hx|rewrite lookup_insert_ne by done]; done.
Qed.

Lemma quiet_mtx ex m x v fl o st :
  mtxs st !! m = Some x -> v = m_v x \/ 0 < v ->
  quiet ex st (upd_mtxs <[m := Mtx (m_waiters x) v fl o]> st).
Proof.
  intros Hx Hv. split; try done; eauto.
  - intros wh. by apply wq_mtx.
  - intros p y. cbn [upd_mtxs mtxs]. intros [[<- <-]|[? ?]]%lookup_insert_Some; [|by eauto].
    exists x. split_and!; done.
Qed.

Lemma quiet_rw ex rw x y st :
  rws st !! rw = Some x -> rwait y = rwait x -> wwait y = wwait x -> quiet ex st (upd_rws <[rw := y]> st).
Proof.
  intros Hx Hr Hw. split; try done; eauto.
  intros [p|p|p|p]; try done; cbn [wq upd_rws rws];
    (destruct (decide (rw = p)) as [<-|]; [rewrite lookup_insert_eq, Hx|rewrite lookup_insert_ne by done]);
    cbn; congruence.
Qed.

Lemma quiet_cv ex cv x n st :
  cvs st !! cv = Some x -> quiet ex st (upd_cvs <[cv := Cv (cv_waiters x) n]> st).
Proof.
  intros Hx. split; try done; eauto.
  intros [p|p|p|p]; try done. cbn [wq upd_cvs cvs].
  destruct (decide (cv = p)) as [<-|]; [rewrite lookup_insert_eq, Hx|rewrite lookup_insert_ne by done]; done.
Qed.

Lemma get_wq_eq wh st : get_wq wh st = match wq st wh with Some q => Ret q | None => UB end.
Proof.
  destruct wh as [p|p|p|p]; cbn [get_wq wq]; unfold deref;
    [destruct (mtxs st !! p)|destruct (rws st !! p)|destruct (rws st !! p)|destruct (cvs st !! p)]; done.
Qed.

Lemma wq_set wh l st wh' :
  wq (set_wq wh l st) wh' = if decide (wh = wh') then (fun _ => l) <$> wq st wh else wq st wh'.
Proof.
  destruct wh as [p|p|p|p], wh' as [p'|p'|p'|p']; cbn [wq set_wq upd_mtxs upd_rws upd_cvs mtxs rws cvs];
    (destruct (decide (p = p')) as [<-|Hne];
     [rewrite ?lookup_alter_eq|rewrite ?lookup_alter_ne by done]);
    case_decide; simplify_eq; rewrite <- ?option_fmap_compose; try done;
    try (by destruct (mtxs st !! p)); try (by destruct (rws st !! p)); try (by destruct (cvs st !! p)).
Qed.

Lemma set_wq_rest wh l st :
  threads (set_wq wh l st) = threads st /\ konts (set_wq wh l st) = konts st /\
  onlist (set_wq wh l st) = onlist st /\ current_thread (set_wq wh l st) = current_thread st /\
  thread_list (set_wq wh l st) = thread_list st /\ exited_threads (set_wq wh l st) = exited_threads st.
Proof. by destruct wh. Qed.

Lemma set_wq_mtxs wh l st m x :
  mtxs (set_wq wh l st) !! m = Some x ->
  exists y, mtxs st !! m = Some y /\ m_v x = m_v y /\
    m_waiters x = if decide (wh = WMtx m) then l else m_waiters y.
Proof.
  destruct wh as [p|p|p|p]; cbn [set_wq upd_mtxs upd_rws upd_cvs mtxs];
    try (intros Hx; exists x; rewrite decide_False by done; done).
  destruct (decide (p = m)) as [->|Hne].
  - rewrite lookup_alter_eq. destruct (mtxs st !! m) as [y|]; [|done]. cbn. intros [= <-]. exists y.
    by rewrite decide_True.
  - rewrite lookup_alter_ne by done. intros Hx. exists x. rewrite decide_False by congruence. done.
Qed.

(** *** Queue operations *)

(** What the queue operations leave as it is. *)
Record frame (ex : option Z) st st' : Prop := {
  f_current : current_thread st' = current_thread st;
  f_konts : konts st' = konts st;
  f_runnable t : ex <> Some t -> runnable st t -> runnable st' t;
  f_lists : thread_list st' = thread_list st /\ exited_threads st' = exited_threads st;
  f_dom t : is_Some (threads st' !! t) <-> is_Some (threads st !! t);
}.

Lemma quiet_frame ex st st' : quiet ex st st' -> frame ex st st'.
Proof. intros []. by split. Qed.

Lemma frame_trans ex st1 st2 st3 : frame ex st1 st2 -> frame ex st2 st3 -> frame ex st1 st3.
Proof.
  intros [c1 k1 r1 [l1 e1] d1] [c2 k2 r2 [l2 e2] d2]. split; [congruence..| | |].
  - intros t Hex Ht. auto.
  - split; congruence.
  - intros t. by rewrite d2.
Qed.

Lemma frame_tinv ex st st' : frame ex st st' -> tinv st -> tinv st'.
Proof.
  intros [_ Hk _ [Hl He] Hd] [T1 T2 T3 T4]. split.
  - by rewrite Hl, He.
  - intros t. by rewrite Hl, He, Hd.
  - intros t. by rewrite Hd, Hk.
  - intros t. by rewrite He, Hk.
Qed.

(** Taking [w] off the front of a queue and waking it. *)
Lemma wake_first ex wh w q st st' :
  wq st wh = Some (w :: q) ->
  on_thread wake w (upd_onlist <[w := false]> (set_wq wh q st)) = Ret st' -> winv ex st ->
  winv ex st' /\ frame ex st st' /\ runnable st' w /\ onlist st' = <[w := false]> (onlist st) /\
  (forall wh', wq st' wh' = if decide (wh = wh') then Some q else wq st wh') /\
  mtxs st' = mtxs (set_wq wh q st).
Proof.
  intros Hq Hop W. destruct (set_wq_rest wh q st) as (Et & Ek & Eo & Ec & El & Ee).
  set (st1 := upd_onlist <[w := false]> (set_wq wh q st)) in *.
  assert (Hwq1 : forall wh', wq st1 wh' = if decide (wh = wh') then Some q else wq st wh').
  { intros wh'. transitivity (wq (set_wq wh q st) wh'); [by destruct wh'|].
    rewrite wq_set. case_decide; [by rewrite Hq|done]. }
  pose proof (quiet_on_thread ex wake w st1 st' Hop (or_introl keeps_wake)) as [c k o wq' r _ [l e] d].
  assert (Hrw : runnable st' w).
  { unfold on_thread, deref in Hop. destruct (threads st1 !! w) as [x|] eqn:Hx; [|done].
    injection Hop as <-. exists (wake x). cbn. rewrite lookup_insert_eq. split; [done|apply is_runnable_wake]. }
  assert (Hrun : forall t, ex <> Some t -> runnable st t -> runnable st' t).
  { intros t Hex Ht. apply r; [done|]. unfold runnable, st1. cbn [upd_onlist threads]. by rewrite Et. }
  assert (Hwq' : forall wh', wq st' wh' = if decide (wh = wh') then Some q else wq st wh').
  { intros wh'. by rewrite wq'. }
  assert (Ho' : onlist st' = <[w := false]> (onlist st)) by (rewrite o; unfold st1; cbn; by rewrite Eo).
  assert (Hk' : konts st' = konts st) by (rewrite k; unfold st1; cbn; done).
  assert (Hnd : (w ∉ q) /\ NoDup q) by (by apply list.NoDup_cons, (w_nodup ex st W wh)).
  split_and!; [|split|done..|].
  - split.
    + intros wh' q' t. rewrite Hwq', Ho', Hk'. intros Hq' Ht.
      assert (t <> w /\ exists q0, wq st wh' = Some q0 /\ t ∈ q0) as (Hne & q0 & Hq0 & Ht0).
      { case_decide as Hwh.
        - subst wh'. simplify_eq. split; [by intros ->; destruct Hnd|]. exists (w :: q'). split; [done|by right].
        - split; [|eauto]. intros ->. destruct (w_queued ex st W wh (w :: q) w Hq) as (_ & _ & k1 & Hk1 & Hw1); [by left|].
          destruct (w_queued ex st W wh' q' w Hq' Ht) as (_ & _ & k2 & Hk2 & Hw2). congruence. }
      rewrite lookup_insert_ne by done. by apply (w_queued ex st W wh' q0).
    + intros wh' q'. rewrite Hwq'. case_decide; [intros [= <-]; by destruct Hnd|apply (w_nodup ex st W)].
    + intros t k0 wh'. rewrite Hk', Ho'. intros Hkt Hwo Hex.
      destruct (decide (w = t)) as [<-|Hne]; [right; by rewrite lookup_insert_eq|].
      rewrite lookup_insert_ne by done.
      destruct (w_waiting ex st W t k0 wh' Hkt Hwo Hex) as [(? & q' & Hq' & Ht)|[? ?]]; [|right; auto].
      left. split; [done|]. rewrite Hwq'. case_decide as Hwh; [|eauto]. subst wh'. simplify_eq.
      exists q. split; [done|]. by apply elem_of_cons in Ht as [->|?].
  - by rewrite c.
  - done.
  - done.
  - split; [rewrite l|rewrite e]; unfold st1; cbn; done.
  - intros t. rewrite d. unfold st1. cbn. by rewrite Et.
  - unfold on_thread, deref in Hop. destruct (threads st1 !! w); [|done]. by injection Hop as <-.
Qed.

Lemma pending_wake ex st st' w m t :
  konts st' = konts st -> onlist st' = <[w := false]> (onlist st) -> pending ex st m t -> pending ex st' m t.
Proof.
  intros Hk Ho (Hex & Hkt & Hon). split_and!; [done|by rewrite Hk|]. rewrite Ho.
  destruct (decide (w = t)) as [<-|]; [by rewrite lookup_insert_eq|by rewrite lookup_insert_ne].
Qed.

(** Waking the first of the queue; on the queue of the mutex that was just
    released this also fills the hole. *)
Lemma wakeup_one_inv ex hole wh st st' :
  wakeup_one wh st = Ret st' -> winv ex st -> minv ex hole st ->
  winv ex st' /\ minv ex (if decide (hole = None) then None
                          else if decide (wh = WMtx (default 0 hole)) then None else hole) st' /\
  frame ex st st'.
Proof.
  unfold wakeup_one. rewrite get_wq_eq. destruct (wq st wh) as [[|w q]|] eqn:Hq; cbn [mbind outcome_bind]; [| |done].
  - intros [= <-] W M. split_and!; [done| |apply quiet_frame, quiet_refl].
    intros m x Hx. destruct (M m x Hx) as [? Hz]. split; [done|]. intros Hv0.
    destruct (Hz Hv0) as [?|[->|?]]; [by left| |by right; right].
    rewrite decide_False by done. cbn. case_decide as Hwh; [|auto]. subst wh. left.
    cbn in Hq. rewrite Hx in Hq. by injection Hq.
  - intros Hop W M. destruct (wake_first ex wh w q st st' Hq Hop W) as (W' & F & Hr & Ho & Hwq & Hm).
    split_and!; [done| |done]. intros m x Hx. rewrite Hm in Hx.
    destruct (set_wq_mtxs wh q st m x Hx) as (y & Hy & Hv & Hw). destruct (M m y Hy) as [Hpos Hz].
    rewrite Hv, Hw. split; [done|]. intros Hv0.
    assert (Hpw : wh = WMtx m -> pending ex st' m w).
    { intros ->. destruct (w_queued ex st W _ _ w Hq) as (Hex & _ & k & Hk & Hwo); [by left|].
      split_and!; [done| |by rewrite Ho, lookup_insert_eq]. rewrite (f_konts _ _ _ F), Hk. f_equal.
      destruct k; cbn in Hwo; simplify_eq; [done|]. unfold rw_queue in Hwo. repeat case_match; simplify_eq. }
    case_decide as Hwh; [right; right; eauto|].
    destruct (Hz Hv0) as [?|[->|[t Ht]]]; [by left| |].
    + rewrite decide_False by done. cbn. rewrite decide_False by done. auto.
    + right. right. exists t. by eapply pending_wake; [apply (f_konts _ _ _ F)| |].
Qed.

Lemma wakeup_all_inv ex wh q st st' :
  wq st wh = Some q -> wakeup_all_loop q wh st = Ret st' -> (forall m, wh <> WMtx m) ->
  winv ex st -> minv ex None st -> winv ex st' /\ minv ex None st' /\ frame ex st st'.
Proof.
  intros Hq Hop Hwh. induction q as [|w q IH] in st, Hq, Hop |- *; cbn [wakeup_all_loop] in Hop; intros W M.
  { injection Hop as <-. split_and!; [done..|apply quiet_frame, quiet_refl]. }
  inv_bind Hop. destruct (wake_first ex wh w q st a Hq E W) as (W' & F & Hr & Ho & Hwq & Hm).
  destruct (IH a) as (W2 & M2 & F2); [|done|done| |].
  - rewrite Hwq. by rewrite decide_True.
  - intros m x Hx. rewrite Hm in Hx. destruct (set_wq_mtxs wh q st m x Hx) as (y & Hy & Hv & Hw).
    rewrite decide_False in Hw by done. destruct (M m y Hy) as [Hpos Hz]. rewrite Hv, Hw. split; [done|].
    intros Hv0. destruct (Hz Hv0) as [?|[?|[t Ht]]]; [by left|done|]. right. right. exists t.
    by eapply pending_wake; [apply (f_konts _ _ _ F)| |].
  - split_and!; [done..|]. by eapply frame_trans.
Qed.

Lemma wait_enter_shape wh nsec st st' :
  wait_enter wh nsec st = Ret st' ->
  exists q, wq st wh = Some q /\
    quiet (Some (current_thread st))
      (upd_onlist <[current_thread st := true]> (set_wq wh (q ++ [current_thread st]) st)) st'.
Proof.
  unfold wait_enter, get_current. destruct (nsec =? 0); [done|]. rewrite get_wq_eq.
  destruct (wq st wh) as [q|]; cbn [mbind outcome_bind]; [|done]. intros Hop. exists q. split; [done|].
  inv_bind Hop. pose proof (quiet_on_thread _ _ _ _ _ E (or_intror eq_refl)) as Q1.
  destruct (if nsec =? WAIT_NOTIMEOUT then (-1, a) else _) as [tm st2] eqn:Et.
  assert (quiet (Some (current_thread st)) a st2) as Q2.
  { destruct (nsec =? WAIT_NOTIMEOUT); [injection Et as _ <-; apply quiet_refl|].
    destruct (now a) as [n a'] eqn:En. injection Et as _ <-. by eapply quiet_now. }
  pose proof (quiet_on_thread _ _ _ _ _ Hop (or_intror eq_refl)) as Q3.
  eapply quiet_trans; [exact Q1|]. by eapply quiet_trans.
Qed.

(** The state of a thread that is suspended, given to the others. *)
Lemma tinv_suspend k st :
  tinv st -> is_Some (threads st !! current_thread st) -> current_thread st ∉ exited_threads st ->
  k <> KExited -> tinv (suspend k st).
Proof.
  intros [T1 T2 T3 T4] Hcur Hne Hk. unfold suspend, get_current. split; cbn [upd_konts thread_list exited_threads threads konts]; try done.
  - intros t. rewrite T3. destruct (decide (current_thread st = t)) as [<-|].
    + rewrite lookup_insert_eq. apply T3 in Hcur. split; eauto.
    + by rewrite lookup_insert_ne.
  - intros t. destruct (decide (current_thread st = t)) as [<-|].
    + rewrite lookup_insert_eq. split; [done|congruence].
    + rewrite lookup_insert_ne by done. apply T4.
Qed.

(** A thread that waits joins the end of the queue. *)
Lemma wait_block_inv wh nsec k st st' :
  wait_enter wh nsec st = Ret st' -> waits_on k = Some wh ->
  (forall m x, wh = WMtx m -> mtxs st !! m = Some x -> m_v x <> 0) ->
  winv (Some (current_thread st)) st -> minv (Some (current_thread st)) None st ->
  winv None (suspend k st') /\ minv None None (suspend k st') /\
  frame (Some (current_thread st)) st st'.
Proof.
  intros Hop Hk Hbusy W M. destruct (wait_enter_shape wh nsec st st' Hop) as (q & Hq & Q).
  set (me := current_thread st) in *. destruct (set_wq_rest wh (q ++ [me]) st) as (Et & Ek & Eo & Ec & El & Ee).
  destruct Q as [Qc Qk Qo Qw Qr Qm [Ql Qe] Qd]. cbn [upd_onlist current_thread konts onlist thread_list exited_threads threads] in *.
  assert (Hwq : forall wh', wq st' wh' = if decide (wh = wh') then Some (q ++ [me]) else wq st wh').
  { intros wh'. rewrite Qw. transitivity (wq (set_wq wh (q ++ [me]) st) wh'); [by destruct wh'|].
    rewrite wq_set. case_decide; [by rewrite Hq|done]. }
  assert (Hnin : forall wh' q', wq st wh' = Some q' -> me ∉ q').
  { intros wh' q' Hq' Hin. by destruct (w_queued _ _ W wh' q' me Hq' Hin). }
  assert (Hrun : forall t, Some me <> Some t -> runnable st t -> runnable st' t).
  { intros t Hne Ht. apply Qr; [done|]. unfold runnable in *. cbn [upd_onlist threads]. by rewrite Et. }
  unfold suspend, get_current. rewrite Qc, Ec. fold me. split_and!.
  - split; unfold runnable; cbn [upd_konts wq konts onlist threads].
    + intros wh' q' t. replace (wq (upd_konts <[me:=k]> st') wh') with (wq st' wh') by (by destruct wh').
      rewrite Hwq, Qo, Qk, Eo, Ek. intros Hq' Ht. destruct (decide (me = t)) as [<-|Hne].
      * rewrite !lookup_insert_eq. split_and!; [done..|]. exists k. split; [done|].
        case_decide; [by subst|]. by destruct (Hnin wh' q').
      * rewrite !lookup_insert_ne by done. split; [done|].
        assert (exists q0, wq st wh' = Some q0 /\ t ∈ q0) as (q0 & Hq0 & Ht0).
        { case_decide; [|eauto]. subst wh'. simplify_eq. apply elem_of_app in Ht as [?|?%list_elem_of_singleton]; [eauto|done]. }
        destruct (w_queued _ _ W wh' q0 t Hq0 Ht0) as (_ & ? & ?). done.
    + intros wh' q'. replace (wq (upd_konts <[me:=k]> st') wh') with (wq st' wh') by (by destruct wh').
      rewrite Hwq. case_decide; [|apply (w_nodup _ _ W)]. intros [= <-]. apply NoDup_app. split_and!.
      * by apply (w_nodup _ _ W wh).
      * intros t Ht ->%list_elem_of_singleton. by apply (Hnin wh q).
      * apply NoDup_singleton.
    + intros t k' wh'. replace (wq (upd_konts <[me:=k]> st') wh') with (wq st' wh') by (by destruct wh').
      rewrite Hwq, Qo, Qk, Eo, Ek. intros Hkt Hwo _. destruct (decide (me = t)) as [<-|Hne].
      * rewrite lookup_insert_eq in Hkt. simplify_eq. left. rewrite lookup_insert_eq. split; [done|].
        rewrite decide_True by done. exists (q ++ [me]). split; [done|]. apply elem_of_app. right. by left.
      * rewrite lookup_insert_ne in Hkt by done. rewrite lookup_insert_ne by done.
        destruct (w_waiting _ _ W t k' wh' Hkt Hwo) as [(? & q' & Hq' & Ht)|[? ?]]; [congruence| |].
        -- left. split; [done|]. case_decide; [|eauto]. subst wh'. simplify_eq.
           exists (q ++ [me]). split; [done|]. apply elem_of_app. by left.
        -- right. split; [done|]. apply Hrun; [congruence|done].
  - intros m x' Hx'. cbn [upd_konts mtxs] in Hx'. destruct (Qm m x' Hx') as (x & Hx & Hw & Hv).
    cbn [upd_onlist mtxs] in Hx. destruct (set_wq_mtxs wh _ st m x Hx) as (y & Hy & Hv' & Hw').
    destruct (M m y Hy) as [Hpos Hz]. split; [lia|]. intros Hv0. case_decide as Hwh.
    + exfalso. apply (Hbusy m y Hwh Hy). lia.
    + destruct (Hz ltac:(lia)) as [?|[?|(t & Hex & Hkt & Hon)]]; [left; congruence|done|]. right. right.
      exists t. unfold pending. cbn [upd_konts konts onlist]. rewrite Qk, Qo, Ek, Eo.
      rewrite !lookup_insert_ne by congruence. done.
  - split; [by rewrite Qc, Ec|by rewrite Qk, Ek|done|by rewrite Ql, Qe, El, Ee|].
    intros t. rewrite Qd. cbn. by rewrite Et.
Qed.

(** The mutex whose next owner a suspended thread may be. *)
Definition wants (k : kont) : option Z := match k with KMutexEnter m => Some m | _ => None end.

Lemma minv_exclude me k st :
  konts st !! me = Some k -> minv None None st -> minv (Some me) (wants k) st.
Proof.
  intros Hk M m x Hx. destruct (M m x Hx) as [? Hz]. split; [done|]. intros Hv0.
  destruct (Hz Hv0) as [?|[?|(t & _ & Hkt & Hon)]]; [by left|done|]. right.
  destruct (decide (me = t)) as [<-|]; [left|right; exists t; by split_and!; [congruence|..]].
  rewrite Hk in Hkt. by injection Hkt as ->.
Qed.

(** A thread that runs again after a wait is in no queue. *)
Lemma wait_leave_inv wh k st r st' :
  wait_leave wh st = Ret (r, st') -> konts st !! current_thread st = Some k -> waits_on k = Some wh ->
  winv None st -> minv None None st ->
  winv (Some (current_thread st)) st' /\ minv (Some (current_thread st)) (wants k) st' /\
  frame (Some (current_thread st)) st st' /\
  r = (if decide (onlist st !! current_thread st = Some true) then ETIMEDOUT else 0).
Proof.
  unfold wait_leave, get_current, deref. set (me := current_thread st).
  destruct (onlist st !! me) as [[]|] eqn:Hon; cbn [mbind outcome_bind]; [| |done]; intros Hop Hk Hwo W M;
    pose proof (minv_exclude me k st Hk M) as M'.
  - rewrite get_wq_eq in Hop. destruct (wq st wh) as [q|] eqn:Hq; cbn [mbind outcome_bind] in Hop; [|done].
    injection Hop as <- <-. set (q' := tailq_remove me q). destruct (set_wq_rest wh q' st) as (Et & Ek & Eo & Ec & El & Ee).
    assert (Hwq : forall wh', wq (set_wq wh q' st) wh' = if decide (wh = wh') then Some q' else wq st wh').
    { intros wh'. rewrite wq_set. case_decide; [by rewrite Hq|done]. }
    assert (Hme : forall wh' q0, wq st wh' = Some q0 -> me ∈ q0 -> wh' = wh).
    { intros wh' q0 Hq0 Hin. destruct (w_queued _ _ W wh' q0 me Hq0 Hin) as (_ & _ & k' & Hk' & Hw'). congruence. }
    rewrite decide_True by done. split_and!; [..|done].
    + split; unfold runnable; rewrite ?Et, ?Eo, ?Ek.
      * intros wh' q0 t. rewrite Hwq. intros Hq0 Ht.
        assert (t <> me /\ exists q1, wq st wh' = Some q1 /\ t ∈ q1) as (Hne & q1 & Hq1 & Ht1).
        { case_decide as Hwh; [subst wh'; injection Hq0 as <-; apply list_elem_of_filter in Ht as [? ?]; eauto|].
          split; [|eauto]. intros ->. by pose proof (Hme wh' q0 Hq0 Ht). }
        split; [congruence|]. by apply (w_queued _ _ W wh' q1 t Hq1 Ht1).
      * intros wh' q0. rewrite Hwq. case_decide; [intros [= <-]; by apply NoDup_filter, (w_nodup _ _ W wh)|apply (w_nodup _ _ W)].
      * intros t k' wh' Hkt Hwo' Hex. destruct (w_waiting _ _ W t k' wh' Hkt Hwo') as [(? & q1 & Hq1 & Ht)|?]; [done| |by right].
        left. split; [done|]. rewrite Hwq. case_decide; [|eauto]. subst wh'. simplify_eq.
        exists q'. split; [done|]. apply list_elem_of_filter. split; [congruence|done].
    + intros m x Hx. destruct (set_wq_mtxs wh q' st m x Hx) as (y & Hy & Hv & Hw).
      destruct (M' m y Hy) as [? Hz]. unfold pending. rewrite Ek, Eo, Hv, Hw. split; [done|]. intros Hv0.
      destruct (Hz Hv0) as [Hnil|?]; [|by right]. left. case_decide; [|done]. subst wh.
      cbn in Hq. rewrite Hy in Hq. injection Hq as <-. unfold q'. by rewrite Hnil.
    + split; [done..| |done|intros t; by rewrite Et]. intros t _. unfold runnable. by rewrite Et.
  - injection Hop as <- <-. rewrite decide_False by congruence. split_and!; [|done|apply quiet_frame, quiet_refl|done].
    destruct W as [W1 W2 W3]. split; [|done|].
    + intros wh' q t Hq Ht. destruct (W1 wh' q t Hq Ht) as (_ & Ht' & ?). split_and!; try done. congruence.
    + intros t k' wh' Hkt Hwo' _. by apply (W3 t k').
Qed.

(** *** The calls *)

(** The invariant while the current thread runs ... *)
Record running (hole : option Z) st : Prop := {
  r_winv : winv (Some (current_thread st)) st;
  r_minv : minv (Some (current_thread st)) hole st;
  r_tinv : tinv st;
  r_alive : current_thread st ∈ thread_list st;
}.

(** ... and when it is suspended. *)
Record settled st : Prop := {
  s_winv : winv None st;
  s_minv : minv None None st;
  s_tinv : tinv st;
}.

(** The number of threads in front of [t] in a list. *)
Fixpoint rank (t : Z) (l : list Z) : nat :=
  match l with
  | [] => 0
  | u :: l => if decide (u = t) then 0 else S (rank t l)
  end.

(** What happens to the threads other than [me]: they stay runnable, and keep
    their place in the thread list or move up. *)
Record others (me : Z) st st' : Prop := {
  o_runnable t : t <> me -> t ∈ thread_list st -> runnable st t -> runnable st' t;
  o_list t : t <> me -> t ∈ thread_list st -> t ∈ thread_list st';
  o_rank t : t <> me -> t ∈ thread_list st -> (rank t (thread_list st') <= rank t (thread_list st))%nat;
}.

Lemma others_trans me st1 st2 st3 : others me st1 st2 -> others me st2 st3 -> others me st1 st3.
Proof.
  intros [r1 l1 k1] [r2 l2 k2]. split; [by eauto..|]. intros t Hne Ht. etrans; [apply k2|apply k1]; auto.
Qed.

Lemma frame_others me st st' : frame (Some me) st st' -> others me st st'.
Proof.
  intros [_ _ Hr [Hl _] _]. split; intros t Hne; rewrite ?Hl; try done. intros _. apply Hr. congruence.
Qed.

(** A call keeps the invariant, whether it returns or blocks. *)
Definition post st (r : result) st' : Prop :=
  current_thread st' = current_thread st /\ others (current_thread st) st st' /\
  match r with
  | Val _ => running None st' /\ konts st' !! current_thread st = konts st !! current_thread st
  | Blocked => settled st'
  end.

Lemma running_quiet hole st st' : running hole st -> quiet (Some (current_thread st)) st st' -> running hole st'.
Proof.
  intros [W M T A] Q. pose proof Q as [Hc _ _ _ _ _ [Hl _] _]. split; rewrite ?Hc, ?Hl; try done.
  - by eapply quiet_winv.
  - by eapply quiet_minv.
  - by eapply quiet_tinv.
Qed.

Lemma post_quiet st st1 r st' :
  quiet (Some (current_thread st)) st st1 -> post st1 r st' -> post st r st'.
Proof.
  intros Q. pose proof (frame_others _ _ _ (quiet_frame _ _ _ Q)) as O. destruct Q as [Hc Hk _ _ _ _ _ _].
  intros (Hc' & O' & Hp). rewrite Hc in *. split_and!; [done|by eapply others_trans|]. destruct r; [|done].
  by rewrite <- Hk.
Qed.

Lemma post_done st v st' :
  running None st -> quiet (Some (current_thread st)) st st' -> post st (Val v) st'.
Proof.
  intros R Q. pose proof Q as [Hc Hk _ _ _ _ _ _]. split_and!; [done|by apply frame_others, quiet_frame|by eapply running_quiet|by rewrite Hk].
Qed.

Lemma alive_dom st : tinv st -> current_thread st ∈ thread_list st ->
  is_Some (threads st !! current_thread st) /\ current_thread st ∉ exited_threads st.
Proof.
  intros [T1 T2 _ _] A. split; [apply T2, elem_of_app; by left|]. intros Hin.
  apply NoDup_app in T1 as (_ & Hd & _). by apply (Hd (current_thread st)).
Qed.

(** Waiting, from a running state. *)
Lemma wait_block_settled wh nsec k st st' :
  wait_enter wh nsec st = Ret st' -> waits_on k = Some wh ->
  (forall m x, wh = WMtx m -> mtxs st !! m = Some x -> m_v x <> 0) ->
  running None st -> post st Blocked (suspend k st').
Proof.
  intros Hop Hk Hb [W M T A]. destruct (wait_block_inv wh nsec k st st' Hop Hk Hb W M) as (W' & M' & F).
  pose proof F as [Fc _ _ [Fl Fe] Fd]. destruct (alive_dom st T A) as [Hd He].
  split_and!; [done|by destruct (frame_others _ _ _ F); split|]. split; [done..|]. apply tinv_suspend.
  - by eapply frame_tinv.
  - by rewrite Fc, Fd.
  - by rewrite Fc, Fe.
  - by intros ->.
Qed.

(** Filling the hole: the mutex is taken. *)
Lemma minv_taken ex m x st :
  minv ex (Some m) st -> mtxs st !! m = Some x -> m_v x <> 0 -> minv ex None st.
Proof.
  intros M Hx Hv m' x' Hx'. destruct (M m' x' Hx') as [? Hz]. split; [done|]. intros Hv0.
  destruct (Hz Hv0) as [?|[[= <-]|?]]; [by left|congruence|by right; right].
Qed.

Lemma mutex_tryenter_inv hole m st r st' :
  mutex_tryenter m st = Ret (r, st') -> running hole st -> hole = None \/ hole = Some m ->
  quiet (Some (current_thread st)) st st' /\ running None st' /\
  (r = 0 \/ st' = st /\ r <> 0 /\ forall x, mtxs st !! m = Some x -> m_v x <> 0).
Proof.
  unfold mutex_tryenter. intros Hop R Hh. inv_bind Hop. unfold deref in Hop.
  destruct (mtxs st !! m) as [x|] eqn:Hx; cbn [mbind outcome_bind] in Hop; [|done].
  assert (Htaken : forall ex s y, minv ex hole s -> mtxs s !! m = Some y -> m_v y <> 0 -> minv ex None s).
  { intros ex s y M' Hy Hv. destruct Hh as [->| ->]; [done|by eapply minv_taken]. }
  destruct (negb (m_v x =? 0) && negb (m_o x =? a)) eqn:Eb.
  - injection Hop as <- <-. to_prop. destruct R as [W M T A]. split_and!; [apply quiet_refl| |].
    + split; try done. by eapply Htaken.
    + right. split_and!; [done..|]. intros y Hy. congruence.
  - inv_bind Hop. injection Hop as <- <-. unfold int32 in E0. destruct (_ && _) in E0; [|done]. injection E0 as <-.
    pose proof (r_minv _ _ R m x Hx) as [Hpos _].
    pose proof (quiet_mtx (Some (current_thread st)) m x (m_v x + 1) (m_flags x) a st Hx ltac:(right; lia)) as Q.
    split_and!; [done| |by left]. destruct (running_quiet _ _ _ R Q) as [W M T A]. split; try done.
    eapply Htaken; [done|cbn; apply lookup_insert_eq|cbn; lia].
Qed.

Lemma mutex_enter_loop_inv hole m st r st' :
  mutex_enter_loop m st = Ret (r, st') -> running hole st -> hole = None \/ hole = Some m -> post st r st'.
Proof.
  unfold mutex_enter_loop. intros Hop R Hh. inv_bind Hop. destruct a as [r1 st1].
  destruct (mutex_tryenter_inv hole m st r1 st1 E R Hh) as (Q & R1 & Hr).
  destruct (negb (r1 =? 0)) eqn:Er; to_prop.
  - destruct Hr as [->|(-> & _ & Hb)]; [done|]. inv_bind Hop. injection Hop as <- <-.
    eapply wait_block_settled; [done..| |done]. intros m' x [= <-]. apply Hb.
  - injection Hop as <- <-. eapply post_quiet; [exact Q|]. apply post_done; [done|apply quiet_hyp].
Qed.

Lemma mutex_enter_inv m st r st' :
  mutex_enter m st = Ret (r, st') -> running None st -> post st r st'.
Proof.
  unfold mutex_enter. intros Hop R. inv_bind Hop. destruct a as [r1 st1].
  destruct (mutex_tryenter_inv None m st r1 st1 E R (or_introl eq_refl)) as (Q & R1 & Hr).
  pose proof (quiet_hyp (Some (current_thread st1)) (fun h => h ++ [Unsched 0]) st1) as Q2.
  eapply post_quiet; [exact Q|]. destruct (negb (r1 =? 0)) eqn:Er; to_prop.
  - eapply post_quiet; [exact Q2|]. eapply mutex_enter_loop_inv; [done|by eapply running_quiet|by left].
  - injection Hop as <- <-. apply post_done; [done|apply quiet_refl].
Qed.

Lemma mutex_enter_nowrap_inv m st st' :
  mutex_enter_nowrap m st = Ret st' -> running None st ->
  running None st' /\ quiet (Some (current_thread st)) st st'.
Proof.
  unfold mutex_enter_nowrap. intros Hop R. inv_bind Hop. destruct a as [r1 st1].
  destruct (mutex_tryenter_inv None m st r1 st1 E R (or_introl eq_refl)) as (Q & R1 & Hr).
  destruct (negb (r1 =? 0)); [done|]. by injection Hop as <-.
Qed.

(** Releasing leaves the mutex with its next owner on the way. *)
Lemma mutex_exit_inv m st st' :
  mutex_exit m st = Ret st' -> running None st -> running None st' /\ frame (Some (current_thread st)) st st'.
Proof.
  unfold mutex_exit, deref. intros Hop R. destruct (mtxs st !! m) as [x|] eqn:Hx; cbn [mbind outcome_bind] in Hop; [|done].
  inv_bind Hop. unfold assert_ in E. destruct (Z.ltb_spec 0 (m_v x)) as [Hpos|]; [|done].
  destruct (Z.eqb_spec (m_v x - 1) 0) as [Hv|Hv].
  - set (st1 := upd_mtxs <[m := Mtx (m_waiters x) (m_v x - 1) (m_flags x) 0]> st) in *.
    destruct R as [W M T A].
    assert (W1 : winv (Some (current_thread st)) st1).
    { apply (winv_ext _ st); try done. intros wh. by apply wq_mtx. }
    assert (M1 : minv (Some (current_thread st)) (Some m) st1).
    { intros m' y. unfold st1. cbn [upd_mtxs mtxs]. intros [[<- <-]|[Hne Hy]]%lookup_insert_Some; cbn [m_v m_waiters].
      - split; [lia|]. auto.
      - destruct (M m' y Hy) as [? Hz]. split; [done|]. intros Hv0. destruct (Hz Hv0) as [?|[?|?]]; auto. done. }
    destruct (wakeup_one_inv _ _ _ _ _ Hop W1 M1) as (W2 & M2 & F).
    rewrite decide_False in M2 by done. cbn in M2. rewrite decide_True in M2 by done.
    assert (F' : frame (Some (current_thread st)) st st') by (destruct F; by split).
    pose proof F' as [Fc _ _ [Fl Fe] _]. split; [|done]. split; rewrite ?Fc, ?Fl; try done. by eapply frame_tinv.
  - injection Hop as <-.
    pose proof (quiet_mtx (Some (current_thread st)) m x (m_v x - 1) (m_flags x) (m_o x) st Hx ltac:(right; lia)) as Q.
    split; [by eapply running_quiet|by apply quiet_frame].
Qed.

Lemma post_frame st st1 r st' :
  frame (Some (current_thread st)) st st1 -> post st1 r st' -> post st r st'.
Proof.
  intros F. pose proof (frame_others _ _ _ F) as O. destruct F as [Hc Hk _ _ _]. intros (Hc' & O' & Hp).
  rewrite Hc in *. split_and!; [done|by eapply others_trans|]. destruct r; [|done]. by rewrite <- Hk.
Qed.

Lemma post_running st v st' :
  running None st' -> frame (Some (current_thread st)) st st' -> post st (Val v) st'.
Proof.
  intros R F. pose proof F as [Hc Hk _ _ _]. split_and!; [done|by apply frame_others|done|by rewrite Hk].
Qed.

(** *** Read-write locks and condition variables *)

Lemma rw_tryenter_quiet lk rw st r st' :
  rw_tryenter lk rw st = Ret (r, st') -> quiet (Some (current_thread st)) st st'.
Proof.
  unfold rw_tryenter, deref. destruct (rws st !! rw) as [x|] eqn:Hx; cbn [mbind outcome_bind]; [|done].
  intros Hop. repeat case_match; try (injection Hop as _ <-; apply quiet_refl);
    inv_bind Hop; injection Hop as _ <-; by eapply quiet_rw.
Qed.

Lemma rw_queue_not_mtx lk rw wh m : rw_queue lk rw = Some wh -> wh <> WMtx m.
Proof. unfold rw_queue. repeat case_match; congruence. Qed.

Lemma rw_enter_loop_inv lk rw st r st' :
  rw_enter_loop lk rw st = Ret (r, st') -> running None st -> post st r st'.
Proof.
  unfold rw_enter_loop. intros Hop R. inv_bind Hop. destruct a as [r1 st1].
  pose proof (rw_tryenter_quiet _ _ _ _ _ E) as Q. eapply post_quiet; [exact Q|].
  pose proof (running_quiet _ _ _ R Q) as R1. destruct (negb (r1 =? 0)).
  - destruct (rw_queue lk rw) as [wh|] eqn:Hwh; [|done]. inv_bind Hop. injection Hop as <- <-.
    eapply wait_block_settled; [done..| |done]. intros m x ->. by destruct (rw_queue_not_mtx _ _ _ m Hwh).
  - injection Hop as <- <-. apply post_done; [done|apply quiet_hyp].
Qed.

Lemma rw_enter_inv lk rw st r st' :
  rw_enter lk rw st = Ret (r, st') -> running None st -> post st r st'.
Proof.
  unfold rw_enter. intros Hop R. inv_bind Hop. destruct a as [r1 st1].
  pose proof (rw_tryenter_quiet _ _ _ _ _ E) as Q. eapply post_quiet; [exact Q|].
  pose proof (running_quiet _ _ _ R Q) as R1. destruct (negb (r1 =? 0)).
  - eapply post_quiet; [apply quiet_hyp|]. eapply rw_enter_loop_inv; [done|].
    eapply running_quiet; [done|apply quiet_hyp].
  - injection Hop as <- <-. apply post_done; [done|apply quiet_refl].
Qed.

Lemma wakeup_one_running wh st st' :
  wakeup_one wh st = Ret st' -> running None st -> running None st' /\ frame (Some (current_thread st)) st st'.
Proof.
  intros Hop [W M T A]. destruct (wakeup_one_inv _ _ _ _ _ Hop W M) as (W2 & M2 & F).
  rewrite decide_True in M2 by done. pose proof F as [Fc _ _ [Fl _] _]. split; [|done].
  split; rewrite ?Fc, ?Fl; try done. by eapply frame_tinv.
Qed.

Lemma wakeup_all_running wh st st' :
  wakeup_all wh st = Ret st' -> (forall m, wh <> WMtx m) -> running None st ->
  running None st' /\ frame (Some (current_thread st)) st st'.
Proof.
  unfold wakeup_all. rewrite get_wq_eq. destruct (wq st wh) as [q|] eqn:Hq; cbn [mbind outcome_bind]; [|done].
  intros Hop Hwh [W M T A]. destruct (wakeup_all_inv _ _ _ _ _ Hq Hop Hwh W M) as (W2 & M2 & F).
  pose proof F as [Fc _ _ [Fl _] _]. split; [|done]. split; rewrite ?Fc, ?Fl; try done. by eapply frame_tinv.
Qed.

Lemma rw_exit_inv rw st st' :
  rw_exit rw st = Ret st' -> running None st -> running None st' /\ frame (Some (current_thread st)) st st'.
Proof.
  unfold rw_exit, deref. destruct (rws st !! rw) as [x|] eqn:Hx; cbn [mbind outcome_bind]; [|done].
  intros Hop R. inv_bind Hop.
  assert (quiet (Some (current_thread st)) st (upd_rws <[rw := a]> st)) as Q.
  { destruct (negb (rw_o x =? 0)); [injection E as <-; by eapply quiet_rw|].
    inv_bind E. injection E as <-. by eapply quiet_rw. }
  pose proof (running_quiet _ _ _ R Q) as R1. set (st1 := upd_rws <[rw := a]> st) in *.
  assert (forall s, running None s /\ frame (Some (current_thread st1)) st1 s ->
            running None s /\ frame (Some (current_thread st)) st s) as Hlift.
  { intros s [Rs Fs]. split; [done|]. eapply frame_trans; [by apply quiet_frame|done]. }
  repeat case_match; try (injection Hop as <-); apply Hlift;
    try (split; [done|apply quiet_frame, quiet_refl]); first [by eapply wakeup_one_running|by eapply wakeup_all_running].
Qed.

Lemma cv_count_quiet d cv st st' : cv_count d cv st = Ret st' -> quiet (Some (current_thread st)) st st'.
Proof.
  unfold cv_count, deref. destruct (cvs st !! cv) as [x|] eqn:Hx; cbn [mbind outcome_bind]; [|done].
  intros Hop. inv_bind Hop. injection Hop as <-. by apply quiet_cv.
Qed.

Lemma cv_wait_enter_inv k cv m nsec st r st' :
  cv_wait_enter k cv m nsec st = Ret (r, st') -> running None st -> post st r st'.
Proof.
  unfold cv_wait_enter. intros Hop R. inv_bind Hop. pose proof (cv_count_quiet _ _ _ _ E) as Q.
  pose proof (running_quiet _ _ _ R Q) as R1. eapply post_quiet; [exact Q|]. inv_bind Hop.
  assert (running None a0 /\ frame (Some (current_thread a)) a a0) as [R2 F2].
  { destruct k; [|by eapply mutex_exit_inv|];
      (eapply mutex_exit_inv in E0; [|eapply running_quiet; [done|apply quiet_hyp]];
       destruct E0 as [? F0]; split; [done|]; eapply frame_trans; [apply quiet_frame, quiet_hyp|exact F0]). }
  eapply post_frame; [exact F2|]. inv_bind Hop. injection Hop as <- <-.
  eapply wait_block_settled; done.
Qed.

Lemma cv_resched_inv m st st' :
  cv_resched m st = Ret st' -> running None st -> running None st' /\ quiet (Some (current_thread st)) st st'.
Proof.
  unfold cv_resched. intros Hop R. inv_bind Hop.
  destruct (_ =? _); [|inv_bind Hop; injection Hop as <-].
  - eapply mutex_enter_nowrap_inv in Hop; [|eapply running_quiet; [done|apply quiet_hyp]].
    destruct Hop as [? Q]. split; [done|]. eapply quiet_trans; [apply quiet_hyp|exact Q].
  - eapply mutex_enter_nowrap_inv in E0; [|done]. destruct E0 as [R0 Q]. split.
    + eapply running_quiet; [exact R0|apply quiet_hyp].
    + eapply quiet_trans; [exact Q|apply quiet_hyp].
Qed.

Lemma cv_wait_leave_inv k cv m st r st' :
  cv_wait_leave k cv m st = Ret (r, st') -> konts st !! current_thread st = Some (KCvWait k cv m) ->
  settled st -> current_thread st ∈ thread_list st -> post st r st'.
Proof.
  unfold cv_wait_leave. intros Hop Hk [W M T] A. inv_bind Hop. destruct a as [rv st1].
  destruct (wait_leave_inv _ _ _ _ _ E Hk eq_refl W M) as (W1 & M1 & F & _).
  assert (R1 : running None st1).
  { pose proof F as [Fc _ _ [Fl _] _]. split; rewrite ?Fc, ?Fl; try done. by eapply frame_tinv. }
  eapply post_frame; [exact F|]. inv_bind Hop.
  assert (running None a /\ quiet (Some (current_thread st1)) st1 a) as [R2 Q2].
  { destruct k; [by eapply cv_resched_inv|by eapply mutex_enter_nowrap_inv|by eapply cv_resched_inv]. }
  inv_bind Hop. pose proof (cv_count_quiet _ _ _ _ E1) as Q3. injection Hop as <- <-.
  eapply post_quiet; [exact Q2|]. by apply post_done.
Qed.

(** *** Threads *)

(** The running thread has no part in the queues: give it any state that does
    not wait. *)
Lemma winv_set_kont k st :
  winv (Some (current_thread st)) st -> waits_on k = None ->
  winv None (upd_konts <[current_thread st := k]> st).
Proof.
  intros [W1 W2 W3] Hk. set (me := current_thread st) in *.
  assert (Hwq : forall wh, wq (upd_konts <[me := k]> st) wh = wq st wh) by (by intros []).
  split; cbn [upd_konts konts onlist].
  - intros wh q t. rewrite Hwq. intros Hq Ht. destruct (W1 wh q t Hq Ht) as (Hex & ? & k' & ? & ?).
    split_and!; [done..|]. exists k'. rewrite lookup_insert_ne by congruence. done.
  - intros wh q. rewrite Hwq. apply W2.
  - intros t k' wh Hkt Hwo _. rewrite Hwq. destruct (decide (me = t)) as [<-|];
      [rewrite lookup_insert_eq in Hkt; congruence|rewrite lookup_insert_ne in Hkt by done].
    apply (W3 t k' wh); congruence.
Qed.

Lemma minv_set_kont k st :
  minv (Some (current_thread st)) None st -> minv None None (upd_konts <[current_thread st := k]> st).
Proof.
  intros M m x Hx. destruct (M m x Hx) as [? Hz]. split; [done|]. intros Hv0.
  destruct (Hz Hv0) as [?|[?|(t & Hex & Hkt & Hon)]]; [by left|done|]. right. right. exists t.
  unfold pending. cbn [upd_konts konts onlist]. rewrite lookup_insert_ne by congruence. done.
Qed.

Lemma suspend_settled k st :
  running None st -> waits_on k = None -> k <> KExited -> settled (suspend k st).
Proof.
  intros [W M T A] Hk Hne. destruct (alive_dom st T A). split.
  - by apply winv_set_kont.
  - by apply minv_set_kont.
  - by apply tinv_suspend.
Qed.

Lemma post_suspend k st st1 :
  running None st -> quiet (Some (current_thread st)) st st1 -> waits_on k = None -> k <> KExited ->
  post st Blocked (suspend k st1).
Proof.
  intros R Q Hk Hne. split_and!; [apply (q_current _ _ _ Q)|by destruct (frame_others _ _ _ (quiet_frame _ _ _ Q)); split|].
  apply suspend_settled; [by eapply running_quiet|done..].
Qed.

Lemma sleep_until_inv tm k st r st' :
  sleep_until tm k st = Ret (r, st') -> running None st -> waits_on k = None -> k <> KExited -> post st r st'.
Proof.
  unfold sleep_until, on_current, get_current. intros Hop R Hk Hne. inv_bind Hop. injection Hop as <- <-.
  apply post_suspend; try done. eapply quiet_on_thread; [done|by right].
Qed.

Lemma clock_sleep_inv clk sec nsec st r st' :
  clock_sleep clk sec nsec st = Ret (r, st') -> running None st -> post st r st'.
Proof.
  unfold clock_sleep, nsleep, absnanosleep. intros Hop R.
  pose proof (quiet_hyp (Some (current_thread st)) (fun h => h ++ [Unsched 0]) st) as Q.
  pose proof (running_quiet _ _ _ R Q) as R1. eapply post_quiet; [exact Q|].
  repeat case_match.
  - pose proof (quiet_now (Some (current_thread st)) _ _ _ H1) as Q2. eapply post_quiet; [exact Q2|].
    by eapply sleep_until_inv; [|by eapply running_quiet|..].
  - by eapply sleep_until_inv.
  - injection Hop as <- <-. apply post_done; [done|apply quiet_hyp].
Qed.

Lemma join_loop_inv j st r st' : join_loop j st = Ret (r, st') -> running None st -> post st r st'.
Proof.
  unfold join_loop, get_current. intros Hop R. inv_bind Hop. destruct (negb _).
  - inv_bind Hop. injection Hop as <- <-. apply post_suspend; try done.
    eapply quiet_trans; [apply quiet_joinwq|]. eapply quiet_on_thread; [done|by right].
  - inv_bind Hop. inv_bind Hop. injection Hop as <- <-. apply post_done; [done|].
    eapply quiet_trans; [eapply quiet_on_thread; [done|left; apply keeps_mustjoin]|].
    eapply quiet_on_thread; [done|left; apply keeps_wake].
Qed.

(** A thread that leaves goes to the list of exited threads. *)
Lemma retire_settled st :
  running None st ->
  settled (suspend KExited (upd_exited_threads (cons (current_thread st))
             (upd_thread_list (tailq_remove (current_thread st)) st))).
Proof.
  intros [W M T A]. destruct (alive_dom st T A) as [Hd He]. set (me := current_thread st) in *.
  split; [|exact (minv_set_kont KExited st M)|].
  { apply (winv_ext None (upd_konts <[me := KExited]> st)); try done. by apply (winv_set_kont KExited). }
  destruct T as [T1 T2 T3 T4]. unfold suspend, get_current. cbn [current_thread upd_exited_threads upd_thread_list]. fold me.
  assert (Hel : forall t, t ∈ tailq_remove me (thread_list st) ++ me :: exited_threads st <->
                  t ∈ thread_list st ++ exited_threads st).
  { intros t. rewrite !elem_of_app, elem_of_cons. unfold tailq_remove. rewrite list_elem_of_filter.
    destruct (decide (t = me)) as [->|]; tauto. }
  apply NoDup_app in T1 as (N1 & N2 & N3).
  split; cbn [upd_konts upd_exited_threads upd_thread_list thread_list exited_threads threads konts].
  - apply NoDup_app. split_and!; [by apply NoDup_filter| |by apply list.NoDup_cons].
    intros t [Ht Ht']%list_elem_of_filter. rewrite elem_of_cons. intros [?|?]; [done|]. by apply (N2 t).
  - intros t. rewrite Hel. apply T2.
  - intros t. destruct (decide (me = t)) as [<-|]; [rewrite lookup_insert_eq|rewrite lookup_insert_ne by done; apply T3].
    split; eauto.
  - intros t. rewrite elem_of_cons. destruct (decide (me = t)) as [<-|].
    + rewrite lookup_insert_eq. split; [done|by left].
    + rewrite lookup_insert_ne, <- T4 by done. split; [intros [?|?]; [congruence|done]|by right].
Qed.

Lemma rank_remove t u l : t <> u -> (rank t (tailq_remove u l) <= rank t l)%nat.
Proof.
  intros Hne. induction l as [|x l IH]; [done|]. unfold tailq_remove in *. rewrite filter_cons.
  case_decide as Hx; cbn [rank]; repeat case_decide; lia || congruence.
Qed.

Lemma rank_app t l1 l2 : t ∈ l1 -> rank t (l1 ++ l2) = rank t l1.
Proof.
  induction l1 as [|x l1 IH]; [by intros ?%not_elem_of_nil|]. cbn [app rank]. case_decide; [done|].
  intros [->|?]%elem_of_cons; [done|]. by rewrite IH.
Qed.

Lemma exit_thread_inv st r st' : exit_thread st = Ret (r, st') -> running None st -> post st r st'.
Proof.
  unfold exit_thread, get_current. intros Hop R. inv_bind Hop. destruct (has_flag THREAD_MUSTJOIN a).
  - inv_bind Hop. inv_bind Hop. inv_bind Hop. injection Hop as <- <-. apply post_suspend; try done.
    eapply quiet_trans; [eapply quiet_on_thread; [exact E0|left; apply keeps_add; eauto with sched]|].
    eapply quiet_trans; [|eapply quiet_on_thread; [exact E2|by right]].
    destruct (find_joiner _ _); [eapply quiet_on_thread; [exact E1|left; apply keeps_wake]|].
    injection E1 as <-. apply quiet_refl.
  - inv_bind Hop. injection Hop as <- <-.
    set (me := current_thread st) in *. unfold on_thread, deref in E0.
    cbn [upd_thread_list threads] in E0. destruct (threads st !! me) as [x|] eqn:Hx; [|done].
    injection E0 as <-. set (st1 := upd_threads <[me := clear_runnable x]> st).
    assert (quiet (Some me) st st1) as Q.
    { apply (quiet_on_thread _ clear_runnable me); [|by right]. unfold on_thread, deref. by rewrite Hx. }
    split_and!; [done| |exact (retire_settled st1 (running_quiet _ _ _ R Q))].
    eapply others_trans; [by apply frame_others, quiet_frame|]. split; intros t Hne Ht; cbn.
    + done.
    + apply list_elem_of_filter. split; done.
    + by apply rank_remove.
Qed.

(** *** Creating and destroying *)

(** No thread is inside a wait on the queue. *)
Definition unused st (wh : waithead) : Prop :=
  forall t k, konts st !! t = Some k -> waits_on k <> Some wh.

Lemma winv_objects ex st st' :
  konts st' = konts st -> onlist st' = onlist st -> threads st' = threads st ->
  (forall wh, wq st' wh = wq st wh \/ (unused st wh /\ (wq st' wh = None \/ wq st' wh = Some []))) ->
  winv ex st -> winv ex st'.
Proof.
  intros Hk Ho Ht Hw [W1 W2 W3]. split.
  - intros wh q t. rewrite Ho, Hk. destruct (Hw wh) as [->|[_ [->| ->]]]; [apply W1|done|].
    intros [= <-] Hin. by apply elem_of_nil in Hin.
  - intros wh q. destruct (Hw wh) as [->|[_ [->| ->]]]; [apply W2|done|]. intros [= <-]. constructor.
  - intros t k wh. unfold runnable. rewrite Hk, Ho, Ht. intros Hkt Hwo Hex.
    destruct (Hw wh) as [->|[Hu _]]; [by apply (W3 t k)|]. by destruct (Hu t k Hkt).
Qed.

Lemma running_objects st st' :
  konts st' = konts st -> onlist st' = onlist st -> threads st' = threads st ->
  current_thread st' = current_thread st -> thread_list st' = thread_list st ->
  exited_threads st' = exited_threads st ->
  (forall wh, wq st' wh = wq st wh \/ (unused st wh /\ (wq st' wh = None \/ wq st' wh = Some []))) ->
  (forall m x, mtxs st' !! m = Some x -> mtxs st !! m = Some x \/ (m_v x = 0 /\ m_waiters x = [])) ->
  running None st -> running None st'.
Proof.
  intros Hk Ho Ht Hc Hl He Hw Hm [W M [T1 T2 T3 T4] A]. split; rewrite ?Hc, ?Hl; try done.
  - by eapply winv_objects.
  - intros m x Hx. unfold pending. rewrite Hk, Ho. destruct (Hm m x Hx) as [?|[-> ->]]; [by apply M|].
    split; [lia|by left].
  - split; intros; rewrite ?Hl, ?He, ?Ht, ?Hk; eauto.
Qed.

Lemma create_running addr t st :
  running None st -> threads st !! addr = None ->
  let st' := upd_thread_list (fun l => l ++ [addr]) (upd_konts <[addr := KStart]> (upd_threads <[addr := t]> st)) in
  running None st' /\ konts st' !! current_thread st = konts st !! current_thread st.
Proof.
  intros [W M T A] Hn st'. destruct (alive_dom st T A) as [Hd _].
  assert (addr <> current_thread st) as Hne by (intros ->; rewrite Hn in Hd; by destruct Hd).
  destruct T as [T1 T2 T3 T4].
  assert (konts st !! addr = None) as Hkn.
  { apply eq_None_not_Some. rewrite <- T3, Hn. by intros []. }
  assert (addr ∉ thread_list st ++ exited_threads st) as Hnin by (rewrite T2, Hn; by intros []).
  assert (Hnk : forall u k, konts st !! u = Some k -> u <> addr) by (intros u k Hu ->; congruence).
  split; [|by apply lookup_insert_ne].
  split; unfold st'; cbn [upd_thread_list upd_konts upd_threads current_thread thread_list].
  - destruct W as [W1 W2 W3].
    assert (Hwq : forall wh, wq st' wh = wq st wh) by (by intros []).
    split; unfold runnable; cbn [upd_thread_list upd_konts upd_threads konts onlist threads].
    + intros wh q u. fold st'. rewrite Hwq. intros Hq Hu. destruct (W1 wh q u Hq Hu) as (? & ? & k & Hk & ?).
      split_and!; [done..|]. exists k. by rewrite lookup_insert_ne by (symmetry; eauto).
    + intros wh q. fold st'. rewrite Hwq. apply W2.
    + intros u k wh Hk Hwo Hex. fold st'. rewrite Hwq.
      destruct (decide (addr = u)) as [<-|]; [rewrite lookup_insert_eq in Hk; by simplify_eq|].
      rewrite lookup_insert_ne in Hk by done.
      destruct (W3 u k wh Hk Hwo Hex) as [?|(? & x & ? & ?)]; [by left|right]. split; [done|].
      exists x. by rewrite lookup_insert_ne.
  - intros m x Hx. destruct (M m x Hx) as [? Hz]. split; [done|]. intros Hv0.
    destruct (Hz Hv0) as [?|[?|(u & ? & Hku & ?)]]; [by left|done|]. right. right. exists u.
    unfold pending. cbn [upd_thread_list upd_konts upd_threads konts onlist].
    rewrite lookup_insert_ne by (symmetry; eauto). done.
  - apply not_elem_of_app in Hnin as [Hn1 Hn2]. apply NoDup_app in T1 as (N1 & N2 & N3).
    split; cbn [upd_thread_list upd_konts upd_threads thread_list exited_threads konts threads].
    + apply NoDup_app. split_and!; [|intros u Hu|done].
      * apply NoDup_app. split_and!; [done| |apply NoDup_singleton].
        intros u Hu ->%list_elem_of_singleton. done.
      * apply elem_of_app in Hu as [?| ->%list_elem_of_singleton]; [by apply N2|done].
    + intros u. rewrite !elem_of_app, list_elem_of_singleton. destruct (decide (addr = u)) as [<-|].
      * rewrite lookup_insert_eq. split; eauto.
      * rewrite lookup_insert_ne, <- T2, elem_of_app by done. split; [intros [[?|?]|?]|intros [?|?]]; auto. congruence.
    + intros u. destruct (decide (addr = u)) as [<-|]; [rewrite !lookup_insert_eq; split; eauto|].
      rewrite !lookup_insert_ne by done. apply T3.
    + intros u. destruct (decide (addr = u)) as [<-|]; [rewrite lookup_insert_eq; done|].
      rewrite lookup_insert_ne by done. apply T4.
  - apply elem_of_app. by left.
Qed.

(** What the library asks of its callers: [calloc] hands out addresses that are
    not in use, and nobody destroys what a thread still waits for. *)
Definition legal (c : call) st : Prop :=
  match c with
  | CCreate addr _ _ _ _ _ => threads st !! addr = None
  | CMutexInit m _ | CMutexDestroy m => unused st (WMtx m)
  | CRwInit rw | CRwDestroy rw => unused st (WRwR rw) /\ unused st (WRwW rw)
  | CCvInit cv | CCvDestroy cv => unused st (WCv cv)
  | _ => True
  end.

Ltac solve_objects :=
  match goal with |- forall wh, wq ?s wh = _ \/ _ =>
    let p := fresh "p" in
    intros [p|p|p|p]; cbn [wq upd_mtxs upd_rws upd_cvs mtxs rws cvs]; try (by left);
    match goal with
    | |- context [<[?m := _]> _ !! p] =>
        destruct (decide (m = p)) as [<-|]; [rewrite lookup_insert_eq; right; cbn; auto|rewrite lookup_insert_ne by done; by left]
    | |- context [delete ?m _ !! p] =>
        destruct (decide (m = p)) as [<-|]; [rewrite lookup_delete_eq; right; cbn; auto|rewrite lookup_delete_ne by done; by left]
    end
  end.

Lemma exec_inv c st r st' :
  exec c st = Ret (r, st') -> legal c st -> running None st -> post st r st'.
Proof.
  destruct c; cbn [exec legal]; intros Hop HL R.
  - injection Hop as <- <-. apply post_suspend; [done|apply quiet_refl|done..].
  - unfold done_, set_curlwp, on_current in Hop. inv_bind Hop. injection Hop as <- <-.
    apply post_done; [done|]. eapply quiet_on_thread; [done|by right].
  - unfold done_, set_cookie in Hop. inv_bind Hop. injection Hop as <- <-.
    apply post_done; [done|]. eapply quiet_on_thread; [done|]. left. by intros x.
  - unfold done_ in Hop. inv_bind Hop. injection Hop as <- <-.
    apply post_done; [done|]. eapply quiet_on_thread; [done|left; apply keeps_wake].
  - unfold value_, create_thread in Hop. inv_bind Hop. destruct a as [v st1]. injection Hop as <- <-.
    destruct (addr =? 0); [injection E as <- <-; by apply post_done, quiet_refl|]. inv_bind E. destruct a as [os fl].
    destruct os; injection E as <- <-; [|by apply post_done, quiet_refl].
    split; [done|]. split; [|by apply create_running]. split; intros t Hne Ht; cbn.
    + intros (x & Hx & ?). exists x. cbn. rewrite lookup_insert_ne; [done|]. congruence.
    + apply elem_of_app. by left.
    + by rewrite rank_app.
  - by apply exit_thread_inv.
  - unfold join_thread in Hop. inv_bind Hop. inv_bind Hop. by eapply join_loop_inv.
  - by eapply clock_sleep_inv.
  - unfold done_, mutex_init in Hop. inv_bind Hop. injection Hop as <- <-. destruct (m =? 0); [done|]. injection E as <-.
    split; [done|]; split; [done|]; split; [|done]; apply (running_objects st); try done; [solve_objects|].
    intros m' x. cbn. intros [[<- <-]|[? ?]]%lookup_insert_Some; auto.
  - by eapply mutex_enter_inv.
  - unfold done_ in Hop. inv_bind Hop. injection Hop as <- <-. apply post_done; [done|].
    by eapply mutex_enter_nowrap_inv.
  - unfold value_ in Hop. inv_bind Hop. destruct a as [v st1]. injection Hop as <- <-. apply post_done; [done|].
    by eapply mutex_tryenter_inv; [|done|left].
  - unfold done_ in Hop. inv_bind Hop. injection Hop as <- <-. by apply post_running; eapply mutex_exit_inv.
  - unfold done_, mutex_destroy in Hop. inv_bind Hop. injection Hop as <- <-. inv_bind E. inv_bind E. injection E as <-.
    split; [done|]; split; [done|]; split; [|done]; apply (running_objects st); try done; [solve_objects|].
    intros m' x. cbn. intros [? ?]%lookup_delete_Some. by left.
  - unfold done_, rw_init in Hop. inv_bind Hop. injection Hop as <- <-. destruct (rw =? 0); [done|]. injection E as <-.
    destruct HL. split; [done|]; split; [done|]; split; [|done]; apply (running_objects st); try done; [solve_objects|]. cbn. auto.
  - by eapply rw_enter_inv.
  - unfold value_ in Hop. inv_bind Hop. destruct a as [v st1]. injection Hop as <- <-. apply post_done; [done|].
    by eapply rw_tryenter_quiet.
  - unfold done_ in Hop. inv_bind Hop. injection Hop as <- <-. by apply post_running; eapply rw_exit_inv.
  - unfold done_, rw_downgrade, deref in Hop. inv_bind Hop. injection Hop as <- <-.
    destruct (rws st !! rw) eqn:Hx; cbn [mbind outcome_bind] in E; [|done]. do 2 inv_bind E. injection E as <-.
    apply post_done; [done|]. by eapply quiet_rw.
  - unfold value_, rw_tryupgrade, deref in Hop. inv_bind Hop. destruct a as [v st1]. injection Hop as <- <-.
    destruct (rws st !! rw) eqn:Hx; cbn [mbind outcome_bind] in E; [|done]. apply post_done; [done|].
    destruct (_ =? -1); [inv_bind E; injection E as <- <-; by eapply quiet_rw|]. injection E as <- <-. apply quiet_refl.
  - unfold done_, rw_destroy in Hop. inv_bind Hop. injection Hop as <- <-. inv_bind E. injection E as <-.
    destruct HL. split; [done|]; split; [done|]; split; [|done]; apply (running_objects st); try done; [solve_objects|]. cbn. auto.
  - unfold done_, cv_init in Hop. inv_bind Hop. injection Hop as <- <-. destruct (cv =? 0); [done|]. injection E as <-.
    split; [done|]; split; [done|]; split; [|done]; apply (running_objects st); try done; [solve_objects|]. cbn. auto.
  - unfold done_, cv_destroy in Hop. inv_bind Hop. injection Hop as <- <-. inv_bind E. inv_bind E. injection E as <-.
    split; [done|]; split; [done|]; split; [|done]; apply (running_objects st); try done; [solve_objects|]. cbn. auto.
  - by eapply cv_wait_enter_inv.
  - by eapply cv_wait_enter_inv.
  - by eapply cv_wait_enter_inv.
  - unfold done_ in Hop. inv_bind Hop. injection Hop as <- <-. by apply post_running; eapply wakeup_one_running.
  - unfold done_ in Hop. inv_bind Hop. injection Hop as <- <-. by apply post_running; eapply wakeup_all_running.
Qed.

(** *** Switching *)

Lemma settled_running k st :
  settled st -> current_thread st ∈ thread_list st -> konts st !! current_thread st = Some k ->
  waits_on k = None -> running None st.
Proof.
  intros [[W1 W2 W3] M T] A Hk Hwo. split; try done.
  - split; [|done|].
    + intros wh q t Hq Ht. destruct (W1 wh q t Hq Ht) as (_ & ? & k' & ? & ?). split_and!; [|done|eauto].
      intros [= <-]. congruence.
    + intros t k' wh ? ? _. by apply (W3 t k').
  - pose proof (minv_exclude _ _ _ Hk M) as M'. by destruct k.
Qed.

(** Forgetting a thread that has exited. *)
Lemma settled_reap t st :
  settled st -> t ∈ exited_threads st ->
  settled (upd_threads (delete t) (upd_konts (delete t) (upd_exited_threads (tailq_remove t) st))).
Proof.
  intros [[W1 W2 W3] M [T1 T2 T3 T4]] Ht. pose proof (proj1 (T4 t) Ht) as Hkt.
  assert (Hne : forall u k, konts st !! u = Some k -> k <> KExited -> t <> u) by (intros u k Hu Hk ->; congruence).
  set (st' := upd_threads (delete t) _).
  assert (Hwq : forall wh, wq st' wh = wq st wh) by (by intros []).
  split.
  - split; unfold runnable.
    + intros wh q u. rewrite Hwq. cbn. intros Hq Hu. destruct (W1 wh q u Hq Hu) as (? & ? & k & Hk & Hwo).
      split_and!; [done..|]. exists k. rewrite lookup_delete_ne; [done|]. apply (Hne u k Hk). by intros ->.
    + intros wh q. rewrite Hwq. apply W2.
    + intros u k wh. rewrite Hwq. cbn. intros [? Hk]%lookup_delete_Some Hwo Hex.
      rewrite lookup_delete_ne by done. by apply (W3 u k).
  - intros m x Hx. destruct (M m x Hx) as [? Hz]. split; [done|]. intros Hv0.
    destruct (Hz Hv0) as [?|[?|(u & ? & Hku & ?)]]; [by left|done|]. right. right. exists u.
    unfold pending. cbn. rewrite lookup_delete_ne; [done|]. by apply (Hne u _ Hku).
  - apply NoDup_app in T1 as (N1 & N2 & N3). split; cbn.
    + apply NoDup_app. split_and!; [done| |by apply NoDup_filter].
      intros u Hu [? ?]%list_elem_of_filter. by apply (N2 u).
    + intros u. rewrite elem_of_app. unfold tailq_remove. rewrite list_elem_of_filter. destruct (decide (t = u)) as [<-|].
      * rewrite lookup_delete_eq. split; [intros [?|[? _]]; [by destruct (N2 t)|done]|by intros []].
      * rewrite lookup_delete_ne, <- T2, elem_of_app by done. split; [intros [?|[_ ?]]; auto|]. intros [?|?]; auto.
    + intros u. destruct (decide (t = u)) as [<-|]; [by rewrite !lookup_delete_eq|]. by rewrite !lookup_delete_ne.
    + intros u. unfold tailq_remove. rewrite list_elem_of_filter. destruct (decide (t = u)) as [<-|].
      * rewrite lookup_delete_eq. split; [by intros [? _]|done].
      * rewrite lookup_delete_ne, <- T4 by done. split; [by intros [_ ?]|by split].
Qed.

Lemma reap_inv prev l st st' :
  reap prev l st = Ret st' -> settled st -> NoDup l -> (forall t, t ∈ l -> t ∈ exited_threads st) ->
  settled st' /\ current_thread st' = current_thread st /\ thread_list st' = thread_list st /\
  (forall t, t ∉ exited_threads st -> konts st' !! t = konts st !! t /\ threads st' !! t = threads st !! t).
Proof.
  induction l as [|t l IH] in st |- *; cbn [reap]; intros Hop Hs Hnd Hsub; [by injection Hop as <-|].
  apply list.NoDup_cons in Hnd as [Hnt Hnd]. destruct (t =? prev); [apply IH; try done; intros u ?; apply Hsub; by right|].
  inv_bind Hop. pose proof (settled_reap t st Hs (Hsub t ltac:(by left))) as Hs1.
  match type of Hop with reap _ _ ?s = _ => set (st1 := s) in * end.
  assert (settled st1 /\ current_thread st1 = current_thread st /\ thread_list st1 = thread_list st /\
          exited_threads st1 = tailq_remove t (exited_threads st) /\ konts st1 = delete t (konts st) /\
          threads st1 = delete t (threads st)) as (S1 & C1 & L1 & X1 & K1 & D1).
  { unfold st1. destruct (has_flag THREAD_EXTSTACK a); split_and!; try done.
    destruct Hs1 as [W M T]. split; [|done|].
    - eapply winv_ext; [| | | |exact W]; try done.
    - by destruct T. }
  destruct (IH st1 Hop S1 Hnd) as (S2 & C2 & L2 & K2).
  { intros u Hu. rewrite X1. apply list_elem_of_filter. split; [congruence|]. apply Hsub. by right. }
  split_and!; [done|congruence|congruence|]. intros u Hu.
  destruct (K2 u) as [-> ->]; [rewrite X1; by intros [_ ?]%list_elem_of_filter|].
  rewrite K1, D1, !lookup_delete_ne; [done|intros <-; apply Hu, Hsub; by left..].
Qed.

Lemma resume_kont_inv k st r st' :
  resume_kont k st = Ret (r, st') -> settled st -> current_thread st ∈ thread_list st ->
  konts st !! current_thread st = Some k -> post st r st'.
Proof.
  intros Hop Hs A Hk.
  assert (Hrun : waits_on k = None -> running None st) by (by apply settled_running).
  assert (Hleave : forall wh rv st1, wait_leave wh st = Ret (rv, st1) -> waits_on k = Some wh ->
            running (wants k) st1 /\ frame (Some (current_thread st)) st st1).
  { intros wh rv st1 E Hwo. destruct Hs as [W M T].
    destruct (wait_leave_inv _ _ _ _ _ E Hk Hwo W M) as (W1 & M1 & F & _). pose proof F as [Fc _ _ [Fl _] _].
    split; [|done]. split; rewrite ?Fc, ?Fl; try done. by eapply frame_tinv. }
  destruct k; cbn [resume_kont] in Hop.
  1-4: injection Hop as <- <-; apply post_done; [by apply Hrun|apply quiet_refl].
  - injection Hop as <- <-. apply post_done; [by apply Hrun|apply quiet_hyp].
  - apply exit_thread_inv; [done|by apply Hrun].
  - exfalso. apply (t_exited _ (s_tinv _ Hs)) in Hk. pose proof (t_nodup _ (s_tinv _ Hs)) as Hnd.
    apply NoDup_app in Hnd as (_ & Hnd & _). by apply (Hnd (current_thread st)).
  - eapply post_quiet; [apply quiet_joinwq|]. eapply join_loop_inv; [done|].
    eapply running_quiet; [by apply Hrun|apply quiet_joinwq].
  - inv_bind Hop. destruct a as [rv st1]. destruct (Hleave _ _ _ E eq_refl) as [R1 F1].
    eapply post_frame; [exact F1|]. eapply mutex_enter_loop_inv; [done|exact R1|by right].
  - destruct (rw_queue lk rw) as [wh|] eqn:Hq; [|done]. inv_bind Hop. destruct a as [rv st1].
    destruct (Hleave _ _ _ E Hq) as [R1 F1]. eapply post_frame; [exact F1|]. by eapply rw_enter_loop_inv.
  - by eapply cv_wait_leave_inv.
Qed.

(** The loop of [schedule] changes the thread it picks and the order of the
    list, whatever the clock does. *)
Lemma scan_shape tm w ths l o w' ths' :
  scan tm w ths l = Ret (o, w', ths') ->
  match o with
  | Some t => t ∈ l /\ exists x, ths !! t = Some x /\ ths' = <[t := activate x]> ths
  | None => ths' = ths
  end.
Proof.
  induction l as [|t l IH] in w |- *; [by intros [= <- _ <-]|]. destruct (ths !! t) as [x|] eqn:Hx.
  - rewrite (scan_cons _ _ _ _ _ x Hx). destruct (due tm x).
    + intros [= <- _ <-]. split; [by left|eauto].
    + intros Hop%IH. destruct o; [|done]. destruct Hop as [? ?]. split; [by right|done].
  - cbn [scan]. unfold deref. by rewrite Hx.
Qed.

(** A round of the loop that ends: its pass found the thread, or the loop went
    on after a pause. *)
Lemma schedule_loop_split fuel st t st' :
  schedule_loop (S fuel) st = Ret (t, st') ->
  (exists tm w w' x c, scan tm w (threads st) (thread_list st) = Ret (Some t, w', <[t := activate x]> (threads st)) /\
     t ∈ thread_list st /\ threads st !! t = Some x /\ woken st (upd_clock (fun _ => c) st) /\
     st' = upd_thread_list (fun l => tailq_remove t l ++ [t])
             (upd_threads <[t := activate x]> (upd_clock (fun _ => c) st))) \/
  (exists st1, woken st st1 /\ schedule_loop fuel st1 = Ret (t, st')).
Proof.
  cbn [schedule_loop]. unfold now. pose proof (clk_gettime_receivers (clock st)) as Er.
  destruct (clk_gettime (clock st)) as [ts c]. intros Hop. inv_bind Hop. destruct a as [[o w] ths].
  pose proof (scan_shape _ _ _ _ _ _ _ E) as Hs. cbn [upd_clock threads thread_list fst snd] in Hs, Er, E.
  destruct o as [u|].
  - left. destruct Hs as (Hu & x & Hx & ->). injection Hop as <- <-. do 2 eexists. exists w, x, c.
    split_and!; [exact E|done|done|by apply woken_clock|done].
  - right. subst ths. cbn [upd_threads upd_clock clock] in Hop.
    match type of Hop with context [clk_nanosleep ?sl c] => pose proof (clk_nanosleep_receivers sl c) as [Er' Hin];
      destruct (clk_nanosleep sl c) as [ws c'] end.
    cbn [fst snd] in Er', Hin. rewrite Er in *. inv_bind Hop.
    destruct (wake_threads_woken _ _ _ E0) as [W _]; [cbn; by rewrite Er'|].
    exists a. split; [|done]. eapply woken_trans; [by apply (woken_clock c')|by destruct st].
Qed.

Lemma schedule_loop_shape fuel st t st' :
  schedule_loop fuel st = Ret (t, st') ->
  t ∈ thread_list st /\ exists st1 x, woken st st1 /\ threads st1 !! t = Some x /\
    st' = upd_thread_list (fun l => tailq_remove t l ++ [t]) (upd_threads <[t := activate x]> st1).
Proof.
  induction fuel as [|fuel IH] in st |- *; [done|].
  intros [(tm & w & w' & x & c & _ & Ht & Hx & W & ->)|(st1 & W & Hop)]%schedule_loop_split.
  - split; [done|]. by exists (upd_clock (fun _ => c) st), x.
  - apply IH in Hop as (Ht & st2 & x & W1 & Hx & ->). rewrite (woken_list _ _ W) in Ht. split; [done|].
    exists st2, x. split_and!; [by eapply woken_trans|done..].
Qed.

Lemma woken_quiet ex st st' : woken st st' -> quiet ex st st'.
Proof.
  intros W. pose proof W as (_ & _ & E). split; try (by rewrite E).
  - intros t _ (x & Hx & Hr). by eapply woken_runnable.
  - rewrite E. cbn. intros m x' Hx. exists x'. auto.
  - intros t. by apply woken_some.
Qed.

Lemma quiet_settled st st' : quiet None st st' -> settled st -> settled st'.
Proof.
  intros Q [W M T]. split; [by eapply quiet_winv|by eapply quiet_minv|by eapply quiet_tinv].
Qed.

Lemma switch_settled t x st :
  settled st -> t ∈ thread_list st -> threads st !! t = Some x ->
  settled (upd_current_thread (fun _ => t) (upd_thread_list (fun l => tailq_remove t l ++ [t])
             (upd_threads <[t := activate x]> st))).
Proof.
  intros [W M [T1 T2 T3 T4]] Ht Hx. split.
  - apply (winv_ext None st); try done.
    intros u _ (y & Hy & Hr). unfold runnable. cbn. destruct (decide (t = u)) as [<-|].
    + rewrite lookup_insert_eq. eexists. split; [done|apply is_runnable_activate].
    + rewrite lookup_insert_ne by done. eauto.
  - done.
  - apply NoDup_app in T1 as (N1 & N2 & N3).
    assert (Hel : forall u, u ∈ tailq_remove t (thread_list st) ++ [t] <-> u ∈ thread_list st).
    { intros u. rewrite elem_of_app, list_elem_of_singleton. unfold tailq_remove. rewrite list_elem_of_filter.
      destruct (decide (u = t)) as [->|]; tauto. }
    split; cbn.
    + apply NoDup_app. split_and!; [|intros u ?%Hel; by apply N2|done].
      apply NoDup_app. split_and!; [by apply NoDup_filter| |apply NoDup_singleton].
      intros u [? _]%list_elem_of_filter ?%list_elem_of_singleton. done.
    + intros u. rewrite elem_of_app, Hel, <- elem_of_app, T2. destruct (decide (t = u)) as [<-|].
      * rewrite lookup_insert_eq, Hx. split; eauto.
      * by rewrite lookup_insert_ne.
    + intros u. destruct (decide (t = u)) as [<-|]; [|by rewrite lookup_insert_ne].
      rewrite lookup_insert_eq, <- T3, Hx. split; eauto.
    + done.
Qed.

(** The loop and the switch to the thread it picks. *)
Lemma schedule_switch fuel st t st' :
  schedule_loop fuel st = Ret (t, st') -> settled st ->
  t ∈ thread_list st /\ exists st1 x, woken st st1 /\ threads st1 !! t = Some x /\
    st' = upd_thread_list (fun l => tailq_remove t l ++ [t]) (upd_threads <[t := activate x]> st1) /\
    settled (upd_current_thread (fun _ => t) st').
Proof.
  intros (Ht & st1 & x & W & Hx & ->)%schedule_loop_shape Hs. split; [done|]. exists st1, x.
  split_and!; [done..|]. apply switch_settled; [|by rewrite (woken_list _ _ W)|done].
  eapply quiet_settled; [by apply woken_quiet|done].
Qed.

Lemma resume_inv st r st' :
  resume st = Ret (r, st') -> settled st -> current_thread st ∈ thread_list st ->
  settled st' /\ current_thread st' = current_thread st /\ others (current_thread st) st st' /\
  (forall v, r = Val v -> konts st' !! current_thread st = Some KRun /\ current_thread st ∈ thread_list st').
Proof.
  unfold resume, get_current, deref. intros Hop Hs A.
  destruct (konts st !! current_thread st) as [k|] eqn:Hk; cbn [mbind outcome_bind] in Hop; [|done].
  inv_bind Hop.
  assert (settled a /\ current_thread a = current_thread st /\ thread_list a = thread_list st /\
          konts a !! current_thread st = Some k /\ others (current_thread st) st a) as (S1 & C1 & L1 & K1 & O1).
  { destruct (decide (k = KStart)); [by injection E as <-|].
    pose proof (s_tinv _ Hs) as T. pose proof (t_nodup _ T) as Hnd. apply NoDup_app in Hnd as (_ & N2 & N3).
    destruct (reap_inv _ _ _ _ E Hs N3) as (? & ? & Hl & Hkk); [done|]. split_and!; try done.
    - destruct (Hkk (current_thread st)) as [-> _]; [|done]. by apply alive_dom.
    - split; intros t Hne Ht; rewrite ?Hl; try done. intros (x & Hx & Hr). exists x.
      destruct (Hkk t) as [_ ->]; [|done]. by apply N2. }
  inv_bind Hop. destruct a0 as [r1 st2]. injection Hop as <- <-.
  destruct (resume_kont_inv k a r1 st2 E0 S1) as (C2 & O2 & P); [by rewrite C1, L1|by rewrite C1|].
  rewrite C1 in *. assert (O : others (current_thread st) st st2) by (by eapply others_trans).
  destruct r1 as [v|]; [|by split_and!]. destruct P as [R _].
  rewrite <- C2 in *. split_and!; [by apply (suspend_settled KRun)|done|by destruct O; split|].
  intros _ _. cbn. rewrite lookup_insert_eq. split; [done|apply (r_alive _ _ R)].
Qed.

Lemma reap_queues prev l st st' :
  reap prev l st = Ret st' -> onlist st' = onlist st /\ forall wh, wq st' wh = wq st wh.
Proof.
  induction l as [|t l IH] in st |- *; cbn [reap]; [by intros [= <-]|]. destruct (t =? prev); [apply IH|].
  intros Hop. inv_bind Hop. apply IH in Hop as [-> Hw]. destruct (has_flag THREAD_EXTSTACK a); split; try done;
    intros wh; rewrite Hw; by destruct wh.
Qed.

(** The state in which a suspended thread goes on. *)
Lemma resume_start k st r st' :
  resume st = Ret (r, st') -> settled st -> current_thread st ∈ thread_list st ->
  konts st !! current_thread st = Some k -> k <> KStart ->
  exists a r1 st2, resume_kont k a = Ret (r1, st2) /\ settled a /\ current_thread a = current_thread st /\
    konts a !! current_thread a = Some k /\ onlist a = onlist st /\ (forall wh, wq a wh = wq st wh) /\ r = r1.
Proof.
  unfold resume, get_current, deref. intros Hop Hs A Hk Hne. rewrite Hk in Hop. cbn [mbind outcome_bind] in Hop.
  rewrite decide_False in Hop by done. inv_bind Hop. inv_bind Hop. destruct a0 as [r1 st2]. injection Hop as <- _.
  pose proof (t_nodup _ (s_tinv _ Hs)) as Hnd. apply NoDup_app in Hnd as (_ & _ & N3).
  destruct (reap_inv _ _ _ _ E Hs N3) as (Sa & Hc & _ & Hkk); [done|].
  destruct (reap_queues _ _ _ _ E) as [Ho Hw]. exists a, r1, st2. split_and!; try done.
  rewrite Hc. destruct (Hkk (current_thread st)) as [-> _]; [|done]. apply alive_dom; [apply Hs|done].
Qed.

Lemma schedule_inv fuel st r st' :
  schedule fuel st = Ret (r, st') -> settled st ->
  settled st' /\ (forall v, r = Val v ->
    konts st' !! current_thread st' = Some KRun /\ current_thread st' ∈ thread_list st').
Proof.
  unfold schedule. intros Hop Hs. inv_bind Hop. destruct a as [t st1].
  destruct (schedule_switch _ _ _ _ E Hs) as (Ht & st0 & x & W & Hx & -> & S0).
  destruct (resume_inv _ _ _ Hop) as (S2 & C2 & _ & P2); [exact S0| |].
  - cbn. apply elem_of_app. right. by left.
  - split; [done|]. rewrite C2. done.
Qed.

(** A pass of the scheduler at any time finds no runnable thread in front of
    the one it picks. *)
Lemma scan_first tm w ths l t w' ths' u x :
  scan tm w ths l = Ret (Some t, w', ths') -> ths !! u = Some x -> is_runnable x = true -> u ∈ l ->
  t = u \/ (rank t l < rank u l)%nat.
Proof.
  induction l as [|v l IH] in w |- *; [done|]. intros Hop Hx Hr Hu. destruct (ths !! v) as [y|] eqn:Hy.
  - rewrite (scan_cons _ _ _ _ _ y Hy) in Hop. destruct (due tm y) eqn:Hd.
    + injection Hop as <- _ _. destruct (decide (v = u)) as [|Hne]; [by left|right].
      cbn [rank]. rewrite decide_True, decide_False by done. lia.
    + assert (v <> u) as Hne by (intros ->; unfold due in Hd; by simplify_eq; rewrite Hr in Hd).
      apply elem_of_cons in Hu as [?|Hu]; [congruence|].
      destruct (IH _ Hop Hx Hr Hu) as [?|Hlt]; [by left|]. right. cbn [rank]. rewrite (decide_False (P:=v = u)) by done.
      case_decide; lia.
  - cbn [scan] in Hop. unfold deref in Hop. by rewrite Hy in Hop.
Qed.

Lemma rank_rotate t u l : t <> u -> u ∈ l -> (rank t l < rank u l)%nat ->
  (rank u (tailq_remove t l ++ [t]) < rank u l)%nat.
Proof.
  intros Hne Hu Hlt. rewrite rank_app by (apply list_elem_of_filter; split; [congruence|done]).
  induction l as [|v l IH]; [cbn in Hlt; lia|]. unfold tailq_remove in *. rewrite filter_cons. cbn [rank] in Hlt.
  destruct (decide (v = t)) as [->|Hvt].
  - rewrite decide_False by (by intros []). cbn [rank]. rewrite decide_False by done.
    pose proof (rank_remove u t l). unfold tailq_remove in *. lia.
  - rewrite decide_True by done. case_decide as Hvu; [lia|]. cbn [rank].
    rewrite !(decide_False (P:=v = u)) by done. apply elem_of_cons in Hu as [?|Hu]; [congruence|].
    specialize (IH Hu ltac:(lia)). lia.
Qed.

Lemma schedule_loop_first fuel st t st' u :
  schedule_loop fuel st = Ret (t, st') -> u ∈ thread_list st -> runnable st u ->
  t = u \/ (rank t (thread_list st) < rank u (thread_list st))%nat.
Proof.
  induction fuel as [|fuel IH] in st |- *; [done|]. intros Hop Hu (x & Hx & Hr).
  apply schedule_loop_split in Hop as [(tm & w & w' & y & c & E & _)|(st1 & W & Hop)]; [by eapply scan_first|].
  rewrite <- (woken_list _ _ W). apply IH in Hop; [done|by rewrite (woken_list _ _ W)|by eapply woken_runnable].
Qed.

(** A runnable thread runs next, or moves up. *)
Lemma schedule_fair fuel st r st' u :
  schedule fuel st = Ret (r, st') -> settled st -> u ∈ thread_list st -> runnable st u ->
  current_thread st' = u \/
  (u ∈ thread_list st' /\ runnable st' u /\ (rank u (thread_list st') < rank u (thread_list st))%nat).
Proof.
  unfold schedule. intros Hop Hs Hu Hru. inv_bind Hop. destruct a as [t st1].
  destruct (schedule_switch _ _ _ _ E Hs) as (Ht & st0 & x & W & Hx & -> & S0).
  destruct (resume_inv _ _ _ Hop) as (S2 & C2 & O2 & _); [exact S0|cbn; apply elem_of_app; right; by left|].
  cbn [current_thread upd_current_thread] in *. destruct (decide (t = u)) as [->|Hne]; [by left|right].
  destruct (schedule_loop_first _ _ _ _ u E Hu Hru) as [|Hlt]; [done|].
  pose proof (rank_rotate t u _ Hne Hu Hlt) as Hrot.
  rewrite <- (woken_list _ _ W) in Hu, Hrot |- *.
  assert (Hu1 : u ∈ tailq_remove t (thread_list st0) ++ [t]).
  { apply elem_of_app. left. apply list_elem_of_filter. split; [congruence|done]. }
  split_and!.
  - apply (o_list _ _ _ O2); [congruence|exact Hu1].
  - apply (o_runnable _ _ _ O2); [congruence|exact Hu1|]. destruct Hru as (y & Hy & Hr).
    unfold runnable. cbn. rewrite lookup_insert_ne by done. by eapply woken_runnable.
  - eapply Nat.le_lt_trans; [apply (o_rank _ _ _ O2 u); [congruence|exact Hu1]|exact Hrot].
Qed.



(** *** Executions *)

(** The states of a program that calls the library: a thread in its own code
    makes a legal call; a suspended one has called [schedule].  The rest of the
    library may change the state of the platform (the clock, the descriptors it
    polls and the threads that wait for them) at any time. *)
Inductive step : sched C -> sched C -> Prop :=
  | step_call c st r st' :
      konts st !! current_thread st = Some KRun -> legal c st -> exec c st = Ret (r, st') -> step st st'
  | step_schedule fuel st r st' :
      konts st !! current_thread st <> Some KRun -> schedule fuel st = Ret (r, st') -> step st st'
  | step_platform f st : step st (upd_clock f st).

Inductive reach (c0 : C) : sched C -> Prop :=
  | reach_init addr st : init_sched addr (sched_init c0) = Ret st -> reach c0 st
  | reach_step st st' : reach c0 st -> step st st' -> reach c0 st'.

Lemma kont_alive t k st : tinv st -> konts st !! t = Some k -> k <> KExited -> t ∈ thread_list st.
Proof.
  intros [_ T2 T3 T4] Hk Hne. assert (is_Some (threads st !! t)) as Hd by (apply T3; eauto).
  apply T2, elem_of_app in Hd as [?|Hx]; [done|]. apply T4 in Hx. congruence.
Qed.

Lemma running_settled st :
  running None st -> konts st !! current_thread st = Some KRun -> settled st.
Proof.
  intros R Hk. replace st with (suspend KRun st); [by apply suspend_settled|].
  unfold suspend, get_current. destruct st. cbn in *. unfold upd_konts. cbn. by rewrite insert_id.
Qed.

Lemma exec_settled c st r st' :
  settled st -> konts st !! current_thread st = Some KRun -> legal c st -> exec c st = Ret (r, st') ->
  settled st' /\ others (current_thread st) st st' /\ current_thread st' = current_thread st.
Proof.
  intros S Hk HL Hop. pose proof (kont_alive _ _ _ (s_tinv _ S) Hk ltac:(done)) as A.
  pose proof (settled_running _ _ S A Hk eq_refl) as R.
  destruct (exec_inv c st r st' Hop HL R) as (Hc & O & P). split_and!; [|done..]. destruct r as [v|]; [|done].
  destruct P as [R' Hk']. apply running_settled; [done|]. by rewrite Hc, Hk'.
Qed.

Lemma step_settled st st' : step st st' -> settled st -> settled st'.
Proof.
  intros [] S; [by eapply exec_settled|by eapply schedule_inv|]. eapply quiet_settled; [apply quiet_clock|done].
Qed.

Lemma init_settled c0 addr st : init_sched addr (sched_init c0) = Ret st -> settled st.
Proof.
  unfold init_sched. destruct (addr =? 0); [done|]. intros [= <-].
  split.
  - split; cbn.
    + intros wh q t Hq. by destruct wh.
    + intros wh q Hq. by destruct wh.
    + intros t k wh [[<- <-]|[? ?]]%lookup_insert_Some; done.
  - by intros m x Hx.
  - split; cbn.
    + apply NoDup_singleton.
    + intros t. rewrite list_elem_of_singleton. destruct (decide (addr = t)) as [<-|].
      * rewrite lookup_insert_eq. split; eauto.
      * rewrite lookup_insert_ne, lookup_empty by done. split; [congruence|by intros []].
    + intros t. destruct (decide (addr = t)) as [<-|]; [rewrite !lookup_insert_eq; split; eauto|].
      rewrite !lookup_insert_ne by done. split; by intros [].
    + intros t. split; [by intros ?%not_elem_of_nil|]. intros [[_ ?]|[_ ?]]%lookup_insert_Some; done.
Qed.

Lemma reach_settled c0 st : reach c0 st -> settled st.
Proof. induction 1; [by eapply init_settled|by eapply step_settled]. Qed.

(** Executions in which thread [u] never gets the processor, with the number of
    times another thread did. *)
Inductive bypass (u : Z) : nat -> sched C -> sched C -> Prop :=
  | bypass_nil st : current_thread st <> u -> bypass u 0 st st
  | bypass_call n c st r st1 st2 :
      konts st !! current_thread st = Some KRun -> legal c st -> exec c st = Ret (r, st1) ->
      current_thread st <> u -> bypass u n st1 st2 -> bypass u n st st2
  | bypass_schedule n fuel st r st1 st2 :
      konts st !! current_thread st <> Some KRun -> schedule fuel st = Ret (r, st1) ->
      current_thread st1 <> u -> bypass u n st1 st2 -> bypass u (S n) st st2
  | bypass_platform n f st st2 : bypass u n (upd_clock f st) st2 -> bypass u n st st2.

Lemma bypass_bound u n st st' :
  bypass u n st st' -> settled st -> u ∈ thread_list st -> runnable st u -> (n <= rank u (thread_list st))%nat.
Proof.
  induction 1 as [|n c st r st1 st2 Hk HL Hop Hne _ IH|n fuel st r st1 st2 Hk Hop Hne _ IH|n f st st2 _ IH];
    intros S Hu Hr; [lia|..].
  - destruct (exec_settled c st r st1 S Hk HL Hop) as (S1 & [Or Ol Ok] & _).
    specialize (IH S1 (Ol u ltac:(congruence) Hu) (Or u ltac:(congruence) Hu Hr)).
    pose proof (Ok u ltac:(congruence) Hu). lia.
  - destruct (schedule_inv _ _ _ _ Hop S) as [S1 _].
    destruct (schedule_fair _ _ _ _ u Hop S Hu Hr) as [?|(Hu1 & Hr1 & Hlt)]; [done|].
    specialize (IH S1 Hu1 Hr1). lia.
  - apply IH; [|done..]. eapply quiet_settled; [apply quiet_clock|done].
Qed.

End Inv.
End SchedInv.

(** ** Who holds a mutex *)

Module MutexHold.
Import Sched SchedFacts SchedInv.

Section Hold.
Context {C : Type} `{Clock C}.
Implicit Types st : sched C.

(** The count and the owner of a mutex. *)
Definition core st (m : Z) : option (Z * Z) := (fun x => (m_v x, m_o x)) <$> mtxs st !! m.

Definition lwp_of st (t : Z) : option Z := lwp <$> threads st !! t.

(** The lwp [l] is inside the mutex, [v] times. *)
Definition held st (m l v : Z) : Prop := core st m = Some (v, l) /\ 0 < v.

(** The mutex and the identity of the running thread stay as they are. *)
Record steady (m : Z) st st' : Prop := {
  y_current : current_thread st' = current_thread st;
  y_core : core st' m = core st m;
  y_lwp : lwp_of st' (current_thread st) = lwp_of st (current_thread st);
}.

Lemma steady_refl m st : steady m st st.
Proof. done. Qed.

Lemma steady_trans m st1 st2 st3 : steady m st1 st2 -> steady m st2 st3 -> steady m st1 st3.
Proof. intros [c1 k1 l1] [c2 k2 l2]. rewrite c1 in *. split; congruence. Qed.

Lemma steady_on_thread m f t st st' :
  on_thread f t st = Ret st' -> (forall x, lwp (f x) = lwp x) -> steady m st st'.
Proof.
  unfold on_thread, deref. destruct (threads st !! t) as [x|] eqn:Hx; [|done]. cbn [mbind outcome_bind].
  intros [= <-] Hf. split; try done. unfold lwp_of. cbn. destruct (decide (t = current_thread st)) as [->|].
  - rewrite lookup_insert_eq, Hx. cbn. by rewrite Hf.
  - by rewrite lookup_insert_ne.
Qed.

Lemma core_set_wq m wh l st : core (set_wq wh l st) m = core st m.
Proof.
  unfold core. destruct wh as [p|p|p|p]; try done. cbn. destruct (decide (p = m)) as [->|].
  - rewrite lookup_alter_eq. by destruct (mtxs st !! m).
  - by rewrite lookup_alter_ne.
Qed.

Lemma steady_set_wq m wh l f st : steady m st (upd_onlist f (set_wq wh l st)).
Proof. split; [by destruct wh| |by destruct wh]. rewrite <- (core_set_wq m wh l st). done. Qed.

Lemma steady_wakeup_one m wh st st' : wakeup_one wh st = Ret st' -> steady m st st'.
Proof.
  unfold wakeup_one. rewrite get_wq_eq. destruct (wq st wh) as [[|w q]|]; cbn [mbind outcome_bind]; [by intros [= <-]| |done].
  intros Hop. eapply steady_trans; [apply steady_set_wq|]. by eapply steady_on_thread.
Qed.

Lemma steady_wakeup_all m wh st st' : wakeup_all wh st = Ret st' -> steady m st st'.
Proof.
  unfold wakeup_all. intros Hop. inv_bind Hop. clear E.
  induction a as [|w q IH] in st, Hop |- *; cbn [wakeup_all_loop] in Hop; [by injection Hop as <-|].
  inv_bind Hop. eapply steady_trans; [apply steady_set_wq|]. eapply steady_trans; [by eapply steady_on_thread|].
  by apply IH.
Qed.

Lemma steady_wait_enter m wh nsec st st' : wait_enter wh nsec st = Ret st' -> steady m st st'.
Proof.
  unfold wait_enter. destruct (nsec =? 0); [done|]. intros Hop. do 2 inv_bind Hop.
  destruct (if nsec =? WAIT_NOTIMEOUT then (-1, a0) else _) as [tm st2] eqn:Et.
  eapply steady_trans; [apply steady_set_wq|]. eapply steady_trans; [by eapply steady_on_thread|].
  eapply steady_trans; [|by eapply steady_on_thread].
  destruct (nsec =? WAIT_NOTIMEOUT); [by injection Et as _ <-|]. unfold now in Et.
  destruct (clk_gettime _). by injection Et as _ <-.
Qed.

Lemma steady_wait_leave m wh st r st' : wait_leave wh st = Ret (r, st') -> steady m st st'.
Proof.
  unfold wait_leave. intros Hop. inv_bind Hop. destruct a; [|by injection Hop as _ <-].
  inv_bind Hop. injection Hop as _ <-. split; [by destruct wh|apply core_set_wq|by destruct wh].
Qed.

Lemma curlwp_eq st l : curlwp st = Ret l <-> lwp_of st (current_thread st) = Some l.
Proof.
  unfold curlwp, get_current, deref, lwp_of. destruct (threads st !! current_thread st); cbn; [|done].
  split; intros [= <-]; done.
Qed.

(** Trying to enter: another mutex is another matter, and this one is busy. *)
Lemma steady_tryenter m m' l v st r st' :
  mutex_tryenter m' st = Ret (r, st') -> held st m l v -> lwp_of st (current_thread st) <> Some l ->
  steady m st st' /\ (m' = m -> r = EBUSY).
Proof.
  unfold mutex_tryenter. intros Hop [Hc Hv] Hl. inv_bind Hop. apply curlwp_eq in E. unfold deref in Hop.
  destruct (mtxs st !! m') as [x|] eqn:Hx; cbn [mbind outcome_bind] in Hop; [|done].
  destruct (decide (m' = m)) as [->|Hne].
  - unfold core in Hc. rewrite Hx in Hc. cbn in Hc. injection Hc as <- <-.
    destruct (Z.eqb_spec (m_v x) 0); [lia|]. destruct (Z.eqb_spec (m_o x) a); [congruence|].
    cbn in Hop. injection Hop as <- <-. done.
  - split; [|done]. destruct (_ && _); [by injection Hop as _ <-|]. inv_bind Hop. injection Hop as _ <-.
    split; try done. unfold core. cbn. by rewrite lookup_insert_ne.
Qed.

Lemma steady_mutex_exit m m' st st' : mutex_exit m' st = Ret st' -> m' <> m -> steady m st st'.
Proof.
  unfold mutex_exit. intros Hop Hne. do 2 inv_bind Hop.
  assert (forall y, steady m st (upd_mtxs <[m' := y]> st)) as Hy.
  { intros y. split; try done. unfold core. cbn. by rewrite lookup_insert_ne. }
  destruct (_ =? 0); [|by injection Hop as <-]. eapply steady_trans; [apply Hy|]. by eapply steady_wakeup_one.
Qed.

(** A thread that is not [l], and a mutex that [l] holds. *)
Definition outsider st (m l v : Z) : Prop := held st m l v /\ lwp_of st (current_thread st) <> Some l.

Lemma outsider_steady m l v st st' : outsider st m l v -> steady m st st' -> outsider st' m l v.
Proof. intros [[Hc Hv] Hl] [yc yk yl]. split; [split; congruence|]. by rewrite yc, yl. Qed.

Lemma steady_mutex_enter_loop m m' l v st r st' :
  mutex_enter_loop m' st = Ret (r, st') -> outsider st m l v -> steady m st st' /\ (m' = m -> r = Blocked).
Proof.
  unfold mutex_enter_loop. intros Hop [Hh Hl]. inv_bind Hop. destruct a as [r1 st1].
  destruct (steady_tryenter m m' l v st r1 st1 E Hh Hl) as [Y Hr]. destruct (negb (r1 =? 0)) eqn:Er; to_prop.
  - inv_bind Hop. injection Hop as <- <-. split; [|done]. eapply steady_trans; [exact Y|].
    pose proof (steady_wait_enter m _ _ _ _ E0) as [? ? ?]. by split.
  - injection Hop as <- <-. split; [by destruct Y|]. intros Hm. by rewrite (Hr Hm) in Er.
Qed.

Lemma steady_mutex_enter m m' l v st r st' :
  mutex_enter m' st = Ret (r, st') -> outsider st m l v -> steady m st st' /\ (m' = m -> r = Blocked).
Proof.
  unfold mutex_enter. intros Hop O. inv_bind Hop. destruct a as [r1 st1]. destruct O as [Hh Hl].
  destruct (steady_tryenter m m' l v st r1 st1 E Hh Hl) as [Y Hr]. destruct (negb (r1 =? 0)) eqn:Er; to_prop.
  - destruct (steady_mutex_enter_loop m m' l v _ _ _ Hop) as [Y2 Hb].
    + eapply outsider_steady; [by split|]. by destruct Y; split.
    + split; [|done]. eapply steady_trans; [exact Y|]. by destruct Y2; split.
  - injection Hop as <- <-. split; [done|]. intros Hm. by rewrite (Hr Hm) in Er.
Qed.

Lemma steady_nowrap m m' l v st st' :
  mutex_enter_nowrap m' st = Ret st' -> outsider st m l v -> steady m st st' /\ m' <> m.
Proof.
  unfold mutex_enter_nowrap. intros Hop [Hh Hl]. inv_bind Hop. destruct a as [r1 st1].
  destruct (steady_tryenter m m' l v st r1 st1 E Hh Hl) as [Y Hr].
  destruct (Z.eqb_spec r1 0) as [->|]; cbn in Hop; [|done]. injection Hop as <-. split; [done|].
  intros Hm. by specialize (Hr Hm).
Qed.

Lemma steady_rw_tryenter m lk rw st r st' : rw_tryenter lk rw st = Ret (r, st') -> steady m st st'.
Proof.
  unfold rw_tryenter. intros Hop. inv_bind Hop.
  repeat case_match; try (by injection Hop as _ <-); inv_bind Hop; by injection Hop as _ <-.
Qed.

Lemma steady_rw_enter_loop m lk rw st r st' : rw_enter_loop lk rw st = Ret (r, st') -> steady m st st'.
Proof.
  unfold rw_enter_loop. intros Hop. inv_bind Hop. destruct a as [r1 st1].
  eapply steady_trans; [by eapply steady_rw_tryenter|]. destruct (negb _); [|by injection Hop as _ <-].
  destruct (rw_queue lk rw); [|done]. inv_bind Hop. injection Hop as _ <-.
  by destruct (steady_wait_enter m _ _ _ _ E0); split.
Qed.

Lemma steady_rw_exit m rw st st' : rw_exit rw st = Ret st' -> steady m st st'.
Proof.
  unfold rw_exit. intros Hop. do 2 inv_bind Hop.
  assert (steady m st (upd_rws <[rw := a0]> st)) as Y by done. eapply steady_trans; [exact Y|].
  repeat case_match; try (by injection Hop as <-); first [by eapply steady_wakeup_one|by eapply steady_wakeup_all].
Qed.

Lemma steady_cv_count m d cv st st' : cv_count d cv st = Ret st' -> steady m st st'.
Proof. unfold cv_count. intros Hop. do 2 inv_bind Hop. by injection Hop as <-. Qed.

Lemma steady_cv_wait_enter m k cv m' nsec st r st' :
  cv_wait_enter k cv m' nsec st = Ret (r, st') -> m' <> m -> steady m st st'.
Proof.
  unfold cv_wait_enter. intros Hop Hne. inv_bind Hop. eapply steady_trans; [by eapply steady_cv_count|].
  inv_bind Hop. inv_bind Hop. injection Hop as _ <-.
  assert (steady m a a0) as Y by (destruct k; (apply (steady_mutex_exit m) in E0; [destruct E0; by split|done])).
  eapply steady_trans; [exact Y|]. by destruct (steady_wait_enter m _ _ _ _ E1); split.
Qed.

Lemma steady_cv_wait_leave m k cv m' l v st r st' :
  cv_wait_leave k cv m' st = Ret (r, st') -> outsider st m l v -> steady m st st' /\ m' <> m.
Proof.
  unfold cv_wait_leave. intros Hop O. inv_bind Hop. destruct a as [rv st1].
  pose proof (steady_wait_leave m _ _ _ _ E) as Y1. pose proof (outsider_steady _ _ _ _ _ O Y1) as O1.
  inv_bind Hop. inv_bind Hop. injection Hop as _ <-.
  assert (steady m st1 a /\ m' <> m) as [Y2 Hne].
  { destruct k; [|by eapply steady_nowrap|]; (unfold cv_resched in E0; inv_bind E0;
      destruct (_ =? _); [|inv_bind E0; injection E0 as <-];
      [destruct (steady_nowrap m m' l v _ _ E0) as [Y ?]; [eapply outsider_steady; [exact O1|done]|];
         split; [|done]; destruct Y; by split|
       destruct (steady_nowrap m m' l v _ _ E3) as [Y ?]; [done|]; split; [|done]; destruct Y; by split]). }
  split; [|done]. eapply steady_trans; [exact Y1|]. eapply steady_trans; [exact Y2|]. by eapply steady_cv_count.
Qed.

Lemma steady_sleep_until m tm k st r st' : sleep_until tm k st = Ret (r, st') -> steady m st st'.
Proof.
  unfold sleep_until, on_current. intros Hop. inv_bind Hop. injection Hop as _ <-.
  by destruct (steady_on_thread m _ _ _ _ E ltac:(done)); split.
Qed.

Lemma exit_thread_core m st r st' : exit_thread st = Ret (r, st') -> core st' m = core st m.
Proof.
  unfold exit_thread. intros Hop. inv_bind Hop. destruct (has_flag _ _).
  - do 3 inv_bind Hop. injection Hop as _ <-. pose proof (steady_on_thread m _ _ _ _ E0 ltac:(done)) as Y0.
    pose proof (steady_on_thread m _ _ _ _ E2 ltac:(done)) as Y2.
    assert (steady m a0 a1) as Y1 by (destruct (find_joiner _ _); [by eapply steady_on_thread|by injection E1 as <-]).
    apply (y_core _ _ _ (steady_trans _ _ _ _ Y0 (steady_trans _ _ _ _ Y1 Y2))).
  - inv_bind Hop. injection Hop as _ <-. by destruct (steady_on_thread m _ _ _ _ E0 ltac:(done)).
Qed.

Lemma join_loop_core m j st r st' : join_loop j st = Ret (r, st') -> core st' m = core st m.
Proof.
  unfold join_loop. intros Hop. inv_bind Hop. destruct (negb _).
  - inv_bind Hop. injection Hop as _ <-. by destruct (steady_on_thread m _ _ _ _ E0 ltac:(done)).
  - do 2 inv_bind Hop. injection Hop as _ <-.
    pose proof (steady_on_thread m _ _ _ _ E0 ltac:(done)) as Y1. pose proof (steady_on_thread m _ _ _ _ E1 ltac:(done)) as Y2.
    apply (y_core _ _ _ (steady_trans _ _ _ _ Y1 Y2)).
Qed.

(** The mutex a call lets go of, or brings into being. *)
Definition releases (c : call) : option Z :=
  match c with
  | CMutexInit m _ | CMutexExit m | CMutexDestroy m | CCvWait _ m | CCvWaitNowrap _ m | CCvTimedwait _ m _ _ => Some m
  | _ => None
  end.

Lemma exec_core c m l v st r st' :
  exec c st = Ret (r, st') -> outsider st m l v -> releases c <> Some m -> core st' m = core st m.
Proof.
  intros Hop O Hrel. pose proof O as [Hh Hl].
  destruct c; cbn [exec releases] in *; try (unfold done_, value_ in Hop; inv_bind Hop;
    try match goal with a : (Z * sched C)%type |- _ => destruct a as [? st1] end; injection Hop as <- <-).
  - by injection Hop as <- <-.
  - unfold set_curlwp, on_current, on_thread in E. inv_bind E. by injection E as <-.
  - unfold set_cookie, on_thread in E. inv_bind E. by injection E as <-.
  - unfold on_thread in E. inv_bind E. by injection E as <-.
  - unfold create_thread in E. destruct (_ =? 0); [by injection E as _ <-|]. inv_bind E. destruct a as [[]?]; by injection E as _ <-.
  - by eapply exit_thread_core.
  - unfold join_thread in Hop. do 2 inv_bind Hop. by eapply join_loop_core.
  - unfold clock_sleep, nsleep, absnanosleep, now in Hop.
    repeat case_match; [apply (steady_sleep_until m) in Hop as [_ -> _]..|by injection Hop as _ <-]; by simplify_eq.
  - unfold mutex_init in E. destruct (_ =? 0); [done|]. injection E as <-. unfold core. cbn.
    by rewrite lookup_insert_ne by congruence.
  - by eapply steady_mutex_enter.
  - by eapply steady_nowrap.
  - by eapply steady_tryenter.
  - eapply steady_mutex_exit; [done|congruence].
  - unfold mutex_destroy in E. do 2 inv_bind E. injection E as <-. unfold core. cbn.
    by rewrite lookup_delete_ne by congruence.
  - unfold rw_init in E. destruct (_ =? 0); [done|]. by injection E as <-.
  - unfold rw_enter in Hop. inv_bind Hop. destruct a as [r1 st1]. pose proof (steady_rw_tryenter m _ _ _ _ _ E) as Y.
    destruct (negb _); [|injection Hop as _ <-; apply Y]. rewrite <- (y_core _ _ _ Y).
    by apply steady_rw_enter_loop with (m := m) in Hop as [_ -> _].
  - by eapply steady_rw_tryenter.
  - by eapply steady_rw_exit.
  - unfold rw_downgrade in E. do 3 inv_bind E. by injection E as <-.
  - unfold rw_tryupgrade in E. inv_bind E. destruct (_ =? -1); [inv_bind E|]; by injection E as _ <-.
  - unfold rw_destroy in E. inv_bind E. by injection E as <-.
  - unfold cv_init in E. destruct (_ =? 0); [done|]. by injection E as <-.
  - unfold cv_destroy in E. do 2 inv_bind E. by injection E as <-.
  - eapply steady_cv_wait_enter; [done|congruence].
  - eapply steady_cv_wait_enter; [done|congruence].
  - eapply steady_cv_wait_enter; [done|congruence].
  - by eapply steady_wakeup_one.
  - by eapply steady_wakeup_all.
Qed.

Lemma steady_reap m l st st' : reap (current_thread st) l st = Ret st' -> steady m st st'.
Proof.
  induction l as [|t l IH] in st |- *; cbn [reap]; [by intros [= <-]|].
  destruct (Z.eqb_spec t (current_thread st)) as [->|Hne]; [apply IH|]. intros Hop. inv_bind Hop.
  match type of Hop with reap _ _ ?s = _ => set (st1 := s) in * end.
  assert (steady m st st1) as Y.
  { unfold st1. destruct (has_flag THREAD_EXTSTACK a); split; try done; unfold lwp_of; cbn;
      by rewrite lookup_delete_ne. }
  eapply steady_trans; [exact Y|]. apply IH. by rewrite (y_current _ _ _ Y).
Qed.

Lemma resume_kont_core k m l v st r st' :
  resume_kont k st = Ret (r, st') -> outsider st m l v ->
  core st' m = core st m /\ (k = KMutexEnter m -> r = Blocked).
Proof.
  intros Hop O. destruct k; cbn [resume_kont] in Hop; try (by injection Hop as <- <-).
  - split; [by eapply exit_thread_core|done].
  - split; [|done]. by apply (join_loop_core m) in Hop as ->.
  - inv_bind Hop. destruct a as [rv st1]. pose proof (steady_wait_leave m _ _ _ _ E) as Y.
    destruct (steady_mutex_enter_loop m mtx l v _ _ _ Hop) as [[_ -> _] Hb]; [by eapply outsider_steady|].
    split; [apply Y|]. intros [= <-]. by apply Hb.
  - split; [|done]. destruct (rw_queue lk rw); [|done]. inv_bind Hop. destruct a as [rv st1].
    rewrite <- (y_core _ _ _ (steady_wait_leave m _ _ _ _ E)).
    by apply (steady_rw_enter_loop m) in Hop as [_ -> _].
  - split; [|done]. by destruct (steady_cv_wait_leave m _ _ _ l v _ _ _ Hop O) as [[_ ? _] _].
Qed.

(** The platform's calls of [wake] change no mutex and no identity. *)
Lemma woken_core m t st st' : woken st st' -> core st' m = core st m /\ lwp_of st' t = lwp_of st t.
Proof.
  intros (_ & A & E). split; [by rewrite E|]. unfold lwp_of. destruct (A t) as [->|[_ ->]]; [done|].
  by destruct (threads st !! t).
Qed.

Lemma schedule_core fuel m l v st r st' :
  schedule fuel st = Ret (r, st') -> held st m l v -> settled st ->
  lwp_of st (current_thread st') <> Some l -> core st' m = core st m /\
  (forall w, r = Val w -> konts st !! current_thread st' <> Some (KMutexEnter m)).
Proof.
  unfold schedule. intros Hop Hh Hs Hl. inv_bind Hop. destruct a as [t st1].
  destruct (schedule_switch _ _ _ _ E Hs) as (Ht & st0 & x & W & Hx & -> & S0).
  destruct (woken_core m t _ _ W) as [Wc Wl]. unfold held in Hh. rewrite <- Wc in Hh. rewrite <- Wc.
  set (st2 := upd_current_thread (fun _ => t) _) in *.
  destruct (resume_inv _ _ _ Hop) as (_ & Hcur & _ & _);
    [exact S0|cbn; apply elem_of_app; right; by left|].
  cbn in Hcur. rewrite Hcur in Hl |- *. unfold resume, get_current in Hop. inv_bind Hop.
  unfold deref in E0. destruct (konts st2 !! current_thread st2) as [k|] eqn:Hk; [|done]. injection E0 as <-.
  inv_bind Hop.
  assert (Y : steady m st2 a).
  { destruct (decide (k = KStart)); [by injection E0 as <-|]. by eapply steady_reap. }
  inv_bind Hop. destruct a0 as [r1 st3]. injection Hop as <- <-.
  assert (O2 : outsider st2 m l v).
  { split; [exact Hh|]. rewrite <- Wl in Hl. unfold lwp_of in *. cbn. rewrite lookup_insert_eq. cbn.
    rewrite Hx in Hl. cbn in Hl.
    unfold activate. by destruct (is_runnable x). }
  destruct (resume_kont_core k m l v a r1 st3 E1) as [Hc Hb]; [by eapply outsider_steady|].
  rewrite (y_core _ _ _ Y) in Hc. split.
  - by destruct r1.
  - intros w -> Hkm. cbn in Hk. rewrite <- (q_konts None _ _ (woken_quiet _ _ _ W)), Hk in Hkm. injection Hkm as ->. by specialize (Hb eq_refl).
Qed.

End Hold.
End MutexHold.

(** ** Running a script of calls

    A script is a list of calls, and of [None] where the current thread is
    inside a blocking call and [schedule] runs. *)

Module Script.
Import Sched SchedInv.

Section Script.
Context {C : Type} `{Clock C}.
Implicit Types st : sched C.

Definition unusedb st (wh : waithead) : bool :=
  bool_decide (map_Forall (fun _ k => waits_on k <> Some wh) (konts st)).

Definition legalb (c : call) st : bool :=
  match c with
  | CCreate addr _ _ _ _ _ => match threads st !! addr with None => true | _ => false end
  | CMutexInit m _ | CMutexDestroy m => unusedb st (WMtx m)
  | CRwInit rw | CRwDestroy rw => unusedb st (WRwR rw) && unusedb st (WRwW rw)
  | CCvInit cv | CCvDestroy cv => unusedb st (WCv cv)
  | _ => true
  end.

Definition run1 (a : option call) st : outcome (result * sched C) :=
  let inside := bool_decide (konts st !! current_thread st = Some KRun) in
  match a with
  | Some c => if inside && legalb c st then exec c st else Abort
  | None => if inside then Abort else schedule 10 st
  end.

Fixpoint run (l : list (option call)) st : outcome (sched C) :=
  match l with
  | [] => Ret st
  | a :: l => '(_, st) ← run1 a st; run l st
  end.

Lemma unusedb_unused st wh : unusedb st wh = true -> unused st wh.
Proof. unfold unusedb. intros Hu%bool_decide_eq_true t k Hk. by apply (Hu t). Qed.

Lemma legalb_legal c st : legalb c st = true -> legal c st.
Proof.
  destruct c; cbn; try done; try (apply unusedb_unused).
  - by destruct (threads st !! addr).
  - intros [? ?]%andb_true_iff. split; by apply unusedb_unused.
  - intros [? ?]%andb_true_iff. split; by apply unusedb_unused.
Qed.

Lemma run1_step a st r st' : run1 a st = Ret (r, st') -> step st st'.
Proof.
  unfold run1. destruct (bool_decide _) eqn:E; destruct a as [c|]; cbn [andb]; try done.
  - destruct (legalb c st) eqn:El; [|done]. apply bool_decide_eq_true in E. intros Hop.
    eapply step_call; [done|by apply legalb_legal|done].
  - apply bool_decide_eq_false in E. intros Hop. by eapply step_schedule.
Qed.

Lemma run_reach c0 l st st' : reach c0 st -> run l st = Ret st' -> reach c0 st'.
Proof.
  induction l as [|a l IH] in st |- *; cbn [run]; intros Hre Hop; [by injection Hop as <-|].
  inv_bind Hop. destruct a0 as [r st1]. eapply IH; [|done]. eapply reach_step; [done|by eapply run1_step].
Qed.

End Script.

(** The state after a script on the spike target. *)
Definition boot : sched Timespec.timespec :=
  match init_sched 100 (sched_init FakeClock.__platform_now) with Ret st => st | _ => sched_init FakeClock.__platform_now end.

Lemma boot_reach : reach FakeClock.__platform_now boot.
Proof. apply (reach_init _ 100). reflexivity. Qed.

Definition after (l : list (option call)) : sched Timespec.timespec :=
  match run l boot with Ret st => st | _ => boot end.

Lemma after_reach l : reach FakeClock.__platform_now (after l).
Proof.
  unfold after. destruct (run l boot) eqn:E; try apply boot_reach. by eapply run_reach; [apply boot_reach|].
Qed.

(** Thread 100 (lwp 1) holds mutex 10 and gives up the processor; thread 200
    (lwp 2) asks for the mutex and blocks. *)
Definition contention : list (option call) :=
  [Some (CSetLwp 1); Some (CMutexInit 10 0); Some (CMutexEnter 10);
   Some (CCreate 200 65536 0 0 0 false); Some CSchedule; None; Some CSchedule; None;
   Some (CSetLwp 2); Some (CMutexEnter 10)].

End Script.

Module ThreadProperties.
Import Timespec Sched SchedFacts SchedInv MutexHold.

Section Properties.
Context {C : Type} `{Clock C}.
Implicit Types st : sched C.

(** C2. No wakeup is lost: in every reachable state a thread that waits (for a
    mutex, a read-write lock or a condition variable) is in the queue it waits
    in, or it has been woken and is runnable; and a free mutex with threads in
    its queue has a runnable thread on its way to take it. *)
Theorem no_lost_wakeup c0 st :
  reach c0 st ->
  (forall t k wh, konts st !! t = Some k -> waits_on k = Some wh ->
     (exists q, wq st wh = Some q /\ t ∈ q) \/ runnable st t) /\
  (forall m x, mtxs st !! m = Some x -> m_v x = 0 -> m_waiters x <> [] ->
     exists t, konts st !! t = Some (KMutexEnter m) /\ (t ∉ m_waiters x) /\ runnable st t).
Proof.
  intros [W M T]%reach_settled. split.
  - intros t k wh Hk Hwo. destruct (w_waiting _ _ W t k wh Hk Hwo) as [(_ & q & ? & ?)|[_ ?]]; [done|left; eauto|by right].
  - intros m x Hx Hv Hne. destruct (M m x Hx) as [_ Hz]. destruct (Hz Hv) as [?|[?|(t & _ & Hk & Hon)]]; [done..|].
    exists t. assert (wq st (WMtx m) = Some (m_waiters x)) as Hq by (cbn; by rewrite Hx).
    split_and!; [done| |].
    + intros Hin. destruct (w_queued _ _ W _ _ t Hq Hin) as (_ & ? & _). congruence.
    + destruct (w_waiting _ _ W t _ _ Hk eq_refl) as [[? _]|[_ ?]]; [done|congruence|done].
Qed.

(** C21. The scheduler is fair: a runnable thread with [n] threads in front of it
    in the list gets the processor before [n + 1] others do, whatever the
    threads that run in the meantime call. *)
Theorem bounded_bypass c0 u n st st' :
  reach c0 st -> u ∈ thread_list st -> runnable st u -> bypass u n st st' ->
  (n <= rank u (thread_list st))%nat.
Proof. intros Hre Hu Hr Hb. eapply bypass_bound; [done|by eapply reach_settled|done..]. Qed.

(** C25. [schedule]'s loop ends when some thread is runnable or waits for a time,
    and the threads the platform may wake are alive: with the time [k]
    milliseconds away it goes round at most [k + 2] times; and it picks the first
    thread that is runnable (perhaps because the platform has just woken it) or
    whose time has come, which moves to the end of the list. *)
Theorem schedule_picks_first_due k fuel st :
  polled st -> ready_within k st -> (k + 1 < fuel)%nat ->
  exists st1 t st' tm th l1 l2, schedule_loop fuel st = Ret (t, st') /\ picked st st1 t st' tm th l1 l2.
Proof. apply schedule_loop_ends. Qed.

(** C6. Mutual exclusion: while an lwp holds a mutex, the count and the owner
    stay as they are whatever threads of other lwps call (short of releasing a
    mutex they do not hold) and whichever of them the scheduler resumes; and a
    thread that waits for the mutex does not come back from its call. *)
Theorem mutex_exclusive c0 m l v st :
  reach c0 st -> held st m l v ->
  (forall c r st', konts st !! current_thread st = Some KRun -> exec c st = Ret (r, st') ->
     lwp_of st (current_thread st) <> Some l -> releases c <> Some m -> held st' m l v) /\
  (forall r st', exec (CMutexEnter m) st = Ret (r, st') ->
     lwp_of st (current_thread st) <> Some l -> r = Blocked) /\
  (forall fuel r st', schedule fuel st = Ret (r, st') -> lwp_of st (current_thread st') <> Some l ->
     held st' m l v /\ (forall w, r = Val w -> konts st !! current_thread st' <> Some (KMutexEnter m))).
Proof.
  intros Hre Hh. split_and!.
  - intros c r st' _ Hop Hl Hrel. pose proof Hh as [Hc Hv]. split; [|done].
    by rewrite (exec_core c m l v st r st' Hop (conj Hh Hl) Hrel).
  - intros r st' Hop Hl. by destruct (steady_mutex_enter m m l v st r st' Hop (conj Hh Hl)) as [_ ->].
  - intros fuel r st' Hop Hl.
    destruct (schedule_core fuel m l v st r st' Hop Hh (reach_settled _ _ Hre) Hl) as [Hc ?].
    split; [|done]. pose proof Hh as [? ?]. split; [congruence|done].
Qed.

(** C39. [cv_timedwait] tells a timeout from a signal: when the scheduler comes
    back to a thread in this call and the call returns, the value is ETIMEDOUT if
    the thread was still in the queue of the condition variable, and 0 if it had
    been taken off it. *)
Theorem timedwait_result c0 fuel cv m st r st' q :
  reach c0 st -> schedule fuel st = Ret (r, st') ->
  konts st !! current_thread st' = Some (KCvWait CvTimedwait cv m) -> wq st (WCv cv) = Some q ->
  r = Val (if decide (current_thread st' ∈ q) then ETIMEDOUT else 0).
Proof.
  intros Hs%reach_settled Hop Hk Hq. unfold schedule in Hop. inv_bind Hop. destruct a as [t st1].
  destruct (schedule_switch _ _ _ _ E Hs) as (Ht & st0 & x & W & Hx & -> & S0).
  set (st2 := upd_current_thread (fun _ => t) _) in *. pose proof S0 as S2.
  destruct (woken_quiet None _ _ W) as [_ Qk Qo Qw _ _ _ _]. clear W. rewrite <- Qk in Hk. rewrite <- Qw in Hq.
  assert (A2 : current_thread st2 ∈ thread_list st2) by (cbn; apply elem_of_app; right; by left).
  destruct (resume_inv _ _ _ Hop S2 A2) as (_ & Hcur & _ & _). cbn in Hcur. rewrite Hcur in Hk |- *.
  destruct (resume_start _ _ _ _ Hop S2 A2 Hk ltac:(done)) as (a & r1 & st3 & Hr & Sa & Hca & Hka & Hoa & Hwa & ->).
  cbn [resume_kont] in Hr. unfold cv_wait_leave in Hr. inv_bind Hr. destruct a0 as [rv st4]. destruct Sa as [W M _].
  destruct (wait_leave_inv _ _ _ _ _ E0 Hka eq_refl W M) as (_ & _ & _ & ->).
  do 2 inv_bind Hr. injection Hr as <- _. f_equal. apply decide_ext. change (current_thread st2) with t in Hca.
  change (onlist st2) with (onlist st0) in Hoa. rewrite Hca in *. rewrite Hoa.
  assert (wq a (WCv cv) = Some q) as Hqa by (rewrite Hwa; exact Hq). split.
  - intros Hon. destruct (w_waiting _ _ W _ _ _ Hka eq_refl) as [(_ & q' & ? & Hin)|[Hf _]]; [done|congruence|].
    rewrite Hoa in Hf. congruence.
  - intros Hin. destruct (w_queued _ _ W _ _ _ Hqa Hin) as (_ & Ho & _). by rewrite Hoa in Ho.
Qed.

(** [cv_signal] wakes the thread that has waited longest: it becomes
    runnable and leaves the queue, and nothing else changes in any queue. *)
Theorem cv_signal_wakes_first c0 cv st st' w q :
  reach c0 st -> wq st (WCv cv) = Some (w :: q) -> cv_signal cv st = Ret st' ->
  runnable st' w /\ konts st' = konts st /\
  (forall wh, wq st' wh = if decide (wh = WCv cv) then Some q else wq st wh) /\
  (forall t, t <> w -> onlist st' !! t = onlist st !! t) /\ onlist st' !! w = Some false.
Proof.
  intros [W _ _]%reach_settled Hq Hop. unfold cv_signal, wakeup_one in Hop. rewrite get_wq_eq, Hq in Hop.
  destruct (wake_first None (WCv cv) w q st st' Hq Hop W) as (_ & F & Hr & Ho & Hwq & _).
  split_and!; [done|apply F| | |by rewrite Ho, lookup_insert_eq].
  - intros wh. rewrite Hwq. repeat case_decide; congruence.
  - intros t Hne. by rewrite Ho, lookup_insert_ne.
Qed.

(** C35. A writer does not wait for readers: a read-write lock that readers hold
    is given to a writer that asks for it. *)
Theorem rw_writer_ignores_readers rw x l st :
  rws st !! rw = Some x -> rw_o x = 0 -> 0 < rw_v x -> curlwp st = Ret l ->
  exists st', rw_tryenter RW_WRITER rw st = Ret (0, st') /\
    rws st' !! rw = Some (Rw (rwait x) (wwait x) (rw_v x) l).
Proof.
  intros Hx Ho Hv Hl. unfold rw_tryenter, deref. rewrite Hx. cbn [mbind outcome_bind].
  change (RW_WRITER =? RW_WRITER) with true. cbn iota. rewrite Ho, Hl. cbn.
  eexists. split; [reflexivity|]. cbn. apply lookup_insert_eq.
Qed.

(** [cv_timedwait] with a time of zero does not return at once with
    ETIMEDOUT: it ends the program. *)
Theorem timedwait_zero_aborts cv m sec nsec st st1 st2 :
  cv_count 1 cv st = Ret st1 -> cv_unsched m st1 = Ret st2 -> sec * 1000 * 1000 * 1000 + nsec = 0 ->
  cv_timedwait cv m sec nsec st = Abort.
Proof.
  intros H1 H2 Hz. unfold cv_timedwait, cv_wait_enter. rewrite H1. cbn [mbind outcome_bind].
  rewrite H2. cbn [mbind outcome_bind]. by rewrite Hz.
Qed.

End Properties.

(** *** The properties at work on the spike target *)

Import Script.

Lemma no_lost_wakeup_witness :
  exists st, reach FakeClock.__platform_now st /\ konts st !! 200 = Some (KMutexEnter 10) /\
    ((exists q, wq st (WMtx 10) = Some q /\ 200 ∈ q) \/ runnable st 200).
Proof.
  exists (after contention). split; [apply after_reach|].
  assert (konts (after contention) !! 200 = Some (KMutexEnter 10)) as Hk by (vm_compute; reflexivity).
  split; [exact Hk|]. apply (proj1 (no_lost_wakeup _ _ (after_reach contention)) 200 _ (WMtx 10) Hk). reflexivity.
Defined.

(** Thread 200 has been made runnable and is second in the list. *)
Definition two_threads : list (option call) :=
  [Some (CCreate 200 65536 0 0 0 false); Some CSchedule].

Lemma bounded_bypass_witness :
  exists st', bypass 200 1 (after two_threads) st' /\ (1 <= rank 200 (thread_list (after two_threads)))%nat.
Proof.
  assert (match schedule 10 (after two_threads) with Ret (_, st) => current_thread st =? 100 | _ => false end = true)
    as Hv by (vm_compute; reflexivity).
  destruct (schedule 10 (after two_threads)) as [[r st1]| | |] eqn:E; try discriminate Hv. apply Z.eqb_eq in Hv.
  assert (Hb : bypass 200 1 (after two_threads) st1).
  { eapply (bypass_schedule 200 0 10); [vm_compute; discriminate|exact E|rewrite Hv; discriminate|].
    apply bypass_nil. rewrite Hv. discriminate. }
  exists st1. split; [exact Hb|].
  apply (bounded_bypass FakeClock.__platform_now 200 1 _ st1 (after_reach two_threads)); [| |exact Hb].
  - apply (bool_decide_unpack _). vm_compute. exact I.
  - exists (Thread 0 0 (-1) 65536 1). split; vm_compute; reflexivity.
Defined.

Lemma schedule_picks_first_due_witness :
  exists st1 t st' tm th l1 l2, schedule_loop 10 (after two_threads) = Ret (t, st') /\
    picked (after two_threads) st1 t st' tm th l1 l2.
Proof.
  apply (schedule_picks_first_due 0 10).
  - split.
    + split; vm_compute; [discriminate|reflexivity].
    + intros t Ht. apply (t_dom _ (s_tinv _ (reach_settled _ _ (after_reach two_threads)))), elem_of_app. left. exact Ht.
    + intros w Hw. inversion Hw.
  - exists 200, (Thread 0 0 (-1) 65536 1). split_and!; [|vm_compute; reflexivity|left; vm_compute; reflexivity].
    apply (bool_decide_unpack _). vm_compute. exact I.
  - lia.
Defined.

Lemma mutex_exclusive_witness :
  exists st r st', reach FakeClock.__platform_now st /\ held st 10 1 1 /\
    exec (CMutexEnter 10) st = Ret (r, st') /\ r = Blocked /\ held st' 10 1 1.
Proof.
  set (st := after (take 9 contention)).
  assert (Hh : held st 10 1 1) by (split; vm_compute; reflexivity).
  assert (Hl : lwp_of st (current_thread st) <> Some 1) by (vm_compute; discriminate).
  assert (Hk : konts st !! current_thread st = Some KRun) by (vm_compute; reflexivity).
  assert (match exec (CMutexEnter 10) st with Ret _ => true | _ => false end = true) as Hv by (vm_compute; reflexivity).
  destruct (exec (CMutexEnter 10) st) as [[r st']| | |] eqn:E; try discriminate Hv. exists st, r, st'.
  destruct (mutex_exclusive _ 10 1 1 st (after_reach (take 9 contention)) Hh) as (H1 & H2 & _).
  split; [apply after_reach|]. split; [exact Hh|]. split; [exact E|]. split; [exact (H2 r st' E Hl)|].
  apply (H1 (CMutexEnter 10) r st' Hk E Hl). discriminate.
Defined.

(** Thread 100 waits five milliseconds for a signal that does not come. *)
Definition timeout : list (option call) :=
  [Some (CSetLwp 1); Some (CMutexInit 10 0); Some (CCvInit 20); Some (CMutexEnter 10); Some (CCvTimedwait 20 10 0 5000000)].

Lemma timedwait_result_witness :
  exists st', schedule 10 (after timeout) = Ret (Val ETIMEDOUT, st') /\ current_thread st' = 100.
Proof.
  assert (match schedule 10 (after timeout) with Ret (_, st) => current_thread st =? 100 | _ => false end = true)
    as Hv by (vm_compute; reflexivity).
  destruct (schedule 10 (after timeout)) as [[r st1]| | |] eqn:E; try discriminate Hv. apply Z.eqb_eq in Hv.
  exists st1. split; [|exact Hv]. do 2 f_equal.
  assert (Hr := timedwait_result _ 10 20 10 (after timeout) r st1 [100] (after_reach timeout) E).
  rewrite Hv in Hr. rewrite decide_True in Hr by (by left). apply Hr; vm_compute; reflexivity.
Defined.

(** Thread 200 waits on the condition variable, and thread 100 runs again. *)
Definition waiting : list (option call) :=
  [Some (CSetLwp 1); Some (CMutexInit 10 0); Some (CCvInit 20); Some (CCreate 200 65536 0 0 0 false);
   Some CSchedule; None; Some CSchedule; None;
   Some (CSetLwp 2); Some (CMutexEnter 10); Some (CCvWait 20 10); None].

Lemma cv_signal_wakes_first_witness :
  exists st', cv_signal 20 (after waiting) = Ret st' /\ runnable st' 200.
Proof.
  assert (match cv_signal 20 (after waiting) with Ret _ => true | _ => false end = true) as Hv by (vm_compute; reflexivity).
  destruct (cv_signal 20 (after waiting)) as [st1| | |] eqn:E; try discriminate Hv. exists st1. split; [reflexivity|].
  apply (cv_signal_wakes_first _ 20 (after waiting) st1 200 [] (after_reach waiting)); [vm_compute; reflexivity|exact E].
Defined.

Lemma rw_writer_ignores_readers_witness :
  exists st', rw_tryenter RW_WRITER 30 (after [Some (CSetLwp 1); Some (CRwInit 30); Some (CRwEnter RW_READER 30)])
              = Ret (0, st') /\ rws st' !! 30 = Some (Rw [] [] 1 1).
Proof. apply (rw_writer_ignores_readers 30 (Rw [] [] 1 0) 1); vm_compute; reflexivity. Defined.

Lemma timedwait_zero_aborts_witness :
  cv_timedwait 20 10 0 0 (after (take 4 timeout)) = Abort.
Proof.
  assert (match (st ← cv_count 1 20 (after (take 4 timeout)); cv_unsched 10 st) with Ret _ => true | _ => false end = true)
    as Hv by (vm_compute; reflexivity).
  destruct (cv_count 1 20 (after (take 4 timeout))) as [st1| | |] eqn:E1; try discriminate Hv.
  cbn [mbind outcome_bind] in Hv. destruct (cv_unsched 10 st1) as [st2| | |] eqn:E2; try discriminate Hv.
  exact (timedwait_zero_aborts 20 10 0 0 _ st1 st2 E1 E2 eq_refl).
Defined.

(** The comment in [mutex_enter_nowrap] (one processor and no preemption, so
    the mutex must be free) does not hold for a thread that comes back from
    [cv_wait]: there is a reachable state in which the signalling thread gave up
    the processor with the mutex held, and the next [schedule] aborts. *)
Theorem cv_wait_can_abort :
  exists st, reach FakeClock.__platform_now st /\ schedule 10 st = Abort /\
    konts st !! 200 = Some (KCvWait CvWait 20 10) /\ held st 10 1 1.
Proof.
  exists (after (waiting ++ [Some (CMutexEnter 10); Some (CCvSignal 20); Some CSchedule])).
  split; [apply after_reach|]. split; [vm_compute; reflexivity|]. split; [vm_compute; reflexivity|].
  split; vm_compute; reflexivity.
Qed.

End ThreadProperties.
