(* ===== verification/Fdtable.v ===== *)
(** * The descriptor table and the Linux host

    [franken/init/init.h] declares [__franken_fd], the table of the descriptors
    the program was started with.  [platform/linux] fills and reads it: [fstat]
    classifies a descriptor, [__libc_start_main] collects the ones that carry
    network traffic, and [clock_nanosleep] and [poll] sleep on those.  The host
    kernel is not part of the program: its answers are the fields of [host]. *)

From S2P Require Import Prelude Platform.
From Stdlib Require Import ZArith Lia.
From stdpp Require Import base numbers list.
Local Open Scope Z_scope.

(** ** The table (init.h) *)

Module FdTable.

(** struct stat (platform/include/sys/stat.h). *)
Record stat : Type := Stat { st_mode : Z; st_size : Z; st_hwaddr : list Z }.

Definition S_IFMT : Z := 61440.    (* 0170000 *)
Definition S_IFIFO : Z := 4096.    (* 0010000 *)
Definition S_IFCHR : Z := 8192.    (* 0020000 *)
Definition S_IFDIR : Z := 16384.   (* 0040000 *)
Definition S_IFBLK : Z := 24576.   (* 0060000 *)
Definition S_IFREG : Z := 32768.   (* 0100000 *)
Definition S_IFLNK : Z := 40960.   (* 0120000 *)
Definition S_IFSOCK : Z := 49152.  (* 0140000 *)

(** What [memset] to 0 leaves. *)
Definition stat0 : stat := Stat 0 0 (repeat 0 6).

Definition MAXFD : Z := 64.

(** struct __fdtable. *)
Record fdent : Type := Fdent {
  valid : Z;
  mem_ : Z;
  flags : Z;
  seek : Z;
  st : stat;
  wake : Z;
  mounted : Z;
  hasaddr : Z;
  addr : Z;
  netmask : Z;
  broadcast : Z;
  gateway : Z;
}.

Definition set_valid v e := Fdent v (mem_ e) (flags e) (seek e) (st e) (wake e) (mounted e) (hasaddr e) (addr e) (netmask e) (broadcast e) (gateway e).
Definition set_fl f e := Fdent (valid e) (mem_ e) f (seek e) (st e) (wake e) (mounted e) (hasaddr e) (addr e) (netmask e) (broadcast e) (gateway e).
Definition set_seek s e := Fdent (valid e) (mem_ e) (flags e) s (st e) (wake e) (mounted e) (hasaddr e) (addr e) (netmask e) (broadcast e) (gateway e).
Definition set_st s e := Fdent (valid e) (mem_ e) (flags e) (seek e) s (wake e) (mounted e) (hasaddr e) (addr e) (netmask e) (broadcast e) (gateway e).
Definition set_wake w e := Fdent (valid e) (mem_ e) (flags e) (seek e) (st e) w (mounted e) (hasaddr e) (addr e) (netmask e) (broadcast e) (gateway e).
Definition set_mounted m e := Fdent (valid e) (mem_ e) (flags e) (seek e) (st e) (wake e) m (hasaddr e) (addr e) (netmask e) (broadcast e) (gateway e).

Definition fdent0 : fdent := Fdent 0 0 0 0 stat0 0 0 0 0 0 0 0.

(** [struct __fdtable __franken_fd[MAXFD]], zero at the start.  An index outside
    the array is undefined behaviour. *)
Abbreviation fdtab := (list fdent).
Definition __franken_fd : fdtab := replicate 64 fdent0.

Definition fd_get (fd : Z) (t : fdtab) : outcome fdent :=
  if 0 <=? fd then match t !! Z.to_nat fd with Some e => Ret e | None => UB end else UB.

Definition fd_upd (fd : Z) (f : fdent -> fdent) (t : fdtab) : outcome fdtab :=
  e ← fd_get fd t; Ret (<[Z.to_nat fd := f e]> t).

(** [franken_recv_thread] (fdinit.c). *)
Definition franken_recv_thread (fd thrid : Z) (t : fdtab) : outcome fdtab := fd_upd fd (set_wake thrid) t.

End FdTable.

(** ** The Linux platform *)

Module LinuxHost.
Import FdTable Timespec.

Record linux_stat : Type := LStat { l_size : Z; l_mode : Z; l_rdev : Z }.

(** The answers of the host: [None] when the system call fails.  An interface
    is named by a list of bytes. *)
Record host : Type := Host {
  sys_fstat : Z -> option linux_stat;
  getsockname : Z -> option (Z * Z);              (* sll_family, sll_ifindex *)
  ioctl_gifname : Z -> Z -> option (list Z);      (* SIOCGIFNAME fd ifindex *)
  ioctl_gifhwaddr : Z -> list Z -> option (list Z);  (* SIOCGIFHWADDR fd name *)
  ioctl_tungetiff : Z -> option (list Z * Z);     (* name, flags *)
  ioctl_blkgetsize64 : Z -> option Z;
}.

Definition AF_PACKET : Z := 17.
Definition IFF_VNET_HDR : Z := 16384.
Definition POLLIN : Z := 1.
Definition POLLPRI : Z := 2.

Definition makedev (x y : Z) : Z :=
  Z.lor (Z.lor (Z.lor (u64 (Z.shiftl (Z.land x 4294963200) 32)) (u64 (Z.shiftl (Z.land x 4095) 8)))
               (u64 (Z.shiftl (Z.land y 4294967040) 12))) (Z.land y 255).

Definition major (x : Z) : Z :=
  u32 (Z.lor (Z.land (Z.shiftr (Z.shiftr x 31) 1) 4294963200) (Z.land (Z.shiftr x 8) 4095)).

(** The test that a character device may be a tun or macvtap device. *)
Definition maybe_tap (rdev : Z) : bool :=
  negb (negb (rdev =? makedev 10 200) && (major rdev <? 138)).

(** The translation of the file type at the end of [fstat]. *)
Definition st_mode_of (mode : Z) : Z :=
  let has k := Z.land mode S_IFMT =? k in
  Z.lor (Z.lor (Z.lor (Z.lor (Z.lor (Z.lor
    (if has S_IFDIR then S_IFDIR else 0) (if has S_IFCHR then S_IFCHR else 0))
    (if has S_IFBLK then S_IFBLK else 0)) (if has S_IFREG then S_IFREG else 0))
    (if has S_IFIFO then S_IFIFO else 0)) (if has S_IFLNK then S_IFLNK else 0))
    (if has S_IFSOCK then S_IFSOCK else 0).

(** fstat.c: the return value, [errno] if it is set, and the buffer. *)
Definition fstat (h : host) (__platform_socket_fd : Z) (t : fdtab) (fd : Z) (s : stat) :
    outcome (Z * option Z * stat) :=
  match sys_fstat h fd with
  | None => Ret (-1, Some EBADF, s)
  | Some lst =>
      let s := Stat (st_mode s) (l_size lst) (st_hwaddr s) in
      let kind := Z.land (l_mode lst) S_IFMT in
      let finish mode (s : stat) := Ret (0, None, Stat (st_mode_of mode) (st_size s) (st_hwaddr s)) in
      let hw (o : option (list Z)) (s : stat) :=
        match o with Some a => Stat (st_mode s) (st_size s) (take 6 a) | None => s end in
      if kind =? S_IFSOCK then
        match getsockname h fd with
        | Some (family, ifindex) =>
            if family =? AF_PACKET then
              let name := default [] (ioctl_gifname h fd ifindex) in
              finish (l_mode lst) (hw (ioctl_gifhwaddr h fd name) s)
            else finish 0 s
        | None => finish 0 s
        end
      else if kind =? S_IFBLK then
        match ioctl_blkgetsize64 h fd with
        | Some n => finish (l_mode lst) (Stat (st_mode s) n (st_hwaddr s))
        | None => finish (l_mode lst) s
        end
      else if kind =? S_IFCHR then
        if negb (maybe_tap (l_rdev lst)) then finish (l_mode lst) s
        else
          match ioctl_tungetiff h fd with
          | Some (name, _) =>
              let o := ioctl_gifhwaddr h fd name in
              let o := match o with
                       | None => if negb (__platform_socket_fd =? -1)
                                 then ioctl_gifhwaddr h __platform_socket_fd name else None
                       | Some a => Some a
                       end in
              finish S_IFSOCK (hw o s)
          | None => finish (l_mode lst) s
          end
      else if kind =? S_IFREG then
        e ← fd_get fd t;
        if mounted e =? 1
        then finish (Z.lor (Z.land (l_mode lst) (Z.lnot S_IFMT)) S_IFBLK) s
        else finish (l_mode lst) s
      else finish (l_mode lst) s
  end.

Record pollfd : Type := Pollfd { pfd : Z; events : Z; revents : Z }.

(** The globals of __libc_start_main.c. *)
Record platform : Type := Plat {
  random_fd : Z;              (* __platform_random_fd *)
  socket_fd : Z;              (* __platform_socket_fd *)
  npoll : Z;                  (* __platform_npoll *)
  pollfds : list pollfd;      (* __platform_pollfd *)
  tunset : list (Z * Z);      (* the TUNSETIFF calls: descriptor, flags *)
}.

Definition plat0 : platform := Plat (-1) (-1) 0 (replicate 64 (Pollfd 0 0 0)) [].

(** [__platform_pollfd[__platform_npoll]] is filled and the count advanced. *)
Definition add_poll (fd : Z) (p : platform) : outcome platform :=
  if (0 <=? npoll p) && (npoll p <? MAXFD) then
    Ret (Plat (random_fd p) (socket_fd p) (npoll p + 1)
           (alter (fun x => Pollfd fd (Z.lor POLLIN POLLPRI) (revents x)) (Z.to_nat (npoll p)) (pollfds p))
           (tunset p))
  else UB.

(** The body of the loop over the descriptors. *)
Definition scan_fd (h : host) (fd : Z) (lst : linux_stat) (p : platform) : outcome platform :=
  let kind := Z.land (l_mode lst) S_IFMT in
  if kind =? S_IFSOCK then
    let p := Plat (random_fd p) fd (npoll p) (pollfds p) (tunset p) in
    match getsockname h fd with
    | Some (family, _) => if family =? AF_PACKET then add_poll fd p else Ret p
    | None => Ret p
    end
  else if kind =? S_IFCHR then
    if l_rdev lst =? makedev 1 9 then
      Ret (Plat fd (socket_fd p) (npoll p) (pollfds p) (tunset p))
    else if negb (maybe_tap (l_rdev lst)) then Ret p
    else
      match ioctl_tungetiff h fd with
      | Some (_, fl) =>
          let p := if negb (Z.land fl IFF_VNET_HDR =? 0)
                   then Plat (random_fd p) (socket_fd p) (npoll p) (pollfds p)
                          (tunset p ++ [(fd, Z.land fl (Z.lnot IFF_VNET_HDR))])
                   else p in
          add_poll fd p
      | None => Ret p
      end
  else Ret p.

(** [for (fd = 0; fd < MAXFD; fd++)], on the [k] descriptors from [fd] on. *)
Fixpoint scan_fds (h : host) (k : nat) (fd : Z) (p : platform) : outcome platform :=
  match k with
  | O => Ret p
  | S k =>
      match sys_fstat h fd with
      | None => Ret p
      | Some lst => p ← scan_fd h fd lst p; scan_fds h k (fd + 1) p
      end
  end.

Definition AUX_CNT : Z := 64.
Definition AT_PAGESZ : Z := 6.
Definition AT_RANDOM : Z := 25.
Definition AT_PARENT_SYSCALL : Z := 52.

(** The auxiliary vector: pairs of words up to a zero tag. *)
Fixpoint read_auxv (auxv : list (Z * Z)) (aux : list Z) : list Z :=
  match auxv with
  | [] => aux
  | (tag, v) :: auxv =>
      if tag =? 0 then aux
      else read_auxv auxv (if tag <? AUX_CNT then <[Z.to_nat tag := v]> aux else aux)
  end.

Definition aux_get (aux : list Z) (tag : Z) : Z := default 0 (aux !! Z.to_nat tag).

(** What [__libc_start_main] hands on: a forked child goes to [main] at once. *)
Inductive started : Type :=
  | Child (parent_syscall : Z)
  | Parent (pagesize random : Z) (p : platform).

Definition __libc_start_main (h : host) (auxv : list (Z * Z)) : outcome started :=
  let aux := read_auxv auxv (replicate 64 0) in
  if negb (aux_get aux AT_PARENT_SYSCALL =? 0) then Ret (Child (aux_get aux AT_PARENT_SYSCALL))
  else
    p ← scan_fds h 64 0 plat0;
    Ret (Parent (aux_get aux AT_PAGESZ) (aux_get aux AT_RANDOM) p).

(** *** Sleeping *)

Definition CLOCK_REALTIME : Z := 0.
Definition CLOCK_MONOTONIC : Z := 3.

Definition lid_of (clk_id : Z) : option Z :=
  if clk_id =? CLOCK_REALTIME then Some 0 else if clk_id =? CLOCK_MONOTONIC then Some 1 else None.

(** clock_gettime.c and clock_getres.c; [sys] is the system call (or its vdso),
    [None] when it fails. *)
Definition clock_gettime (sys : Z -> option timespec) (clk_id : Z) : Z * option Z * option timespec :=
  match lid_of clk_id with
  | None => (-1, Some EINVAL, None)
  | Some lid => match sys lid with None => (-1, Some EINVAL, None) | Some t => (0, None, Some t) end
  end.

Definition clock_getres := clock_gettime.

(** The end of [clock_nanosleep]: the threads woken, in order, for the first
    [n] entries of [__platform_pollfd]. *)
Fixpoint wake_ready (t : fdtab) (ps : list pollfd) : outcome (list Z) :=
  match ps with
  | [] => Ret []
  | p :: ps =>
      w ← (if negb (revents p =? 0) then
             e ← fd_get (pfd p) t;
             Ret (if negb (wake e =? 0) then [wake e] else [])
           else Ret []);
      ws ← wake_ready t ps;
      Ret (w ++ ws)
  end.

(** clock_nanosleep.c.  [readings] are the clock's for the busy wait, [sleep]
    and [ppoll] the two system calls; [remain] is the caller's pointer.  The
    result is the return value, [errno], the poll array and the threads woken. *)
Definition clock_nanosleep (fuel : nat) (readings : nat -> option timespec)
    (sleep : Z -> timespec -> Z) (ppoll : list pollfd -> timespec -> Z * list pollfd)
    (clk_id flags : Z) (request : timespec) (remain : Z) (p : platform) (t : fdtab) :
    outcome (Z * option Z * list pollfd * list Z) :=
  if negb (flags =? 0) || negb (remain =? 0) then Ret (-1, Some EINVAL, pollfds p, [])
  else
    match lid_of clk_id with
    | None => Ret (-1, Some EINVAL, pollfds p, [])
    | Some lid =>
        if npoll p =? 0 then
          ns ← int64 (tv_sec request * Linux.NSEC_PER_SEC + tv_nsec request);
          if ns <? Linux.MIN_SLEEP_INTERVAL_NSEC then
            '(r, e, _) ← Linux.sleep_fast_path fuel readings request;
            Ret (r, e, pollfds p, [])
          else if negb (sleep lid request =? 0) then Ret (-1, Some EINVAL, pollfds p, [])
          else Ret (0, None, pollfds p, [])
        else
          let '(r, ps) := ppoll (pollfds p) request in
          if r =? -1 then Ret (-1, Some EINVAL, ps, [])
          else if r =? 0 then Ret (0, None, ps, [])
          else
            ws ← wake_ready t (take (Z.to_nat (npoll p)) ps);
            Ret (0, None, ps, ws)
    end.

(** poll.c: the inner loop, over the caller's array. *)
Fixpoint poll_match (q : pollfd) (fds : list pollfd) (ret : Z) : list pollfd * Z :=
  match fds with
  | [] => ([], ret)
  | f :: fds =>
      let '(f, ret) := if pfd q =? pfd f then (Pollfd (pfd f) (events f) (revents q), ret + 1) else (f, ret) in
      let '(fds, ret) := poll_match q fds ret in
      (f :: fds, ret)
  end.

Fixpoint poll_ready (qs : list pollfd) (fds : list pollfd) (ret : Z) : list pollfd * Z :=
  match qs with
  | [] => (fds, ret)
  | q :: qs =>
      if negb (revents q =? 0)
      then let '(fds, ret) := poll_match q fds ret in poll_ready qs fds ret
      else poll_ready qs fds ret
  end.

(** The time [poll] sleeps for. *)
Definition poll_time (timeout : Z) : timespec :=
  if 0 <? timeout then TS (Z.quot timeout 1000) (Z.rem timeout 1000 * (1000 * 1000)) else TS 10 0.

(** [sys_poll] is the system call; [after] is [__platform_pollfd] when
    [clock_sleep] comes back from the time given to it. *)
Definition poll (sys_poll : list pollfd -> Z * list pollfd) (after : timespec -> platform)
    (fds : list pollfd) (timeout : Z) : Z * list pollfd :=
  if timeout =? 0 then sys_poll fds
  else
    let p := after (poll_time timeout) in
    let '(fds, ret) := poll_ready (take (Z.to_nat (npoll p)) (pollfds p)) fds 0 in
    (ret, fds).

End LinuxHost.

(** ** Facts *)

Module HostFacts.
Import FdTable LinuxHost Timespec.

(** The descriptors the start-up code looks at: it stops at the first closed one. *)
Fixpoint scanned_fds (h : host) (k : nat) (fd : Z) : list Z :=
  match k with
  | O => []
  | S k => match sys_fstat h fd with None => [] | Some _ => fd :: scanned_fds h k (fd + 1) end
  end.

(** A packet socket, or a tun or macvtap device. *)
Definition carries_net (h : host) (fd : Z) : bool :=
  match sys_fstat h fd with
  | None => false
  | Some lst =>
      let kind := Z.land (l_mode lst) S_IFMT in
      if kind =? S_IFSOCK then
        match getsockname h fd with Some (family, _) => family =? AF_PACKET | None => false end
      else (kind =? S_IFCHR) && maybe_tap (l_rdev lst) &&
           match ioctl_tungetiff h fd with Some _ => true | None => false end
  end.

(** [fstat] succeeds and calls the descriptor a socket. *)
Definition reports_socket (h : host) (sfd : Z) (t : fdtab) (fd : Z) : bool :=
  match fstat h sfd t fd stat0 with
  | Ret (0, _, s) => st_mode s =? S_IFSOCK
  | _ => false
  end.

Lemma st_mode_of_sock mode : (st_mode_of mode =? S_IFSOCK) = (Z.land mode S_IFMT =? S_IFSOCK).
Proof.
  unfold st_mode_of. generalize (Z.land mode S_IFMT). intros k.
  repeat match goal with
  | |- context [if k =? ?c then _ else _] => destruct (Z.eqb_spec k c) as [->|]; [reflexivity|]
  end.
  reflexivity.
Qed.

Lemma fd_get_some fd t : 0 <= fd < Z.of_nat (length t) -> exists e, fd_get fd t = Ret e.
Proof.
  intros Hfd. unfold fd_get. case_cmp; [|lia].
  destruct (lookup_lt_is_Some_2 t (Z.to_nat fd) ltac:(lia)) as [e ->]. by exists e.
Qed.

(** A masked mode keeps its type. *)
Lemma land_lor_blk mode : Z.land (Z.lor (Z.land mode (Z.lnot S_IFMT)) S_IFBLK) S_IFMT = S_IFBLK.
Proof.
  rewrite Z.land_lor_distr_l, <- Z.land_assoc, (Z.land_comm (Z.lnot S_IFMT)), Z.land_lnot_diag, Z.land_0_r.
  done.
Qed.

Lemma reports_socket_eq h sfd t fd :
  0 <= fd < Z.of_nat (length t) -> reports_socket h sfd t fd = carries_net h fd.
Proof.
  intros Hfd. destruct (fd_get_some fd t Hfd) as [e He].
  unfold reports_socket, carries_net, fstat. destruct (sys_fstat h fd) as [lst|]; [|done].
  cbn [st_mode st_size st_hwaddr]. destruct (Z.land (l_mode lst) S_IFMT =? S_IFSOCK) eqn:Es.
  { destruct (getsockname h fd) as [[fam idx]|]; [|done].
    destruct (fam =? AF_PACKET); cbn [st_mode]; rewrite st_mode_of_sock; [done|done]. }
  destruct (Z.land (l_mode lst) S_IFMT =? S_IFBLK) eqn:Eb.
  { to_prop. rewrite Eb. destruct (ioctl_blkgetsize64 h fd); cbn [st_mode]; by rewrite st_mode_of_sock, Eb. }
  destruct (Z.land (l_mode lst) S_IFMT =? S_IFCHR) eqn:Ec; cbn [andb].
  { destruct (maybe_tap (l_rdev lst)); cbn [negb andb].
    - destruct (ioctl_tungetiff h fd) as [[nm fl]|]; cbn [st_mode]; rewrite st_mode_of_sock; [done|by rewrite Es].
    - cbn [st_mode]. by rewrite st_mode_of_sock, Es. }
  destruct (Z.land (l_mode lst) S_IFMT =? S_IFREG) eqn:Er.
  - rewrite He. cbn [mbind outcome_bind]. destruct (mounted e =? 1); cbn [st_mode]; rewrite st_mode_of_sock.
    + by rewrite land_lor_blk.
    + by rewrite Es.
  - cbn [st_mode]. by rewrite st_mode_of_sock, Es.
Qed.

(** What the scan has collected: [l] is in the poll array. *)
Definition polls (p : platform) (l : list Z) : Prop :=
  npoll p = Z.of_nat (length l) /\ length (pollfds p) = 64%nat /\
  take (length l) (pollfds p) = map (fun fd => Pollfd fd (Z.lor POLLIN POLLPRI) 0) l /\
  forall i q, (length l <= i)%nat -> pollfds p !! i = Some q -> revents q = 0.

Lemma polls_plat0 : polls plat0 [].
Proof.
  split_and!; try done. intros i q _ Hq. apply lookup_replicate in Hq as [-> _]. done.
Qed.

Lemma add_poll_spec p l fd :
  polls p l -> (length l < 64)%nat -> exists p', add_poll fd p = Ret p' /\ polls p' (l ++ [fd]).
Proof.
  intros (Hn & Hlen & Ht & Hr) Hl. unfold add_poll. rewrite Hn.
  case_cmp; [|unfold MAXFD in *; apply andb_false_iff in E as [E|E]; to_prop; lia].
  eexists; split; [done|].
  destruct (lookup_lt_is_Some_2 (pollfds p) (length l) ltac:(lia)) as [q Hq].
  split_and!; cbn [npoll pollfds].
  - rewrite length_app; cbn; lia.
  - by rewrite length_alter.
  - rewrite Nat2Z.id, length_app, Nat.add_1_r, map_app. cbn [map].
    erewrite take_S_r; [|rewrite list_lookup_alter_eq, Hq; done].
    rewrite take_alter, Ht by lia. rewrite decide_False by lia.
    by rewrite (Hr (length l) q) by done.
  - intros i q' Hi. rewrite length_app in Hi. cbn in Hi. rewrite list_lookup_alter_ne by lia. apply Hr. lia.
Qed.

Lemma polls_other p l rfd sfd ts :
  polls p l -> polls (Plat rfd sfd (npoll p) (pollfds p) ts) l.
Proof. done. Qed.
#[export] Hint Resolve polls_other : core.

Lemma makedev_urandom : maybe_tap (makedev 1 9) = false.
Proof. reflexivity. Qed.

Lemma scan_fd_spec h fd lst p l :
  sys_fstat h fd = Some lst -> polls p l -> (length l < 64)%nat ->
  exists p', scan_fd h fd lst p = Ret p' /\ polls p' (l ++ (if carries_net h fd then [fd] else [])).
Proof.
  intros Hs Hp Hl. unfold scan_fd, carries_net. rewrite Hs.
  destruct (Z.land (l_mode lst) S_IFMT =? S_IFSOCK) eqn:Ek.
  { destruct (getsockname h fd) as [[fam idx]|]; [|rewrite app_nil_r; eauto].
    destruct (fam =? AF_PACKET); [|rewrite app_nil_r; eauto]. apply add_poll_spec; auto. }
  destruct (Z.land (l_mode lst) S_IFMT =? S_IFCHR) eqn:Ec; cbn [andb]; [|rewrite app_nil_r; eauto].
  destruct (l_rdev lst =? makedev 1 9) eqn:Er.
  { to_prop. rewrite Er, makedev_urandom. cbn [andb]. rewrite app_nil_r. eauto. }
  destruct (maybe_tap (l_rdev lst)); cbn [negb andb]; [|rewrite app_nil_r; eauto].
  destruct (ioctl_tungetiff h fd) as [[nm fl]|]; [|rewrite app_nil_r; eauto].
  case_cmp; apply add_poll_spec; auto.
Qed.

Lemma scan_fds_spec h k fd p l :
  polls p l -> (length l + k <= 64)%nat ->
  exists p', scan_fds h k fd p = Ret p' /\ polls p' (l ++ filter (carries_net h) (scanned_fds h k fd)).
Proof.
  induction k as [|k IH] in fd, p, l |- *; intros Hp Hk; cbn [scan_fds scanned_fds].
  { rewrite app_nil_r. eauto. }
  destruct (sys_fstat h fd) as [lst|] eqn:Es; [|rewrite app_nil_r; eauto].
  destruct (scan_fd_spec h fd lst p l Es Hp ltac:(lia)) as (p1 & -> & Hp1). cbn [mbind outcome_bind].
  destruct (IH (fd + 1) p1 _ Hp1) as (p2 & -> & Hp2).
  { rewrite length_app. case_cmp; cbn; lia. }
  exists p2. split; [done|]. rewrite <- app_assoc in Hp2. rewrite filter_cons.
  destruct (carries_net h fd) eqn:Ec; case_decide as Hd; rewrite ?Ec in Hd; try done; exfalso; by apply Hd.
Qed.

Lemma filter_ext_in {A} (P Q : A -> Prop) `{!forall x, Decision (P x)} `{!forall x, Decision (Q x)} (l : list A) :
  (forall x, x ∈ l -> P x <-> Q x) -> filter P l = filter Q l.
Proof.
  induction l as [|x l IH]; intros Hl; [done|]. rewrite !filter_cons.
  specialize (Hl x ltac:(left)) as Hx. rewrite IH by (intros y Hy; apply Hl; by right).
  repeat case_decide; tauto || done.
Qed.

(** The descriptor is open, and so are all below it. *)
Definition no_gap (h : host) (fd : Z) : bool := forallb (fun d => bool_decide (is_Some (sys_fstat h d))) (seqZ 0 (fd + 1)).

Lemma no_gap_iff h fd : no_gap h fd = true <-> forall d, 0 <= d <= fd -> is_Some (sys_fstat h d).
Proof.
  unfold no_gap. rewrite forallb_forall. split.
  - intros H d Hd. apply (bool_decide_eq_true _), H, list_elem_of_In, elem_of_seqZ. lia.
  - intros H d Hd%list_elem_of_In%elem_of_seqZ. apply bool_decide_eq_true, H. lia.
Qed.

Lemma scanned_fds_no_gap h k : forall fd, 0 <= fd -> (forall d, 0 <= d < fd -> is_Some (sys_fstat h d)) ->
  scanned_fds h k fd = filter (fun d => no_gap h d = true) (seqZ fd (Z.of_nat k)).
Proof.
  induction k as [|k IH]; intros fd H0 Hbelow; cbn [scanned_fds]; [done|].
  rewrite seqZ_cons by lia. rewrite <- Nat2Z.inj_pred by lia. cbn [Nat.pred]. rewrite filter_cons.
  destruct (sys_fstat h fd) as [lst|] eqn:E.
  - rewrite decide_True.
    + f_equal. apply IH; [lia|]. intros d Hd. destruct (decide (d = fd)) as [->|]; [by eexists|apply Hbelow; lia].
    + apply no_gap_iff. intros d Hd. destruct (decide (d = fd)) as [->|]; [by eexists|apply Hbelow; lia].
  - assert (Hno : forall x, fd <= x -> no_gap h x <> true).
    { intros x Hx Hg. rewrite no_gap_iff in Hg. destruct (Hg fd ltac:(lia)). congruence. }
    rewrite decide_False by (by apply Hno). destruct (filter _ _) as [|x l] eqn:Ef; [done|].
    assert (Hx : x ∈ filter (fun d => no_gap h d = true) (seqZ (Z.succ fd) (Z.of_nat k))) by (rewrite Ef; by left).
    apply list_elem_of_filter in Hx as [Hg Hx%elem_of_seqZ]. destruct (Hno x); [lia|done].
Qed.

(** *** Waking and polling *)

Lemma wake_ready_spec t ps :
  Forall (fun q => 0 <= pfd q < Z.of_nat (length t)) ps ->
  exists ws, wake_ready t ps = Ret ws /\
    forall w, w ∈ ws <-> exists q e, q ∈ ps /\ revents q <> 0 /\
      t !! Z.to_nat (pfd q) = Some e /\ wake e = w /\ w <> 0.
Proof.
  induction 1 as [|q ps Hq _ (ws & Hws & IH)]; cbn [wake_ready].
  { exists []. split; [done|]. intros w. split; [by intros ?%elem_of_nil|].
    intros (q & e & H & _). by apply elem_of_nil in H. }
  destruct (lookup_lt_is_Some_2 t (Z.to_nat (pfd q)) ltac:(lia)) as [e He].
  assert (Hg : fd_get (pfd q) t = Ret e) by (unfold fd_get; case_cmp; [by rewrite He|lia]).
  assert (Hrest : forall w, (w ∈ ws) ->
    exists q' e', (q' ∈ q :: ps) /\ revents q' <> 0 /\ t !! Z.to_nat (pfd q') = Some e' /\ wake e' = w /\ w <> 0).
  { intros w (q' & e' & Hq' & ?)%IH. exists q', e'. split; [by right|done]. }
  destruct (Z.eqb_spec (revents q) 0) as [Hr|Hr]; cbn [negb mbind outcome_bind].
  { rewrite Hws. exists ws. split; [done|]. intros w. split; [auto|].
    intros (q' & e' & [->|Hq']%elem_of_cons & H'); [tauto|]. apply IH. by exists q', e'. }
  rewrite Hg. cbn [mbind outcome_bind]. rewrite Hws. eexists; split; [done|]. intros w.
  rewrite elem_of_app. split.
  - intros [Hw|Hw]; [|auto]. destruct (Z.eqb_spec (wake e) 0); cbn [negb] in Hw; [by apply elem_of_nil in Hw|].
    apply list_elem_of_singleton in Hw as ->. exists q, e. split; [by left|done].
  - intros (q' & e' & [->|Hq']%elem_of_cons & H'); [left|right; apply IH; by exists q', e'].
    destruct H' as (_ & H' & <- & Hw). assert (e' = e) as -> by congruence.
    destruct (Z.eqb_spec (wake e) 0); [done|]. by apply list_elem_of_singleton.
Qed.

(** The events the poll array has for a descriptor. *)
Fixpoint ready (qs : list pollfd) (fd : Z) : option Z :=
  match qs with
  | [] => None
  | q :: qs => if (pfd q =? fd) && negb (revents q =? 0) then Some (revents q) else ready qs fd
  end.

Definition with_events (qs : list pollfd) (f : pollfd) : pollfd :=
  match ready qs (pfd f) with Some r => Pollfd (pfd f) (events f) r | None => f end.

(** How many entries have events. *)
Fixpoint count_ready (qs : list pollfd) (fds : list pollfd) : Z :=
  match fds with
  | [] => 0
  | f :: fds => match ready qs (pfd f) with Some _ => 1 | None => 0 end + count_ready qs fds
  end.

Lemma ready_cons q qs fd :
  revents q <> 0 -> ready (q :: qs) fd = if pfd q =? fd then Some (revents q) else ready qs fd.
Proof. intros Hq. cbn [ready]. by rewrite (proj2 (Z.eqb_neq _ _) Hq), andb_true_r. Qed.

Lemma poll_match_eq q fds ret :
  revents q <> 0 -> poll_match q fds ret = (map (with_events [q]) fds, ret + count_ready [q] fds).
Proof.
  intros Hq. induction fds as [|f fds IH] in ret |- *; cbn [poll_match map count_ready]; [f_equal; lia|].
  unfold with_events at 1. rewrite !ready_cons by done.
  destruct (pfd q =? pfd f); rewrite IH; f_equal; cbn [ready]; lia.
Qed.

Lemma ready_none qs fd : (fd ∉ map pfd qs) -> ready qs fd = None.
Proof.
  induction qs as [|q qs IH]; cbn [ready map]; [done|]. rewrite not_elem_of_cons. intros [Hn Hqs].
  destruct (Z.eqb_spec (pfd q) fd); [congruence|]. by apply IH.
Qed.

Lemma count_ready_split q qs fds :
  revents q <> 0 -> (pfd q ∉ map pfd qs) ->
  count_ready (q :: qs) fds = count_ready [q] fds + count_ready qs fds.
Proof.
  intros Hq Hn. induction fds as [|f fds IH]; [done|]. cbn [count_ready]. rewrite !ready_cons by done.
  destruct (Z.eqb_spec (pfd q) (pfd f)) as [Hf|Hf]; cbn [ready]; [|lia].
  rewrite (ready_none qs (pfd f)) by congruence. lia.
Qed.

Lemma pfd_with_events qs f : pfd (with_events qs f) = pfd f.
Proof. unfold with_events. by destruct (ready qs (pfd f)). Qed.

Lemma count_ready_map qs qs' fds : count_ready qs (map (with_events qs') fds) = count_ready qs fds.
Proof. induction fds as [|f fds IH]; cbn [map count_ready]; [done|]. by rewrite pfd_with_events, IH. Qed.

Lemma with_events_nil fds : map (with_events []) fds = fds /\ count_ready [] fds = 0.
Proof.
  induction fds as [|f fds [IH1 IH2]]; [done|]. cbn [map count_ready ready].
  split; [by f_equal|lia].
Qed.

Lemma with_events_idle q qs fds :
  revents q = 0 -> map (with_events (q :: qs)) fds = map (with_events qs) fds /\
                   count_ready (q :: qs) fds = count_ready qs fds.
Proof.
  intros Hq. assert (Hr : forall fd, ready (q :: qs) fd = ready qs fd)
    by (intros fd; cbn [ready]; by rewrite Hq, andb_false_r).
  split; [apply map_ext; intros f; unfold with_events; by rewrite Hr|].
  induction fds as [|f fds IH]; cbn [count_ready]; [done|]. by rewrite Hr, IH.
Qed.

Lemma poll_ready_eq qs fds ret :
  NoDup (map pfd qs) -> poll_ready qs fds ret = (map (with_events qs) fds, ret + count_ready qs fds).
Proof.
  induction qs as [|q qs IH] in fds, ret |- *; cbn [poll_ready map]; intros Hnd.
  { destruct (with_events_nil fds) as [-> ->]. f_equal. lia. }
  apply list.NoDup_cons in Hnd as [Hn Hnd].
  destruct (Z.eqb_spec (revents q) 0) as [Hz|Hz]; cbn [negb].
  - rewrite IH by done. by destruct (with_events_idle q qs fds Hz) as [-> ->].
  - rewrite poll_match_eq, IH by done. rewrite map_map, count_ready_map, (count_ready_split q qs) by done.
    f_equal; [|lia]. apply map_ext. intros f. unfold with_events at 1. rewrite pfd_with_events.
    unfold with_events. rewrite !ready_cons by done.
    destruct (Z.eqb_spec (pfd q) (pfd f)) as [E|]; [|done].
    rewrite (ready_none qs (pfd f)) by congruence. done.
Qed.

End HostFacts.

(** ** Properties of the descriptor table and the Linux host *)

Module HostProperties.
Import FdTable LinuxHost HostFacts Timespec.

(** C34. The Linux start-up code never overruns its poll array, and puts in it
    exactly the descriptors below 64 that fstat later calls sockets and that have
    no closed descriptor below them, in order, each waiting for input.  (It stops
    at the first closed descriptor.) *)
Theorem network_fds_polled h auxv t :
  aux_get (read_auxv auxv (replicate 64 0)) AT_PARENT_SYSCALL = 0 -> length t = 64%nat ->
  exists pagesize random p,
    __libc_start_main h auxv = Ret (Parent pagesize random p) /\
    take (Z.to_nat (npoll p)) (pollfds p) =
      map (fun fd => Pollfd fd 3 0) (filter (fun fd => no_gap h fd && reports_socket h (socket_fd p) t fd = true) (seqZ 0 64)).
Proof.
  intros Haux Ht. unfold __libc_start_main. rewrite Haux. cbn [negb Z.eqb].
  destruct (scan_fds_spec h 64 0 plat0 [] polls_plat0 ltac:(cbn; lia)) as (p & -> & Hn & _ & Hp & _).
  do 3 eexists. split; [done|]. rewrite Hn, Nat2Z.id, Hp. cbn [app]. f_equal.
  rewrite scanned_fds_no_gap by (intros; lia). change (Z.of_nat 64) with 64. rewrite list_filter_filter.
  apply filter_ext_in. intros fd Hfd%elem_of_seqZ. rewrite reports_socket_eq by lia.
  destruct (no_gap h fd), (carries_net h fd); cbn; tauto || (split; intros; done || by destruct_and?).
Qed.

(** When the Linux sleep ends because descriptors are ready, it wakes
    exactly the threads registered for those descriptors. *)
Theorem nanosleep_wakes_receivers fuel readings sleep ppoll clk_id request p t r ps :
  clk_id = CLOCK_REALTIME \/ clk_id = CLOCK_MONOTONIC -> npoll p <> 0 ->
  ppoll (pollfds p) request = (r, ps) -> 0 < r ->
  Forall (fun q => 0 <= pfd q < Z.of_nat (length t)) ps ->
  exists ws, clock_nanosleep fuel readings sleep ppoll clk_id 0 request 0 p t = Ret (0, None, ps, ws) /\
    forall w, w ∈ ws <-> exists q e, q ∈ take (Z.to_nat (npoll p)) ps /\ revents q <> 0 /\
      t !! Z.to_nat (pfd q) = Some e /\ wake e = w /\ w <> 0.
Proof.
  intros Hclk Hn Hp Hr Hps.
  destruct (wake_ready_spec t (take (Z.to_nat (npoll p)) ps)) as (ws & Hws & Hw); [by apply Forall_take|].
  exists ws. split; [|done]. unfold clock_nanosleep. cbn [Z.eqb negb orb].
  assert (exists lid, lid_of clk_id = Some lid) as [lid ->] by (destruct Hclk as [->| ->]; by eexists).
  case_cmp; [lia|]. rewrite Hp. do 2 (case_cmp; [lia|]). by rewrite Hws.
Qed.

(** After its sleep, poll gives each descriptor the events the platform's
    poll array has for it, leaves the others alone, and returns the number of
    descriptors with events. *)
Theorem poll_reports_events sys_poll after fds timeout :
  timeout <> 0 ->
  let qs := take (Z.to_nat (npoll (after (poll_time timeout)))) (pollfds (after (poll_time timeout))) in
  NoDup (map pfd qs) ->
  poll sys_poll after fds timeout = (count_ready qs fds, map (with_events qs) fds).
Proof.
  intros Ht qs Hnd. unfold poll. case_cmp; [lia|]. fold qs. by rewrite poll_ready_eq.
Qed.

(** *** Witnesses *)

(** A host with a terminal on 0 to 2, a packet socket on 3, a tun device on 4
    and a disk image on 5. *)
Definition demo_host : host := {|
  sys_fstat := fun fd =>
    if (0 <=? fd) && (fd <=? 2) then Some (LStat 0 (S_IFCHR + 438) (makedev 136 0))
    else if fd =? 3 then Some (LStat 0 (S_IFSOCK + 438) 0)
    else if fd =? 4 then Some (LStat 0 (S_IFCHR + 438) (makedev 10 200))
    else if fd =? 5 then Some (LStat 8192 (S_IFREG + 420) 0)
    else None;
  getsockname := fun fd => if fd =? 3 then Some (AF_PACKET, 2) else None;
  ioctl_gifname := fun _ _ => Some [101; 116; 104; 48];
  ioctl_gifhwaddr := fun _ _ => Some [2; 0; 0; 0; 0; 1];
  ioctl_tungetiff := fun fd => if fd =? 4 then Some ([116; 97; 112; 48], 4098) else None;
  ioctl_blkgetsize64 := fun _ => None;
|}.

Lemma network_fds_polled_witness :
  exists pagesize random p,
    __libc_start_main demo_host [(6, 4096); (25, 1000); (0, 0)] = Ret (Parent pagesize random p) /\
    take (Z.to_nat (npoll p)) (pollfds p) =
      map (fun fd => Pollfd fd 3 0)
        (filter (fun fd => no_gap demo_host fd && reports_socket demo_host (socket_fd p) __franken_fd fd = true) (seqZ 0 64)).
Proof. apply (network_fds_polled demo_host [(6, 4096); (25, 1000); (0, 0)] __franken_fd); reflexivity. Defined.

Definition demo_plat : platform := Plat (-1) (-1) 1 [Pollfd 3 3 0] [].

Lemma nanosleep_wakes_receivers_witness :
  exists ws,
    clock_nanosleep 10 (fun _ => None) (fun _ _ => 0) (fun ps _ => (1, [Pollfd 3 3 1])) CLOCK_MONOTONIC
      0 (TS 1 0) 0 demo_plat (<[3%nat := set_wake 77 fdent0]> __franken_fd)
    = Ret (0, None, [Pollfd 3 3 1], ws) /\
    forall w, w ∈ ws <-> exists q e, q ∈ take (Z.to_nat (npoll demo_plat)) [Pollfd 3 3 1] /\
      revents q <> 0 /\ <[3%nat := set_wake 77 fdent0]> __franken_fd !! Z.to_nat (pfd q) = Some e /\
      wake e = w /\ w <> 0.
Proof.
  apply (nanosleep_wakes_receivers 10 _ _ (fun ps _ => (1, [Pollfd 3 3 1])) CLOCK_MONOTONIC (TS 1 0)
           demo_plat _ 1 [Pollfd 3 3 1]); [by right|discriminate|reflexivity|lia|].
  constructor; [cbn; lia|constructor].
Defined.

Lemma poll_reports_events_witness :
  poll (fun fds => (0, fds)) (fun _ => Plat (-1) (-1) 2 [Pollfd 3 3 1; Pollfd 4 3 0] [])
    [Pollfd 4 1 0; Pollfd 3 1 0] 500
  = (count_ready [Pollfd 3 3 1; Pollfd 4 3 0] [Pollfd 4 1 0; Pollfd 3 1 0],
     map (with_events [Pollfd 3 3 1; Pollfd 4 3 0]) [Pollfd 4 1 0; Pollfd 3 1 0]).
Proof.
  apply (poll_reports_events (fun fds => (0, fds)) (fun _ => Plat (-1) (-1) 2 [Pollfd 3 3 1; Pollfd 4 3 0] [])
           [Pollfd 4 1 0; Pollfd 3 1 0] 500); [discriminate|].
  apply (bool_decide_unpack (NoDup [3; 4])). exact I.
Defined.

End HostProperties.
