(* ===== verification/Vdso.v ===== *)
(** * Functions of the vdso

    [platform/linux/vdso.c] looks up a function of the ELF image that the Linux
    kernel maps into every process, and [platform/linux/clock_gettime.c] calls
    the one that reads the clock.  The image is in the byte memory; the structures
    are those of a 64-bit file ([franken/include/elf.h]).  The theorems compare
    the walk over the image with a definition on its decoded contents. *)

From S2P Require Import Prelude Libc Platform Fdtable.
From Stdlib Require Import ZArith Lia String.
From stdpp Require Import base numbers list gmap.
Local Open Scope Z_scope.

Module Vdso.
Import Str.

Definition AT_SYSINFO_EHDR : Z := 33.
Definition PT_LOAD : Z := 1.
Definition PT_DYNAMIC : Z := 2.
Definition DT_HASH : Z := 4.
Definition DT_STRTAB : Z := 5.
Definition DT_SYMTAB : Z := 6.
Definition DT_VERSYM : Z := 1879048176.  (* 0x6ffffff0 *)
Definition DT_VERDEF : Z := 1879048188.  (* 0x6ffffffc *)
Definition VER_FLG_BASE : Z := 1.
Definition OK_TYPES : Z := 39.           (* NOTYPE, OBJECT, FUNC, COMMON *)
Definition OK_BINDS : Z := 1030.         (* GLOBAL, WEAK, GNU_UNIQUE *)

Section Lookup.
(** The memory; a bound for each loop. *)
Variable m : mem.
Variable fuel : nat.

(** *** Fields of the structures *)

Definition e_phoff (eh : Z) : outcome Z := loadn 8 m (eh + 32).
Definition e_phentsize (eh : Z) : outcome Z := loadn 2 m (eh + 54).
Definition e_phnum (eh : Z) : outcome Z := loadn 2 m (eh + 56).
Definition p_type (ph : Z) : outcome Z := loadn 4 m ph.
Definition p_offset (ph : Z) : outcome Z := loadn 8 m (ph + 8).
Definition p_vaddr (ph : Z) : outcome Z := loadn 8 m (ph + 16).
Definition sizeof_Sym : Z := 24.
Definition st_name (s : Z) : outcome Z := loadn 4 m s.
Definition st_info (s : Z) : outcome Z := loadn 1 m (s + 4).
Definition st_shndx (s : Z) : outcome Z := loadn 2 m (s + 6).
Definition st_value (s : Z) : outcome Z := loadn 8 m (s + 8).
Definition vd_flags (d : Z) : outcome Z := loadn 2 m (d + 2).
Definition vd_ndx (d : Z) : outcome Z := loadn 2 m (d + 4).
Definition vd_aux (d : Z) : outcome Z := loadn 4 m (d + 12).
Definition vd_next (d : Z) : outcome Z := loadn 4 m (d + 16).
Definition vda_name (a : Z) : outcome Z := loadn 4 m a.

(** *** The code *)

(** The loop of [checkver]: the definition with the number, if there is one. *)
Fixpoint checkver_loop (n : nat) (def vsym : Z) : outcome (option Z) :=
  match n with
  | O => NoFuel
  | S n =>
      fl ← vd_flags def; ndx ← vd_ndx def;
      if (Z.land fl VER_FLG_BASE =? 0) && (Z.land ndx 32767 =? vsym) then Ret (Some def)
      else
        next ← vd_next def;
        if next =? 0 then Ret None else checkver_loop n (def + next) vsym
  end.

Definition checkver (def vsym vername strings : Z) : outcome bool :=
  d ← checkver_loop fuel def (Z.land vsym 32767);
  match d with
  | None => Ret false
  | Some def =>
      aux ← vd_aux def; name ← vda_name (def + aux);
      c ← strcmp fuel m vername (strings + name);
      Ret (c =? 0)
  end.

(** The search of the auxiliary vector, from its word at [a] on. *)
Fixpoint auxv_loop (n : nat) (a : Z) : outcome (option Z) :=
  match n with
  | O => NoFuel
  | S n =>
      tag ← load64 m a;
      if tag =? AT_SYSINFO_EHDR then v ← load64 m (a + 8); Ret (Some v)
      else if tag =? 0 then Ret None
      else auxv_loop n (a + 16)
  end.

(** The loop over the [n] program headers from [ph] on; [base] and [dynv]. *)
Fixpoint phdr_loop (n : nat) (eh ph size base dynv : Z) : outcome (Z * Z) :=
  match n with
  | O => Ret (base, dynv)
  | S n =>
      ty ← p_type ph;
      if ty =? PT_LOAD then
        off ← p_offset ph; va ← p_vaddr ph;
        phdr_loop n eh (ph + size) size (u64 (eh + off - va)) dynv
      else if ty =? PT_DYNAMIC then
        off ← p_offset ph;
        phdr_loop n eh (ph + size) size base (eh + off)
      else phdr_loop n eh (ph + size) size base dynv
  end.

(** The pointers the dynamic section gives. *)
Record tables : Type := Tables { strings : Z; syms : Z; hashtab : Z; versym : Z; verdef : Z }.

Definition set_table (tag p : Z) (t : tables) : tables :=
  if tag =? DT_STRTAB then Tables p (syms t) (hashtab t) (versym t) (verdef t)
  else if tag =? DT_SYMTAB then Tables (strings t) p (hashtab t) (versym t) (verdef t)
  else if tag =? DT_HASH then Tables (strings t) (syms t) p (versym t) (verdef t)
  else if tag =? DT_VERSYM then Tables (strings t) (syms t) (hashtab t) p (verdef t)
  else if tag =? DT_VERDEF then Tables (strings t) (syms t) (hashtab t) (versym t) p
  else t.

Fixpoint dyn_loop (n : nat) (base a : Z) (t : tables) : outcome tables :=
  match n with
  | O => NoFuel
  | S n =>
      tag ← load64 m a;
      if tag =? 0 then Ret t
      else v ← load64 m (a + 8); dyn_loop n base (a + 16) (set_table tag (u64 (base + v)) t)
  end.

(** The type, the binding and the section of a symbol that may be returned. *)
Definition usable (info shndx : Z) : bool :=
  negb (Z.land (Z.shiftl 1 (Z.land info 15)) OK_TYPES =? 0) &&
  negb (Z.land (Z.shiftl 1 (Z.shiftr info 4)) OK_BINDS =? 0) && negb (shndx =? 0).

(** The loop over the [n] symbols from number [i] on. *)
Fixpoint sym_loop (n : nat) (i base vername name : Z) (t : tables) : outcome Z :=
  match n with
  | O => Ret 0
  | S n =>
      let s := syms t + sizeof_Sym * i in
      info ← st_info s; shndx ← st_shndx s;
      ok ← (if usable info shndx then
              nm ← st_name s;
              c ← strcmp fuel m name (strings t + nm);
              if negb (c =? 0) then Ret false
              else if versym t =? 0 then Ret true
              else v ← loadn 2 m (versym t + 2 * i); checkver (verdef t) v vername (strings t)
            else Ret false);
      if (ok : bool) then v ← st_value s; Ret (u64 (base + v)) else sym_loop n (i + 1) base vername name t
  end.

Definition __vdsosym (auxv vername name : Z) : outcome Z :=
  r ← auxv_loop fuel auxv;
  match r with
  | None => Ret 0
  | Some eh =>
      phoff ← e_phoff eh; size ← e_phentsize eh; phnum ← e_phnum eh;
      '(base, dynv) ← phdr_loop (Z.to_nat phnum) eh (eh + phoff) size (2 ^ 64 - 1) 0;
      if (dynv =? 0) || (base =? 2 ^ 64 - 1) then Ret 0
      else
        t ← dyn_loop fuel base dynv (Tables 0 0 0 0 0);
        if (strings t =? 0) || (syms t =? 0) || (hashtab t =? 0) then Ret 0
        else
          let t := if verdef t =? 0 then Tables (strings t) (syms t) (hashtab t) 0 (verdef t) else t in
          n ← loadn 4 m (hashtab t + 4);
          sym_loop (Z.to_nat n) 0 base vername name t
  end.

End Lookup.

(** *** Reading the clock *)

Section Clock.
Import Timespec.
(** What a call of the function at an address gives for a clock of Linux, and
    what the system call gives; [None] for a result that is not 0. *)
Variable call : Z -> Z -> option timespec.
Variable sc_clock_gettime : Z -> option timespec.
Variable m : mem.
Variable fuel : nat.
(** The auxiliary vector and the addresses of the two strings. *)
Variable auxv cgt_ver cgt_sym : Z.

(** The static pointer [cgt]. *)
Inductive cgt_ptr : Type := CgtNull | CgtVdso (f : Z) | CgtSyscall.

Definition cgt_init (cgt : cgt_ptr) : outcome cgt_ptr :=
  match cgt with
  | CgtNull => f ← __vdsosym m fuel auxv cgt_ver cgt_sym; Ret (if f =? 0 then CgtSyscall else CgtVdso f)
  | _ => Ret cgt
  end.

Definition cgt_call (cgt : cgt_ptr) (lid : Z) : option timespec :=
  match cgt with CgtVdso f => call f lid | CgtSyscall => sc_clock_gettime lid | CgtNull => None end.

(** [clock_gettime]: the return value, [errno] if it is set, what is stored, and
    the pointer afterwards. *)
Definition clock_gettime (clk_id : Z) (cgt : cgt_ptr) : outcome (Z * option Z * option timespec * cgt_ptr) :=
  match LinuxHost.lid_of clk_id with
  | None => Ret (-1, Some EINVAL, None, cgt)
  | Some lid =>
      cgt ← cgt_init cgt;
      match cgt_call cgt lid with
      | None => Ret (-1, Some EINVAL, None, cgt)
      | Some t => Ret (0, None, Some t, cgt)
      end
  end.

End Clock.
End Vdso.

(** ** The contents of an image *)

Module ElfImage.
Import Vdso.

Record phdr : Type := Phdr { ph_type : Z; ph_offset : Z; ph_vaddr : Z }.
Record symbol : Type := Symbol { sy_name : list Z; sy_info : Z; sy_shndx : Z; sy_value : Z; sy_versym : Z }.
Record version : Type := Version { ve_flags : Z; ve_ndx : Z; ve_name : list Z }.

(** Program headers, dynamic section, symbols, and the versions if there are any. *)
Record elf : Type := Elf {
  phdrs : list phdr;
  dynamic : list (Z * Z);
  symbols : list symbol;
  versions : option (list version);
}.

(** *** Decoding *)

Definition phdr_at (m : mem) (a : Z) (p : phdr) : Prop :=
  range_mapped m a 24 /\ p = Phdr (peekn 4 m a) (peekn 8 m (a + 8)) (peekn 8 m (a + 16)).

Fixpoint phdrs_at (m : mem) (a size : Z) (ps : list phdr) : Prop :=
  match ps with
  | [] => True
  | p :: ps => phdr_at m a p /\ phdrs_at m (a + size) size ps
  end.

(** Pairs of words up to a zero. *)
Fixpoint dyn_at (m : mem) (a : Z) (ds : list (Z * Z)) : Prop :=
  match ds with
  | [] => range_mapped m a 8 /\ peekn 8 m a = 0
  | (tag, v) :: ds => range_mapped m a 16 /\ peekn 8 m a = tag /\ tag <> 0 /\ peekn 8 m (a + 8) = v /\ dyn_at m (a + 16) ds
  end.

(** The chain of version definitions, each with its first name. *)
Fixpoint versions_at (m : mem) (strs a : Z) (vs : list version) : Prop :=
  match vs with
  | [] => False
  | v :: vs =>
      range_mapped m a 20 /\ ve_flags v = peekn 2 m (a + 2) /\ ve_ndx v = peekn 2 m (a + 4) /\
      range_mapped m (a + peekn 4 m (a + 12)) 4 /\
      cstr m (strs + peekn 4 m (a + peekn 4 m (a + 12))) (ve_name v) /\
      match vs with
      | [] => peekn 4 m (a + 16) = 0
      | _ => peekn 4 m (a + 16) <> 0 /\ versions_at m strs (a + peekn 4 m (a + 16)) vs
      end
  end.

Definition symbol_at (m : mem) (strs a : Z) (s : symbol) : Prop :=
  range_mapped m a 24 /\ sy_info s = peekn 1 m (a + 4) /\ sy_shndx s = peekn 2 m (a + 6) /\
  sy_value s = peekn 8 m (a + 8) /\ cstr m (strs + peekn 4 m a) (sy_name s).

Definition versym_at (m : mem) (a : Z) (s : symbol) : Prop := range_mapped m a 2 /\ sy_versym s = peekn 2 m a.

(** *** What the image says *)

(** The last program header of a type, the last value of a tag. *)
Definition last_phdr (ty : Z) (ps : list phdr) : option phdr := last (filter (fun p => ph_type p = ty) ps).
Definition dyn_value (tag : Z) (ds : list (Z * Z)) : option Z := snd <$> last (filter (fun d => d.1 = tag) ds).

(** The image at [eh] is [f], with its load address. *)
Record elf_at (m : mem) (eh base : Z) (f : elf) (t : tables) : Prop := {
  el_header : range_mapped m eh 64;
  el_phdrs : phdrs_at m (eh + peekn 8 m (eh + 32)) (peekn 2 m (eh + 54)) (phdrs f);
  el_phnum : peekn 2 m (eh + 56) = Z.of_nat (length (phdrs f));
  el_base : exists l, last_phdr PT_LOAD (phdrs f) = Some l /\ base = u64 (eh + ph_offset l - ph_vaddr l) /\ base <> 2 ^ 64 - 1;
  el_dyn : exists d, last_phdr PT_DYNAMIC (phdrs f) = Some d /\ eh + ph_offset d <> 0 /\ dyn_at m (eh + ph_offset d) (dynamic f);
  el_tables :
    let table tag := from_option (fun v => u64 (base + v)) 0 (dyn_value tag (dynamic f)) in
    t = Tables (table DT_STRTAB) (table DT_SYMTAB) (table DT_HASH) (table DT_VERSYM) (table DT_VERDEF);
  el_found : strings t <> 0 /\ syms t <> 0 /\ hashtab t <> 0;
  el_hash : range_mapped m (hashtab t) 8 /\ peekn 4 m (hashtab t + 4) = Z.of_nat (length (symbols f));
  el_symbols : forall i s, symbols f !! i = Some s -> symbol_at m (strings t) (syms t + sizeof_Sym * Z.of_nat i) s;
  el_versions :
    match versions f with
    | None => versym t = 0 \/ verdef t = 0
    | Some vs =>
        versym t <> 0 /\ verdef t <> 0 /\ versions_at m (strings t) (verdef t) vs /\
        forall i s, symbols f !! i = Some s -> versym_at m (versym t + 2 * Z.of_nat i) s
    end;
}.

(** A symbol is that of a name and a version: it can be used, and of the version
    definitions the first with its number, which is not the base definition, has
    the name. *)
Definition of_version (ver : list Z) (vs : list version) (s : symbol) : bool :=
  match List.find (fun v => (Z.land (ve_flags v) VER_FLG_BASE =? 0) && (Z.land (ve_ndx v) 32767 =? Z.land (sy_versym s) 32767)) vs with
  | Some v => bool_decide (ver = ve_name v)
  | None => false
  end.

Definition is_symbol (ver name : list Z) (f : elf) (s : symbol) : bool :=
  usable (sy_info s) (sy_shndx s) && bool_decide (name = sy_name s) &&
  match versions f with None => true | Some vs => of_version ver vs s end.

(** The address of the first symbol with the name and the version, or 0. *)
Definition lookup (base : Z) (f : elf) (ver name : list Z) : Z :=
  match List.find (is_symbol ver name f) (symbols f) with Some s => u64 (base + sy_value s) | None => 0 end.

(** The auxiliary vector at an address gives the image's. *)
Fixpoint auxv_at (m : mem) (a : Z) (before : list (Z * Z)) (eh : Z) : Prop :=
  match before with
  | [] => range_mapped m a 16 /\ peekn 8 m a = AT_SYSINFO_EHDR /\ peekn 8 m (a + 8) = eh
  | (tag, _) :: before =>
      range_mapped m a 16 /\ peekn 8 m a = tag /\ tag <> 0 /\ tag <> AT_SYSINFO_EHDR /\ auxv_at m (a + 16) before eh
  end.

End ElfImage.

(** ** Facts: the walk over an image *)

Module VdsoFacts.
Import Str StrFacts Vdso ElfImage.

Section Walk.
Variable m : mem.
Variable fuel : nat.

(** A field of a mapped structure. *)
Lemma load_field n a k b : range_mapped m a k -> a <= b -> b + Z.of_nat n <= a + k -> loadn n m b = Ret (peekn n m b).
Proof. intros H ??. apply loadn_mapped. by eapply range_mapped_sub. Qed.

Ltac field H :=
  match goal with |- context [mbind _ (loadn ?n _ ?b)] => rewrite (load_field n _ _ b H) by lia end; cbn [mbind outcome_bind].

Lemma strcmp_bool u1 u2 a b : mem_wf m -> cstr m u1 a -> cstr m u2 b -> (length a < fuel)%nat ->
  exists c, strcmp fuel m u1 u2 = Ret c /\ (c =? 0) = bool_decide (a = b).
Proof.
  intros Hw Ha Hb Hl. rewrite (strcmp_eq fuel m u1 u2 a b) by done. eexists. split; [done|].
  pose proof (cmp_bytes_eq0 a b (cstr_bytes _ _ _ Hw Ha) (cstr_bytes _ _ _ Hw Hb)) as Hc.
  case_bool_decide; [apply Z.eqb_eq|apply Z.eqb_neq]; tauto.
Qed.

Lemma auxv_loop_spec before eh : forall n a, auxv_at m a before eh -> (length before < n)%nat -> auxv_loop m n a = Ret (Some eh).
Proof.
  induction before as [|[tag v] before IH]; intros [|n] a Ha Hn; cbn [length] in Hn; try lia; cbn [auxv_loop auxv_at] in *.
  - destruct Ha as (Hm & Ht & Hv). field Hm. rewrite Ht, Z.eqb_refl. field Hm. by rewrite Hv.
  - destruct Ha as (Hm & Ht & H0 & H1 & Ha). field Hm. rewrite Ht.
    destruct (Z.eqb_spec tag AT_SYSINFO_EHDR); [done|]. destruct (Z.eqb_spec tag 0); [done|]. apply IH; [done|lia].
Qed.

Lemma last_phdr_cons ty p ps :
  last_phdr ty (p :: ps) = match last_phdr ty ps with Some x => Some x | None => if decide (ph_type p = ty) then Some p else None end.
Proof.
  unfold last_phdr. rewrite filter_cons. case_decide as Hd; [|by destruct (last _)].
  rewrite last_cons. by destruct (last _).
Qed.

Lemma phdr_loop_spec eh size ps : forall ph base dynv, phdrs_at m ph size ps ->
  phdr_loop m (length ps) eh ph size base dynv =
  Ret (from_option (fun l => u64 (eh + ph_offset l - ph_vaddr l)) base (last_phdr PT_LOAD ps),
       from_option (fun d => eh + ph_offset d) dynv (last_phdr PT_DYNAMIC ps)).
Proof.
  induction ps as [|p ps IH]; intros ph base dynv H; cbn [phdrs_at length phdr_loop] in *; [done|].
  destruct H as [[Hm ->] H]. rewrite !last_phdr_cons. cbn [ph_type]. unfold p_type, p_offset, p_vaddr. field Hm.
  destruct (Z.eqb_spec (peekn 4 m ph) PT_LOAD) as [E|E].
  { do 2 field Hm. rewrite IH by done. rewrite E. cbn. by destruct (last_phdr PT_LOAD ps), (last_phdr PT_DYNAMIC ps). }
  rewrite (decide_False (P := peekn 4 m ph = PT_LOAD)) by done.
  destruct (Z.eqb_spec (peekn 4 m ph) PT_DYNAMIC) as [E1|E1].
  - field Hm. rewrite IH by done. rewrite decide_True by done. by destruct (last_phdr PT_LOAD ps), (last_phdr PT_DYNAMIC ps).
  - rewrite IH by done. rewrite decide_False by done. by destruct (last_phdr PT_LOAD ps), (last_phdr PT_DYNAMIC ps).
Qed.

Lemma dyn_value_cons tag d ds :
  dyn_value tag (d :: ds) = match dyn_value tag ds with Some v => Some v | None => if decide (d.1 = tag) then Some d.2 else None end.
Proof.
  unfold dyn_value. rewrite filter_cons. case_decide as Hd; [|by destruct (last _)].
  rewrite last_cons. by destruct (last _).
Qed.

(** The tables that a dynamic section adds to others. *)
Definition tables_of (base : Z) (ds : list (Z * Z)) (t : tables) : tables :=
  let table tag p := from_option (fun v => u64 (base + v)) p (dyn_value tag ds) in
  Tables (table DT_STRTAB (strings t)) (table DT_SYMTAB (syms t)) (table DT_HASH (hashtab t))
    (table DT_VERSYM (versym t)) (table DT_VERDEF (verdef t)).

Lemma tables_of_cons base tag v ds t : tables_of base ds (set_table tag (u64 (base + v)) t) = tables_of base ((tag, v) :: ds) t.
Proof.
  unfold tables_of. rewrite !dyn_value_cons. cbn [fst snd]. unfold set_table.
  repeat match goal with |- context [tag =? ?k] => destruct (Z.eqb_spec tag k) as [->|]; [
    repeat (rewrite (decide_False (P := k = _)) by done || rewrite (decide_True (P := k = _)) by done)|] end.
  all: repeat rewrite decide_False by done; cbn [strings syms hashtab versym verdef]; f_equal; by destruct (dyn_value _ ds).
Qed.

Lemma dyn_loop_spec base ds : forall n a t, dyn_at m a ds -> (length ds < n)%nat -> dyn_loop m n base a t = Ret (tables_of base ds t).
Proof.
  induction ds as [|[tag v] ds IH]; intros [|n] a t Ha Hn; cbn [length] in Hn; try lia; cbn [dyn_loop dyn_at] in *.
  - destruct Ha as [Hm Hz]. field Hm. rewrite Hz. cbn. by destruct t.
  - destruct Ha as (Hm & Ht & H0 & Hv & Ha). field Hm. rewrite Ht. destruct (Z.eqb_spec tag 0); [done|]. field Hm.
    rewrite Hv, IH by (done || lia). by rewrite tables_of_cons.
Qed.

Lemma checkver_loop_spec strs vsym vs : forall n def, versions_at m strs def vs -> (length vs < n)%nat ->
  match List.find (fun v => (Z.land (ve_flags v) VER_FLG_BASE =? 0) && (Z.land (ve_ndx v) 32767 =? vsym)) vs with
  | Some v => exists d, checkver_loop m n def vsym = Ret (Some d) /\ exists vs', versions_at m strs d (v :: vs')
  | None => checkver_loop m n def vsym = Ret None
  end.
Proof.
  induction vs as [|v vs IH]; intros [|n] def H Hn; cbn [length] in Hn; try lia; [done..|].
  cbn [checkver_loop List.find]. pose proof H as H'. cbn [versions_at] in H. destruct H as (Hm & Hf & Hx & _ & _ & Hnext).
  unfold vd_flags, vd_ndx, vd_next. do 2 field Hm. rewrite <- Hf, <- Hx.
  destruct (_ && _); [eauto|]. field Hm. destruct vs as [|v' vs].
  - rewrite Hnext. done.
  - destruct Hnext as [H0 Hnext]. destruct (Z.eqb_spec (peekn 4 m (def + 16)) 0); [done|]. apply IH; [done|cbn [length] in *; lia].
Qed.

Lemma checkver_spec strs def vername ver vs s :
  mem_wf m -> versions_at m strs def vs -> cstr m vername ver -> (length vs < fuel)%nat -> (length ver < fuel)%nat ->
  checkver m fuel def (sy_versym s) vername strs = Ret (of_version ver vs s).
Proof.
  intros Hw Hvs Hver Hn Hl. unfold checkver, of_version.
  pose proof (checkver_loop_spec strs (Z.land (sy_versym s) 32767) vs fuel def Hvs Hn) as H.
  destruct (List.find _ vs) as [v|]; [|by rewrite H].
  destruct H as (d & -> & vs' & Hd). cbn [mbind outcome_bind versions_at] in *. destruct Hd as (Hm & _ & _ & Ha & Hs & _).
  unfold vd_aux, vda_name. field Hm. field Ha.
  destruct (strcmp_bool _ _ _ _ Hw Hver Hs Hl) as (c & -> & Hc). cbn [mbind outcome_bind]. by rewrite Hc.
Qed.

(** The test of one symbol, as the loop makes it. *)
Lemma sym_test_spec t f vername ver name nm i s :
  mem_wf m -> cstr m vername ver -> cstr m name nm -> (length ver < fuel)%nat -> (length nm < fuel)%nat ->
  symbol_at m (strings t) (syms t + sizeof_Sym * i) s ->
  match versions f with
  | None => versym t = 0
  | Some vs => versym t <> 0 /\ versions_at m (strings t) (verdef t) vs /\ (length vs < fuel)%nat /\ versym_at m (versym t + 2 * i) s
  end ->
  (if usable (sy_info s) (sy_shndx s) then
     nm ← st_name m (syms t + sizeof_Sym * i);
     c ← strcmp fuel m name (strings t + nm);
     if negb (c =? 0) then Ret false
     else if versym t =? 0 then Ret true
     else v ← loadn 2 m (versym t + 2 * i); checkver m fuel (verdef t) v vername (strings t)
   else Ret false) = Ret (is_symbol ver nm f s).
Proof.
  intros Hw Hver Hnm Hl1 Hl2 (Hm & _ & _ & _ & Hs) Hv. unfold is_symbol. destruct (usable _ _); [|done]. cbn [andb].
  unfold st_name. field Hm. destruct (strcmp_bool _ _ _ _ Hw Hnm Hs Hl2) as (c & -> & Hc). cbn [mbind outcome_bind]. rewrite Hc.
  case_bool_decide; cbn [negb andb]; [|done]. destruct (versions f) as [vs|].
  - destruct Hv as (Hz & Hvs & Hn & Hvm & Hvv). destruct (Z.eqb_spec (versym t) 0); [done|]. field Hvm.
    rewrite <- Hvv. by apply checkver_spec.
  - by rewrite Hv.
Qed.

Lemma sym_loop_spec base t f vername ver name nm ss : forall i,
  mem_wf m -> cstr m vername ver -> cstr m name nm -> (length ver < fuel)%nat -> (length nm < fuel)%nat ->
  (forall k s, ss !! k = Some s -> symbol_at m (strings t) (syms t + sizeof_Sym * (i + Z.of_nat k)) s /\
    match versions f with
    | None => versym t = 0
    | Some vs => versym t <> 0 /\ versions_at m (strings t) (verdef t) vs /\ (length vs < fuel)%nat /\
        versym_at m (versym t + 2 * (i + Z.of_nat k)) s
    end) ->
  sym_loop m fuel (length ss) i base vername name t =
  Ret match List.find (is_symbol ver nm f) ss with Some s => u64 (base + sy_value s) | None => 0 end.
Proof.
  induction ss as [|s ss IH]; intros i Hw Hver Hnm Hl1 Hl2 Hss; cbn [length sym_loop List.find]; [done|].
  destruct (Hss 0%nat s eq_refl) as [Hs Hv]. rewrite Z.add_0_r in Hs, Hv. pose proof Hs as (Hm & Hi & Hx & Hval & _).
  unfold st_info, st_shndx. do 2 field Hm. rewrite <- Hi, <- Hx.
  rewrite (sym_test_spec t f vername ver name nm i s) by done. cbn [mbind outcome_bind]. destruct (is_symbol ver nm f s).
  - unfold st_value. field Hm. by rewrite Hval.
  - apply IH; try done. intros k s' Hk. destruct (Hss (S k) s' Hk) as [H1 H2].
    replace (i + Z.of_nat (S k)) with (i + 1 + Z.of_nat k) in H1, H2 by lia. done.
Qed.

Lemma vdsosym_eq auxv before eh base f t vername ver name nm :
  mem_wf m -> auxv_at m auxv before eh -> elf_at m eh base f t -> cstr m vername ver -> cstr m name nm ->
  (length before < fuel)%nat -> (length (dynamic f) < fuel)%nat -> (from_option length 0 (versions f) < fuel)%nat ->
  (length ver < fuel)%nat -> (length nm < fuel)%nat ->
  __vdsosym m fuel auxv vername name = Ret (lookup base f ver nm).
Proof.
  intros Hw Haux Helf Hver Hnm F1 F2 F3 F4 F5. unfold __vdsosym. rewrite (auxv_loop_spec before eh) by done. cbn [mbind outcome_bind].
  destruct Helf as [Hh Hps Hpn (l & Hl & Hb & Hbn) (d & Hd & Hd0 & Hdyn) Ht (H1 & H2 & H3) [Hhm Hhn] Hsy Hve].
  unfold e_phoff, e_phentsize, e_phnum. do 3 field Hh. rewrite Hpn, Nat2Z.id, phdr_loop_spec, Hl, Hd by done. cbn [from_option mbind outcome_bind].
  rewrite <- Hb. apply Z.eqb_neq in Hbn, Hd0. rewrite Hbn, Hd0. cbn [orb]. rewrite (dyn_loop_spec base (dynamic f)) by done. cbn [mbind outcome_bind].
  assert (tables_of base (dynamic f) (Tables 0 0 0 0 0) = t) as -> by (by rewrite Ht).
  apply Z.eqb_neq in H1, H2, H3. rewrite H1, H2, H3. cbn [orb].
  set (t1 := if verdef t =? 0 then _ else t).
  assert (strings t1 = strings t /\ syms t1 = syms t /\ hashtab t1 = hashtab t /\ verdef t1 = verdef t) as (E1 & E2 & E3 & E4)
    by (unfold t1; destruct (verdef t =? 0); split_and!; reflexivity).
  rewrite E3. field Hhm. rewrite Hhn, Nat2Z.id. apply sym_loop_spec; try done.
  intros k s Hk. rewrite E1, E2, E4. split; [by apply Hsy|]. unfold t1. destruct (versions f) as [vs|].
  - destruct Hve as (Hz & Hz2 & Hvs & Hvy). apply Z.eqb_neq in Hz2. rewrite Hz2. split_and!; [done|done|done|by apply Hvy].
  - destruct Hve as [Hz|Hz]; [by destruct (verdef t =? 0)|]. by rewrite Hz.
Qed.

End Walk.
End VdsoFacts.

(** ** Properties of the vdso *)

Module VdsoProperties.
Import Str Timespec Vdso ElfImage VdsoFacts.

(** C20. The lookup in the mapped image is the lookup in its contents: the result
    is the load address plus the value of the first symbol that is defined, has
    the name, and belongs to the version, or 0 if there is none.  No unmapped
    byte is read. *)
Theorem vdsosym_is_lookup m fuel auxv before eh base f t vername ver name nm :
  mem_wf m -> auxv_at m auxv before eh -> elf_at m eh base f t -> cstr m vername ver -> cstr m name nm ->
  (length before < fuel)%nat -> (length (dynamic f) < fuel)%nat -> (from_option length 0 (versions f) < fuel)%nat ->
  (length ver < fuel)%nat -> (length nm < fuel)%nat ->
  __vdsosym m fuel auxv vername name = Ret (lookup base f ver nm).
Proof. apply vdsosym_eq. Qed.

(** The clock is read with the function of the vdso when the image has it,
    and with the system call when it does not; all later calls use the same one
    without another lookup, whatever the memory is by then. *)
Theorem clock_gettime_chooses call sc m m' fuel fuel' auxv before eh base f t vername ver name nm clk clk' lid :
  mem_wf m -> auxv_at m auxv before eh -> elf_at m eh base f t -> cstr m vername ver -> cstr m name nm ->
  (length before < fuel)%nat -> (length (dynamic f) < fuel)%nat -> (from_option length 0 (versions f) < fuel)%nat ->
  (length ver < fuel)%nat -> (length nm < fuel)%nat -> LinuxHost.lid_of clk = Some lid ->
  let fn := lookup base f ver nm in
  let source := if fn =? 0 then sc else call fn in
  exists cgt,
    clock_gettime call sc m fuel auxv vername name clk CgtNull = Ret (LinuxHost.clock_gettime source clk, cgt) /\
    clock_gettime call sc m' fuel' auxv vername name clk' cgt = Ret (LinuxHost.clock_gettime source clk', cgt).
Proof.
  intros Hw Haux Helf Hver Hnm F1 F2 F3 F4 F5 Hlid fn source.
  exists (if fn =? 0 then CgtSyscall else CgtVdso fn). unfold clock_gettime, LinuxHost.clock_gettime, cgt_init. rewrite Hlid.
  rewrite (vdsosym_eq m fuel auxv before eh base f t vername ver name nm) by done. cbn [mbind outcome_bind]. fold fn.
  unfold source. destruct (fn =? 0); cbn [cgt_call mbind outcome_bind].
  - destruct (sc lid); (split; [done|]); destruct (LinuxHost.lid_of clk') as [lid'|]; [by destruct (sc lid')|done..|by destruct (sc lid')|done].
  - destruct (call fn lid); (split; [done|]); destruct (LinuxHost.lid_of clk') as [lid'|]; [by destruct (call fn lid')|done..|by destruct (call fn lid')|done].
Qed.

(** *** An image *)

Fixpoint le (n : nat) (v : Z) : list Z := match n with O => [] | S n => u8 v :: le n (v / 256) end.
Definition words (n : nat) (l : list Z) : list Z := concat (map (le n) l).

(** A file with one function, in version 2. *)
Definition demo_file : list Z :=
  repeat 0 32 ++ le 8 64 ++ repeat 0 14 ++ words 2 [56; 2] ++ repeat 0 6 ++
  (words 4 [1; 5] ++ repeat 0 48) ++ (words 4 [2; 4] ++ words 8 [176; 176] ++ repeat 0 32) ++
  words 8 [5; 272; 6; 304; 4; 352; 1879048176; 360; 1879048188; 364; 0; 0] ++
  ([0] ++ lit "__vdso_clock_gettime" ++ [0] ++ lit "LINUX_2.6" ++ [0]) ++
  repeat 0 24 ++ (le 4 1 ++ [18; 0] ++ le 2 7 ++ words 8 [1024; 99]) ++
  words 4 [1; 2] ++ words 2 [0; 2] ++
  (words 2 [1; 1; 1; 1] ++ words 4 [0; 20; 28] ++ words 4 [1; 0]) ++ (words 2 [1; 0; 2; 1] ++ words 4 [0; 20; 0] ++ words 4 [22; 0]).

Definition demo_image : mem := Eval vm_compute in
  poke_list (poke_list (Mem [(4096, 8192)] ∅) 4096 (words 8 [6; 4096; 33; 8192; 0; 0] ++ lit "LINUX_2.6" ++ [0] ++ lit "__vdso_clock_gettime" ++ [0]))
    8192 demo_file.

Definition demo_elf : elf :=
  Elf [Phdr 1 0 0; Phdr 2 176 176] [(5, 272); (6, 304); (4, 352); (1879048176, 360); (1879048188, 364)]
    [Symbol [] 0 0 0 0; Symbol (lit "__vdso_clock_gettime") 18 7 1024 2]
    (Some [Version 1 1 (lit "__vdso_clock_gettime"); Version 0 2 (lit "LINUX_2.6")]).

Lemma image_mapped a n : 4096 <= a -> a + n <= 12288 -> range_mapped demo_image a n.
Proof.
  intros Ha Hn i Hi. unfold mapped_at, demo_image. cbn [mapped existsb in_range fst snd].
  rewrite orb_false_r. unfold in_range. cbn [fst snd]. apply andb_true_iff. split; [apply Z.leb_le|apply Z.ltb_lt]; lia.
Qed.

Lemma demo_image_wf : mem_wf demo_image.
Proof.
  assert (H : map_Forall (fun _ v => 0 <= v < 256) (bytes demo_image)) by (apply (bool_decide_unpack _); vm_compute; exact I).
  intros a. unfold peek. destruct (bytes demo_image !! a) as [v|] eqn:E; [exact (H a v E)|cbn; lia].
Qed.

Ltac on_image :=
  match goal with
  | |- _ /\ _ => split; on_image
  | |- range_mapped _ _ _ => apply image_mapped; vm_compute; discriminate
  | |- _ = _ => vm_compute; reflexivity
  | |- _ <> _ => vm_compute; discriminate
  | |- True => exact I
  | |- cstr _ _ _ => vm_compute; repeat split; discriminate
  | |- exists x, last_phdr _ _ = Some x /\ _ => eexists; split; [vm_compute; reflexivity|cbn [ph_offset ph_vaddr]; on_image]
  | |- phdrs_at _ _ _ _ => cbn [phdrs_at phdrs demo_elf]; on_image
  | |- phdr_at _ _ _ => unfold phdr_at; on_image
  | |- dyn_at _ _ _ => cbn [dyn_at dynamic demo_elf]; on_image
  | |- versions_at _ _ _ _ => cbn [versions_at ve_flags ve_ndx ve_name]; on_image
  | |- symbol_at _ _ _ _ => unfold symbol_at; cbn [sy_info sy_shndx sy_value sy_name]; on_image
  | |- versym_at _ _ _ => unfold versym_at; cbn [sy_versym]; on_image
  | |- auxv_at _ _ _ _ => cbn [auxv_at]; on_image
  end.

Lemma demo_elf_at : elf_at demo_image 8192 8192 demo_elf (Tables 8464 8496 8544 8552 8556).
Proof.
  constructor; cbn [strings syms hashtab versym verdef versions symbols demo_elf]; try on_image.
  - intros [|[|i]] s Hs; [injection Hs as <-..|done]; on_image.
  - split_and!; [discriminate|discriminate|on_image|]. intros [|[|i]] s Hs; [injection Hs as <-..|done]; on_image.
Qed.

Lemma vdsosym_is_lookup_witness : __vdsosym demo_image 30 4096 4144 4154 = Ret 9216.
Proof.
  refine (vdsosym_is_lookup demo_image 30 4096 [(6, 4096)] 8192 8192 demo_elf (Tables 8464 8496 8544 8552 8556) 4144 (lit "LINUX_2.6") 4154
    (lit "__vdso_clock_gettime") demo_image_wf _ demo_elf_at _ _ _ _ _ _ _); try on_image; vm_compute; lia.
Defined.

Lemma clock_gettime_chooses_witness :
  exists cgt, clock_gettime (fun f _ => Some (TS f 0)) (fun _ => None) demo_image 30 4096 4144 4154 3 CgtNull = Ret (0, None, Some (TS 9216 0), cgt).
Proof.
  destruct (clock_gettime_chooses (fun f _ => Some (TS f 0)) (fun _ => None) demo_image (Mem [] ∅) 30 0 4096 [(6, 4096)] 8192 8192 demo_elf
    (Tables 8464 8496 8544 8552 8556) 4144 (lit "LINUX_2.6") 4154 (lit "__vdso_clock_gettime") 3 0 1 demo_image_wf) as (cgt & H & _);
    [on_image|exact demo_elf_at|on_image|on_image|vm_compute; lia..|reflexivity|].
  exists cgt. exact H.
Defined.

End VdsoProperties.
