(* ===== verification/Boot.v ===== *)
(** * Start-up

    [franken/init/fdinit.c] and [franken/init/start_main.c], in the MUSL_LIBC
    configuration (the only one in which fdinit.c has balanced braces).
    [__franken_fdinit] finds the descriptors the loader passed in the
    environment, [__franken_fdinit_create] turns them into devices of the guest
    kernel, and [__franken_start_main] runs the whole sequence around [main].

    Strings are lists of bytes; the environment is the list of its entries.  The
    guest kernel is not part of the program: every call into it is recorded, and
    its answer is a function of the calls made so far.  Messages printed on
    failures are not modelled. *)

From S2P Require Import Prelude Libc Platform Fdtable.
From Stdlib Require Import ZArith Lia String.
From stdpp Require Import base numbers list.
Local Open Scope Z_scope.

Module Boot.
Import FdTable Str.

Abbreviation str := (list Z).

(** [strncmp(a, b, n) == 0], for n > 0 ([StrFacts.strncmp_eq]). *)
Definition strneq (n : nat) (a b : str) : bool := cmp_bytes (take n a) (take n b) =? 0.


(** [getenv]: the value of the first entry of that name. *)
Fixpoint getenv (name : str) (env : list str) : option str :=
  match env with
  | [] => None
  | e :: env => match env_value name e with Some v => Some v | None => getenv name env end
  end.

(** [mkkey]: the bytes written to [k] and to [n], terminators included. *)
Definition mkkey_num (x : Z) : list Z :=
  if 9 <? x then [u8 (Z.quot x 10 + 48); u8 (Z.quot x 10 + 48); 0] else [u8 (x + 48); 0].

Definition mkkey (pre : str) (dev fd : Z) : outcome (list Z * list Z) :=
  if (99 <? fd) || (99 <? dev) then Abort
  else Ret (pre ++ mkkey_num dev, mkkey_num fd).

(** The calls into the guest kernel and its C library. *)
Inductive call : Type :=
  | LoadConfigJson (fd : Z)
  | DiskAdd (fd : Z)
  | NetdevRumpfdCreate (fd : Z)
  | Add9pfs (fd : Z)
  | EtfsRegister (key num : str)
  | Open (key : str) (flags : Z)
  | Dup2 (old new : Z)
  | Close (fd : Z)
  | MountDev (disk : Z) (fstype : str) (flags : Z)
  | Chroot (path : str)
  | Chdir (path : str)
  | LklMkdir (path : str) (mode : Z)
  | Mknod (path : str) (perm major minor : Z)   (* a character device *)
  | LklMount (dir fstype data : str)
  | Mkdir (path : str) (mode : Z)
  | Mount50 (fstype dir : str) (flags : Z)
  | Unmount (dir : str) (flags : Z)
  | LoadConfigPre (cfg : Z)
  | SetSigmodel (m : Z)
  | RumpInit
  | LwprocRfork (flags : Z)
  | InitLibc (pn : option str)
  | LibcStartInit
  | IfUp (n : Z)
  | LoadConfigPost (cfg : Z)
  | InitServer (url : str)
  | Main
  | FiniEntry (f : Z)
  | Fini
  | UserHandler (f : Z).

(** The functions given to [atexit]. *)
Inductive handler : Type := unmount_atexit | finifn | user_handler (f : Z).

Record state : Type := State {
  fds : fdtab;                          (* __franken_fd *)
  disk_id : Z;
  json_cfg : Z;
  handlers : AtExit.handlers handler;
  calls : list call;
}.

Definition state0 : state := State __franken_fd 0 0 AtExit.empty_handlers [].

Definition upd_fds (t : fdtab) (s : state) : state := State t (disk_id s) (json_cfg s) (handlers s) (calls s).

Section Init.
(** The answer to a call after the calls before it, and the path
    [lkl_mount_dev] writes to its buffer. *)
Variable answer : list call -> call -> Z.
Variable mnt_path : list call -> call -> str.
(** The platform. *)
Variable fstat : fdtab -> Z -> stat -> outcome (Z * option Z * stat).
Variable fcntl_getfl : Z -> Z.
(** The address [malloc] gives for the configuration, 0 for none. *)
Variable cfg_malloc : Z.
Variable environ : list str.

Definition invoke (c : call) (s : state) : Z * state :=
  (answer (calls s) c, State (fds s) (disk_id s) (json_cfg s) (handlers s) (calls s ++ [c])).

(** A call whose answer is not looked at. *)
Definition invoke_ (c : call) (s : state) : state := (invoke c s).2.

Definition on_fd (fd : Z) (f : fdent -> fdent) (s : state) : outcome state :=
  t ← fd_upd fd f (fds s); Ret (upd_fds t s).

Definition franken_lkl_load_json_config (fd : Z) (s : state) : state :=
  let s := State (fds s) (disk_id s) cfg_malloc (handlers s) (calls s) in
  if cfg_malloc =? 0 then s else invoke_ (LoadConfigJson fd) s.

(** [atexit]; its result is not looked at. *)
Definition register_handler (h : handler) (s : state) : state :=
  State (fds s) (disk_id s) (json_cfg s) (AtExit.atexit h (handlers s)).2 (calls s).

(** *** [__franken_fdinit] *)

(** The loop over the standard descriptors. *)
Definition fdinit_std (n : Z) (s : state) : outcome state :=
  '(r, _, st) ← fstat (fds s) n stat0;
  if r =? -1 then on_fd n (set_valid 0) s
  else on_fd n (fun e => set_seek 0 (set_st st (set_fl (fcntl_getfl n) (set_valid 1 e)))) s.

(** What follows the first ['='] of an entry. *)
Fixpoint after_eq (e : str) : option str :=
  match e with
  | [] => None
  | c :: e => if c =? 61 then Some e else after_eq e
  end.

(** The body of the loop over the environment; [n] is its counter. *)
Definition fdinit_env (env : str) (n : Z) (s : state) : outcome state :=
  match after_eq env with
  | None => Ret s
  | Some var =>
      fd ← atoi_bytes var;
      s ← (if strneq 14 env (lit "__RUMP_FDINFO_") || strneq 7 env (lit "9PFS_FD") then
             s ← on_fd fd (fun e => set_fl (fcntl_getfl fd) (set_valid 1 e)) s;
             '(r, _, st) ← fstat (fds s) fd stat0;
             s ← (if r =? -1 then on_fd n (set_valid 0) s else Ret s);
             on_fd fd (set_st st) s
           else Ret s);
      let s := if strneq 24 env (lit "__RUMP_FDINFO_CONFIGJSON")
               then franken_lkl_load_json_config fd s else s in
      s ← (if strneq 18 env (lit "__RUMP_FDINFO_ROOT") || strneq 18 env (lit "__RUMP_FDINFO_DISK_") then
             s ← on_fd fd (set_seek 1) s;
             let '(id, s) := invoke (DiskAdd fd) s in
             Ret (State (fds s) id (json_cfg s) (handlers s) (calls s))
           else Ret s);
      s ← (if strneq 18 env (lit "__RUMP_FDINFO_NET_") then
             s ← on_fd fd (set_seek 0) s;
             Ret (invoke_ (NetdevRumpfdCreate fd) s)
           else Ret s);
      if strneq 7 env (lit "9PFS_FD") then
        s ← on_fd fd (set_seek 0) s;
        match getenv (lit "9PFS_FD") environ with
        | Some tmpfd => fd9 ← atoi_bytes tmpfd; Ret (invoke_ (Add9pfs fd9) s)
        | None => UB
        end
      else Ret s
  end.

(** [for (n = 0, env = *environ; env; env = *(environ + n++))]: [rest] is what
    [environ + n] points to. *)
Fixpoint fdinit_loop (rest : list str) (env : str) (n : Z) (s : state) : outcome state :=
  s ← fdinit_env env n s;
  match rest with
  | [] => Ret s
  | e :: rest => fdinit_loop rest e (n + 1) s
  end.

Definition __franken_fdinit (s : state) : outcome state :=
  s ← fdinit_std 0 s; s ← fdinit_std 1 s; s ← fdinit_std 2 s;
  match environ with
  | [] => Ret s
  | e :: _ => fdinit_loop environ e 0 s
  end.

(** *** [__franken_fdinit_create] *)

Definition O_ACCMODE : Z := 3.
Definition MS_RDONLY : Z := 1.





Definition register_block (dev fd flags size root : Z) (s : state) : Z * state :=
  let mount := MountDev (disk_id s) (lit "ext4") 0 in
  let mnt_point := mnt_path (calls s) mount in
  let '(ret, s) := invoke mount s in
  let '(mnt_point, s) :=
    if ret <? 0 then
      let mount := MountDev (disk_id s) (lit "iso9660") MS_RDONLY in
      (mnt_path (calls s) mount, invoke_ mount s)
    else (mnt_point, s) in
  let s := invoke_ (Chroot mnt_point) s in
  let s := invoke_ (Chdir (lit "/")) s in
  let s := invoke_ (LklMkdir (lit "/dev/") 448) s in
  let s := invoke_ (Mknod (lit "/dev/null") 384 1 3) s in
  let '(ret, s) := invoke (Mknod (lit "/dev/urandom") 384 1 9) s in
  (ret, register_handler unmount_atexit s).


(** The root file system; the result is the number of the next block device. *)
Definition create_root (s : state) : outcome (Z * state) :=
  match getenv (lit "__RUMP_FDINFO_ROOT") environ with
  | None => Ret (0, s)
  | Some v =>
      fd ← atoi_bytes v;
      e ← fd_get fd (fds s);
      if negb (valid e =? 0) then
        let '(ret, s) := register_block 0 fd (Z.land (flags e) O_ACCMODE) (st_size (FdTable.st e)) 1 s in
        s ← (if ret =? 0 then on_fd fd (set_mounted 1) s else Ret s);
        Ret (1, s)
      else Ret (0, s)
  end.




(** *** [__franken_start_main] *)

(** The scan of [argv[0]]: [pn] is what [__progname] points to. *)
Fixpoint progname_loop (c pn : str) : str :=
  match c with
  | [] => pn
  | x :: c => progname_loop c (if x =? 47 then c else pn)
  end.

(** [__progname]: the empty string when there is no [argv[0]]. *)
Definition __progname (argv0 : option str) : str :=
  match argv0 with None => [] | Some a => progname_loop a a end.

(** The program's main: its status and the functions it gives to [atexit].  The
    fini array holds function pointers, 0 for NULL. *)
Variable main : list Z * Z.
Variable fini_array : list Z.



End Init.
End Boot.

(** ** Facts: the descriptors named in the environment *)

#[local] Arguments lit _ : simpl never.

Module FdinitFacts.
Import FdTable Str Boot.

(** A prefix test implies every shorter one. *)
Lemma strneq_shorter (n k : nat) (a b : str) :
  (k <= n)%nat -> strneq n a b = true -> strneq k a b = true.
Proof.
  unfold strneq. revert n k b. induction a as [|x a IH]; intros [|n] [|k] [|y b] Hk; cbn; try (done || lia).
  destruct (Z.eqb_spec x y) as [->|Hne]; [intros H; by apply (IH n); [lia|]|].
  intros H. to_prop. lia.
Qed.

Lemma strneq_take (n : nat) (a b c : str) : take n b = take n c -> strneq n a b = strneq n a c.
Proof. unfold strneq. by intros ->. Qed.

(** The entry names a descriptor of the table. *)
Definition is_fdinfo (e : str) : bool := strneq 14 e (lit "__RUMP_FDINFO_") || strneq 7 e (lit "9PFS_FD").
Definition is_json (e : str) : bool := strneq 24 e (lit "__RUMP_FDINFO_CONFIGJSON").
Definition is_disk (e : str) : bool :=
  strneq 18 e (lit "__RUMP_FDINFO_ROOT") || strneq 18 e (lit "__RUMP_FDINFO_DISK_").
Definition is_net (e : str) : bool := strneq 18 e (lit "__RUMP_FDINFO_NET_").
Definition is_9pfs (e : str) : bool := strneq 7 e (lit "9PFS_FD").

Lemma fdinfo_of (n : nat) e c :
  (14 <= n)%nat -> take 14 (lit "__RUMP_FDINFO_") = take 14 c -> strneq n e c = true -> is_fdinfo e = true.
Proof.
  intros Hn Hc H%(strneq_shorter n 14); [|done]. unfold is_fdinfo.
  by rewrite (strneq_take 14 e _ c Hc), H.
Qed.

Lemma plain_entry e :
  is_fdinfo e = false -> is_json e = false /\ is_disk e = false /\ is_net e = false /\ is_9pfs e = false.
Proof.
  intros H. unfold is_disk. rewrite orb_false_iff.
  split_and!; apply not_true_iff_false; intros Hc; apply not_true_iff_false in H; apply H;
    first [by unfold is_fdinfo, is_9pfs in *; rewrite Hc, orb_true_r|eapply fdinfo_of; [|..|exact Hc]; [lia|reflexivity]].
Qed.

(** The number an entry gives. *)
Definition number (v : option str) : option Z :=
  match v with Some v => match atoi_bytes v with Ret n => Some n | _ => None end | None => None end.
Definition entry_fd (e : str) : option Z := number (after_eq e).
Definition named_fd (e : str) : option Z := if is_fdinfo e then entry_fd e else None.

(** No file is marked as the root file system yet. *)
Definition fresh (t : fdtab) : Prop := length t = 64%nat /\ Forall (fun e => mounted e = 0) t.

Lemma fresh_alter f i t : (forall e, mounted (f e) = mounted e) -> fresh t -> fresh (alter f i t).
Proof.
  intros Hf [Hl Ht]. split; [by rewrite length_alter|]. apply Forall_alter; [done|]. intros x _ Hx. by rewrite Hf.
Qed.

Lemma on_fd_eq fd f s :
  0 <= fd < 64 -> fresh (fds s) -> on_fd fd f s = Ret (upd_fds (alter f (Z.to_nat fd) (fds s)) s).
Proof.
  intros Hfd [Hl _]. unfold on_fd, fd_upd, fd_get. case_cmp; [|lia].
  destruct (lookup_lt_is_Some_2 (fds s) (Z.to_nat fd) ltac:(lia)) as [e He]. rewrite He. cbn.
  rewrite list_insert_alter. do 2 f_equal. apply list_alter_ext; [|done]. intros x Hx. congruence.
Qed.

Section Env.
Variable answer : list call -> call -> Z.
Variable fstat : fdtab -> Z -> stat -> outcome (Z * option Z * stat).
Variable fcntl_getfl : Z -> Z.
Variable cfg_malloc : Z.
Variable environ : list str.

(** What the host says of a descriptor. *)
Variable host_stat : Z -> option stat.
Hypothesis fstat_host : forall t fd, fresh t -> 0 <= fd < 64 ->
  fstat t fd stat0 = match host_stat fd with Some s => Ret (0, None, s) | None => Ret (-1, Some EBADF, stat0) end.

(** The number of the 9pfs descriptor. *)
Definition fd9 : option Z := number (getenv (lit "9PFS_FD") environ).

(** The devices an entry adds to the guest. *)
Definition entry_calls (e : str) : list call :=
  match entry_fd e with
  | None => []
  | Some fd =>
      (if is_json e && negb (cfg_malloc =? 0) then [LoadConfigJson fd] else []) ++
      (if is_disk e then [DiskAdd fd] else []) ++
      (if is_net e then [NetdevRumpfdCreate fd] else []) ++
      (if is_9pfs e then [Add9pfs (default 0 fd9)] else [])
  end.

(** An entry the code can read: its value is a number and, when the entry names
    a descriptor, an open one. *)
Definition entry_ok (e : str) : Prop :=
  match after_eq e with
  | None => True
  | Some v =>
      exists fd, atoi_bytes v = Ret fd /\
        (is_fdinfo e = true -> 0 <= fd < 64 /\ is_Some (host_stat fd)) /\
        (is_9pfs e = true -> is_Some fd9)
  end.

(** The fields of an entry of the table that the program relies on. *)
Definition view (e : fdent) : Z * Z * stat := (valid e, flags e, FdTable.st e).
Definition host_view (fd : Z) : Z * Z * stat := (1, fcntl_getfl fd, default stat0 (host_stat fd)).

(** What one pass of the loop does to the table. *)
Definition enters (fd : Z) (t t' : fdtab) : Prop :=
  exists g, t' = alter g (Z.to_nat fd) t /\ forall x, mounted (g x) = mounted x /\ view (g x) = host_view fd.

Lemma enters_seek v fd t t' : enters fd t t' -> enters fd t (alter (set_seek v) (Z.to_nat fd) t').
Proof.
  intros (g & -> & Hg). exists (set_seek v ∘ g). split; [by rewrite list_alter_alter_eq|].
  intros x. apply Hg.
Qed.

Lemma enters_fresh fd t t' : enters fd t t' -> fresh t -> fresh t'.
Proof. intros (g & -> & Hg). apply fresh_alter. intros e. apply Hg. Qed.

Lemma fdinit_env_plain e n s :
  is_fdinfo e = false -> entry_ok e ->
  fdinit_env answer fstat fcntl_getfl cfg_malloc environ e n s = Ret s /\ entry_calls e = [].
Proof.
  intros Hp Hok. destruct (plain_entry e Hp) as (Hj & Hd & Hn & H9).
  unfold fdinit_env, entry_calls, entry_fd, number, entry_ok in *.
  fold (is_fdinfo e) (is_json e) (is_disk e) (is_net e) (is_9pfs e). rewrite Hp, Hj, Hd, Hn, H9.
  destruct (after_eq e) as [v|]; [|done]. destruct Hok as (fd & -> & _). done.
Qed.

(** [s'] is [s] with the descriptor entered and the calls [cs] made. *)
Definition stage (fd : Z) (s s' : state) (cs : list call) : Prop :=
  enters fd (fds s) (fds s') /\ calls s' = calls s ++ cs /\ handlers s' = handlers s.

Lemma stage_seek v fd s s' cs cs' id cfg :
  stage fd s s' cs ->
  stage fd s (State (alter (set_seek v) (Z.to_nat fd) (fds s')) id cfg (handlers s') (calls s' ++ cs')) (cs ++ cs').
Proof.
  intros (He & Hc & Hh). split_and!; cbn; [by apply enters_seek|by rewrite Hc, app_assoc|done].
Qed.

Lemma stage_fresh fd s s' cs : stage fd s s' cs -> fresh (fds s) -> fresh (fds s').
Proof. intros (He & _). by eapply enters_fresh. Qed.

(** The stages of the loop body, in order. *)
Lemma enter_stage fd n s st0 :
  0 <= fd < 64 -> fresh (fds s) -> host_stat fd = Some st0 ->
  exists s', (s ← on_fd fd (fun e => set_fl (fcntl_getfl fd) (set_valid 1 e)) s;
              '(r, _, st) ← fstat (fds s) fd stat0;
              s ← (if r =? -1 then on_fd n (set_valid 0) s else Ret s);
              on_fd fd (set_st st) s) = Ret s' /\ stage fd s s' [].
Proof.
  intros Hfd Hs Hst. rewrite on_fd_eq by done. cbn [mbind outcome_bind].
  rewrite fstat_host, Hst by (done || by apply fresh_alter). cbn [mbind outcome_bind Z.eqb].
  rewrite on_fd_eq by (done || by apply fresh_alter). eexists; split; [done|].
  split_and!; cbn; [|by rewrite app_nil_r|done].
  eexists. split; [apply list_alter_alter_eq|]. intros x. unfold view, host_view. by rewrite Hst.
Qed.

Lemma json_stage (b : bool) fd s s' cs :
  stage fd s s' cs ->
  stage fd s (if b then franken_lkl_load_json_config answer cfg_malloc fd s' else s')
    (cs ++ if b && negb (cfg_malloc =? 0) then [LoadConfigJson fd] else []).
Proof.
  intros (He & Hc & Hh). destruct b; cbn [andb]; [|by rewrite app_nil_r].
  unfold franken_lkl_load_json_config, invoke_, invoke. destruct (cfg_malloc =? 0); cbn [negb];
    (split_and!; cbn; [done| |done]); [by rewrite app_nil_r|by rewrite Hc, app_assoc].
Qed.

Lemma disk_stage (b : bool) fd s s' cs :
  0 <= fd < 64 -> fresh (fds s') -> stage fd s s' cs ->
  exists s3, (if b then
      s3 ← on_fd fd (set_seek 1) s';
      let '(id, s3) := invoke answer (DiskAdd fd) s3 in
      Ret (State (fds s3) id (json_cfg s3) (handlers s3) (calls s3)) else Ret s') = Ret s3 /\
    stage fd s s3 (cs ++ if b then [DiskAdd fd] else []).
Proof.
  intros Hfd Hf H. destruct b; [|rewrite app_nil_r; eauto]. rewrite on_fd_eq by done.
  eexists; split; [reflexivity|]. cbn. by apply stage_seek.
Qed.

Lemma net_stage (b : bool) fd s s' cs :
  0 <= fd < 64 -> fresh (fds s') -> stage fd s s' cs ->
  exists s4, (if b then
      s4 ← on_fd fd (set_seek 0) s'; Ret (invoke_ answer (NetdevRumpfdCreate fd) s4) else Ret s') = Ret s4 /\
    stage fd s s4 (cs ++ if b then [NetdevRumpfdCreate fd] else []).
Proof.
  intros Hfd Hf H. destruct b; [|rewrite app_nil_r; eauto]. rewrite on_fd_eq by done.
  eexists; split; [reflexivity|]. cbn. by apply stage_seek.
Qed.

Lemma p9_stage (b : bool) fd s s' cs :
  0 <= fd < 64 -> fresh (fds s') -> (b = true -> is_Some fd9) -> stage fd s s' cs ->
  exists s5, (if b then
      s5 ← on_fd fd (set_seek 0) s';
      match getenv (lit "9PFS_FD") environ with
      | Some tmpfd => fd9 ← atoi_bytes tmpfd; Ret (invoke_ answer (Add9pfs fd9) s5)
      | None => UB
      end else Ret s') = Ret s5 /\
    stage fd s s5 (cs ++ if b then [Add9pfs (default 0 fd9)] else []).
Proof.
  intros Hfd Hf H9 H. destruct b; [|rewrite app_nil_r; eauto]. rewrite on_fd_eq by done. cbn [mbind outcome_bind].
  destruct (H9 eq_refl) as [x Hx]. unfold fd9, number in Hx |- *.
  destruct (getenv _ environ) as [v9|]; [|done]. destruct (atoi_bytes v9); try done. simplify_eq.
  cbn [mbind outcome_bind default]. eexists; split; [reflexivity|]. cbn. by apply stage_seek.
Qed.

Lemma fdinit_env_named e n s fd :
  fresh (fds s) -> entry_ok e -> named_fd e = Some fd ->
  exists s', fdinit_env answer fstat fcntl_getfl cfg_malloc environ e n s = Ret s' /\ stage fd s s' (entry_calls e).
Proof.
  intros Hs Hok Hn. unfold named_fd in Hn. destruct (is_fdinfo e) eqn:Hi; [|done].
  unfold fdinit_env, entry_calls. rewrite Hn. unfold entry_fd, entry_ok, number in *.
  destruct (after_eq e) as [v|]; [|done]. destruct Hok as (fd' & Ha & Hfd & H9). rewrite Ha in *. simplify_eq.
  destruct (Hfd Hi) as [Hr [st0 Hst]].
  fold (is_fdinfo e) (is_json e) (is_disk e) (is_net e) (is_9pfs e). rewrite Hi. cbn [mbind outcome_bind].
  destruct (enter_stage fd n s st0 Hr Hs Hst) as (s1 & Hs1 & H1).
  match goal with |- context [mbind _ ?x] => replace x with (Ret s1) by (symmetry; exact Hs1) end.
  cbn [mbind outcome_bind]. apply (json_stage (is_json e)) in H1. rewrite app_nil_l in H1.
  destruct (disk_stage (is_disk e) fd s _ _ Hr (stage_fresh _ _ _ _ H1 Hs) H1) as (s3 & -> & H3).
  cbn [mbind outcome_bind].
  destruct (net_stage (is_net e) fd s _ _ Hr (stage_fresh _ _ _ _ H3 Hs) H3) as (s4 & -> & H4).
  cbn [mbind outcome_bind]. rewrite !app_assoc.
  destruct (p9_stage (is_9pfs e) fd s _ _ Hr (stage_fresh _ _ _ _ H4 Hs) H9 H4) as (s5 & Hs5 & H5).
  exists s5. split; [exact Hs5|exact H5].
Qed.

(** The table after the descriptors [ns] have been entered. *)
Definition tab_rel (ns : list Z) (t t' : fdtab) : Prop :=
  forall i e, t !! i = Some e -> exists e', t' !! i = Some e' /\
    view e' = if decide (Z.of_nat i ∈ ns) then host_view (Z.of_nat i) else view e.

Lemma tab_rel_refl t : tab_rel [] t t.
Proof. intros i e He. exists e. split; [done|]. rewrite decide_False; [done|apply not_elem_of_nil]. Qed.

Lemma tab_rel_trans a b t t' t'' : tab_rel a t t' -> tab_rel b t' t'' -> tab_rel (a ++ b) t t''.
Proof.
  intros H1 H2 i e He. destruct (H1 i e He) as (e' & He' & Hv). destruct (H2 i e' He') as (e'' & He'' & Hv').
  exists e''. split; [done|]. rewrite Hv'. destruct (decide (Z.of_nat i ∈ b)) as [Hb|Hb].
  - rewrite decide_True; [done|]. apply elem_of_app. by right.
  - rewrite Hv. destruct (decide (Z.of_nat i ∈ a)) as [Ha|Ha].
    + rewrite decide_True; [done|]. apply elem_of_app. by left.
    + rewrite decide_False; [done|]. rewrite elem_of_app. tauto.
Qed.

Lemma tab_rel_alter fd g t :
  0 <= fd -> (forall x, t !! Z.to_nat fd = Some x -> view (g x) = host_view fd) ->
  tab_rel [fd] t (alter g (Z.to_nat fd) t).
Proof.
  intros Hfd Hg i e He. destruct (decide (i = Z.to_nat fd)) as [->|Hi].
  - exists (g e). rewrite list_lookup_alter_eq, He. split; [done|].
    rewrite Z2Nat.id by done. rewrite decide_True by by left. by apply Hg.
  - exists e. rewrite list_lookup_alter_ne by done. split; [done|].
    rewrite decide_False; [done|]. rewrite list_elem_of_singleton. lia.
Qed.

Lemma tab_rel_keep g i t :
  (forall x, t !! i = Some x -> view (g x) = view x) -> tab_rel [] t (alter g i t).
Proof.
  intros Hg j e He. destruct (decide (j = i)) as [->|Hi].
  - exists (g e). rewrite list_lookup_alter_eq, He. split; [done|].
    rewrite decide_False by apply not_elem_of_nil. by apply Hg.
  - exists e. rewrite list_lookup_alter_ne by done. split; [done|]. by rewrite decide_False by apply not_elem_of_nil.
Qed.

Definition open_std (n : Z) : list Z := match host_stat n with Some _ => [n] | None => [] end.

Lemma fdinit_std_spec n s :
  0 <= n < 64 -> fresh (fds s) -> (forall e, fds s !! Z.to_nat n = Some e -> valid e = 0) ->
  exists s', fdinit_std fstat fcntl_getfl n s = Ret s' /\ fresh (fds s') /\
    tab_rel (open_std n) (fds s) (fds s') /\ calls s' = calls s /\ handlers s' = handlers s.
Proof.
  intros Hn Hs Hv. unfold fdinit_std, open_std. rewrite fstat_host by done.
  destruct (host_stat n) as [st0|] eqn:Est; cbn [mbind outcome_bind Z.eqb Pos.eqb]; rewrite on_fd_eq by done;
    eexists; (split; [done|]); (split_and!; [by apply fresh_alter| |done|done]).
  - apply tab_rel_alter; [lia|]. intros x _. unfold view, host_view. by rewrite Est.
  - apply tab_rel_keep. intros x Hx. unfold view. cbn. by rewrite (Hv x Hx).
Qed.

Lemma fdinit_env_spec e n s :
  fresh (fds s) -> entry_ok e ->
  exists s', fdinit_env answer fstat fcntl_getfl cfg_malloc environ e n s = Ret s' /\ fresh (fds s') /\
    tab_rel (option_list (named_fd e)) (fds s) (fds s') /\
    calls s' = calls s ++ entry_calls e /\ handlers s' = handlers s.
Proof.
  intros Hs Hok. destruct (named_fd e) as [fd|] eqn:Hn.
  - destruct (fdinit_env_named e n s fd Hs Hok Hn) as (s' & Hr & Hst).
    exists s'. split; [done|]. split; [by eapply stage_fresh|]. destruct Hst as ((g & Ht & Hg) & Hc & Hh).
    split_and!; [|done|done]. rewrite Ht. apply tab_rel_alter; [|intros x _; apply Hg].
    unfold named_fd, entry_fd, number, entry_ok in *. destruct (is_fdinfo e); [|done].
    destruct (after_eq e) as [v|]; [|done]. destruct Hok as (fd' & Ha & Hr' & _). rewrite Ha in Hn. simplify_eq.
    by apply Hr'.
  - assert (Hp : (after_eq e = None) \/ is_fdinfo e = false).
    { unfold named_fd, entry_fd, number, entry_ok in *. destruct (is_fdinfo e); [|by right]. left.
      destruct (after_eq e) as [v|]; [|done]. destruct Hok as (fd' & Ha & _). by rewrite Ha in Hn. }
    assert (Hr : fdinit_env answer fstat fcntl_getfl cfg_malloc environ e n s = Ret s /\ entry_calls e = []).
    { destruct Hp as [Hp|Hp]; [|by apply fdinit_env_plain].
      unfold fdinit_env, entry_calls, entry_fd, number. by rewrite Hp. }
    destruct Hr as [-> ->]. exists s. rewrite app_nil_r. split_and!; try done. apply tab_rel_refl.
Qed.

Lemma fdinit_loop_spec rest e n s :
  fresh (fds s) -> Forall entry_ok (e :: rest) ->
  exists s', fdinit_loop answer fstat fcntl_getfl cfg_malloc environ rest e n s = Ret s' /\ fresh (fds s') /\
    tab_rel (omap named_fd (e :: rest)) (fds s) (fds s') /\
    calls s' = calls s ++ flat_map entry_calls (e :: rest) /\ handlers s' = handlers s.
Proof.
  induction rest as [|e' rest IH] in e, n, s |- *; intros Hs [Hok Hrest]%Forall_cons; cbn [fdinit_loop];
    destruct (fdinit_env_spec e n s Hs Hok) as (s1 & -> & Hs1 & Ht & Hc & Hh); cbn [mbind outcome_bind].
  - exists s1. cbn [flat_map omap list_omap]. rewrite app_nil_r. split_and!; try done.
  - destruct (IH e' (n + 1) s1 Hs1 Hrest) as (s2 & -> & Hs2 & Ht2 & Hc2 & Hh2). exists s2.
    split_and!; [done|done| |by rewrite Hc2, Hc, <- app_assoc|congruence].
    pose proof (tab_rel_trans _ _ _ _ _ Ht Ht2) as H. by destruct (named_fd e) eqn:E; cbn [omap list_omap]; rewrite E.
Qed.

Lemma state0_empty i e : fds state0 !! i = Some e -> e = fdent0.
Proof. intros H. by apply lookup_replicate in H as [-> _]. Qed.

Lemma fresh_state0 : fresh (fds state0).
Proof. split; [done|]. apply Forall_replicate. done. Qed.

Lemma fdinit_stds :
  exists s, (s ← fdinit_std fstat fcntl_getfl 0 state0; s ← fdinit_std fstat fcntl_getfl 1 s;
             fdinit_std fstat fcntl_getfl 2 s) = Ret s /\ fresh (fds s) /\
    tab_rel (open_std 0 ++ open_std 1 ++ open_std 2) (fds state0) (fds s) /\ calls s = [] /\
    handlers s = AtExit.empty_handlers.
Proof.
  assert (Hkeep : forall ns n s, tab_rel ns (fds state0) (fds s) -> 0 <= n < 64 -> (n ∉ ns) ->
    forall e, fds s !! Z.to_nat n = Some e -> valid e = 0).
  { intros ns n s Ht Hn Hns e He. destruct (Ht (Z.to_nat n) fdent0) as (e' & He' & Hv).
    - apply lookup_replicate. split; [done|lia].
    - assert (e' = e) as -> by congruence. rewrite Z2Nat.id, decide_False in Hv by (done || lia).
      by injection Hv. }
  assert (Hother : forall a b, a <> b -> (a ∉ open_std b)).
  { intros a b Hab. unfold open_std. destruct (host_stat b); [|apply not_elem_of_nil].
    rewrite list_elem_of_singleton. congruence. }
  destruct (fdinit_std_spec 0 state0) as (s0 & -> & Hf0 & Ht0 & Hc0 & Hh0);
    [lia|apply fresh_state0|by intros e ->%state0_empty|]. cbn [mbind outcome_bind].
  destruct (fdinit_std_spec 1 s0) as (s1 & -> & Hf1 & Ht1 & Hc1 & Hh1);
    [lia|done|eapply Hkeep; [done|lia|by apply Hother]|]. cbn [mbind outcome_bind].
  pose proof (tab_rel_trans _ _ _ _ _ Ht0 Ht1) as Ht01.
  destruct (fdinit_std_spec 2 s1) as (s2 & -> & Hf2 & Ht2 & Hc2 & Hh2).
  { lia. } { done. } { eapply Hkeep; [done|lia|]. rewrite elem_of_app. intros [H|H]; by apply Hother in H. }
  exists s2. split_and!; [done|done| |by rewrite Hc2, Hc1, Hc0|by rewrite Hh2, Hh1, Hh0].
  rewrite app_assoc. by eapply tab_rel_trans.
Qed.

End Env.

End FdinitFacts.

(** ** Facts: creating the devices, and the whole run *)

Module CreateFacts.
Import FdTable Str Boot FdinitFacts.

Definition registered (hs : list handler) (h : AtExit.handlers handler) : AtExit.handlers handler :=
  fold_left (fun h g => (AtExit.atexit g h).2) hs h.

(** *** The two globals that the descriptors set *)

Section Globals.
Variable answer : list call -> call -> Z.
Variable cfg_malloc : Z.









Variable fstat : fdtab -> Z -> stat -> outcome (Z * option Z * stat).
Variable fcntl_getfl : Z -> Z.
Variable environ : list str.





End Globals.

(** *** What is done to create the devices, from the descriptors the program has

    [known] are the descriptors the program was given and [kind] says what they
    are; the calls depend on those made before them through their answers. *)



Section Spec.
Variable answer : list call -> call -> Z.
Variable mnt_path : list call -> call -> str.
Variable environ : list str.
Variable known : Z -> bool.
Variable kind : Z -> Z -> bool.
Variable disk : Z.







(** From [s] to [s'] the code makes the calls of [tr] and registers [k] handlers
    to unmount the root; the table keeps its entries apart from the [mounted]
    marks. *)
Definition does (s s' : state) (tr : list call -> list call) (k : nat) : Prop :=
  calls s' = calls s ++ tr (calls s) /\
  handlers s' = registered (replicate k unmount_atexit) (handlers s) /\
  map view (fds s') = map view (fds s) /\ json_cfg s' = json_cfg s /\ disk_id s' = disk_id s.




Lemma does_call c s : does s (invoke_ answer c s) (fun _ => [c]) 0.
Proof. split_and!; done. Qed.














End Spec.




Section Run.
Variable answer : list call -> call -> Z.
Variable fini_array : list Z.






End Run.
End CreateFacts.

(** ** The Linux platform under the start-up code *)

Module LinuxBoot.
Import FdTable LinuxHost FdinitFacts.

(** What the Linux [fstat] says of a descriptor while nothing is mounted. *)
Definition linux_stat_of (h : host) (sfd fd : Z) : option stat :=
  match LinuxHost.fstat h sfd __franken_fd fd stat0 with Ret (0, _, s) => Some s | _ => None end.

Lemma fresh_get t fd : fresh t -> 0 <= fd < 64 -> exists e, fd_get fd t = Ret e /\ mounted e = 0.
Proof.
  intros [Hl Ht] Hfd. unfold fd_get. case_cmp; [|lia].
  destruct (lookup_lt_is_Some_2 t (Z.to_nat fd) ltac:(lia)) as [e He]. rewrite He. exists e. split; [done|].
  rewrite Forall_lookup in Ht. by apply (Ht (Z.to_nat fd)).
Qed.

Lemma linux_fstat_fresh h sfd t fd :
  fresh t -> 0 <= fd < 64 ->
  LinuxHost.fstat h sfd t fd stat0 =
    match linux_stat_of h sfd fd with Some s => Ret (0, None, s) | None => Ret (-1, Some EBADF, stat0) end.
Proof.
  intros Ht Hfd. destruct (fresh_get t fd Ht Hfd) as (e & He & Hm).
  destruct (fresh_get __franken_fd fd fresh_state0 Hfd) as (e' & He' & Hm').
  unfold linux_stat_of, LinuxHost.fstat. destruct (sys_fstat h fd) as [lst|]; [|done].
  cbn [st_mode st_size st_hwaddr].
  destruct (_ =? S_IFSOCK); [destruct (getsockname h fd) as [[fam idx]|]; [destruct (fam =? AF_PACKET)|]; done|].
  destruct (_ =? S_IFBLK); [by destruct (ioctl_blkgetsize64 h fd)|].
  destruct (_ =? S_IFCHR).
  { destruct (maybe_tap (l_rdev lst)); cbn [negb]; [|done]. by destruct (ioctl_tungetiff h fd) as [[nm fl]|]. }
  destruct (_ =? S_IFREG); [|done]. rewrite He, He'. cbn [mbind outcome_bind]. by rewrite Hm, Hm'.
Qed.

End LinuxBoot.

(** ** Properties of the start-up code *)

Module BootProperties.
Import FdTable Str Boot FdinitFacts CreateFacts.

Section Main.
Variable answer : list call -> call -> Z.
Variable mnt_path : list call -> call -> str.
Variable fstat : fdtab -> Z -> stat -> outcome (Z * option Z * stat).
Variable fcntl_getfl : Z -> Z.
Variable cfg_malloc : Z.
Variable environ : list str.
Variable host_stat : Z -> option stat.

(** The entries the loop of [__franken_fdinit] goes through. *)
Definition visited : list str := match environ with [] => [] | e :: _ => e :: environ end.

(** The descriptors that are passed to the program. *)
Definition passed : list Z :=
  open_std host_stat 0 ++ open_std host_stat 1 ++ open_std host_stat 2 ++ omap named_fd visited.

Lemma fdinit_spec :
  (forall t fd, fresh t -> 0 <= fd < 64 ->
     fstat t fd stat0 = match host_stat fd with Some s => Ret (0, None, s) | None => Ret (-1, Some EBADF, stat0) end) ->
  Forall (entry_ok environ host_stat) environ ->
  exists s, __franken_fdinit answer fstat fcntl_getfl cfg_malloc environ state0 = Ret s /\ fresh (fds s) /\
    tab_rel fcntl_getfl host_stat passed (fds state0) (fds s) /\
    calls s = flat_map (entry_calls cfg_malloc environ) visited /\ handlers s = AtExit.empty_handlers.
Proof.
  intros Hst Hok. unfold __franken_fdinit, passed, visited.
  destruct (fdinit_stds fstat fcntl_getfl host_stat Hst) as (s & Hs & Hf & Ht & Hc & Hh).
  assert (Hbind : forall k, (s ← fdinit_std fstat fcntl_getfl 0 state0; s ← fdinit_std fstat fcntl_getfl 1 s;
                             s ← fdinit_std fstat fcntl_getfl 2 s; k s) = (k s : outcome state)).
  { intros k. destruct (fdinit_std _ _ 0 _) as [s0| | |]; cbn [mbind outcome_bind] in *; try done.
    destruct (fdinit_std _ _ 1 s0) as [s1| | |]; cbn [mbind outcome_bind] in *; try done. by rewrite Hs. }
  rewrite Hbind. destruct environ as [|e rest].
  - exists s. rewrite !app_nil_r. done.
  - destruct (fdinit_loop_spec answer fstat fcntl_getfl cfg_malloc (e :: rest) host_stat Hst (e :: rest) e 0 s Hf)
      as (s' & Hs' & Hf' & Ht' & Hc' & Hh'); [constructor; [by inversion Hok|done]|].
    exists s'. split_and!; [done|done| |by rewrite Hc', Hc|congruence].
    rewrite !app_assoc, <- (app_assoc (open_std host_stat 0)). by eapply tab_rel_trans.
Qed.

(** C33. When every descriptor named in the environment is open, the descriptor
    table marks exactly the open standard descriptors and the named ones valid,
    each with the flags and the status the host gives for it; and the devices
    added to the guest are those of the entries in order, the first entry
    counting twice. *)
Theorem fdinit_finds_descriptors :
  (forall t fd, fresh t -> 0 <= fd < 64 ->
     fstat t fd stat0 = match host_stat fd with Some s => Ret (0, None, s) | None => Ret (-1, Some EBADF, stat0) end) ->
  Forall (entry_ok environ host_stat) environ ->
  exists s, __franken_fdinit answer fstat fcntl_getfl cfg_malloc environ state0 = Ret s /\ length (fds s) = 64%nat /\
    (forall fd e, 0 <= fd -> fds s !! Z.to_nat fd = Some e ->
       view e = if decide (fd ∈ passed) then (1, fcntl_getfl fd, default stat0 (host_stat fd)) else (0, 0, stat0)) /\
    calls s = flat_map (entry_calls cfg_malloc environ) visited.
Proof.
  intros Hst Hok. destruct (fdinit_spec Hst Hok) as (s & Hs & [Hl _] & Ht & Hc & _).
  exists s. split_and!; try done. intros fd e Hfd He.
  destruct (Ht (Z.to_nat fd) fdent0) as (e' & He' & Hv).
  { apply lookup_replicate. split; [done|]. apply lookup_lt_Some in He. lia. }
  assert (e' = e) as -> by congruence. by rewrite Z2Nat.id in Hv.
Qed.




End Main.

(** What follows the last slash, if there is one. *)
Fixpoint after_slash (c : str) : option str :=
  match c with
  | [] => None
  | x :: c => match after_slash c with Some r => Some r | None => if x =? 47 then Some c else None end
  end.

Lemma progname_loop_eq c pn : progname_loop c pn = default pn (after_slash c).
Proof.
  induction c as [|x c IH] in pn |- *; cbn [progname_loop after_slash]; [done|]. rewrite IH.
  destruct (after_slash c); [done|]. by destruct (x =? 47).
Qed.

Lemma after_slash_spec c :
  match after_slash c with
  | Some r => exists d, c = d ++ 47 :: r /\ Forall (fun x => x <> 47) r
  | None => Forall (fun x => x <> 47) c
  end.
Proof.
  induction c as [|x c IH]; cbn [after_slash]; [done|]. destruct (after_slash c) as [r|].
  - destruct IH as (d & -> & Hr). by exists (x :: d).
  - destruct (Z.eqb_spec x 47) as [->|Hx]; [by exists []|by constructor].
Qed.

(** The program name is what follows the last slash of the first argument. *)
Theorem progname_basename argv0 :
  exists dir, argv0 = dir ++ __progname (Some argv0) /\
    Forall (fun c => c <> 47) (__progname (Some argv0)) /\ (dir = [] \/ exists d, dir = d ++ [47]).
Proof.
  unfold __progname. rewrite progname_loop_eq. pose proof (after_slash_spec argv0) as H.
  destruct (after_slash argv0) as [r|]; cbn [default].
  - destruct H as (d & -> & Hr). exists (d ++ [47]). rewrite <- app_assoc. split_and!; [done|done|]. right. by exists d.
  - exists []. by split_and!; [| |left].
Qed.

(** A device key carries the device's number exactly when the number has one
    digit or is a multiple of 11: of a two-digit number the first digit is
    written twice, so that different devices get the same key. *)
Theorem mkkey_prints_number_iff pre dev fd :
  0 <= dev <= 99 -> 0 <= fd <= 99 ->
  let good x := x < 10 \/ x mod 11 = 0 in
  mkkey pre dev fd = Ret (pre ++ print_dec dev ++ [0], print_dec fd ++ [0]) <-> good dev /\ good fd.
Proof.
  intros Hd Hf good.
  assert (Hnum : forall x, 0 <= x <= 99 -> mkkey_num x = print_dec x ++ [0] <-> good x).
  { intros x Hx. assert (Hall : forallb (fun i => let x := Z.of_nat i in
      Bool.eqb (bool_decide (mkkey_num x = print_dec x ++ [0])) (bool_decide (x < 10 \/ x mod 11 = 0))) (seq 0 100) = true)
      by (vm_compute; reflexivity).
    rewrite forallb_forall in Hall. specialize (Hall (Z.to_nat x)). rewrite Z2Nat.id in Hall by lia.
    assert (Hin : List.In (Z.to_nat x) (seq 0 100)) by (apply List.in_seq; lia).
    specialize (Hall Hin). apply Bool.eqb_prop in Hall. unfold good.
    by rewrite <- (bool_decide_spec (mkkey_num x = _)), <- (bool_decide_spec (x < 10 \/ _)), Hall. }
  unfold mkkey. do 2 (case_cmp; [lia|]) || idtac. rewrite <- !Hnum by done.
  destruct (99 <? fd) eqn:E1, (99 <? dev) eqn:E2; to_prop; try lia. cbn [orb]. split.
  - intros [= H1%app_inv_head H2]. done.
  - intros [-> ->]. done.
Qed.

(** The root descriptor is marked as mounted only if the last of the device
    nodes could be created: when the root file system already has its
    /dev/urandom the mount succeeds and the mark is not set. *)
Theorem root_mark_needs_mknod answer mnt_path environ s v fd e :
  getenv (lit "__RUMP_FDINFO_ROOT") environ = Some v -> atoi_bytes v = Ret fd ->
  fd_get fd (fds s) = Ret e -> valid e <> 0 ->
  (forall h, answer h (Mknod (lit "/dev/urandom") 384 1 9) = -17) ->
  exists s', create_root answer mnt_path environ s = Ret (1, s') /\ fds s' = fds s.
Proof.
  intros Hg Ha He Hv Hm. unfold create_root. rewrite Hg, Ha. cbn [mbind outcome_bind]. rewrite He.
  cbn [mbind outcome_bind]. destruct (Z.eqb_spec (valid e) 0); [done|]. cbn [negb].
  unfold register_block. cbn [invoke].
  destruct (_ <? 0); cbn -[lit]; rewrite Hm; cbn -[lit]; eexists; split; done.
Qed.

(** A named descriptor the host does not know is left valid in the table, and
    the entry that is cleared instead is that of the loop counter: here the
    program's standard input. *)
Theorem failed_fstat_clears_counter :
  let host := {| LinuxHost.sys_fstat := fun fd => if (0 <=? fd) && (fd <=? 2) then Some (LinuxHost.LStat 0 S_IFCHR 0) else None;
                 LinuxHost.getsockname := fun _ => None; LinuxHost.ioctl_gifname := fun _ _ => None;
                 LinuxHost.ioctl_gifhwaddr := fun _ _ => None; LinuxHost.ioctl_tungetiff := fun _ => None;
                 LinuxHost.ioctl_blkgetsize64 := fun _ => None |} in
  exists s, __franken_fdinit (fun _ _ => 0) (LinuxHost.fstat host (-1)) (fun _ => 0) 0
              [lit "__RUMP_FDINFO_NET_tap0=7"] state0 = Ret s /\
    (valid <$> fds s !! 7%nat) = Some 1 /\ (valid <$> fds s !! 0%nat) = Some 0.
Proof. eexists. split; [vm_compute; reflexivity|]. split; reflexivity. Qed.

(** *** Witnesses *)

Definition demo_env : list str :=
  [lit "HOME=/"; lit "__RUMP_FDINFO_NET_tap0=4"; lit "__RUMP_FDINFO_ROOT=5"].

Lemma entry_ok_intro env host_stat e v fd :
  after_eq e = Some v -> atoi_bytes v = Ret fd ->
  (is_fdinfo e = false \/ (0 <= fd < 64 /\ is_Some (host_stat fd))) -> is_9pfs e = false -> entry_ok env host_stat e.
Proof.
  intros He Ha Hi H9. unfold entry_ok. rewrite He. exists fd. split_and!; [done| |congruence].
  intros. destruct Hi as [?|?]; [congruence|done].
Qed.

Lemma demo_env_ok :
  Forall (entry_ok demo_env (LinuxBoot.linux_stat_of HostProperties.demo_host (-1))) demo_env.
Proof.
  unfold demo_env at 2.
  apply Forall_cons_2; [eapply entry_ok_intro; [reflexivity|reflexivity|left; reflexivity|reflexivity]|].
  apply Forall_cons_2; [eapply entry_ok_intro; [reflexivity|reflexivity| |reflexivity]|].
  { right. split; [lia|]. eexists. vm_compute. reflexivity. }
  apply Forall_cons_2; [eapply entry_ok_intro; [reflexivity|reflexivity| |reflexivity]|].
  { right. split; [lia|]. eexists. vm_compute. reflexivity. }
  apply Forall_nil_2.
Qed.

Lemma fdinit_finds_descriptors_witness :
  exists s, __franken_fdinit (fun _ _ => 0) (LinuxHost.fstat HostProperties.demo_host (-1)) (fun _ => 2) 0 demo_env state0
              = Ret s /\ length (fds s) = 64%nat /\
    (forall fd e, 0 <= fd -> fds s !! Z.to_nat fd = Some e ->
       view e = if decide (fd ∈ passed demo_env (LinuxBoot.linux_stat_of HostProperties.demo_host (-1)))
                then (1, 2, default stat0 (LinuxBoot.linux_stat_of HostProperties.demo_host (-1) fd)) else (0, 0, stat0)) /\
    calls s = flat_map (entry_calls 0 demo_env) (visited demo_env).
Proof.
  apply (fdinit_finds_descriptors (fun _ _ => 0) (LinuxHost.fstat HostProperties.demo_host (-1)) (fun _ => 2) 0 demo_env
           (LinuxBoot.linux_stat_of HostProperties.demo_host (-1))).
  - intros t fd. apply LinuxBoot.linux_fstat_fresh.
  - apply demo_env_ok.
Defined.


Lemma mkkey_prints_number_iff_witness :
  mkkey (lit "/dev/block") 12 5 = Ret (lit "/dev/block" ++ print_dec 12 ++ [0], print_dec 5 ++ [0]) <->
  (12 < 10 \/ 12 mod 11 = 0) /\ (5 < 10 \/ 5 mod 11 = 0).
Proof. apply (mkkey_prints_number_iff (lit "/dev/block") 12 5); lia. Defined.

Lemma root_mark_needs_mknod_witness :
  exists s', create_root (fun _ c => match c with Mknod _ _ _ _ => -17 | _ => 0 end) (fun _ _ => [])
               [lit "__RUMP_FDINFO_ROOT=5"]
               (upd_fds (<[5%nat := set_valid 1 fdent0]> __franken_fd) state0) = Ret (1, s') /\
    fds s' = fds (upd_fds (<[5%nat := set_valid 1 fdent0]> __franken_fd) state0).
Proof.
  apply (root_mark_needs_mknod _ _ _ _ (lit "5") 5 (set_valid 1 fdent0)); [reflexivity|reflexivity|reflexivity|discriminate|reflexivity].
Defined.

End BootProperties.
