(* ===== verification/Rumpuser.v ===== *)
(** * The hypercalls of the guest kernel: memory, files, parameters

    [librumpuser/rumpuser_mem.c], [rumpuser_file.c], [rumpuser_random.c] and the
    parts of [rumpuser.c] that are not calls of the thread library.  They put the
    allocator (file [Malloc]), the platform's [mmap] (file [Platform]) and the
    descriptor table (file [Fdtable]) behind the interface the guest kernel uses.

    The memory a guest kernel gets is proved correct on the bare-metal platform,
    where the same page source serves the allocator and the hypercalls. *)

From S2P Require Import Prelude Libc Platform Malloc Thread Fdtable Boot.
From Stdlib Require Import ZArith Lia String.
From stdpp Require Import base numbers list gmap.
Local Open Scope Z_scope.

(** ** Memory *)

Module Memory.
Import Malloc.

(** [pagesize], and the heap with the memory and the page source below it. *)
Record rmem (P : Type) : Type := Rmem { pagesize : Z; rheap : heap P }.
Arguments Rmem {P} _ _.
Arguments pagesize {P} _.
Arguments rheap {P} _.

(** [while (alignment > 1) { alignment >>= 1; af++; }] on an [int]. *)
Fixpoint align_loop (fuel : nat) (alignment af : Z) : outcome Z :=
  match fuel with
  | O => NoFuel
  | S fuel => if alignment >? 1 then align_loop fuel (Z.shiftr alignment 1) (af + 1) else Ret af
  end.

Section Calls.
Context {P : Type} `{PageSource P}.
Variable mmap : Z -> Z -> Z -> Z -> Z -> Z -> P -> outcome (Z * option Z * P).
Variable munmap : Z -> Z -> P -> Z * P.

Definition set_pages (p : P) (h : heap P) : heap P := Heap (nextf h) (pagesz h) (pagebucket h) (hmem h) p.

(** A mapping of fresh memory. *)
Definition map_pages (a len : Z) (p : P) (h : heap P) : heap P :=
  Heap (nextf h) (pagesz h) (pagebucket h) (map_zero (hmem h) a len) p.

(** The error number, the pointer stored through [memp] if any, the state. *)
Definition rumpuser_malloc (size alignment : Z) (st : rmem P) : outcome (Z * option Z * rmem P) :=
  let pg := if pagesize st =? 0 then ps_pagesz else pagesize st in
  if size <? pg then
    let alignment := if alignment <? 8 then 8 else alignment in
    '(r, memp, h) ← posix_memalign alignment size (rheap st);
    Ret (r, memp, Rmem pg h)
  else
    af ← align_loop 32 alignment 0;
    '(mem, _, p) ← mmap 0 size 7 (Z.lor (Z.lor MAP_PRIVATE MAP_ANON) (MAP_ALIGNED af)) (-1) 0 (pages (rheap st));
    if mem =? MAP_FAILED then Ret (EINVAL, None, Rmem pg (set_pages p (rheap st)))
    else Ret (0, Some mem, Rmem pg (map_pages mem size p (rheap st))).

Definition rumpuser_free (ptr size : Z) (st : rmem P) : outcome (rmem P) :=
  if size <? pagesize st then h ← free ptr (rheap st); Ret (Rmem (pagesize st) h)
  else Ret (Rmem (pagesize st) (set_pages (munmap ptr size (pages (rheap st))).2 (rheap st))).

(** [errno] before the call, for a failure that does not set it. *)
Definition rumpuser_anonmmap (errno prefaddr size alignbit : Z) (exec : bool) (st : rmem P) :
    outcome (Z * option Z * rmem P) :=
  let prot := Z.lor 3 (if exec then 4 else 0) in
  '(mem, e, p) ← mmap prefaddr size prot (Z.lor (Z.lor MAP_PRIVATE MAP_ANON) (MAP_ALIGNED alignbit)) (-1) 0 (pages (rheap st));
  if mem =? MAP_FAILED then Ret (default errno e, None, Rmem (pagesize st) (set_pages p (rheap st)))
  else Ret (0, Some mem, Rmem (pagesize st) (map_pages mem size p (rheap st))).

Definition rumpuser_unmap (addr len : Z) (st : rmem P) : rmem P :=
  Rmem (pagesize st) (set_pages (munmap addr len (pages (rheap st))).2 (rheap st)).

End Calls.

(** The static initialiser. *)
Definition rmem_init {P} (h : heap P) : rmem P := Rmem 0 h.

End Memory.

(** ** Facts: mapped memory next to the heap *)

Module MemoryFacts.
Import Malloc MallocArith MallocInv MallocLemmas MallocSteps MallocRep Memory.

Section Rep.
Context {P : Type} `{PageSource P}.
Implicit Types (h : heap P) (R : gmap Z Z) (E : Z -> Prop).

Lemma heap_rep_less h R E E' : (forall x, E' x -> E x) -> heap_rep h R E -> heap_rep h R E'.
Proof.
  intros HE (bl & fr & [H1 H2 H3 H4 H5]). exists bl, fr. split; try done.
  - intros x Hx. by apply H4, HE.
  - intros x a b st Hx. by apply H5, HE.
Qed.

(** A page source that has less left does as well. *)
Lemma inv_pages_less h bl fr p' :
  ps_ok p' -> (forall x, ps_free p' x -> ps_free (pages h) x) -> inv h bl fr -> inv (set_pages p' h) bl fr.
Proof.
  intros Hok Hsub Hi. split; try apply Hi; [done|]. intros x Hx Hf. by apply (inv_mapped _ _ _ Hi x Hx), Hsub.
Qed.

Lemma heap_rep_pages h R E p' :
  ps_ok p' -> (forall x, ps_free p' x -> ps_free (pages h) x) -> heap_rep h R E -> heap_rep (set_pages p' h) R E.
Proof.
  intros Hok Hsub (bl & fr & [H1 H2 H3 H4 H5]). exists bl, fr. split; try done. by apply inv_pages_less.
Qed.

(** Fresh memory joins the memory the program has from elsewhere. *)
Lemma inv_map h bl fr a len p' :
  inv h bl fr -> ps_ok p' -> (forall x, ps_free p' x -> ps_free (pages h) x) ->
  (forall x, a <= x < a + len -> ps_free (pages h) x /\ ~ ps_free p' x) -> inv (map_pages a len p' h) bl fr.
Proof.
  intros Hi Hok Hsub Hfree.
  assert (Hout : forall x, mapped_at (hmem h) x = true -> x < a \/ a + len <= x).
  { intros x Hx. destruct (decide (a <= x < a + len)) as [Hin|]; [|lia].
    by destruct (inv_mapped _ _ _ Hi x Hx); apply Hfree. }
  assert (Hsame : forall y b st x, bl !! y = Some (b, st) -> y <= x < y + bsize b -> peek (map_zero (hmem h) a len) x = peek (hmem h) x).
  { intros y b st x Hy Hx. apply peek_map_zero_out, Hout. replace x with (y + (x - y)) by lia.
    apply (blk_mapped _ _ _ (inv_blocks _ _ _ Hi _ _ _ Hy)). lia. }
  destruct Hi as [I1 I2 I3 I4 I5 I6 I7 I8 I9 I10 I11]. split; cbn [map_pages nextf pagesz pagebucket hmem pages]; try done.
  - by apply mem_wf_map_zero.
  - intros x. rewrite mapped_at_map_zero. intros [Hx%in_range_iff|Hx]%orb_true_iff; [by apply Hfree|]. intros Hf. by apply (I5 x Hx), Hsub.
  - intros y b st Hy. destruct (I6 y b st Hy) as [? ? ? ? Hm]. split; try done. intros i Hi'. rewrite mapped_at_map_zero, Hm by done.
    apply orb_true_r.
  - intros y b rv Hy. eapply header_ext; [|by apply I8]. intros x Hx. by eapply Hsame.
  - intros b q Hq Hb. eapply chain_ext; [|by apply I9]. intros x Hx%I10. apply peekn_ext. intros i Hi'.
    eapply Hsame; [exact Hx|]. pose proof (bsize_max b (blk_bucket _ _ _ (I6 _ _ _ Hx))). lia.
Qed.

Lemma heap_rep_map h R E a len p' :
  heap_rep h R E -> ps_ok p' -> (forall x, ps_free p' x -> ps_free (pages h) x) ->
  (forall x, a <= x < a + len -> ps_free (pages h) x /\ ~ ps_free p' x) ->
  heap_rep (map_pages a len p' h) R (fun x => E x \/ a <= x < a + len) /\ preserves h (map_pages a len p' h) (owned R E) /\
  forall x, a <= x < a + len -> ~ owned R E x.
Proof.
  intros (bl & fr & Hr) Hok Hsub Hfree. pose proof Hr as [H1 H2 H3 H4 H5].
  assert (Hnot : forall x, a <= x < a + len -> mapped_at (hmem h) x = true -> False).
  { intros x Hx Hm. by apply (inv_mapped _ _ _ H1 x Hm), Hfree. }
  split_and!.
  - exists bl, fr. split; try done.
    + by apply inv_map.
    + intros x [Hx|Hx]; cbn [map_pages hmem]; rewrite mapped_at_map_zero; apply orb_true_iff; [right; by apply H4|left; by apply in_range_iff].
    + intros x y b st [Hx|Hx] Hy Hin; [by apply (H5 x y b st)|]. apply (Hnot x Hx). replace x with (y + (x - y)) by lia.
      apply (blk_mapped _ _ _ (inv_blocks _ _ _ H1 _ _ _ Hy)). lia.
  - intros x Hx. destruct (owned_ok _ _ _ _ _ _ Hr Hx) as [Hm _]. cbn [map_pages hmem]. rewrite mapped_at_map_zero, Hm, orb_true_r.
    split; [done|]. apply peek_map_zero_out. destruct (decide (a <= x < a + len)); [|lia]. by destruct (Hnot x).
  - intros x Hx Ho. destruct (owned_ok _ _ _ _ _ _ Hr Ho) as [Hm _]. by eapply Hnot.
Qed.

End Rep.
End MemoryFacts.

(** ** The guest kernel's memory on the bare-metal target *)

Module GuestMemory.
Import Malloc MallocArith MallocInv MallocLemmas MallocSteps MallocRep Memory MemoryFacts Bump BumpFacts.

Abbreviation gmem := (rmem core).
Definition rumpuser_malloc := Memory.rumpuser_malloc Spike.mmap.
Definition rumpuser_free := Memory.rumpuser_free Spike.munmap.

(** The allocations below the size of a page are the allocator's, the others are
    mappings. *)
Definition small (G : gmap Z Z) : gmap Z Z := filter (fun kv => kv.2 < getpagesize) G.
Definition large (G : gmap Z Z) (x : Z) : Prop := exists a n, G !! a = Some n /\ getpagesize <= n /\ a <= x < a + n.

(** The guest kernel holds the allocations [G], an address and a size each, and
    the rest of the program the memory [E]. *)
Record guest_rep (st : gmem) (G : gmap Z Z) (E : Z -> Prop) : Prop := {
  gr_page : pagesize st = 0 /\ G = ∅ \/ pagesize st = getpagesize;
  gr_sizes : map_Forall (fun _ n => 0 < n) G;
  gr_heap : heap_rep (rheap st) (small G) (fun x => E x \/ large G x);
}.

Lemma owned_split G E x : owned (small G) (fun x => E x \/ large G x) x <-> owned G E x.
Proof.
  unfold owned, large, small. split.
  - intros [[HE|(a & n & Ha & _ & Hx)]|(a & n & Ha & Hx)]; [by left|right; eauto|]. apply map_lookup_filter_Some in Ha as [Ha _]. right; eauto.
  - intros [HE|(a & n & Ha & Hx)]; [by left; left|]. destruct (decide (n < getpagesize)).
    + right. exists a, n. split; [by apply map_lookup_filter_Some|done].
    + left. right. exists a, n. split_and!; done || lia.
Qed.

(** The alignment, as the platform reads it from the flags. *)
Definition anon_flags (af : Z) : Z := Z.lor (Z.lor MAP_PRIVATE MAP_ANON) (MAP_ALIGNED af).

Lemma anon_flags_bits af : 0 <= af < 32 -> flags_bits (anon_flags af) = if af =? 0 then 12 else af.
Proof.
  intros Haf. assert (H : forallb (fun n => flags_bits (anon_flags (Z.of_nat n)) =? (if Z.of_nat n =? 0 then 12 else Z.of_nat n)) (seq 0 32) = true)
    by (vm_compute; reflexivity).
  rewrite forallb_forall in H. specialize (H (Z.to_nat af) ltac:(apply in_seq; lia)). rewrite Z2Nat.id in H by lia. by apply Z.eqb_eq.
Qed.

Lemma align_loop_pow k : forall fuel af, (k < fuel)%nat -> align_loop fuel (2 ^ Z.of_nat k) af = Ret (af + Z.of_nat k).
Proof.
  induction k as [|k IH]; intros [|fuel] af Hk; try lia; cbn [align_loop].
  - rewrite Z.add_0_r. done.
  - rewrite Nat2Z.inj_succ, Z.pow_succ_r by lia. destruct (Z.gtb_spec (2 * 2 ^ Z.of_nat k) 1); [|lia].
    rewrite Z.shiftr_div_pow2, Z.pow_1_r, Z.mul_comm, Z.div_mul by lia. rewrite IH by lia. f_equal. lia.
Qed.

Lemma small_insert G p n : n < getpagesize -> small (<[p := n]> G) = <[p := n]> (small G).
Proof. intros Hn. unfold small. by rewrite map_filter_insert_True. Qed.

Lemma small_insert_large G p n : getpagesize <= n -> G !! p = None -> small (<[p := n]> G) = small G.
Proof.
  intros Hn Hp. unfold small. rewrite map_filter_insert_False by (cbn; lia). by rewrite delete_id.
Qed.


(** A nonempty allocation apart from what is owned has a new address. *)
Lemma fresh_address G E p n :
  map_Forall (fun _ n => 0 < n) G -> 0 < n -> (forall x, p <= x < p + n -> ~ owned G E x) -> G !! p = None.
Proof.
  intros HG Hn Hno. destruct (G !! p) as [k|] eqn:Hp; [|done]. destruct (Hno p ltac:(lia)). right. exists p, k.
  split; [done|]. pose proof (HG _ _ Hp) as Hk. cbn in Hk. lia.
Qed.

Lemma preserves_ext {P} (h h' : heap P) T T' : (forall x, T' x -> T x) -> preserves h h' T -> preserves h h' T'.
Proof. intros HT Hp x Hx. by apply Hp, HT. Qed.

Lemma pow_small_align k : 0 <= k < 31 -> let a := if 2 ^ k <? 8 then 8 else 2 ^ k in
  0 <= a < 2 ^ 31 /\ forall rv, rv mod eff_align a = 0 -> rv mod 2 ^ k = 0.
Proof.
  intros Hk a. assert (2 ^ k < 2 ^ 31) by (apply Z.pow_lt_mono_r; lia).
  unfold a, eff_align, MINALIGN. split; [case_cmp; lia|]. intros rv. destruct (Z.ltb_spec (2 ^ k) 8).
  - change (8 <? 16) with true. cbv iota. change 16 with (2 ^ 4). intros Hrv. apply (mod_le_pow _ _ 4); [|done].
    split; [lia|]. apply (Z.pow_le_mono_r_iff 2); lia.
  - case_cmp; [|done]. change 16 with (2 ^ 4) in *. intros Hrv. apply (mod_le_pow _ _ 4); [|done]. split; [lia|].
    apply (Z.pow_le_mono_r_iff 2); lia.
Qed.

(** What a request gives the guest kernel. *)
Definition granted (st st' : gmem) (G : gmap Z Z) (E : Z -> Prop) (size k r : Z) (memp : option Z) : Prop :=
  preserves (rheap st) (rheap st') (owned G E) /\
  (r <> 0 /\ memp = None /\ guest_rep st' G E \/
   exists p, r = 0 /\ memp = Some p /\ p mod 2 ^ k = 0 /\ G !! p = None /\
     (forall x, p <= x < p + size -> ~ owned G E x) /\ guest_rep st' (<[p := size]> G) E).

Lemma malloc_small st G E size k :
  guest_rep st G E -> 0 < size < getpagesize -> 0 <= k < 31 ->
  exists r memp h', posix_memalign (if 2 ^ k <? 8 then 8 else 2 ^ k) size (rheap st) = Ret (r, memp, h') /\
    granted st (Rmem getpagesize h') G E size k r memp.
Proof.
  intros [Hpg HG Hr] Hsz Hk. destruct (pow_small_align k Hk) as [Ha Hal]. set (a := if _ <? 8 then _ else _) in *.
  assert (eff_align a <= 2 ^ 31) by (unfold eff_align, MINALIGN; case_cmp; lia).
  destruct (rep_alloc a size (rheap st) _ _ Hr ltac:(lia) ltac:(lia) ltac:(unfold getpagesize in *; lia)) as (rv & h' & Hop & Hp & Hres).
  unfold posix_memalign. rewrite Hop. cbn [mbind outcome_bind].
  apply (preserves_ext _ _ _ (owned G E)) in Hp; [|intros x; apply owned_split].
  destruct Hres as [(-> & Hr' & _)|(Hpos & _ & Hmod & _ & Hno & Hr')].
  - eexists _, _, h'. split; [done|]. split; [done|]. left. split_and!; [done|done|]. split; [by right|done|done].
  - destruct (Z.eqb_spec rv 0) as [|_]; [lia|]. eexists _, _, h'. split; [done|]. split; [done|]. right. exists rv.
    assert (Hno' : forall x, rv <= x < rv + size -> ~ owned G E x) by (intros x Hx; rewrite <- owned_split; by apply Hno).
    pose proof (fresh_address G E rv size HG ltac:(lia) Hno') as Hnone. split_and!; [done|done|by apply Hal|done|done|].
    split; [by right|by apply map_Forall_insert_2; [lia|]|]. rewrite small_insert by lia.
    eapply heap_rep_less; [|exact Hr']. intros x [HE|(y & n & Hy & Hn & Hx)]; [by left|]. right.
    apply lookup_insert_Some in Hy as [[_ <-]|[_ Hy]]; [lia|]. by exists y, n.
Qed.

Lemma malloc_large st G E size k :
  guest_rep st G E -> getpagesize <= size <= 2 ^ 62 -> 0 <= k < 31 ->
  exists r memp st', (af ← align_loop 32 (2 ^ k) 0;
     '(mem, _, p) ← Spike.mmap 0 size 7 (anon_flags af) (-1) 0 (pages (rheap st));
     if mem =? MAP_FAILED then Ret (EINVAL, None, Rmem getpagesize (set_pages p (rheap st)))
     else Ret (0, Some mem, Rmem getpagesize (map_pages mem size p (rheap st)))) = Ret (r, memp, st') /\
    granted st st' G E size k r memp.
Proof.
  intros [Hpg HG Hr] Hsz Hk. pose proof (align_loop_pow (Z.to_nat k) 32 0 ltac:(lia)) as Hloop.
  rewrite Z2Nat.id, Z.add_0_l in Hloop by lia. rewrite Hloop.
  cbn [mbind outcome_bind]. pose proof (anon_flags_bits k ltac:(lia)) as Hbits.
  assert (Hok : spike_ok (pages (rheap st))) by (destruct Hr as (bl & fr & Hr); apply (inv_pages _ _ _ (rep_inv _ _ _ _ _ Hr))).
  destruct (spike_mmap_spec size 7 (anon_flags k) (pages (rheap st)) Hok ltac:(unfold getpagesize in *; lia)
    ltac:(rewrite Hbits; case_cmp; lia)) as (a & e & c' & -> & Hok' & Hsub & Hgot). cbn [mbind outcome_bind].
  destruct (Z.eqb_spec a MAP_FAILED) as [->|Hne].
  - eexists _, _, _. split; [done|]. split.
    + intros x Hx. cbn. apply owned_split in Hx. destruct Hr as (bl & fr & Hr). by destruct (owned_ok _ _ _ _ _ _ Hr Hx).
    + left. split_and!; [done|done|]. split; [by right|done|]. by apply heap_rep_pages.
  - destruct (Hgot Hne) as (Hpos & Hmod & _ & Hfree). eexists _, _, _. split; [done|].
    destruct (heap_rep_map (rheap st) _ _ a size c' Hr Hok' Hsub Hfree) as (Hr' & Hp & Hno).
    split; [eapply preserves_ext; [|exact Hp]; intros x; apply owned_split|]. right. exists a.
    assert (Hno' : forall x, a <= x < a + size -> ~ owned G E x) by (intros x Hx; rewrite <- owned_split; by apply Hno).
    pose proof (fresh_address G E a size HG ltac:(unfold getpagesize in *; lia) Hno') as Hnone. split_and!; [done|done| |done|done|].
    { rewrite Hbits in Hmod. destruct (Z.eqb_spec k 0) as [->|]; [apply Z.mod_1_r|done]. }
    split; [by right|apply map_Forall_insert_2; [unfold getpagesize in *; lia|done]|]. rewrite small_insert_large by (done || lia).
    eapply heap_rep_less; [|exact Hr']. intros x [HE|(y & n & Hy & Hn & Hx)]; [by left; left|].
    apply lookup_insert_Some in Hy as [[<- <-]|[_ Hy]]; [by right|]. left. right. by exists y, n.
Qed.

Lemma malloc_granted st G E size k :
  guest_rep st G E -> 0 < size <= 2 ^ 62 -> 0 <= k < 31 ->
  exists r memp st', rumpuser_malloc size (2 ^ k) st = Ret (r, memp, st') /\ granted st st' G E size k r memp.
Proof.
  intros Hg Hsz Hk. unfold rumpuser_malloc, Memory.rumpuser_malloc.
  assert ((if pagesize st =? 0 then ps_pagesz else pagesize st) = getpagesize) as ->.
  { destruct (gr_page _ _ _ Hg) as [[-> _]| ->]; done. }
  cbn zeta. destruct (Z.ltb_spec size getpagesize).
  - destruct (malloc_small st G E size k Hg ltac:(lia) Hk) as (r & memp & h' & -> & H'). cbn [mbind outcome_bind]. by eexists _, _, _.
  - apply malloc_large; [done|lia|done].
Qed.


End GuestMemory.

(** ** Files *)

Module Files.
Import FdTable Str.

Abbreviation str := (list Z).

Definition RUMPUSER_FT_OTHER : Z := 0.
Definition RUMPUSER_FT_DIR : Z := 1.
Definition RUMPUSER_FT_REG : Z := 2.
Definition RUMPUSER_FT_BLK : Z := 3.
Definition RUMPUSER_BIO_READ : Z := 1.
Definition RUMPUSER_BIO_WRITE : Z := 2.
Definition RUMPUSER_BIO_SYNC : Z := 4.
Definition RUMPUSER_IOV_NOSEEK : Z := -1.

(** The platform's calls on a descriptor, and the completion of a block request. *)
Inductive io : Type :=
  | Readv (fd : Z) (iov : list Z)
  | Preadv (fd : Z) (iov : list Z) (off : Z)
  | Writev (fd : Z) (iov : list Z)
  | Pwritev (fd : Z) (iov : list Z) (off : Z)
  | Pread (fd dlen off : Z)
  | Pwrite (fd dlen off : Z)
  | Fsync (fd : Z)
  | Biodone (n err : Z).

(** [errno] and what was done. *)
Record iost : Type := Iost { errno : Z; log : list io }.

(** A descriptor is named by its number. *)
Definition find_fd (path : str) (t : fdtab) : outcome (option (Z * fdent)) :=
  fd ← atoi_bytes path;
  if (fd <? 0) || (MAXFD <=? fd) then Ret None
  else e ← fd_get fd t; Ret (if valid e =? 0 then None else Some (fd, e)).

Definition file_type (st_mode : Z) : Z :=
  let m := Z.land st_mode S_IFMT in
  if m =? S_IFDIR then RUMPUSER_FT_DIR
  else if m =? S_IFREG then RUMPUSER_FT_REG
  else if m =? S_IFBLK then RUMPUSER_FT_BLK
  else RUMPUSER_FT_OTHER.

(** The error number, and the size and the type that are stored. *)
Definition rumpuser_getfileinfo (path : str) (t : fdtab) : outcome (Z * option (Z * Z)) :=
  f ← find_fd path t;
  match f with
  | None => Ret (ENOENT, None)
  | Some (_, e) => Ret (0, Some (st_size (st e), file_type (st_mode (st e))))
  end.

Definition rumpuser_open (path : str) (t : fdtab) : outcome (Z * option Z) :=
  f ← find_fd path t;
  match f with None => Ret (ENOENT, None) | Some (fd, _) => Ret (0, Some fd) end.

Section Io.
(** The result of a call, and the errno of a failure. *)
Variable host : list io -> io -> Z * Z.

Definition perform (c : io) (s : iost) : Z * iost :=
  let '(n, e) := host (log s) c in (n, Iost (if n =? -1 then e else errno s) (log s ++ [c])).

(** The error number, and what is stored through [retp]. *)
Definition transfer (c : io) (s : iost) : Z * option Z * iost :=
  let '(n, s) := perform c s in if n =? -1 then (errno s, None, s) else (0, Some n, s).

Definition rumpuser_iovread (fd : Z) (iov : list Z) (roff : Z) (t : fdtab) (s : iost) : outcome (Z * option Z * iost) :=
  if roff =? RUMPUSER_IOV_NOSEEK then Ret (transfer (Readv fd iov) s)
  else e ← fd_get fd t; Ret (transfer (if seek e =? 0 then Readv fd iov else Preadv fd iov roff) s).

Definition rumpuser_iovwrite (fd : Z) (iov : list Z) (roff : Z) (t : fdtab) (s : iost) : outcome (Z * option Z * iost) :=
  if roff =? RUMPUSER_IOV_NOSEEK then Ret (transfer (Writev fd iov) s)
  else e ← fd_get fd t; Ret (transfer (if seek e =? 0 then Writev fd iov else Pwritev fd iov roff) s).

Definition rumpuser_syncfd (fd : Z) (s : iost) : Z * iost :=
  let '(r, s) := perform (Fsync fd) s in (if r =? -1 then errno s else 0, s).

Definition biodone (n err : Z) (s : iost) : iost := Iost (errno s) (log s ++ [Biodone n err]).

Definition is_block (e : fdent) : bool := negb (valid e =? 0) && (Z.land (st_mode (st e)) S_IFMT =? S_IFBLK).

Definition rumpuser_bio (fd op dlen doff : Z) (t : fdtab) (s : iost) : outcome iost :=
  e ← fd_get fd t;
  let s := if is_block e then s else biodone 0 EBADF s in
  let '(n, s) :=
    perform (if negb (Z.land op RUMPUSER_BIO_READ =? 0) then Pread fd dlen doff else Pwrite fd dlen doff) s in
  let '(n, err) := if n =? -1 then (0, errno s) else (n, 0) in
  let '(n, err, s) :=
    if (errno s =? 0) && negb (Z.land op RUMPUSER_BIO_SYNC =? 0) then
      let '(r, s) := perform (Fsync fd) s in if r =? -1 then (0, errno s, s) else (n, err, s)
    else (n, err, s) in
  Ret (biodone n err s).

End Io.

(** The calls on Linux, where [pwrite] looks at the flags first. *)
Definition linux_io (t : fdtab) (sys : list io -> io -> Z * Z) (l : list io) (c : io) : Z * Z :=
  match c with
  | Pwrite fd _ _ =>
      match fd_get fd t with
      | Ret e => let '(r, err) := sys l c in let '(r, err) := Linux.pwrite (flags e) (r, Some err) in (r, default 0 err)
      | _ => sys l c
      end
  | _ => sys l c
  end.

End Files.

(** ** Parameters, randomness, clocks and the current lwp *)

Module Params.
Import Str Sched.

Abbreviation str := (list Z).

Definition RUMPUSER_PARAM_NCPU : str := lit "_RUMPUSER_NCPU".
Definition RUMPUSER_PARAM_HOSTNAME : str := lit "_RUMPUSER_HOSTNAME".

(** The error number and the contents of the buffer; [memlimit] is the value of
    RUMP_MEMLIMIT if it is configured. *)
Definition rumpuser_getparam (memlimit : option str) (environ : list str) (name : str) (blen : nat) : Z * option str :=
  if bool_decide (name = RUMPUSER_PARAM_NCPU) then (0, Some (strncpy_bytes blen (lit "1")))
  else if bool_decide (name = RUMPUSER_PARAM_HOSTNAME) then (0, Some (strncpy_bytes blen (lit "rump")))
  else
    match (if bool_decide (name = lit "RUMP_MEMLIMIT") then memlimit else None) with
    | Some limit => (0, Some (strncpy_bytes blen limit))
    | None =>
        match Boot.getenv name environ with
        | Some value => if (length value + 1 <=? blen)%nat then (0, Some (strncpy_bytes blen value)) else (EINVAL, None)
        | None => (EINVAL, None)
        end
    end.

Definition random_maxread : Z := 32.

(** [getrandom] gives its result, and errno. *)
Definition rumpuser_getrandom (getrandom : Z -> Z * Z) (buflen : Z) : Z * option Z :=
  let buflen := if random_maxread <? buflen then random_maxread else buflen in
  let '(rv, errno) := getrandom buflen in
  if rv =? -1 then (errno, None) else (0, Some rv).

Section Threads.
Context {C : Type} `{Clock C}.

Definition RUMPUSER_CLOCK_RELWALL : Z := 0.
Definition RUMPUSER_CLOCK_ABSMONO : Z := 1.

Definition clock_of (rclk : Z) : option Z :=
  if rclk =? RUMPUSER_CLOCK_RELWALL then Some CLOCK_REALTIME
  else if rclk =? RUMPUSER_CLOCK_ABSMONO then Some CLOCK_MONOTONIC else None.

Definition rumpuser_clock_sleep (rclk sec nsec : Z) (st : sched C) : outcome (result * sched C) :=
  match clock_of rclk with Some clk => clock_sleep clk sec nsec st | None => Ret (Val EINVAL, st) end.

Definition rumpuser_thread_create (addr mem : Z) (joinable : bool) (st : sched C) : outcome (Z * option Z * sched C) :=
  '(thr, st) ← create_thread addr mem 0 0 0 joinable st;
  Ret (if thr =? 0 then (EINVAL, None, st) else (0, Some thr, st)).

Definition RUMPUSER_LWP_CREATE : Z := 0.
Definition RUMPUSER_LWP_DESTROY : Z := 1.
Definition RUMPUSER_LWP_SET : Z := 2.
Definition RUMPUSER_LWP_CLEAR : Z := 3.

Definition rumpuser_curlwpop (op l : Z) (st : sched C) : outcome (sched C) :=
  if op =? RUMPUSER_LWP_SET then set_curlwp l st
  else if op =? RUMPUSER_LWP_CLEAR then cur ← curlwp st; assert_ (cur =? l);; set_curlwp 0 st
  else Ret st.

Definition rumpuser_curlwp (st : sched C) : outcome Z := curlwp st.

End Threads.
End Params.

(** ** Properties of the hypercalls *)

Module RumpuserProperties.
Import FdTable Str Memory GuestMemory Files.

(** C8. Memory for the guest kernel on the bare-metal target (spike): a request of
    at most 2^62 bytes, aligned to a power of two below 2^31, is refused and
    takes nothing, or is answered with memory of that size and alignment apart
    from all the memory in use, whether it comes from the allocator or, from a
    page on, from a mapping.  No byte in use changes.  (For sizes near 2^64 the
    bound in that target's [mmap] wraps, and there is no such promise.) *)
Theorem guest_malloc_refines st G E size k :
  guest_rep st G E -> 0 < size <= 2 ^ 62 -> 0 <= k < 31 ->
  exists r memp st', GuestMemory.rumpuser_malloc size (2 ^ k) st = Ret (r, memp, st') /\
    MallocRep.preserves (rheap st) (rheap st') (MallocInv.owned G E) /\
    (r <> 0 /\ memp = None /\ guest_rep st' G E \/
     exists p, r = 0 /\ memp = Some p /\ p mod 2 ^ k = 0 /\ G !! p = None /\
       (forall x, p <= x < p + size -> ~ MallocInv.owned G E x) /\ guest_rep st' (<[p := size]> G) E).
Proof. apply malloc_granted. Qed.


Section Bio.
Variable host : list io -> io -> Z * Z.

Definition is_done (c : io) : bool := match c with Biodone _ _ => true | _ => false end.
Definition completions (l : list io) : list io := filter (fun c => is_done c = true) l.

Lemma perform_log c s n s1 : perform host c s = (n, s1) -> log s1 = log s ++ [c] /\ (n <> -1 -> errno s1 = errno s).
Proof.
  unfold perform. destruct (host (log s) c) as [n' e]. intros [= <- <-]. cbn. split; [done|]. by intros ->%Z.eqb_neq.
Qed.

(** The transfer a request asks for. *)
Definition bio_call (fd op dlen doff : Z) : io := if Z.testbit op 0 then Pread fd dlen doff else Pwrite fd dlen doff.

(** What a request on the descriptor [fd] does and reports, after the calls [l]
    and with [errno] at first [err]: a failed transfer is reported with its error
    and no bytes; the count of another one is reported, but after a sync that
    fails its error is.  The sync is left out when [err] is not zero. *)
Inductive bio_reported (l : list io) (err fd op dlen doff : Z) : list io -> Prop :=
  | bio_failed c e : c = bio_call fd op dlen doff -> host l c = (-1, e) ->
      bio_reported l err fd op dlen doff [c; Biodone 0 e]
  | bio_plain c n e : c = bio_call fd op dlen doff -> host l c = (n, e) -> n <> -1 -> Z.testbit op 2 = false \/ err <> 0 ->
      bio_reported l err fd op dlen doff [c; Biodone n 0]
  | bio_synced c n e r e' : c = bio_call fd op dlen doff -> host l c = (n, e) -> n <> -1 -> Z.testbit op 2 = true -> err = 0 ->
      host (l ++ [c]) (Fsync fd) = (r, e') -> r <> -1 ->
      bio_reported l err fd op dlen doff [c; Fsync fd; Biodone n 0]
  | bio_sync_failed c n e e' : c = bio_call fd op dlen doff -> host l c = (n, e) -> n <> -1 -> Z.testbit op 2 = true -> err = 0 ->
      host (l ++ [c]) (Fsync fd) = (-1, e') ->
      bio_reported l err fd op dlen doff [c; Fsync fd; Biodone 0 e'].

(** A call that fails sets [errno]. *)
Definition sets_errno : Prop := forall l c e, host l c = (-1, e) -> e <> 0.

Lemma bio_run fd op dlen doff t s e :
  sets_errno -> fd_get fd t = Ret e ->
  exists s' ev, rumpuser_bio host fd op dlen doff t s = Ret s' /\
    log s' = log (if is_block e then s else biodone 0 EBADF s) ++ ev /\
    bio_reported (log (if is_block e then s else biodone 0 EBADF s)) (errno s) fd op dlen doff ev.
Proof.
  intros Hset He. unfold rumpuser_bio. rewrite He. cbn [mbind outcome_bind].
  assert (Herr : errno (if is_block e then s else biodone 0 EBADF s) = errno s) by by destruct (is_block e).
  set (s1 := if is_block e then s else _) in *.
  change RUMPUSER_BIO_READ with (Z.shiftl 1 0). change RUMPUSER_BIO_SYNC with (Z.shiftl 1 2). rewrite !land_bit by done.
  fold (bio_call fd op dlen doff). unfold perform at 1. destruct (host (log s1) (bio_call fd op dlen doff)) as [n e1] eqn:Eh.
  destruct (Z.eqb_spec n (-1)) as [->|Hn]; cbn [errno log].
  - destruct (Z.eqb_spec e1 0) as [->|_]; [by destruct (Hset _ _ _ Eh)|]. cbn [andb]. eexists _, _. split; [done|].
    split; [cbn; by rewrite <- app_assoc|]. by eapply bio_failed.
  - rewrite Herr. destruct (Z.eqb_spec (errno s) 0) as [H0|H0]; cbn [andb].
    2:{ eexists _, _. split; [done|]. split; [cbn; by rewrite <- app_assoc|]. eapply bio_plain; eauto. }
    destruct (Z.testbit op 2) eqn:Eb.
    2:{ eexists _, _. split; [done|]. split; [cbn; by rewrite <- app_assoc|]. eapply bio_plain; eauto. }
    unfold perform at 1. cbn [errno log]. destruct (host (log s1 ++ _) (Fsync fd)) as [r e2] eqn:Ef.
    destruct (Z.eqb_spec r (-1)) as [->|Hr]; eexists _, _; (split; [done|]); (split; [cbn; by rewrite <- !app_assoc|]);
      [by eapply bio_sync_failed|by eapply bio_synced].
Qed.

Lemma bio_reported_shape l err fd op dlen doff ev :
  bio_reported l err fd op dlen doff ev ->
  exists ev' n err', ev = bio_call fd op dlen doff :: ev' ++ [Biodone n err'] /\ completions ev = [Biodone n err'].
Proof.
  assert (Hc : is_done (bio_call fd op dlen doff) = false) by (unfold bio_call; by destruct (Z.testbit op 0)).
  inversion 1; subst; [eexists [], _, _|eexists [], _, _|eexists [Fsync fd], _, _|eexists [Fsync fd], _, _];
    (split; [done|]); unfold completions; rewrite filter_cons_False by (by rewrite Hc); done.
Qed.

(** C32. A request on a valid block device reads or writes as its flags say, syncs
    if they say so and errno was zero, and is completed exactly once, as the
    last thing that happens.  The completion reports the count the transfer
    returned and no error, or no bytes and the error of the transfer or the sync
    that failed. *)
Theorem bio_completes_once fd op dlen doff t s e :
  sets_errno -> fd_get fd t = Ret e -> is_block e = true ->
  exists s' ev, rumpuser_bio host fd op dlen doff t s = Ret s' /\ log s' = log s ++ ev /\
    bio_reported (log s) (errno s) fd op dlen doff ev /\
    exists n err, completions ev = [Biodone n err] /\ last ev = Some (Biodone n err).
Proof.
  intros Hset He Hb. destruct (bio_run fd op dlen doff t s e Hset He) as (s' & ev & Hrun & Hl & Hr). rewrite Hb in *.
  exists s', ev. split_and!; [done..|]. destruct (bio_reported_shape _ _ _ _ _ _ _ Hr) as (ev' & n & err & -> & Hc).
  exists n, err. split; [done|]. by rewrite app_comm_cons, last_snoc.
Qed.

(** A request on a descriptor that is not a valid block device is completed
    with EBADF and then carried out all the same, and completed again. *)
Theorem bio_bad_descriptor_completes_twice fd op dlen doff t s e :
  sets_errno -> fd_get fd t = Ret e -> is_block e = false ->
  exists s' l n err, rumpuser_bio host fd op dlen doff t s = Ret s' /\
    log s' = log s ++ [Biodone 0 EBADF; bio_call fd op dlen doff] ++ l ++ [Biodone n err].
Proof.
  intros Hset He Hb. destruct (bio_run fd op dlen doff t s e Hset He) as (s' & ev & Hrun & Hl & Hr). rewrite Hb in *.
  destruct (bio_reported_shape _ _ _ _ _ _ _ Hr) as (ev' & n & err & -> & _). exists s', ev', n, err. split; [done|].
  rewrite Hl. cbn. by rewrite <- app_assoc.
Qed.

(** The sync of a request is left out when errno is not zero, even if the
    transfer was successful and errno is left from an earlier call. *)
Theorem bio_sync_skipped fd op dlen doff t s e n e' :
  fd_get fd t = Ret e -> is_block e = true -> Z.land op RUMPUSER_BIO_READ = 0 -> errno s <> 0 ->
  host (log s) (Pwrite fd dlen doff) = (n, e') -> n <> -1 ->
  exists s', rumpuser_bio host fd op dlen doff t s = Ret s' /\ log s' = log s ++ [Pwrite fd dlen doff; Biodone n 0].
Proof.
  intros He Hb Hop%Z.eqb_eq Herr%Z.eqb_neq Hh Hn%Z.eqb_neq. unfold rumpuser_bio. rewrite He. cbn [mbind outcome_bind].
  rewrite Hb, Hop. cbn [negb]. unfold perform at 1. rewrite Hh, Hn. cbn [errno]. rewrite Herr. cbn [andb]. eexists. split; [done|].
  cbn. by rewrite <- app_assoc.
Qed.

End Bio.

(** C36. A write to a disk that is open for reading only is reported as a success
    of nine bytes: the platform's [pwrite] returns the error number where its
    caller expects a count. *)
Theorem readonly_write_reported fd dlen doff t s e sys :
  fd_get fd t = Ret e -> is_block e = true -> Z.land (flags e) 3 = 0 ->
  exists s', rumpuser_bio (linux_io t sys) fd RUMPUSER_BIO_WRITE dlen doff t s = Ret s' /\
    log s' = log s ++ [Pwrite fd dlen doff; Biodone 9 0].
Proof.
  intros He Hb Hfl. unfold rumpuser_bio. rewrite He. cbn [mbind outcome_bind]. rewrite Hb.
  change (Z.land RUMPUSER_BIO_WRITE RUMPUSER_BIO_READ) with 0. change (Z.land RUMPUSER_BIO_WRITE RUMPUSER_BIO_SYNC) with 0. cbn [negb Z.eqb].
  unfold perform at 1. cbn [linux_io]. rewrite He. destruct (sys (log s) _) as [r er]. unfold Linux.pwrite. rewrite Hfl. cbn.
  rewrite andb_false_r. eexists. split; [done|]. cbn. by rewrite <- app_assoc.
Qed.

(** *** Examples *)

Definition demo_guest : gmem := rmem_init MallocClient.demo.

Lemma demo_guest_rep : guest_rep demo_guest ∅ (fun x => 1000 <= x < 1100).
Proof.
  split; [by left|apply map_Forall_empty|]. unfold small. rewrite map_filter_empty. eapply MemoryFacts.heap_rep_less; [|apply MallocClient.demo_rep].
  intros x [Hx|(a & n & Ha & _)]; [done|]. by rewrite lookup_empty in Ha.
Qed.

Lemma guest_malloc_refines_witness :
  exists p st', GuestMemory.rumpuser_malloc 8192 (2 ^ 13) demo_guest = Ret (0, Some p, st') /\ p mod 8192 = 0.
Proof.
  destruct (guest_malloc_refines demo_guest ∅ (fun x => 1000 <= x < 1100) 8192 13 demo_guest_rep) as (r & memp & st' & Hm & _ & Hres);
    [lia|lia|].
  destruct Hres as [(Hr & -> & _)|(p & -> & -> & Hmod & _)].
  - exfalso. apply (f_equal (fun o => match o with Ret (_, Some _, _) => true | _ => false end)) in Hm. vm_compute in Hm. discriminate Hm.
  - exists p, st'. split; [exact Hm|exact Hmod].
Defined.




(** A table with a block device that is open for reading only as descriptor 3,
    and a host whose transfers are complete. *)
Definition demo_disk : fdent := set_st (Stat S_IFBLK 4096 []) (set_valid 1 fdent0).
Definition demo_table : fdtab := replicate 3 fdent0 ++ [demo_disk].
Definition demo_io (l : list io) (c : io) : Z * Z := match c with Pread _ n _ | Pwrite _ n _ => (Z.max 0 n, 0) | _ => (0, 0) end.

Lemma demo_io_errno : sets_errno demo_io.
Proof. intros l [] e; cbn; intros [= H _]; lia. Qed.

Lemma bio_completes_once_witness :
  exists s' ev, rumpuser_bio demo_io 3 5 512 0 demo_table (Iost 0 []) = Ret s' /\ log s' = ev /\
    bio_reported demo_io [] 0 3 5 512 0 ev.
Proof.
  destruct (bio_completes_once demo_io 3 5 512 0 demo_table (Iost 0 []) demo_disk demo_io_errno eq_refl eq_refl) as (s' & ev & H1 & H2 & H3 & _).
  exists s', ev. split; [exact H1|]. split; [exact H2|exact H3].
Defined.

Lemma bio_bad_descriptor_completes_twice_witness :
  exists s' l n err, rumpuser_bio demo_io 0 1 512 0 demo_table (Iost 0 []) = Ret s' /\
    log s' = [Biodone 0 EBADF; Pread 0 512 0] ++ l ++ [Biodone n err].
Proof.
  destruct (bio_bad_descriptor_completes_twice demo_io 0 1 512 0 demo_table (Iost 0 []) fdent0 demo_io_errno eq_refl eq_refl)
    as (s' & l & n & err & H1 & H2).
  exists s', l, n, err. split; [exact H1|exact H2].
Defined.

Lemma bio_sync_skipped_witness :
  exists s', rumpuser_bio demo_io 3 6 512 0 demo_table (Iost EBADF []) = Ret s' /\ log s' = [Pwrite 3 512 0; Biodone 512 0].
Proof.
  apply (bio_sync_skipped demo_io 3 6 512 0 demo_table (Iost EBADF []) demo_disk 512 0); (reflexivity || discriminate).
Defined.

Lemma readonly_write_reported_witness :
  exists s', rumpuser_bio (linux_io demo_table demo_io) 3 RUMPUSER_BIO_WRITE 512 0 demo_table (Iost 0 []) = Ret s' /\
    log s' = [Pwrite 3 512 0; Biodone 9 0].
Proof. apply (readonly_write_reported 3 512 0 demo_table (Iost 0 []) demo_disk demo_io); reflexivity. Defined.

End RumpuserProperties.
