(* ===== verification/Virtif.v ===== *)
(** * The network driver and the time counter

    [libvirtif/if_virt.c] is the guest kernel's driver, [libvirtif/virtif_user.c]
    the part of it that runs on the host side: packets are written to a
    descriptor, and a thread reads them from it.  [libtc/franken_tc.c] is the
    guest kernel's time counter.

    The rest of the guest kernel is a parameter.  A packet to send is a chain of
    fragments; [m_gethdr] and [m_copyback] build a received one.  The threads are
    cooperative and a write does not switch, so nothing is queued while a queue
    is sent.  The build is the one without RUMP_VIF_LINKSTR.  The checksum flags,
    capabilities, MTU and link type are constants no code here looks at, and
    are left out. *)

From S2P Require Import Prelude Libc Platform Fdtable.
From Stdlib Require Import ZArith Lia String.
From stdpp Require Import base numbers list.
Local Open Scope Z_scope.

Module Driver.
Import FdTable Str.

Abbreviation str := (list Z).
Abbreviation frame := (list Z).

Definition IFF_UP : Z := 1.
Definition IFF_BROADCAST : Z := 2.
Definition IFF_RUNNING : Z := 64.
Definition IFF_PROMISC : Z := 256.
Definition IFF_OACTIVE : Z := 1024.
Definition IFF_SIMPLEX : Z := 2048.
Definition IFF_MULTICAST : Z := 32768.
Definition ETHER_ADDR_LEN : nat := 6.
Definition LB_SH : nat := 32.
Definition ENXIO : Z := 6.
Definition ENETRESET : Z := 52.

(** struct virtif_user. *)
Record virtif_user : Type := Viu {
  viu_rcvthr : Z;
  viu_devnum : Z;
  viu_fd : Z;
  viu_dying : bool;
}.

(** What is called outside the driver. *)
Inductive ev : Type :=
  | Unschedule
  | Schedule
  | Writev (fd : Z) (iov : list frame)
  | Sleep (sec : Z)
  | CreateThread (devstr : str)
  | JoinThread (thr : Z)
  | IfAttach
  | IfDetach
  | IfDown
  | EtherAttach (enaddr : list Z)
  | EtherDetach
  | BpfTap (packet : frame)
  | KthreadRelease.

(** struct virtif_sc with the struct ifnet in it; [input] are the packets that
    were passed up, with their M_PROMISC. *)
Record ifnet : Type := Ifnet {
  if_xname : str;
  if_flags : Z;
  if_snd : list (list frame);
  if_opackets : Z;
  if_ipackets : Z;
  if_sadl : list Z;
  sc_viu : option virtif_user;
  sc_linkstr : option str;
  input : list (frame * bool);
  freed : bool;                         (* the structure was given back *)
  trace : list ev;
}.

Definition upd_flags f i := Ifnet (if_xname i) (f (if_flags i)) (if_snd i) (if_opackets i) (if_ipackets i) (if_sadl i) (sc_viu i) (sc_linkstr i) (input i) (freed i) (trace i).
Definition upd_snd f i := Ifnet (if_xname i) (if_flags i) (f (if_snd i)) (if_opackets i) (if_ipackets i) (if_sadl i) (sc_viu i) (sc_linkstr i) (input i) (freed i) (trace i).
Definition upd_opackets f i := Ifnet (if_xname i) (if_flags i) (if_snd i) (f (if_opackets i)) (if_ipackets i) (if_sadl i) (sc_viu i) (sc_linkstr i) (input i) (freed i) (trace i).
Definition upd_ipackets f i := Ifnet (if_xname i) (if_flags i) (if_snd i) (if_opackets i) (f (if_ipackets i)) (if_sadl i) (sc_viu i) (sc_linkstr i) (input i) (freed i) (trace i).
Definition upd_sadl f i := Ifnet (if_xname i) (if_flags i) (if_snd i) (if_opackets i) (if_ipackets i) (f (if_sadl i)) (sc_viu i) (sc_linkstr i) (input i) (freed i) (trace i).
Definition upd_viu f i := Ifnet (if_xname i) (if_flags i) (if_snd i) (if_opackets i) (if_ipackets i) (if_sadl i) (f (sc_viu i)) (sc_linkstr i) (input i) (freed i) (trace i).
Definition upd_linkstr f i := Ifnet (if_xname i) (if_flags i) (if_snd i) (if_opackets i) (if_ipackets i) (if_sadl i) (sc_viu i) (f (sc_linkstr i)) (input i) (freed i) (trace i).
Definition upd_input f i := Ifnet (if_xname i) (if_flags i) (if_snd i) (if_opackets i) (if_ipackets i) (if_sadl i) (sc_viu i) (sc_linkstr i) (f (input i)) (freed i) (trace i).
Definition emit e i := Ifnet (if_xname i) (if_flags i) (if_snd i) (if_opackets i) (if_ipackets i) (if_sadl i) (sc_viu i) (sc_linkstr i) (input i) (freed i) (trace i ++ [e]).

Definition kmem_free i := Ifnet (if_xname i) (if_flags i) (if_snd i) (if_opackets i) (if_ipackets i) (if_sadl i) (sc_viu i) (sc_linkstr i) (input i) true (trace i).

Definition has (f : Z) (i : ifnet) : bool := negb (Z.land (if_flags i) f =? 0).

(** *** Sending *)

(** [VIFHYPER_SEND]; the result of the write is not looked at. *)
Definition VIFHYPER_SEND (v : virtif_user) (iov : list frame) (i : ifnet) : ifnet :=
  emit Schedule (emit (Writev (viu_fd v) iov) (emit Unschedule i)).

(** The loop over the fragments: those that are not empty go to [io], at most
    [LB_SH]; and what is left of the chain. *)
Fixpoint gather (n : nat) (m : list frame) : list frame * list frame :=
  match m with
  | [] => ([], [])
  | f :: m =>
      if (n <? LB_SH)%nat then
        if bool_decide (f = []) then gather n m
        else let '(io, rest) := gather (S n) m in (f :: io, rest)
      else ([], f :: m)
  end.

(** The loop over the queue. *)
Fixpoint start_loop (q : list (list frame)) (i : ifnet) : outcome ifnet :=
  match q with
  | [] => Ret (upd_snd (fun _ => []) i)
  | m0 :: q =>
      let i := upd_snd (fun _ => q) i in
      let '(io, m) := gather 0 m0 in
      if (length io =? LB_SH)%nat && negb (bool_decide (m = [])) then Abort
      else
        match sc_viu i with
        | None => UB
        | Some v => start_loop q (upd_opackets (fun n => n + 1) (VIFHYPER_SEND v io (emit (BpfTap (concat m0)) i)))
        end
  end.

Definition virtif_start (i : ifnet) : outcome ifnet :=
  i ← start_loop (if_snd i) (upd_flags (fun f => Z.lor f IFF_OACTIVE) i);
  Ret (upd_flags (fun f => Z.land f (Z.lnot IFF_OACTIVE)) i).

(** *** Receiving *)

Section Mbuf.
(** Whether there is an mbuf, and the contents of a packet after [m_copyback]
    of some bytes at an offset. *)
Variable m_gethdr : bool.
Variable m_copyback : frame -> Z -> frame -> frame.

(** [ALIGN(sizeof(struct ether_header)) - sizeof(struct ether_header)] *)
Definition align : Z := 2.

Fixpoint copy_loop (iov : list frame) (off : Z) (m : frame) : option frame :=
  match iov with
  | [] => Some m
  | io :: iov =>
      let olen := Z.of_nat (length m) in
      let m := m_copyback m off io in
      let off := off + Z.of_nat (length io) in
      if negb (olen + off =? Z.of_nat (length m)) then None else copy_loop iov off m
  end.

Definition ETHER_IS_MULTICAST (dhost : list Z) : bool := Z.odd (default 0 (head dhost)).

(** The packet is for this interface: whether it is passed up, and M_PROMISC. *)
Definition passup (dhost : list Z) (i : ifnet) : option bool :=
  if bool_decide (dhost = if_sadl i) then Some false
  else if ETHER_IS_MULTICAST dhost then Some false
  else if has IFF_PROMISC i then Some true else None.

(** A packet without a whole address reads beyond its bytes. *)
Definition VIF_DELIVERPKT (iov : list frame) (i : ifnet) : outcome ifnet :=
  if negb (has IFF_RUNNING i) then Ret i
  else if negb m_gethdr then Ret i
  else
    match copy_loop iov align [] with
    | None => Ret i
    | Some m =>
        let m := drop (Z.to_nat align) m in
        if (length m <? ETHER_ADDR_LEN)%nat then UB
        else
          match passup (take ETHER_ADDR_LEN m) i with
          | Some promisc => Ret (upd_input (fun l => l ++ [(m, promisc)]) (emit (BpfTap m) (upd_ipackets (fun n => n + 1) i)))
          | None => Ret i
          end
    end.

(** What a read of the receive thread gives: bytes; nothing yet, and whether the
    interface was told to die while the thread slept; or an error. *)
Inductive reading : Type := Data (bs : frame) | Again (dying : bool) | Failed.

Definition is_dying (i : ifnet) : bool := match sc_viu i with Some v => viu_dying v | None => false end.

Definition VIFHYPER_DYING (i : ifnet) : ifnet :=
  upd_viu (fmap (fun v => Viu (viu_rcvthr v) (viu_devnum v) (viu_fd v) true)) i.

(** The loop of [rcvthread] on the readings it makes; it is left waiting after
    the last of them.  When the interface is to die the function returns, although
    nothing takes a thread on from there: no one calls [exit_thread]. *)
Fixpoint rcvthread (rs : list reading) (i : ifnet) : outcome ifnet :=
  if is_dying i then Ret (emit KthreadRelease i)
  else
    match rs with
    | [] => Ret i
    | Again d :: rs => rcvthread rs (emit Unschedule (let i := emit (Sleep 10) (emit Schedule i) in if d then VIFHYPER_DYING i else i))
    | Failed :: _ => Abort
    | Data bs :: rs => i ← VIF_DELIVERPKT [bs] (emit Schedule i); rcvthread rs (emit Unschedule i)
    end.

End Mbuf.
(** *** Creating and removing an interface *)

Section Setup.
(** The descriptor table; the error of [calloc] if it fails, the thread
    [create_thread] gives (0 for NULL); what [enaddr] holds before it is set. *)
Variable t : fdtab.
Variable calloc_errno : option Z.
Variable new_thread : Z.
Variable enaddr0 : list Z.

(** The start of [rcvthread]: the poll of the platform wakes this thread. *)
Definition rcvthread_start (v : virtif_user) : outcome fdtab := franken_recv_thread (viu_fd v) (viu_rcvthr v) t.

(** [rumpns_virt_hwaddr]; its result is not looked at. *)
Definition virt_hwaddr (ifname : str) (hwaddr : list Z) : outcome (list Z) :=
  if (length ifname <? 5)%nat || negb (bool_decide (take 4 ifname = lit "virt")) then Ret hwaddr
  else
    fd ← atoi_bytes (drop 4 ifname);
    e ← fd_get fd t;
    Ret (take 5 (st_hwaddr (st e)) ++ [2]).

(** The error, and the new struct virtif_user. *)
Definition VIFHYPER_CREATE (devstr : str) (i : ifnet) : outcome (Z * option virtif_user * ifnet) :=
  let i := emit Unschedule i in
  devnum ← atoi_bytes devstr;
  match calloc_errno with
  | Some e => Ret (e, None, emit Schedule i)
  | None =>
      let i := emit (CreateThread devstr) i in
      if new_thread =? 0 then Ret (ENOMEM, None, emit Schedule i)
      else Ret (0, Some (Viu new_thread devnum devnum false), emit Schedule i)
  end.

Definition virtif_create (i : ifnet) : outcome (Z * ifnet) :=
  match sc_viu i with
  | Some _ => Abort
  | None =>
      enaddr ← virt_hwaddr (if_xname i) enaddr0;
      '(error, viu, i) ← VIFHYPER_CREATE (default [] (sc_linkstr i)) i;
      if negb (error =? 0) then Ret (error, i)
      else Ret (0, emit (EtherAttach enaddr) (upd_sadl (fun _ => enaddr) (upd_viu (fun _ => viu) i)))
  end.

(** A call that uses the interface, which must still be there. *)
Definition use (e : ev) (i : ifnet) : outcome ifnet := if freed i then UB else Ret (emit e i).

(** After an error the structure is freed, and then [if_softc] in it is reset. *)
Definition virtif_clone (num : Z) : outcome (Z * ifnet) :=
  let i := Ifnet (lit "virt" ++ print_dec num) (Z.lor (Z.lor IFF_BROADCAST IFF_SIMPLEX) IFF_MULTICAST) [] 0 0 [] None
             (Some (take 15 (print_dec num))) [] false [IfAttach] in
  '(error, i) ← virtif_create i;
  if negb (error =? 0) then
    i ← use IfDetach i;
    let i := kmem_free i in
    if freed i then UB else Ret (error, i)
  else Ret (0, i).

Definition virtif_stop (i : ifnet) : ifnet := upd_flags (fun f => Z.land f (Z.lnot IFF_RUNNING)) i.

Definition VIFHYPER_DESTROY (v : virtif_user) (i : ifnet) : ifnet :=
  emit Schedule (emit (JoinThread (viu_rcvthr v)) (emit Unschedule i)).

Definition virtif_unclone (i : ifnet) : outcome (Z * ifnet) :=
  if has IFF_UP i then Ret (EBUSY, i)
  else
    match sc_viu i with
    | None => UB
    | Some v =>
        let i := VIFHYPER_DYING i in
        let i := virtif_stop i in
        i ← use IfDown i;
        let i := kmem_free (VIFHYPER_DESTROY v i) in
        i ← use EtherDetach i;
        i ← use IfDetach i;
        Ret (0, i)
    end.

Definition virtif_init (i : ifnet) : Z * ifnet :=
  match sc_viu i with
  | None => (ENXIO, i)
  | Some _ => (0, upd_flags (fun f => Z.lor f IFF_RUNNING) i)
  end.

(** [ether_ioctl] belongs to the guest kernel. *)
Definition virtif_ioctl (ether_ioctl : Z -> ifnet -> Z * ifnet) (cmd : Z) (i : ifnet) : Z * ifnet :=
  let '(rv, i) := match sc_linkstr i with None => (ENXIO, i) | Some _ => ether_ioctl cmd i end in
  (if rv =? ENETRESET then 0 else rv, i).

End Setup.

Definition ENOTTY : Z := 25.

Inductive vif_modcmd : Type := MODULE_CMD_INIT | MODULE_CMD_FINI | MODULE_CMD_OTHER.

(** [VIF_MODCMD]; the second component is whether the cloner was attached. *)
Definition VIF_MODCMD (cmd : vif_modcmd) : Z * bool :=
  match cmd with
  | MODULE_CMD_INIT => (0, true)
  | MODULE_CMD_FINI => (ENOTTY, false)
  | MODULE_CMD_OTHER => (ENOTTY, false)
  end.

End Driver.

(** ** The link string

    The driver built with RUMP_VIF_LINKSTR: the interface is created when the
    ioctl gives it the name of its device. *)

Module Linkstr.
Import FdTable Str Driver.

Definition RUMP_VIF_LINKSTRMAX : Z := 4096.
Definition E2BIG : Z := 7.

(** [ifd_cmd] *)
Inductive ifd_cmd : Type := LinkstrCopy | IFLINKSTR_QUERYLEN | IFLINKSTR_UNSET | LinkstrOther.

(** The interface, and whether the memory [sc_linkstr] points to was given back. *)
Record lsc : Type := Lsc { l_if : ifnet; l_freed : bool }.

Section Ioctl.
Variable t : fdtab.
Variable calloc_errno : option Z.
Variable new_thread : Z.
Variable enaddr0 : list Z.
(** The copies from and to the caller: an error, or the string; and the error
    of the copy of a string to a buffer of a length. *)
Variable copyinstr : Z -> Z + str.
Variable copyoutstr : str -> Z -> Z.

(** SIOCGLINKSTR: the result, and the new [ifd_len] if it is set. *)
Definition get_linkstr (cmd : ifd_cmd) (ifd_len : Z) (l : lsc) : outcome (Z * option Z) :=
  match sc_linkstr (l_if l) with
  | None => Ret (ENOENT, None)
  | Some s =>
      if l_freed l then UB
      else
        let linkstrlen := Z.of_nat (length s) + 1 in
        match cmd with
        | IFLINKSTR_QUERYLEN => Ret (0, Some linkstrlen)
        | LinkstrCopy => Ret (copyoutstr s (Z.min ifd_len linkstrlen), None)
        | _ => Ret (ENOTTY, None)
        end
  end.

(** SIOCSLINKSTR.  After an error the memory is given back; the pointer stays. *)
Definition set_linkstr (cmd : ifd_cmd) (ifd_len : Z) (l : lsc) : outcome (Z * lsc) :=
  if has IFF_UP (l_if l) then Ret (EBUSY, l)
  else
    match cmd with
    | IFLINKSTR_UNSET => Abort
    | LinkstrCopy =>
        match sc_linkstr (l_if l) with
        | Some _ => Ret (EBUSY, l)
        | None =>
            if RUMP_VIF_LINKSTRMAX <? ifd_len then Ret (E2BIG, l)
            else if ifd_len <? 1 then Ret (EINVAL, l)
            else
              match copyinstr ifd_len with
              | inl rv => Ret (rv, Lsc (upd_linkstr (fun _ => Some []) (l_if l)) true)
              | inr s =>
                  '(rv, i) ← virtif_create t calloc_errno new_thread enaddr0 (upd_linkstr (fun _ => Some s) (l_if l));
                  Ret (rv, Lsc i (negb (rv =? 0)))
              end
        end
    | _ => Ret (ENOTTY, l)
    end.

End Ioctl.
End Linkstr.

(** ** The time counter *)

Module Timecounter.
Import Timespec.

Definition ENOTTY : Z := Driver.ENOTTY.

(** The module's [res], and [tc_frequency]. *)
Record tcst : Type := Tc { res : Z; tc_frequency : Z; attached : bool }.

Definition tc0 : tcst := Tc 0 0 false.

(** The count is computed in 64 bits (a signed product that does not overflow
    for the times of a clock) and cut to 32. *)
Definition franken_tc_get (s : tcst) (ts : timespec) : outcome Z :=
  if res s =? 0 then UB else Ret (u32 (u64 (tv_sec ts * res s + tv_nsec ts / res s))).

Inductive modcmd : Type := MODULE_CMD_INIT | MODULE_CMD_FINI | MODULE_CMD_OTHER.

(** [getres] is what [__platform_clock_getres] returns and stores. *)
Definition franken_tc_modcmd (cmd : modcmd) (getres : Z * timespec) (s : tcst) : Z * tcst :=
  match cmd with
  | MODULE_CMD_INIT =>
      let '(ret, ts) := getres in
      if negb (ret =? 0) || negb (tv_sec ts =? 0) || (tv_nsec ts =? 0) then (ENOTTY, s)
      else (0, Tc (tv_nsec ts) (1000000000 / tv_nsec ts) true)
  | MODULE_CMD_FINI => (0, Tc (res s) (tc_frequency s) false)
  | MODULE_CMD_OTHER => (ENOTTY, s)
  end.

End Timecounter.

(** ** Facts: packets *)

Module DriverFacts.
Import FdTable Str Driver.

(** The packets that were written. *)
Definition sent_of (e : ev) : option frame := match e with Writev _ iov => Some (concat iov) | _ => None end.
Definition sent (i : ifnet) : list frame := omap sent_of (trace i).

Definition fragments (m : list frame) : list frame := filter (.≠ []) m.

Lemma gather_spec m : forall n, (n + length (fragments m) < LB_SH)%nat -> gather n m = (fragments m, []).
Proof.
  unfold fragments. induction m as [|f m IH]; intros n Hn; cbn [gather]; [done|].
  rewrite filter_cons in *. destruct (Nat.ltb_spec n LB_SH) as [_|Hge].
  - case_bool_decide as Hf.
    + rewrite decide_False in * by (intros []; done). by apply IH.
    + rewrite decide_True in * by done. cbn [length] in Hn. by rewrite IH by lia.
  - exfalso. lia.
Qed.

Lemma concat_fragments m : concat (fragments m) = concat m.
Proof.
  unfold fragments. induction m as [|f m IH]; [done|]. rewrite filter_cons. cbn [concat].
  case_decide as Hf; cbn [concat]; rewrite IH; [done|]. by destruct f.
Qed.

Lemma sent_emit e i : sent (emit e i) = sent i ++ option_list (sent_of e).
Proof. unfold sent, emit. cbn [trace]. rewrite omap_app. cbn. by destruct (sent_of e). Qed.

(** What sending leaves as it is. *)
Definition same_but_sent (i i' : ifnet) : Prop :=
  if_flags i' = if_flags i /\ if_sadl i' = if_sadl i /\ sc_viu i' = sc_viu i /\ input i' = input i /\ if_ipackets i' = if_ipackets i.

Lemma start_loop_spec q v : forall i,
  sc_viu i = Some v -> Forall (fun m => (length (fragments m) < LB_SH)%nat) q ->
  exists i', start_loop q i = Ret i' /\ sent i' = sent i ++ map (@concat Z) q /\ if_snd i' = [] /\
    if_opackets i' = if_opackets i + Z.of_nat (length q) /\ same_but_sent i i'.
Proof.
  induction q as [|m q IH]; intros i Hv Hq; cbn [start_loop].
  - exists (upd_snd (fun _ => []) i). cbn. rewrite app_nil_r. split_and!; try done; lia.
  - apply Forall_cons in Hq as [Hm Hq]. rewrite gather_spec by done.
    destruct (Nat.eqb_spec (length (fragments m)) LB_SH) as [He|_]; [lia|]. cbn [andb upd_snd sc_viu]. rewrite Hv.
    match goal with |- context [start_loop q ?x] => set (i1 := x) end.
    destruct (IH i1 Hv Hq) as (i' & -> & Hs & Hsnd & Ho & H1 & H2 & H3 & H4 & H5). exists i'. split; [done|].
    rewrite Hs, Ho. split_and!; try done; cbn [length]; [|cbn; lia].
    unfold i1, VIFHYPER_SEND. change (sent (upd_opackets _ ?x)) with (sent x). rewrite !sent_emit. cbn [sent_of option_list].
    rewrite concat_fragments, !app_nil_r, <- app_assoc. done.
Qed.

(** The interface accepts a frame. *)
Definition accepted (i : ifnet) (f : frame) : option (frame * bool) := (fun p => (f, p)) <$> passup (take ETHER_ADDR_LEN f) i.

Section Mbuf.
Variable m_copyback : frame -> Z -> frame -> frame.

(** [m_copyback] at or after the end of a packet, when there is memory: the
    packet is extended by padding and the bytes. *)
Definition copyback_extends : Prop :=
  forall m off bs, bs <> [] -> Z.of_nat (length m) <= off ->
    exists pad, Z.of_nat (length pad) = off - Z.of_nat (length m) /\ m_copyback m off bs = m ++ pad ++ bs.

Hypothesis Hcopy : copyback_extends.

Lemma copy_one f : f <> [] -> exists pad, length pad = 2%nat /\ copy_loop m_copyback [f] align [] = Some (pad ++ f).
Proof.
  intros Hf. cbn [copy_loop]. destruct (Hcopy [] align f Hf) as (pad & Hp & ->); [cbn; unfold align; lia|].
  exists pad. cbn [length app] in *. unfold align in *. split; [lia|]. rewrite length_app.
  destruct (Z.eqb_spec (Z.of_nat 0 + (2 + Z.of_nat (length f))) (Z.of_nat (length pad + length f))); [done|lia].
Qed.

Lemma deliver_one f i :
  has IFF_RUNNING i = true -> (ETHER_ADDR_LEN <= length f)%nat ->
  exists i', VIF_DELIVERPKT true m_copyback [f] i = Ret i' /\ input i' = input i ++ option_list (accepted i f) /\
    if_flags i' = if_flags i /\ if_sadl i' = if_sadl i /\ sc_viu i' = sc_viu i /\
    if_ipackets i' = if_ipackets i + Z.of_nat (length (option_list (accepted i f))).
Proof.
  intros Hr Hl. unfold VIF_DELIVERPKT. rewrite Hr. cbn [negb].
  destruct (copy_one f) as (pad & Hp & ->); [intros ->; cbn in Hl; unfold ETHER_ADDR_LEN in Hl; lia|].
  rewrite drop_app_length' by (unfold align; lia). destruct (Nat.ltb_spec (length f) ETHER_ADDR_LEN); [lia|].
  unfold accepted. destruct (passup _ i) as [p|]; eexists; (split; [done|]); cbn; rewrite ?app_nil_r; split_and!; try done; lia.
Qed.

(** A packet in several pieces is dropped. *)
Lemma copy_several f g iov : f <> [] -> g <> [] -> copy_loop m_copyback (f :: g :: iov) align [] = None.
Proof.
  intros Hf Hg. destruct (copy_one f Hf) as (pad & Hp & H1). cbn [copy_loop] in H1 |- *.
  destruct (negb _) eqn:E; [done|]. injection H1 as H1. rewrite H1, length_app, Hp.
  destruct (Hcopy (pad ++ f) (align + Z.of_nat (length f)) g Hg) as (pad2 & Hp2 & ->).
  { rewrite length_app, Hp. unfold align. lia. }
  rewrite length_app, Hp in Hp2. assert (length pad2 = 0%nat) as Hz by (unfold align in Hp2; lia).
  rewrite !length_app, Hp, Hz.
  destruct (Z.eqb_spec (Z.of_nat (2 + length f) + (align + Z.of_nat (length f) + Z.of_nat (length g))) (Z.of_nat (2 + length f + (0 + length g))));
    [unfold align in *; lia|done].
Qed.

(** The receive thread on what the device gives it. *)
Definition data_of (r : reading) : option frame := match r with Data f => Some f | _ => None end.
Definition quiet_reading (r : reading) : Prop :=
  match r with Data f => (ETHER_ADDR_LEN <= length f)%nat | Again d => d = false | Failed => False end.

Lemma accepted_same i i' f : if_flags i' = if_flags i -> if_sadl i' = if_sadl i -> accepted i' f = accepted i f.
Proof. intros Hf Hs. unfold accepted, passup, has. by rewrite Hf, Hs. Qed.

Lemma omap_accepted_same i i' (fs : list frame) : if_flags i' = if_flags i -> if_sadl i' = if_sadl i -> omap (accepted i') fs = omap (accepted i) fs.
Proof. intros Hf Hs. induction fs as [|f fs IH]; cbn; [done|]. rewrite (accepted_same i i') by done. by rewrite IH. Qed.

Lemma rcvthread_spec rs : forall i,
  has IFF_RUNNING i = true -> is_dying i = false -> Forall quiet_reading rs ->
  exists i', rcvthread true m_copyback rs i = Ret i' /\ input i' = input i ++ omap (accepted i) (omap data_of rs) /\
    if_ipackets i' = if_ipackets i + Z.of_nat (length (omap (accepted i) (omap data_of rs))).
Proof.
  induction rs as [|r rs IH]; intros i Hr Hd Hq; cbn [rcvthread]; rewrite Hd.
  - exists i. cbn. rewrite app_nil_r. split_and!; done || lia.
  - apply Forall_cons in Hq as [Hq1 Hq]. destruct r as [f|d|]; [..|done].
    + destruct (deliver_one f (emit Schedule i) Hr Hq1) as (i1 & -> & Hin & Hf & Hs & Hv & Hn). cbn [mbind outcome_bind].
      destruct (IH (emit Unschedule i1)) as (i2 & -> & Hin2 & Hn2); [by unfold has in *; cbn [emit if_flags] in *; rewrite Hf|by unfold is_dying in *; cbn [emit sc_viu] in *; rewrite Hv|done|].
      exists i2. split; [done|]. rewrite Hin2, Hn2. cbn [emit input if_ipackets]. rewrite Hin, Hn.
      rewrite (omap_accepted_same i (emit Unschedule i1)) by first [exact Hf|exact Hs]. cbn [emit input if_ipackets omap list_omap data_of].
      change (accepted (emit Schedule i) f) with (accepted i f). destruct (accepted i f); cbn; rewrite ?app_nil_r, <- ?app_assoc; (split; [done|]); lia.
    + cbn in Hq1. subst d. destruct (IH (emit Unschedule (emit (Sleep 10) (emit Schedule i)))) as (i2 & -> & Hin2 & Hn2); [done..|].
      exists i2. split; [done|]. rewrite Hin2, Hn2. cbn [omap list_omap data_of]. done.
Qed.

End Mbuf.
Lemma virtif_create_keeps t calloc_errno thr enaddr0 i rv i' :
  virtif_create t calloc_errno thr enaddr0 i = Ret (rv, i') ->
  sc_linkstr i' = sc_linkstr i /\ if_flags i' = if_flags i.
Proof.
  unfold virtif_create. destruct (sc_viu i); [done|]. intros Hop. inv_bind Hop. inv_bind Hop.
  destruct a0 as [[error viu] i1]. unfold VIFHYPER_CREATE in E0. inv_bind E0.
  assert (sc_linkstr i1 = sc_linkstr i /\ if_flags i1 = if_flags i) as [H1 H2]
    by (repeat (case_match; simplify_eq; try done)).
  rewrite <- H1, <- H2. by destruct (error =? 0); injection Hop as _ <-.
Qed.

End DriverFacts.

(** ** Properties of the network driver *)

Module VirtifProperties.
Import FdTable Str Driver Linkstr DriverFacts Timespec Timecounter.

(** [virtif_start] sends the whole queue: every packet of fewer than 32
    fragments is written as one packet with all its bytes, in the order of the
    queue, which is empty afterwards. *)
Theorem virtif_start_sends i v :
  sc_viu i = Some v -> Forall (fun m => (length (fragments m) < LB_SH)%nat) (if_snd i) ->
  exists i', virtif_start i = Ret i' /\ sent i' = sent i ++ map (@concat Z) (if_snd i) /\ if_snd i' = [] /\
    if_opackets i' = if_opackets i + Z.of_nat (length (if_snd i)) /\ has IFF_OACTIVE i' = false.
Proof.
  intros Hv Hq. unfold virtif_start.
  destruct (start_loop_spec (if_snd i) v (upd_flags (fun f => Z.lor f IFF_OACTIVE) i) Hv Hq) as (i' & -> & Hs & Hsnd & Ho & _).
  cbn [mbind outcome_bind]. eexists. split; [done|]. split_and!; [done|done|done|].
  unfold has. cbn [upd_flags if_flags]. rewrite <- Z.land_assoc, (Z.land_comm (Z.lnot _)), Z.land_lnot_diag, Z.land_0_r. done.
Qed.

(** C19. From one interface to another: when the device of a running interface
    gives its receive thread the packets another interface has sent, the packets
    that are passed up are exactly those for this interface (its address, a
    group address, or any address in promiscuous mode), unchanged and in order. *)
Theorem packets_cross m_copyback i v rs j :
  copyback_extends m_copyback ->
  sc_viu i = Some v -> sent i = [] -> Forall (fun m => (length (fragments m) < LB_SH)%nat) (if_snd i) ->
  has IFF_RUNNING j = true -> is_dying j = false -> Forall quiet_reading rs ->
  exists i', virtif_start i = Ret i' /\
    (omap data_of rs = sent i' ->
     exists j', rcvthread true m_copyback rs j = Ret j' /\
       input j' = input j ++ omap (accepted j) (map (@concat Z) (if_snd i))).
Proof.
  intros Hm Hv Hnone Hq Hr Hd Hrs. unfold virtif_start.
  destruct (start_loop_spec (if_snd i) v (upd_flags (fun f => Z.lor f IFF_OACTIVE) i) Hv Hq) as (i' & -> & Hs & _).
  cbn [mbind outcome_bind]. eexists. split; [done|]. intros Hwire.
  destruct (rcvthread_spec m_copyback Hm rs j Hr Hd Hrs) as (j' & Hj & Hin & _). exists j'. split; [done|].
  rewrite Hin, Hwire. change (sent (upd_flags _ i')) with (sent i'). rewrite Hs.
  change (sent (upd_flags _ i)) with (sent i). by rewrite Hnone.
Qed.

(** A received packet that comes in two or more pieces is dropped: the check
    after the copy of a piece adds the old length of the packet to the offset,
    which already has it. *)
Theorem scattered_packet_dropped m_copyback f g iov i :
  copyback_extends m_copyback -> f <> [] -> g <> [] ->
  VIF_DELIVERPKT true m_copyback (f :: g :: iov) i = Ret i.
Proof.
  intros Hm Hf Hg. unfold VIF_DELIVERPKT. rewrite (copy_several m_copyback Hm) by done. by destruct (has IFF_RUNNING i).
Qed.

(** Creating interface [num] gives an interface that reads and writes
    descriptor [num], and has the first five bytes of the host device's address
    and 2 for the last. *)
Theorem clone_attaches t thr enaddr0 num e :
  0 <= num < 64 -> fd_get num t = Ret e -> thr <> 0 ->
  exists i, virtif_clone t None thr enaddr0 num = Ret (0, i) /\ sc_viu i = Some (Viu thr num num false) /\
    if_sadl i = take 5 (st_hwaddr (st e)) ++ [2] /\ (virtif_init i).1 = 0 /\ has IFF_RUNNING (virtif_init i).2 = true.
Proof.
  intros Hnum He Hthr%Z.eqb_neq. destruct (NumFacts.atoi_bytes_print num ltac:(lia)) as (_ & Ha & Hl).
  unfold virtif_clone, virtif_create. cbn [sc_viu if_xname]. unfold virt_hwaddr. rewrite length_app.
  change (length (lit "virt")) with 4%nat. destruct (Nat.ltb_spec (4 + length (print_dec num)) 5) as [|_]; [lia|].
  rewrite take_app_length', drop_app_length' by done. rewrite bool_decide_true by done. cbn [orb negb].
  rewrite Ha. cbn [mbind outcome_bind]. rewrite He. cbn [mbind outcome_bind sc_linkstr default]. unfold VIFHYPER_CREATE.
  assert (take 15 (print_dec num) = print_dec num) as ->.
  { apply take_ge. clear -Hnum.
    assert (H : forallb (fun n => (length (print_dec (Z.of_nat n)) <=? 15)%nat) (seq 0 64) = true) by (vm_compute; reflexivity).
    rewrite forallb_forall in H. specialize (H (Z.to_nat num) ltac:(apply in_seq; lia)). rewrite Z2Nat.id in H by lia. by apply Nat.leb_le in H. }
  cbn [id default from_option]. rewrite Ha. cbn [mbind outcome_bind]. rewrite Hthr. cbn [mbind outcome_bind negb Z.eqb].
  eexists. split; [done|]. done.
Qed.

(** A link string that could not be used is freed and stays: when the copy or
    the creation of the interface has failed, reading the string uses freed
    memory, and no other string is accepted. *)
Theorem linkstr_dangles t calloc_errno thr enaddr0 copyin copyout len l rv l' :
  has IFF_UP (l_if l) = false -> sc_linkstr (l_if l) = None -> 1 <= len <= 4096 ->
  set_linkstr t calloc_errno thr enaddr0 copyin LinkstrCopy len l = Ret (rv, l') -> rv <> 0 ->
  (forall cmd n, get_linkstr copyout cmd n l' = UB) /\
  (forall n, set_linkstr t calloc_errno thr enaddr0 copyin LinkstrCopy n l' = Ret (EBUSY, l')).
Proof.
  intros Hup Hnone Hlen Hop Hrv. unfold set_linkstr in Hop. rewrite Hup, Hnone in Hop. unfold RUMP_VIF_LINKSTRMAX in Hop.
  rewrite (proj2 (Z.ltb_ge _ _)), (proj2 (Z.ltb_ge _ _)) in Hop by lia.
  assert (exists s, sc_linkstr (l_if l') = Some s /\ if_flags (l_if l') = if_flags (l_if l) /\ l_freed l' = true) as (s & Hs & Hf & Hfree).
  { destruct (copyin len) as [e|s]; [injection Hop as <- <-; by eexists|]. inv_bind Hop. destruct a as [rv' i].
    apply virtif_create_keeps in E as [H1 H2]. injection Hop as -> <-. exists s. cbn [l_if l_freed].
    split_and!; [done|done|]. by apply Z.eqb_neq in Hrv as ->. }
  unfold has in Hup. rewrite <- Hf in Hup. split.
  - intros cmd n. unfold get_linkstr. by rewrite Hs, Hfree.
  - intros n. unfold set_linkstr, has. by rewrite Hup, Hs.
Qed.

(** Removing an interface uses it after it was freed: [virtif_unclone] frees
    the structure the interface is part of and then detaches the interface. *)
Theorem unclone_uses_freed i v : has IFF_UP i = false -> freed i = false -> sc_viu i = Some v -> virtif_unclone i = UB.
Proof.
  intros Hup Hfr Hv. unfold virtif_unclone. rewrite Hup, Hv. unfold use at 1.
  unfold VIFHYPER_DYING, virtif_stop, upd_viu, upd_flags. cbn [freed]. by rewrite Hfr.
Qed.

(** The time counter does not run at its frequency: in a second it advances
    by the resolution instead of by the frequency, and the two are different for
    every resolution that divides a second. *)
Theorem tc_second_is_resolution s0 ts s r ns sec :
  franken_tc_modcmd MODULE_CMD_INIT (0, ts) s0 = (0, s) -> tv_nsec ts = r -> 0 < r -> 1000000000 mod r = 0 ->
  exists a, franken_tc_get s (TS sec ns) = Ret a /\ franken_tc_get s (TS (sec + 1) ns) = Ret (u32 (a + r)) /\ r <> tc_frequency s.
Proof.
  intros Hm Hr Hpos Hdiv. cbn [franken_tc_modcmd] in Hm. destruct (_ || _ || _); [done|]. injection Hm as <-.
  unfold franken_tc_get. cbn [res tc_frequency tv_sec tv_nsec]. rewrite Hr. destruct (Z.eqb_spec r 0); [lia|].
  eexists. split; [done|]. split.
  - f_equal. unfold u32, u64. rewrite !Z.mod_mod_divide by (by exists (2 ^ 32)).
    rewrite Zplus_mod_idemp_l. f_equal. lia.
  - intros Hf. pose proof (Z.div_mod 1000000000 r ltac:(lia)) as H. rewrite Hdiv, <- Hf in H.
    destruct (Z.le_gt_cases r 31622); nia.
Qed.

(** *** Examples *)

(** The guest kernel's copy, padding with zeros. *)
Definition demo_copyback (m : frame) (off : Z) (bs : frame) : frame :=
  m ++ repeat 0 (Z.to_nat (off - Z.of_nat (length m))) ++ bs.

Lemma demo_copyback_extends : copyback_extends demo_copyback.
Proof. intros m off bs _ Hoff. eexists. split; [|done]. rewrite repeat_length. lia. Qed.

Definition demo_addr : list Z := [2; 0; 0; 0; 0; 2].
Definition demo_frame : list frame := [demo_addr; []; [2; 0; 0; 0; 0; 3; 8; 0]; [1; 2; 3]].

(** An interface with two packets to send, and one that is up. *)
Definition demo_sender : ifnet := Ifnet (lit "virt5") 0 [demo_frame; [[4; 0; 0; 0; 0; 9]]] 0 0 [] (Some (Viu 9 5 5 false)) None [] false [].
Definition demo_receiver : ifnet := Ifnet (lit "virt6") IFF_RUNNING [] 0 0 demo_addr (Some (Viu 9 6 6 false)) None [] false [].
Definition demo_readings : list reading := [Again false; Data (concat demo_frame); Data [4; 0; 0; 0; 0; 9]].

Lemma demo_fragments : Forall (fun m => (length (fragments m) < LB_SH)%nat) (if_snd demo_sender).
Proof. repeat constructor; vm_compute; lia. Qed.

Lemma demo_quiet : Forall quiet_reading demo_readings.
Proof. repeat constructor; vm_compute; lia. Qed.

Lemma virtif_start_sends_witness :
  exists i', virtif_start demo_sender = Ret i' /\ sent i' = [concat demo_frame; [4; 0; 0; 0; 0; 9]].
Proof.
  destruct (virtif_start_sends demo_sender (Viu 9 5 5 false) eq_refl demo_fragments) as (i' & H1 & H2 & _).
  exists i'. split; [exact H1|exact H2].
Defined.

Lemma packets_cross_witness :
  exists j', rcvthread true demo_copyback demo_readings demo_receiver = Ret j' /\ input j' = [(concat demo_frame, false)].
Proof.
  destruct (packets_cross demo_copyback demo_sender (Viu 9 5 5 false) demo_readings demo_receiver demo_copyback_extends eq_refl eq_refl
    demo_fragments eq_refl eq_refl demo_quiet) as (i' & H1 & H2).
  destruct H2 as (j' & H3 & H4); [vm_compute in H1; injection H1 as <-; reflexivity|]. exists j'. split; [exact H3|]. exact H4.
Defined.

Lemma scattered_packet_dropped_witness :
  VIF_DELIVERPKT true demo_copyback [demo_addr; [1; 2; 3]] demo_receiver = Ret demo_receiver.
Proof. apply (scattered_packet_dropped demo_copyback demo_addr [1; 2; 3] [] demo_receiver demo_copyback_extends); discriminate. Defined.

Definition demo_nic : fdent := set_st (Stat S_IFSOCK 0 [2; 1; 1; 1; 1; 7]) (set_valid 1 fdent0).

Lemma clone_attaches_witness :
  exists i, virtif_clone (replicate 5 fdent0 ++ [demo_nic]) None 9 [] 5 = Ret (0, i) /\ if_sadl i = [2; 1; 1; 1; 1; 2].
Proof.
  destruct (clone_attaches (replicate 5 fdent0 ++ [demo_nic]) 9 [] 5 demo_nic) as (i & H1 & _ & H2 & _); [lia|reflexivity|discriminate|].
  exists i. split; [exact H1|exact H2].
Defined.

Lemma unclone_uses_freed_witness : virtif_unclone demo_receiver = UB.
Proof. apply (unclone_uses_freed demo_receiver (Viu 9 6 6 false)); reflexivity. Defined.

Lemma tc_second_is_resolution_witness :
  exists a, franken_tc_get (Tc 1 1000000000 true) (TS 7 999999999) = Ret a /\ franken_tc_get (Tc 1 1000000000 true) (TS 8 999999999) = Ret (u32 (a + 1)).
Proof.
  destruct (tc_second_is_resolution tc0 (TS 0 1) (Tc 1 1000000000 true) 1 999999999 7) as (a & H1 & H2 & _);
    [reflexivity|reflexivity|lia|reflexivity|].
  exists a. split; [exact H1|exact H2].
Defined.

Lemma linkstr_dangles_witness :
  exists l', set_linkstr __franken_fd None 0 [] (fun _ => inr (lit "3")) LinkstrCopy 2
      (Lsc (Ifnet (lit "virt3") 0 [] 0 0 [] None None [] false []) false) = Ret (ENOMEM, l') /\
    get_linkstr (fun _ _ => 0) LinkstrCopy 2 l' = UB.
Proof.
  set (l := Lsc _ _). destruct (set_linkstr __franken_fd None 0 [] (fun _ => inr (lit "3")) LinkstrCopy 2 l) as [[rv l']| | |] eqn:E;
    [|vm_compute in E; discriminate E..]. exists l'.
  assert (Hrv : rv = ENOMEM) by (vm_compute in E; by injection E as <- _).
  split; [by rewrite Hrv|].
  apply (linkstr_dangles __franken_fd None 0 [] (fun _ => inr (lit "3")) (fun _ _ => 0) 2 l rv l');
    [reflexivity|reflexivity|lia|exact E|rewrite Hrv; discriminate].
Defined.

End VirtifProperties.
