(* ===== verification/Netpoll.v ===== *)
(** * The scheduler over the Linux poll

    On Linux the pause in [schedule] (franken/thread/thread.c) is the
    [clock_nanosleep] of platform/linux, which sleeps in ppoll on the network
    descriptors and wakes the threads that wait for them: the receive threads of
    the network driver (libvirtif/virtif_user.c), which put themselves into the
    descriptor table.  Here the three meet: the Linux platform as an instance of
    the scheduler's [Clock], and what happens when a packet arrives. *)

From S2P Require Import Prelude Platform Thread Fdtable Virtif.
From Stdlib Require Import ZArith Lia.
From stdpp Require Import base numbers list gmap.
Local Open Scope Z_scope.

(** ** The platform *)

Module LinuxClock.
Import Timespec LinuxHost.

(** The kernel below: the monotonic clock, and ppoll on the first [nfds]
    entries of the array.  ppoll writes nothing but [revents]; it returns 0 when
    the time is over, or the number of descriptors that are ready; the program
    has no signal handlers, so it does not fail. *)
Class PollHost (H : Type) : Type := {
  h_gettime : H -> timespec * H;
  h_ppoll : list pollfd -> Z -> timespec -> H -> (Z * list pollfd) * H;
  h_ok : H -> Prop;
  h_time : H -> Z;
  h_gettime_spec h :
    h_ok h -> h_ok (h_gettime h).2 /\ normal (h_gettime h).1 /\
    h_time h <= nanos (h_gettime h).1 <= h_time (h_gettime h).2;
  h_ppoll_spec ps n t h r ps' h' :
    h_ok h -> normal t -> 0 <= tv_sec t -> h_ppoll ps n t h = (r, ps', h') ->
    h_ok h' /\ h_time h <= h_time h' /\ map pfd ps' = map pfd ps /\
    (r = 0 /\ h_time h + nanos t <= h_time h' \/
     0 < r /\ exists q, q ∈ take (Z.to_nat n) ps' /\ revents q <> 0);
}.

Section Linux.
Context {H : Type} `{PollHost H}.

(** The kernel, the globals of the platform and the table of descriptors. *)
Record netclock : Type := NetClock { nc_host : H; nc_plat : platform; nc_tab : FdTable.fdtab }.

Definition gettime (c : netclock) : timespec * netclock :=
  let '(t, h) := h_gettime (nc_host c) in (t, NetClock h (nc_plat c) (nc_tab c)).

Definition set_pollfds (ps : list pollfd) (p : platform) : platform :=
  Plat (random_fd p) (socket_fd p) (npoll p) ps (tunset p).

(** The call in [schedule]: [clock_nanosleep(CLOCK_MONOTONIC, 0, &sl, NULL)],
    for a program that has network descriptors.  Where the call would be
    undefined, with a descriptor outside the table (excluded by [net_ok] below),
    nothing is woken. *)
Definition nanosleep (t : timespec) (c : netclock) : list Z * netclock :=
  let p := nc_plat c in
  let '(r, h) := h_ppoll (pollfds p) (npoll p) t (nc_host c) in
  match clock_nanosleep 0 (fun _ => None) (fun _ _ => 0) (fun _ _ => r) CLOCK_MONOTONIC 0 t 0 p (nc_tab c) with
  | Ret (_, _, ps, ws) => (ws, NetClock h (set_pollfds ps p) (nc_tab c))
  | _ => ([], c)
  end.

(** The threads in the table. *)
Definition receivers (c : netclock) : list Z := filter (fun w => w <> 0) (map FdTable.wake (nc_tab c)).

(** There are descriptors to poll, and each has its receive thread. *)
Definition net_ok (c : netclock) : Prop :=
  h_ok (nc_host c) /\ npoll (nc_plat c) <> 0 /\
  Forall (fun fd => 0 <= fd < Z.of_nat (length (nc_tab c))) (map pfd (pollfds (nc_plat c))) /\
  Forall (fun fd => exists e, nc_tab c !! Z.to_nat fd = Some e /\ FdTable.wake e <> 0)
    (map pfd (take (Z.to_nat (npoll (nc_plat c))) (pollfds (nc_plat c)))).

Lemma wake_ready_receivers c ps ws : wake_ready (nc_tab c) ps = Ret ws -> ws ⊆ receivers c.
Proof.
  induction ps as [|q ps IH] in ws |- *; cbn [wake_ready]; [intros [= <-]; apply list_subseteq_nil|].
  intros Hop. inv_bind Hop. rename E into Hq. inv_bind Hop. injection Hop as <-. apply list_subseteq_app_iff_l. split; [|by apply IH].
  destruct (revents q =? 0); cbn [negb] in Hq; [injection Hq as <-; apply list_subseteq_nil|].
  inv_bind Hq. injection Hq as <-. destruct (Z.eqb_spec (FdTable.wake a1) 0) as [|Hne]; [apply list_subseteq_nil|].
  intros w ->%list_elem_of_singleton. apply list_elem_of_filter. split; [done|].
  unfold FdTable.fd_get in E0. destruct (0 <=? pfd q); [|done].
  destruct (nc_tab c !! Z.to_nat (pfd q)) as [e|] eqn:He; [|done]. injection E0 as <-.
  apply list_elem_of_fmap. exists e. split; [done|]. by eapply list_elem_of_lookup_2.
Qed.

(** What a sleep on network descriptors does. *)
Lemma nanosleep_eq t c r ps h :
  npoll (nc_plat c) <> 0 -> h_ppoll (pollfds (nc_plat c)) (npoll (nc_plat c)) t (nc_host c) = (r, ps, h) -> r <> -1 ->
  nanosleep t c =
    match (if r =? 0 then Ret [] else wake_ready (nc_tab c) (take (Z.to_nat (npoll (nc_plat c))) ps)) with
    | Ret ws => (ws, NetClock h (set_pollfds ps (nc_plat c)) (nc_tab c))
    | _ => ([], c)
    end.
Proof.
  intros Hn Hp Hr. unfold nanosleep. rewrite Hp. unfold clock_nanosleep. cbn [Z.eqb negb orb].
  change (lid_of CLOCK_MONOTONIC) with (Some 1). apply Z.eqb_neq in Hn, Hr. rewrite Hn, Hr. destruct (r =? 0); [done|].
  by destruct (wake_ready _ _).
Qed.

Lemma nanosleep_receivers t c :
  receivers (nanosleep t c).2 = receivers c /\ (nanosleep t c).1 ⊆ receivers c.
Proof.
  unfold nanosleep. destruct (h_ppoll _ _ _ _) as [[r ps] h]. destruct (clock_nanosleep _ _ _ _ _ _ _ _ _ _) as [[[[a b] ps'] ws]| | |] eqn:E;
    cbn [fst snd]; (split; [done|]); try apply list_subseteq_nil.
  unfold clock_nanosleep in E. cbn [Z.eqb negb orb] in E. change (lid_of CLOCK_MONOTONIC) with (Some 1) in E.
  destruct (npoll (nc_plat c) =? 0).
  - inv_bind E. case_match; [inv_bind E; repeat case_match; simplify_eq; apply list_subseteq_nil|].
    injection E as _ _ _ <-. apply list_subseteq_nil.
  - do 2 (case_match; [injection E as _ _ _ <-; apply list_subseteq_nil|]). inv_bind E.
    injection E as _ _ _ <-. by eapply wake_ready_receivers.
Qed.

(** A sleep on network descriptors that have their receive threads. *)
Lemma nanosleep_ok c t :
  net_ok c -> normal t -> 0 <= tv_sec t ->
  net_ok (nanosleep t c).2 /\ h_time (nc_host c) <= h_time (nc_host (nanosleep t c).2) /\
  ((nanosleep t c).1 = [] -> h_time (nc_host c) + nanos t <= h_time (nc_host (nanosleep t c).2)).
Proof.
  intros (Hh & Hn & Hfd & Hw) Ht Hs.
  destruct (h_ppoll (pollfds (nc_plat c)) (npoll (nc_plat c)) t (nc_host c)) as [[r ps] h] eqn:Hp.
  destruct (h_ppoll_spec _ _ _ _ _ _ _ Hh Ht Hs Hp) as (Hh' & Hle & Hps & Hr).
  assert (Hok : net_ok (NetClock h (set_pollfds ps (nc_plat c)) (nc_tab c))).
  { split_and!; cbn; [done..|by rewrite Hps|]. by rewrite <- List.firstn_map, Hps, List.firstn_map. }
  rewrite (nanosleep_eq t c r ps h Hn Hp) by lia. destruct Hr as [[-> Hfull]|(Hr & q & Hq & Hrev)]; [done|].
  case_cmp; [lia|].
  destruct (HostFacts.wake_ready_spec (nc_tab c) (take (Z.to_nat (npoll (nc_plat c))) ps)) as (ws & -> & Hws).
  { apply Forall_take. rewrite <- Hps in Hfd. by apply List.Forall_map in Hfd. }
  cbn [fst snd]. split_and!; [done..|]. intros ->.
  assert (exists e, nc_tab c !! Z.to_nat (pfd q) = Some e /\ FdTable.wake e <> 0) as (e & He & Hne).
  { rewrite Forall_forall in Hw. apply Hw. rewrite <- List.firstn_map, <- Hps, List.firstn_map. by apply list_elem_of_fmap_2. }
  exfalso. apply (not_elem_of_nil (FdTable.wake e)), Hws. by exists q, e.
Qed.

#[export] Program Instance linux_clock : Clock netclock := {|
  clk_gettime := gettime;
  clk_nanosleep := nanosleep;
  clk_receivers := receivers;
  clk_ok := net_ok;
  clk_time := fun c => h_time (nc_host c);
|}.
Next Obligation.
  intros c (Hh & Hok). unfold gettime. pose proof (h_gettime_spec _ Hh) as Hg.
  destruct (h_gettime (nc_host c)) as [t h]. destruct Hg as (? & ? & ?). done.
Qed.
Next Obligation. apply nanosleep_ok. Qed.
Next Obligation. intros c. unfold gettime. by destruct (h_gettime (nc_host c)). Qed.
Next Obligation. apply nanosleep_receivers. Qed.

End Linux.

Arguments netclock H : clear implicits.

End LinuxClock.

(** ** The scheduler on this platform *)

Module NetFacts.
Import Timespec LinuxHost LinuxClock Sched SchedFacts SchedInv.

Section Net.
Context {H : Type} `{PollHost H}.
Implicit Types st : sched (netclock H).

(** No thread is due at the scheduler's next reading of the clock. *)
Definition idle st : Prop :=
  forall u x, u ∈ thread_list st -> threads st !! u = Some x -> due (nanos (h_gettime (nc_host (clock st))).1) x = false.

(** A packet waits at the descriptor: the next poll reports it, however long it
    may sleep. *)
Definition pending_input (fd : Z) (c : netclock H) : Prop :=
  forall t r ps h, normal t -> 0 <= tv_sec t ->
    h_ppoll (pollfds (nc_plat c)) (npoll (nc_plat c)) t (h_gettime (nc_host c)).2 = (r, ps, h) ->
    0 < r /\ exists q, q ∈ take (Z.to_nat (npoll (nc_plat c))) ps /\ pfd q = fd /\ revents q <> 0.

(** The pause of [schedule]. *)
Definition pause (d : Z) : timespec :=
  let sec := Z.quot d (1000 * 1000 * 1000) in TS sec (d - 1000 * 1000 * 1000 * sec).

Lemma pause_normal d : 0 < d -> normal (pause d) /\ 0 <= tv_sec (pause d).
Proof.
  intros Hd. unfold pause, normal. cbn [tv_sec tv_nsec].
  rewrite Z.quot_div_nonneg by lia.
  pose proof (Z.div_mod d (1000 * 1000 * 1000) ltac:(lia)).
  pose proof (Z.mod_pos_bound d (1000 * 1000 * 1000) ltac:(lia)).
  pose proof (Z.div_pos d (1000 * 1000 * 1000) ltac:(lia) ltac:(lia)). lia.
Qed.

(** A round of the loop in which nothing is due polls the descriptors and wakes
    the receivers. *)
Lemma idle_round fuel st :
  (forall t, t ∈ thread_list st -> is_Some (threads st !! t)) -> idle st ->
  exists d, 0 < d /\
    schedule_loop (S fuel) st =
      (let '(ws, c) := nanosleep (pause d) (gettime (clock st)).2 in
       s ← wake_threads ws (upd_clock (fun _ => c) st); schedule_loop fuel s).
Proof.
  intros Hdom Hidle. cbn [schedule_loop]. unfold now. cbn [clk_gettime linux_clock].
  unfold idle in Hidle. unfold gettime. destruct (h_gettime (nc_host (clock st))) as [ts h]. cbn [fst snd] in *.
  cbn [upd_clock threads thread_list]. set (tm := nanos ts) in *.
  destruct (scan_spec tm (tm + 1000 * 1000) (threads st) (thread_list st))
    as [(l1 & t & l2 & th & w & Hl & Hth & Hd & _)|(w & -> & _ & Hw & _)]; [lia|done|..].
  - rewrite (Hidle t th) in Hd; [done|rewrite Hl; apply elem_of_app; right; by left|done].
  - exists (w - tm). split; [lia|]. cbn [mbind outcome_bind]. by destruct st.
Qed.

(** The threads a poll with a packet at [fd] wakes. *)
Lemma input_wakes fd e d c :
  net_ok c -> 0 < d -> pending_input fd c -> nc_tab c !! Z.to_nat fd = Some e -> FdTable.wake e <> 0 ->
  FdTable.wake e ∈ (nanosleep (pause d) (gettime c).2).1.
Proof.
  intros (Hh & Hn & Hfd & _) Hd Hin He Hne. destruct (pause_normal d Hd) as [Hp1 Hp2].
  pose proof (h_gettime_spec _ Hh) as Hg. unfold pending_input in Hin. unfold gettime.
  destruct (h_gettime (nc_host c)) as [ts h]. cbn [fst snd] in *. destruct Hg as (Hh1 & _).
  destruct (h_ppoll (pollfds (nc_plat c)) (npoll (nc_plat c)) (pause d) h) as [[r ps] h'] eqn:Hp.
  destruct (h_ppoll_spec _ _ _ _ _ _ _ Hh1 Hp1 Hp2 Hp) as (_ & _ & Hps & _).
  destruct (Hin _ _ _ _ Hp1 Hp2 Hp) as (Hr & q & Hq & <- & Hrev).
  rewrite (nanosleep_eq (pause d) (NetClock h (nc_plat c) (nc_tab c)) r ps h' Hn Hp) by lia. cbn [nc_plat nc_tab].
  case_cmp; [lia|].
  destruct (HostFacts.wake_ready_spec (nc_tab c) (take (Z.to_nat (npoll (nc_plat c))) ps)) as (ws & -> & Hws).
  { apply Forall_take. rewrite <- Hps in Hfd. by apply List.Forall_map in Hfd. }
  cbn [fst]. apply Hws. by exists q, e.
Qed.

(** The next round is entered with the receiver runnable. *)
Lemma input_round fuel fd e st :
  polled st -> idle st -> pending_input fd (clock st) ->
  nc_tab (clock st) !! Z.to_nat fd = Some e -> FdTable.wake e <> 0 ->
  exists st1, schedule_loop (S fuel) st = schedule_loop fuel st1 /\ woken st st1 /\ polled st1 /\
    runnable st1 (FdTable.wake e) /\ FdTable.wake e ∈ thread_list st.
Proof.
  intros P Hidle Hin He Hne. pose proof P as [Hc Hdom Hrec].
  destruct (idle_round fuel st Hdom Hidle) as (d & Hd & ->).
  pose proof (input_wakes fd e d (clock st) Hc Hd Hin He Hne) as Hw.
  destruct (clk_gettime_spec (clock st) Hc) as (Hc1 & _). destruct (pause_normal d Hd) as [Hp1 Hp2].
  destruct (clk_nanosleep_spec _ (pause d) Hc1 Hp1 Hp2) as (Hc2 & _).
  destruct (clk_nanosleep_receivers (pause d) (clk_gettime (clock st)).2) as [Er Hsub].
  rewrite clk_gettime_receivers in Er, Hsub.
  cbn [clk_gettime clk_nanosleep clk_receivers clk_ok linux_clock] in *.
  destruct (nanosleep (pause d) (gettime (clock st)).2) as [ws c]. cbn [fst snd] in *.
  destruct (wake_threads_ends ws (upd_clock (fun _ => c) st)) as (st1 & Hst & Ecl).
  { intros w Hw'. apply Hdom, Hrec, Hsub, Hw'. }
  destruct (wake_threads_woken ws _ _ Hst) as [W Hr]; [by cbn; rewrite Er|].
  assert (W0 : woken st st1) by (eapply woken_trans; [by apply (woken_clock c)|exact W]).
  exists st1. rewrite Hst. split_and!; [done|done| |by apply Hr|by apply Hrec, Hsub].
  eapply polled_woken; [done|by rewrite Ecl|done].
Qed.

End Net.
End NetFacts.

(** ** Properties of the scheduler over the poll *)

Module NetProperties.
Import Timespec LinuxHost LinuxClock Sched SchedFacts SchedInv NetFacts.

Section Properties.
Context {H : Type} `{PollHost H}.
Implicit Types st : sched (netclock H).

(** C7. A packet gets its receive thread to run: when no thread is due and a
    packet waits at the descriptor of an interface whose receive thread has
    registered itself, [schedule] does not sleep for the rest of the thread's ten
    seconds.  It finds a thread to run in its second round, that thread is the
    receive thread or one in front of it in the list, and in the second case the
    receive thread gets the processor before as many more threads do as were in
    front of it. *)
Theorem packet_runs_receiver c0 t0 v st :
  let R := Driver.viu_rcvthr v in
  reach c0 st -> polled st -> R <> 0 ->
  Driver.rcvthread_start t0 v = Ret (nc_tab (clock st)) ->
  idle st -> pending_input (Driver.viu_fd v) (clock st) ->
  (exists t st', schedule_loop 2 st = Ret (t, st')) /\
  forall fuel r st1, schedule fuel st = Ret (r, st1) ->
    current_thread st1 = R \/ forall n st2, bypass R n st1 st2 -> (n < rank R (thread_list st))%nat.
Proof.
  intros R Hre P HR Hreg Hidle Hin.
  assert (exists e, nc_tab (clock st) !! Z.to_nat (Driver.viu_fd v) = Some e /\ FdTable.wake e = R) as (e & He & Hw).
  { unfold Driver.rcvthread_start, FdTable.franken_recv_thread, FdTable.fd_upd, FdTable.fd_get in Hreg.
    destruct (0 <=? Driver.viu_fd v); [|done]. destruct (t0 !! Z.to_nat (Driver.viu_fd v)) as [e|] eqn:He; [|done].
    injection Hreg as <-. eexists. rewrite list_lookup_insert_eq by (by eapply lookup_lt_Some). done. }
  rewrite <- Hw in HR. split.
  - destruct (input_round 1 _ e st P Hidle Hin He HR) as (st1 & -> & W & P1 & (x & Hx & Hr) & Hl).
    destruct (schedule_loop_now 0 st1 P1) as (? & t & st' & _ & _ & _ & _ & E & _); [|eauto].
    exists (FdTable.wake e), x. rewrite (woken_list _ _ W). auto.
  - intros [|fuel] r st1 Hop; [done|]. unfold schedule in Hop.
    destruct (input_round fuel _ e st P Hidle Hin He HR) as (s & E & W & _ & Hr & Hl). rewrite E in Hop.
    assert (S1 : settled s) by (eapply quiet_settled; [by apply woken_quiet|by eapply reach_settled]).
    rewrite Hw in *. rewrite <- (woken_list _ _ W) in *.
    destruct (schedule_fair fuel s r st1 R Hop S1 Hl Hr) as [?|(Hl1 & Hr1 & Hlt)]; [by left|right].
    intros n st2 Hb. eapply Nat.le_lt_trans; [|exact Hlt].
    eapply bypass_bound; [done|by eapply schedule_inv|done..].
Qed.

End Properties.

(** *** A kernel with a clock and a set of descriptors that have input *)

Definition demo_mark (inbox : list Z) (q : pollfd) : pollfd :=
  Pollfd (pfd q) (events q) (if bool_decide (pfd q ∈ inbox) then 1 else 0).

Definition demo_ppoll (ps : list pollfd) (n : Z) (t : timespec) (h : Z * list Z) : (Z * list pollfd) * (Z * list Z) :=
  let ps' := map (demo_mark h.2) (take (Z.to_nat n) ps) in
  let r := Z.of_nat (length (filter (fun q => revents q <> 0) ps')) in
  (r, ps' ++ drop (Z.to_nat n) ps, (if r =? 0 then h.1 + nanos t else h.1 + 1000, h.2)).

#[export] Program Instance demo_kernel : PollHost (Z * list Z) := {|
  h_gettime := fun h => (TS (h.1 / 1000000000) (h.1 mod 1000000000), (h.1 + 100, h.2));
  h_ppoll := demo_ppoll;
  h_ok := fun h => 0 <= h.1;
  h_time := fun h => h.1;
|}.
Next Obligation.
  intros [n b] Hn. unfold normal, nanos. cbn [fst snd tv_sec tv_nsec] in *.
  pose proof (Z.div_mod n 1000000000 ltac:(lia)). pose proof (Z.mod_pos_bound n 1000000000 ltac:(lia)).
  split_and!; lia.
Qed.
Next Obligation.
  intros ps n t [tm b] r ps' [tm' b'] Hh Ht Hs. unfold demo_ppoll. cbn [fst snd] in *.
  set (qs := map _ _). intros [= <- <- <- <-]. assert (0 <= nanos t) by (unfold normal, nanos in *; lia). split_and!.
  - case_cmp; lia.
  - case_cmp; lia.
  - subst qs. rewrite map_app, map_map. cbn [demo_mark pfd]. rewrite <- map_app. by rewrite take_drop.
  - destruct (filter (fun q => revents q <> 0) qs) as [|q l] eqn:Ef; [left|right].
    { split; [done|]. change (Z.of_nat (length [])) with 0. cbn [Z.eqb]. lia. }
    split; [cbn [length]; lia|].
    assert (q ∈ filter (fun q => revents q <> 0) qs) as [Hq Hin]%list_elem_of_filter by (rewrite Ef; by left).
    exists q. split; [|done]. apply list_elem_of_lookup in Hin as [i Hi]. apply list_elem_of_lookup. exists i.
    assert (i < length qs)%nat as Hl by (by eapply lookup_lt_Some). subst qs. rewrite length_map, length_take in Hl.
    rewrite lookup_take_lt by lia. by apply lookup_app_l_Some.
Qed.

(** Thread 100 sleeps for a second, the receive thread 200 of descriptor 3 for
    ten; then a packet arrives. *)
Definition demo_viu : Driver.virtif_user := Driver.Viu 200 3 3 false.

Definition demo_script : list (option call) :=
  [Some (CCreate 200 65536 0 0 0 false); Some (CClockSleep Sched.CLOCK_REALTIME 1 0); None;
   Some (CClockSleep Sched.CLOCK_REALTIME 10 0)].

Definition demo_start : netclock (Z * list Z) := NetClock (0, []) HostProperties.demo_plat FdTable.__franken_fd.

Definition demo_asleep : sched (netclock (Z * list Z)) :=
  match init_sched 100 (sched_init demo_start) with
  | Ret st => match Script.run demo_script st with Ret st => st | _ => sched_init demo_start end
  | _ => sched_init demo_start
  end.

Definition demo_tab : FdTable.fdtab :=
  match Driver.rcvthread_start FdTable.__franken_fd demo_viu with Ret t => t | _ => [] end.

(** The platform at that time. *)
Definition demo_now : netclock (Z * list Z) := NetClock (1000, [3]) HostProperties.demo_plat demo_tab.

Definition demo_state : sched (netclock (Z * list Z)) := upd_clock (fun _ => demo_now) demo_asleep.

Lemma demo_net_reach : reach demo_start demo_state.
Proof.
  eapply reach_step; [|apply step_platform].
  assert (exists st, init_sched 100 (sched_init demo_start) = Ret st /\ Script.run demo_script st = Ret demo_asleep)
    as (st & H1 & H2) by (eexists; split; [reflexivity|vm_compute; reflexivity]).
  eapply Script.run_reach; [exact (reach_init _ 100 _ H1)|exact H2].
Qed.

Lemma demo_pending : pending_input 3 demo_now.
Proof.
  intros t r ps h _ _. vm_compute. intros [= <- <- <-]. split; [done|].
  exists (Pollfd 3 3 1). split_and!; [by left|done..].
Qed.

Lemma demo_net_ok : net_ok demo_now.
Proof.
  split_and!; [by vm_compute|done|..]; (apply Forall_cons; split; [|by apply Forall_nil]).
  - change (0 <= 3 < 64). lia.
  - eexists. split; [vm_compute; reflexivity|done].
Qed.

Lemma demo_list : thread_list demo_state = [100; 200].
Proof. vm_compute. reflexivity. Qed.

Lemma demo_threads :
  threads demo_state = {[ 100 := Thread 0 0 1000000000 0 0; 200 := Thread 0 0 10000000200 65536 0 ]}.
Proof. vm_compute. reflexivity. Qed.

Lemma demo_idle : idle demo_state.
Proof.
  intros u x Hu Hx. rewrite demo_list in Hu. rewrite demo_threads in Hx.
  change (due 1000 x = false).
  apply elem_of_cons in Hu as [->|Hu%list_elem_of_singleton]; [|subst u]; vm_compute in Hx; by injection Hx as <-.
Qed.

Lemma demo_polled : polled demo_state.
Proof.
  split; [exact demo_net_ok|..].
  - intros t Ht. apply (t_dom _ (s_tinv _ (reach_settled _ _ demo_net_reach))), elem_of_app. left. exact Ht.
  - intros w Hw. rewrite demo_list. vm_compute in Hw.
    apply list_elem_of_singleton in Hw as ->. by right; left.
Qed.

Lemma packet_runs_receiver_witness :
  (exists t st', schedule_loop 2 demo_state = Ret (t, st')) /\
  forall fuel r st1, schedule fuel demo_state = Ret (r, st1) ->
    current_thread st1 = 200 \/
    forall n st2, bypass 200 n st1 st2 -> (n < rank 200 (thread_list demo_state))%nat.
Proof.
  apply (packet_runs_receiver demo_start FdTable.__franken_fd demo_viu _ demo_net_reach demo_polled);
    [discriminate|vm_compute; reflexivity|exact demo_idle|exact demo_pending].
Defined.

End NetProperties.
