(* ===== verification/Spwire.v ===== *)
(** * The system call proxy: messages

    The lower half of [librumpuser/sysproxy.c]: the frame header, [readframe]
    (which puts a frame together from the pieces a non-blocking socket gives),
    [dosend] (which pushes a scatter list through a socket that takes part of it
    at a time), the error numbers and the server's address ([parseurl]).

    The socket is not part of the program: what it gives to [read], [poll] and
    [sendmsg] is an argument.  Messages on stderr are not modelled. *)

From S2P Require Import Prelude Libc.
From Stdlib Require Import ZArith Lia String.
From stdpp Require Import base numbers list.
Local Open Scope Z_scope.

(** ** Headers *)

Module Wire.

Definition RUMPSP_REQ : Z := 0.
Definition RUMPSP_RESP : Z := 1.
Definition RUMPSP_ERROR : Z := 2.

Definition RUMPSP_HANDSHAKE : Z := 0.
Definition RUMPSP_SYSCALL : Z := 1.
Definition RUMPSP_COPYIN : Z := 2.
Definition RUMPSP_COPYINSTR : Z := 3.
Definition RUMPSP_COPYOUT : Z := 4.
Definition RUMPSP_COPYOUTSTR : Z := 5.
Definition RUMPSP_ANONMMAP : Z := 6.
Definition RUMPSP_PREFORK : Z := 7.
Definition RUMPSP_RAISE : Z := 8.

Definition HANDSHAKE_GUEST : Z := 0.
Definition HANDSHAKE_AUTH : Z := 1.
Definition HANDSHAKE_FORK : Z := 2.
Definition HANDSHAKE_EXEC : Z := 3.

Inductive rumpsp_err : Type :=
  | RUMPSP_ERR_NONE
  | RUMPSP_ERR_TRYAGAIN
  | RUMPSP_ERR_AUTH
  | RUMPSP_ERR_INVALID_PREFORK
  | RUMPSP_ERR_RFORK_FAILED
  | RUMPSP_ERR_INEXEC
  | RUMPSP_ERR_NOMEM
  | RUMPSP_ERR_MALFORMED_REQUEST.

(** The number an error has on the wire. *)
Definition err_num (e : rumpsp_err) : Z :=
  match e with
  | RUMPSP_ERR_NONE => 0
  | RUMPSP_ERR_TRYAGAIN => 1
  | RUMPSP_ERR_AUTH => 2
  | RUMPSP_ERR_INVALID_PREFORK => 3
  | RUMPSP_ERR_RFORK_FAILED => 4
  | RUMPSP_ERR_INEXEC => 5
  | RUMPSP_ERR_NOMEM => 6
  | RUMPSP_ERR_MALFORMED_REQUEST => 7
  end.

(** The switch on the number received. *)
Definition errmap (error : Z) : Z :=
  if error =? err_num RUMPSP_ERR_NONE then 0
  else if error =? err_num RUMPSP_ERR_AUTH then EPERM
  else if error =? err_num RUMPSP_ERR_TRYAGAIN then EAGAIN
  else if error =? err_num RUMPSP_ERR_INVALID_PREFORK then ESRCH
  else if error =? err_num RUMPSP_ERR_RFORK_FAILED then EIO
  else if error =? err_num RUMPSP_ERR_INEXEC then EBUSY
  else if error =? err_num RUMPSP_ERR_NOMEM then ENOMEM
  else if error =? err_num RUMPSP_ERR_MALFORMED_REQUEST then EINVAL
  else -1.

(** struct rsp_hdr; the union at its end is one 32-bit word. *)
Record rsp_hdr : Type := Hdr {
  rsp_len : Z;
  rsp_reqno : Z;
  rsp_class : Z;
  rsp_type : Z;
  rsp_u : Z;
}.

Definition HDRSZ : Z := 24.

(** The bytes of an integer in memory, low byte first, and back. *)
Fixpoint le (n : nat) (v : Z) : list Z :=
  match n with
  | O => []
  | S n => u8 v :: le n (v / 256)
  end.

Fixpoint unle (bs : list Z) : Z :=
  match bs with
  | [] => 0
  | b :: bs => b + 256 * unle bs
  end.

(** The representation of a header, which is what is sent and received. *)
Definition hdr_bytes (h : rsp_hdr) : list Z :=
  le 8 (rsp_len h) ++ le 8 (rsp_reqno h) ++ le 2 (rsp_class h) ++ le 2 (rsp_type h) ++ le 4 (rsp_u h).

Definition hdr_of (bs : list Z) : rsp_hdr :=
  {| rsp_len := unle (take 8 bs);
     rsp_reqno := unle (take 8 (drop 8 bs));
     rsp_class := unle (take 2 (drop 16 bs));
     rsp_type := unle (take 2 (drop 18 bs));
     rsp_u := unle (take 4 (drop 20 bs)) |}.

Definition hdr_ok (h : rsp_hdr) : Prop :=
  0 <= rsp_len h < 2 ^ 64 /\ 0 <= rsp_reqno h < 2 ^ 64 /\ 0 <= rsp_class h < 2 ^ 16 /\
  0 <= rsp_type h < 2 ^ 16 /\ 0 <= rsp_u h < 2 ^ 32.

End Wire.

(** ** Receiving *)

Module Frame.
Import Wire.

(** What the socket has for the reader: pieces of data, "nothing now", end of
    file, an error. *)
Inductive rd : Type := Data (bs : list Z) | Again | Eof | Fail.

(** The result of [host_read] for up to [left] bytes, and what is left. *)
Definition host_read (left : Z) (ch : list rd) : rd * list rd :=
  match ch with
  | [] => (Again, [])
  | Data bs :: ch =>
      if Z.of_nat (length bs) <=? left then (Data bs, ch)
      else (Data (take (Z.to_nat left) bs), Data (drop (Z.to_nat left) bs) :: ch)
  | Again :: ch => (Again, ch)
  | Eof :: ch => (Eof, Eof :: ch)
  | Fail :: ch => (Fail, ch)
  end.

(** The fields of struct spclient that [readframe] works on: the bytes of
    [spc_hdr], the body's buffer and the count of bytes read. *)
Record rbuf : Type := Rbuf { spc_hdr : list Z; spc_buf : option (list Z); spc_off : Z }.

Definition spcresetbuf (c : rbuf) : rbuf := Rbuf (spc_hdr c) None 0.

(** [malloc]'s answer for a size is an argument of [readframe]. *)
Section Read.
Variable malloc_ok : Z -> bool.

(** Write [bs] over the bytes from [off] on. *)
Definition splice (off : Z) (bs l : list Z) : list Z :=
  take (Z.to_nat off) l ++ bs ++ drop (Z.to_nat off + length bs) l.

(** The second half: read part of the body. *)
Definition read_body (framelen : Z) (ch : list rd) (c : rbuf) : Z * list rd * rbuf :=
  let left := u64 (framelen - spc_off c) in
  if left =? 0 then (1, ch, c)
  else
    match host_read left ch with
    | (Eof, ch) => (-1, ch, c)
    | (Again, ch) => (0, ch, c)
    | (Fail, ch) => (-1, ch, c)
    | (Data bs, ch) =>
        let n := Z.of_nat (length bs) in
        let buf := match spc_buf c with Some b => Some (splice (spc_off c - HDRSZ) bs b) | None => None end in
        let c := Rbuf (spc_hdr c) buf (u64 (spc_off c + n)) in
        if u64 (left - n) =? 0 then (1, ch, c) else (0, ch, c)
    end.

Definition readframe (ch : list rd) (c : rbuf) : Z * list rd * rbuf :=
  if spc_off c <? HDRSZ then
    let left := HDRSZ - spc_off c in
    match host_read left ch with
    | (Eof, ch) => (-1, ch, c)
    | (Again, ch) => (0, ch, c)
    | (Fail, ch) => (-1, ch, c)
    | (Data bs, ch) =>
        let c := Rbuf (splice (spc_off c) bs (spc_hdr c)) (spc_buf c) (u64 (spc_off c + Z.of_nat (length bs))) in
        if spc_off c <? HDRSZ then (0, ch, c)
        else
          let framelen := rsp_len (hdr_of (spc_hdr c)) in
          if framelen <? HDRSZ then (-1, ch, c)
          else if framelen =? HDRSZ then (1, ch, c)
          else if negb (malloc_ok (framelen - HDRSZ)) then (-1, ch, Rbuf (spc_hdr c) None (spc_off c))
          else
            read_body framelen ch
              (Rbuf (spc_hdr c) (Some (repeat 0 (Z.to_nat (framelen - HDRSZ)))) (spc_off c))
    end
  else read_body (rsp_len (hdr_of (spc_hdr c))) ch c.

(** The server calls [readframe] each time the socket is readable; [read_until]
    is the sequence of calls up to the first result other than 0. *)
Fixpoint read_until (fuel : nat) (ch : list rd) (c : rbuf) : outcome (Z * list rd * rbuf) :=
  match fuel with
  | O => NoFuel
  | S fuel =>
      let '(r, ch, c) := readframe ch c in
      if r =? 0 then read_until fuel ch c else Ret (r, ch, c)
  end.

End Read.
End Frame.

(** ** Sending *)

Module Send.

(** What the socket answers in one round of the loop: to [poll], an error number
    or nothing, and to [sendmsg], how many bytes it is ready to take or an error
    number. *)
Record round : Type := Round { poll_err : option Z; sendmsg : Z + Z }.

(** What [dosend] does to the current thread of the guest kernel. *)
Inductive lwp_ev : Type := Newlwp (pid : Z) | Release | Switch (lwp : Z).

(** The loop after a [sendmsg] of [n] bytes that moves past the finished
    elements.  (Its condition reads [iov[0].iov_len] before it tests [iovlen], so
    that after the last element it reads one past the array; the test then ends
    the loop whatever was read.) *)
Fixpoint advance (n : Z) (iov : list (list Z)) : Z * list (list Z) :=
  match iov with
  | [] => (n, [])
  | b :: iov' => if Z.of_nat (length b) <=? n then advance (n - Z.of_nat (length b)) iov' else (n, iov)
  end.

(** The [for (;;)] loop: [n] is the variable of that name, [os] what the socket
    answers from now on (with no answer left the thread is still blocked).  The
    result is the error and the bytes the socket took. *)
Fixpoint send_loop (os : list round) (n : Z) (iov : list (list Z)) (sent : list Z) :
    outcome (Z * list Z) :=
  match os with
  | [] => NoFuel
  | o :: os =>
      match (if n =? 0 then None else poll_err o) with
      | Some errno => if errno =? EINTR then send_loop os n iov sent else Ret (errno, sent)
      | None =>
          match sendmsg o with
          | inr errno =>
              let error := if errno =? EPIPE then ENOTCONN else 0 in
              let error := if negb (errno =? EAGAIN) then errno else error in
              if negb (error =? 0) then Ret (error, sent) else send_loop os (-1) iov sent
          | inl room =>
              let n := Z.min room (Z.of_nat (length (concat iov))) in
              if n =? 0 then Ret (ENOTCONN, sent)
              else
                let sent := sent ++ take (Z.to_nat n) (concat iov) in
                let '(n, iov) := advance n iov in
                match iov with
                | [] => Ret (0, sent)
                | b :: iov => send_loop os n (drop (Z.to_nat n) b :: iov) sent
                end
          end
      end
  end.

(** [mylwp] is the thread that was current.  The error path leaves the loop with
    a [goto] past the two calls that undo [lwproc_newlwp]. *)
Definition dosend (os : list round) (mylwp : Z) (iov : list (list Z)) :
    outcome (Z * list Z * list lwp_ev) :=
  '(error, sent) ← send_loop os 0 iov [];
  Ret (error, sent,
       [Newlwp 1] ++ if error =? 0 then [Release] ++ (if negb (mylwp =? 0) then [Switch mylwp] else []) else []).

End Send.

(** ** The server's address *)

Module Url.
Import Str.

Abbreviation str := (list Z).

(** [strspn(p, "0123456789")]. *)
Fixpoint digits_len (p : str) : nat :=
  match p with
  | c :: p => if isdigit c then S (digits_len p) else O
  | [] => O
  end.

(** The part of a string before the first [c], and the part after it. *)
Fixpoint split_at (c : Z) (s : str) : option (str * str) :=
  match s with
  | [] => None
  | x :: s' =>
      if x =? c then Some ([], s')
      else match split_at c s' with Some (a, b) => Some (x :: a, b) | None => None end
  end.

(** [strstr(p, "://")], as what comes before and after it. *)
Fixpoint split_scheme (s : str) : option (str * str) :=
  match s with
  | 58 :: 47 :: 47 :: s' => Some ([], s')
  | x :: s' => match split_scheme s' with Some (a, b) => Some (x :: a, b) | None => None end
  | [] => None
  end.

(** A parsed address: a TCP address with its port in host order, or a path. *)
Inductive sockaddr : Type := Sin (addr port : Z) | Sun (path : str).

Definition INADDR_ANY : Z := 0.

Section Parse.
(** [inet_pton] for IPv4: the address (1), not an address (0), or an error. *)
Variable inet_pton : str -> option Z + Z.
(** The current directory, if it is known. *)
Variable getcwd : option str.
(** Whether [malloc] finds memory, and its errno if not. *)
Variable malloc_errno : option Z.

(** An error number, or the address. *)
Definition tcp_addr (buf : str) : outcome (Z + Z) :=
  if (cmp_bytes buf (lit "*") =? 0) || (cmp_bytes buf (lit "0") =? 0) then Ret (inr INADDR_ANY)
  else
    match inet_pton buf with
    | inl (Some a) => Ret (inr a)
    | inl None => Ret (inl EINVAL)
    | inr errno => Ret (inl errno)
    end.

(** The port is copied to the buffer of 64 bytes without looking at its length. *)
Definition tcp_port (p : str) : outcome (Z + Z) :=
  let l := digits_len p in
  if (l =? 0)%nat then Ret (inl EINVAL)
  else if (64 <=? l)%nat then UB
  else
    let buf := take l p in
    match drop l p with
    | c :: _ => if negb (c =? 47) then Ret (inl EINVAL)
                else port ← atoi_bytes buf;
                     Ret (if (port <? 0) || (2 ^ 16 <=? port) then inl ERANGE else inr port)
    | [] => port ← atoi_bytes buf;
            Ret (if (port <? 0) || (2 ^ 16 <=? port) then inl ERANGE else inr port)
    end.

Definition tcp_parse (addr : str) (allow_wildcard : bool) : outcome (Z + sockaddr) :=
  match split_at 58 addr with
  | None => Ret (inl EINVAL)
  | Some (buf, p) =>
      if (63 <? length buf)%nat then Ret (inl EINVAL)
      else
        a ← tcp_addr buf;
        match a with
        | inl error => Ret (inl error)
        | inr a =>
            if negb allow_wildcard && (a =? INADDR_ANY) then Ret (inl EINVAL)
            else
              port ← tcp_port p;
              match port with
              | inl error => Ret (inl error)
              | inr port =>
                  match malloc_errno with
                  | Some errno => Ret (inl errno)
                  | None => Ret (inr (Sin a port))
                  end
              end
        end
  end.

Definition SUN_PATH : nat := 108.

(** The result is also the new value of [parsedurl], of at most 255 bytes. *)
Definition unix_parse (addr parsedurl : str) : (Z + sockaddr) * str :=
  if (SUN_PATH <=? length addr)%nat then (inl ENAMETOOLONG, parsedurl)
  else
    let finish (path : str) (savepath : bool) :=
      let parsedurl :=
        if savepath && (length parsedurl =? 0)%nat then take 255 (lit "unix://" ++ path) else parsedurl in
      match malloc_errno with
      | Some errno => (inl errno, parsedurl)
      | None => (inr (Sun path), parsedurl)
      end in
    match addr with
    | 47 :: _ => finish addr false
    | _ =>
        match getcwd with
        | None => finish addr false
        | Some mywd =>
            if (SUN_PATH <=? length addr + length mywd + 1)%nat then (inl ENAMETOOLONG, parsedurl)
            else finish (mywd ++ [47] ++ addr) true
        end
    end.

(** The table of address families: [tcp], [unix] and [tcp6], the last one
    without an implementation. *)
Definition parseurl (url : str) (allow_wildcard : bool) (parsedurl : str) :
    outcome ((Z + sockaddr * Z) * str) :=
  match split_scheme url with
  | None => Ret (inl EINVAL, parsedurl)
  | Some (id, addr) =>
      if (15 <? length id)%nat then Ret (inl EINVAL, parsedurl)
      else if cmp_bytes id (lit "tcp") =? 0 then
        r ← tcp_parse addr allow_wildcard;
        Ret (match r with inl e => inl e | inr sa => inr (sa, 0) end, parsedurl)
      else if cmp_bytes id (lit "unix") =? 0 then
        let '(r, parsedurl) := unix_parse addr parsedurl in
        Ret (match r with inl e => inl e | inr sa => inr (sa, 1) end, parsedurl)
      else if cmp_bytes id (lit "tcp6") =? 0 then Ret (inl EOPNOTSUPP, parsedurl)
      else Ret (inl EINVAL, parsedurl)
  end.

(** [unix_cleanup]: the path removed when the server ends. *)
Definition unix_cleanup (sa : sockaddr) : option str :=
  match sa with Sun (47 :: p) => Some (47 :: p) | _ => None end.

End Parse.
End Url.

(** ** Facts: headers and frames *)

Module FrameFacts.
Import Wire Frame.

Lemma length_le n v : length (le n v) = n.
Proof. induction n as [|n IH] in v |- *; cbn; [done|by rewrite IH]. Qed.

Lemma unle_le n v : 0 <= v < 256 ^ Z.of_nat n -> unle (le n v) = v.
Proof.
  induction n as [|n IH] in v |- *; intros Hv; cbn [le unle]; [cbn in Hv; lia|].
  rewrite Nat2Z.inj_succ, Z.pow_succ_r in Hv by lia.
  rewrite IH by (split; [apply Z.div_pos; lia|apply Z.div_lt_upper_bound; lia]).
  unfold u8. change (2 ^ 8) with 256. pose proof (Z.div_mod v 256 ltac:(lia)). lia.
Qed.

Lemma length_hdr_bytes h : length (hdr_bytes h) = 24%nat.
Proof. unfold hdr_bytes. by rewrite !length_app, !length_le. Qed.

Lemma drop_le n k v (r : list Z) : drop (n + k) (le n v ++ r) = drop k r.
Proof. rewrite <- drop_drop, drop_app_length' by by rewrite length_le. done. Qed.

Lemma take_le n v (r : list Z) : take n (le n v ++ r) = le n v.
Proof. rewrite take_app_length' by by rewrite length_le. done. Qed.

Lemma hdr_of_bytes h : hdr_ok h -> hdr_of (hdr_bytes h) = h.
Proof.
  intros (H1 & H2 & H3 & H4 & H5). destruct h as [l r c t u]. unfold hdr_of, hdr_bytes.
  cbn [rsp_len rsp_reqno rsp_class rsp_type rsp_u] in *. rewrite <- (app_nil_r (le 4 u)).
  change 20%nat with (8 + (8 + (2 + (2 + 0))))%nat. change 18%nat with (8 + (8 + (2 + 0)))%nat.
  change 16%nat with (8 + (8 + 0))%nat. change (drop 8) with (@drop Z (8 + 0)%nat).
  rewrite !drop_le, !drop_0, !take_le. by rewrite !unle_le by (cbn; lia).
Qed.

(** The data the socket gives. *)
Fixpoint stream (ch : list rd) : list Z :=
  match ch with [] => [] | Data bs :: ch => bs ++ stream ch | _ :: ch => stream ch end.

(** The pieces are data, none of them empty, with pauses. *)
Definition pieces (ch : list rd) : Prop := Forall (fun r => r = Again \/ exists b bs, r = Data (b :: bs)) ch.

(** What is left for the socket to do. *)
Definition work (ch : list rd) : nat := (length (stream ch) + length ch)%nat.

(** Reading takes a non-empty prefix of the data, or a pause. *)
Lemma host_read_piece left ch :
  pieces ch -> 0 < left -> stream ch <> [] ->
  exists r ch', host_read left ch = (r, ch') /\ pieces ch' /\ (work ch' < work ch)%nat /\
    (r = Again /\ stream ch' = stream ch \/
     exists bs, r = Data bs /\ stream ch = bs ++ stream ch' /\ 0 < Z.of_nat (length bs) <= left).
Proof.
  intros Hp Hl Hs. destruct Hp as [|r ch [->|(b & bs & ->)] Hp]; [done| |]; cbn [host_read].
  { eexists _, _. split; [done|]. split; [done|]. split; [unfold work; cbn; lia|by left]. }
  case_cmp; eexists _, _; (split; [done|]).
  - split; [done|]. split; [unfold work; cbn; rewrite length_app; lia|]. right. eexists. split; [done|].
    split; [done|]. cbn [length] in *. lia.
  - split.
    { constructor; [|done]. right. destruct (drop (Z.to_nat left) (b :: bs)) eqn:Ed; [|eauto].
      apply (f_equal length) in Ed. rewrite length_drop in Ed. cbn [length] in *. lia. }
    split.
    { unfold work. cbn [stream length]. rewrite !length_app, length_drop. cbn [length] in *. lia. }
    right. eexists. split; [done|]. cbn [stream]. rewrite app_assoc, take_drop. split; [done|].
    rewrite length_take. cbn [length] in *. lia.
Qed.

Lemma splice_app off (a b l : list Z) :
  off = Z.of_nat (length a) -> take (length a) l = a -> (length a + length b <= length l)%nat ->
  take (length (a ++ b)) (splice off b l) = a ++ b /\ length (splice off b l) = length l.
Proof.
  intros -> Ha Hl. unfold splice. rewrite Nat2Z.id, Ha. split.
  - rewrite app_assoc, take_app_length. done.
  - rewrite !length_app, length_drop. lia.
Qed.

Lemma splice_zeros k (a b : list Z) (n : nat) :
  k = Z.of_nat (length a) -> (length b <= n)%nat ->
  splice k b (a ++ repeat 0 n) = (a ++ b) ++ repeat 0 (n - length b).
Proof.
  intros -> Hn. unfold splice. rewrite Nat2Z.id, take_app_length, <- app_assoc. do 2 f_equal.
  rewrite drop_app_ge by lia. replace (length a + length b - length a)%nat with (length b) by lia.
  clear. revert n. induction b as [|x b IH]; intros [|n]; cbn; [done|done|done|apply IH].
Qed.

(** The frame [h], [body] has been read up to [spc_off]; [todo] is still to
    come. *)
Inductive partial (h : rsp_hdr) (body : list Z) (c : rbuf) : list Z -> Prop :=
  | partial_hdr pre post :
      hdr_bytes h = pre ++ post -> post <> [] -> spc_off c = Z.of_nat (length pre) ->
      length (spc_hdr c) = 24%nat -> take (length pre) (spc_hdr c) = pre -> spc_buf c = None ->
      partial h body c (post ++ body)
  | partial_body pre post :
      body = pre ++ post -> post <> [] -> spc_off c = 24 + Z.of_nat (length pre) ->
      spc_hdr c = hdr_bytes h -> spc_buf c = Some (pre ++ repeat 0 (length post)) ->
      partial h body c post.

(** The frame is complete. *)
Definition complete (h : rsp_hdr) (body : list Z) (c : rbuf) : Prop :=
  hdr_of (spc_hdr c) = h /\ spc_off c = rsp_len h /\
  spc_buf c = match body with [] => None | _ => Some body end.

(** What one call of [readframe] may do. *)
Definition advances (h : rsp_hdr) (body rest : list Z) (ch : list rd) (res : Z * list rd * rbuf) : Prop :=
  let '(r, ch', c') := res in
  pieces ch' /\ (work ch' <= work ch)%nat /\
  (r = 1 /\ complete h body c' /\ stream ch' = rest \/
   r = 0 /\ (exists todo, partial h body c' todo /\ stream ch' = todo ++ rest) /\ (work ch' < work ch)%nat).

Lemma app_prefix_split (a b x y : list Z) :
  a ++ b = x ++ y -> (length x <= length a)%nat -> exists z, a = x ++ z /\ y = z ++ b.
Proof.
  revert x. induction a as [|p a IH]; intros [|q x] H Hl; cbn in *; try lia.
  - by exists [].
  - by exists (p :: a).
  - injection H as -> H. destruct (IH x H ltac:(lia)) as (z & -> & ->). by exists z.
Qed.

Section Facts.
Variable h : rsp_hdr.
Variable body rest : list Z.
Hypothesis h_ok : hdr_ok h.
Hypothesis h_len : rsp_len h = 24 + Z.of_nat (length body).

Lemma read_body_step ch c post :
  partial h body c post -> spc_hdr c = hdr_bytes h -> 24 <= spc_off c ->
  pieces ch -> stream ch = post ++ rest -> advances h body rest ch (read_body (rsp_len h) ch c).
Proof.
  intros Hpart Hh Hoff Hp Hs. destruct h_ok as (Hlen & _).
  inversion Hpart as [pre post' Hpp Hne Ho | pre post' Hpp Hne Ho Hh' Hb].
  { apply (f_equal length) in Hpp. rewrite length_hdr_bytes, length_app in Hpp.
    destruct post' as [|]; [done|]. cbn in Hpp. lia. }
  unfold read_body. rewrite Ho, h_len.
  assert (Hl : length body = (length pre + length post)%nat) by by rewrite Hpp, length_app.
  assert (0 < length post)%nat by (destruct post; [done|cbn; lia]).
  rewrite u64_small by lia. case_cmp; [lia|].
  destruct (host_read_piece (24 + Z.of_nat (length body) - (24 + Z.of_nat (length pre))) ch Hp ltac:(lia))
    as (r & ch' & -> & Hp' & Hw & Hr); [rewrite Hs; destruct post; [done|discriminate]|].
  destruct Hr as [[-> Hst]|(bs & -> & Hst & Hbs)].
  { split; [done|]. split; [lia|]. right. split; [done|]. split; [|done]. exists post. rewrite Hst. by split. }
  rewrite Hs in Hst. destruct (app_prefix_split _ _ _ _ Hst ltac:(lia)) as (z & Hz & Hrest).
  assert (Hlz : length post = (length bs + length z)%nat) by by rewrite Hz, length_app.
  rewrite Hb. rewrite !u64_small by lia. rewrite (splice_zeros _ pre bs) by (unfold HDRSZ; lia).
  rewrite Hlz. replace (length bs + length z - length bs)%nat with (length z) by lia.
  assert (Hbody : body = (pre ++ bs) ++ z) by by rewrite Hpp, Hz, app_assoc.
  case_cmp; (split; [done|]); (split; [lia|]).
  - assert (z = []) as -> by (destruct z; [done|cbn [length] in *; lia]). left. split; [done|].
    split; [|done]. unfold complete. cbn [spc_hdr spc_off spc_buf length repeat].
    rewrite Hh, hdr_of_bytes by done. split; [done|]. split; [cbn [length] in *; lia|].
    rewrite Hbody, !app_nil_r. destruct (pre ++ bs) as [|] eqn:Epb; [|done].
    apply app_eq_nil in Epb as [-> ->]. cbn in *. lia.
  - right. split; [done|]. split; [|done]. exists z. split; [|done].
    apply (partial_body h _ _ (pre ++ bs) z); cbn [spc_hdr spc_off spc_buf]; [done| | |done|done].
    + intros ->. cbn [length] in *. lia.
    + rewrite length_app. lia.
Qed.

Variable malloc_ok : Z -> bool.
Hypothesis malloc_body : malloc_ok (rsp_len h - 24) = true.

Lemma readframe_step ch c todo :
  partial h body c todo -> pieces ch -> stream ch = todo ++ rest ->
  advances h body rest ch (readframe malloc_ok ch c).
Proof.
  intros Hpart Hp Hs. pose proof h_ok as (Hlen & _). unfold readframe.
  destruct Hpart as [pre post Hpp Hne Ho Hhl Hht Hb | pre post Hpp Hne Ho Hh Hb].
  2: { unfold HDRSZ. case_cmp; [lia|]. rewrite Hh, hdr_of_bytes by done.
       eapply read_body_step; [by eapply partial_body|done|lia|done|done]. }
  assert (Hl : (24 = length pre + length post)%nat) by by rewrite <- length_app, <- Hpp, length_hdr_bytes.
  assert (0 < length post)%nat by (destruct post; [done|cbn; lia]).
  unfold HDRSZ. case_cmp; [|lia]. rewrite Ho.
  destruct (host_read_piece (24 - Z.of_nat (length pre)) ch Hp ltac:(lia)) as (r & ch' & -> & Hp' & Hw & Hr);
    [rewrite Hs; destruct post; [done|discriminate]|].
  destruct Hr as [[-> Hst]|(bs & -> & Hst & Hbs)].
  { split; [done|]. split; [lia|]. right. split; [done|]. split; [|done]. exists (post ++ body).
    rewrite Hst. split; [by eapply partial_hdr|done]. }
  rewrite Hs, <- app_assoc in Hst. destruct (app_prefix_split _ _ _ _ Hst ltac:(lia)) as (z & Hz & Hrest).
  destruct (splice_app (Z.of_nat (length pre)) pre bs (spc_hdr c) eq_refl Hht ltac:(lia)) as [Ht Hln].
  assert (Hlz : length post = (length bs + length z)%nat) by by rewrite Hz, length_app.
  rewrite u64_small by lia. cbn [spc_hdr spc_off spc_buf].
  set (c1 := Rbuf _ _ _). case_cmp.
  - split; [done|]. split; [lia|]. right. split; [done|]. split; [|done]. exists (z ++ body).
    split; [|by rewrite Hrest, app_assoc].
    apply (partial_hdr h body c1 (pre ++ bs) z); subst c1; cbn [spc_hdr spc_off spc_buf]; [by rewrite Hpp, Hz, app_assoc| | |by rewrite Hln|done|done].
    + intros ->. cbn [length] in *. lia.
    + rewrite length_app. lia.
  - assert (z = []) as -> by (destruct z; [done|cbn [length] in *; lia]).
    assert (Hh : splice (Z.of_nat (length pre)) bs (spc_hdr c) = hdr_bytes h).
    { rewrite Hpp, Hz, app_nil_r, <- Ht. symmetry. apply firstn_all2. rewrite Hln, Hhl, length_app. cbn in *. lia. }
    subst c1. rewrite Hh, hdr_of_bytes by done. cbn [app] in Hrest. rewrite Hb.
    replace (Z.of_nat (length pre) + Z.of_nat (length bs)) with 24 by (cbn [length] in *; lia).
    rewrite h_len. case_cmp; [lia|]. case_cmp.
    + assert (body = []) as Hbd by (apply length_zero_iff_nil; lia). rewrite Hbd in *. split; [done|]. split; [lia|]. left.
      split; [done|]. split; [|done]. unfold complete. cbn [spc_hdr spc_off spc_buf].
      rewrite hdr_of_bytes by done. rewrite h_len. done.
    + rewrite <- h_len. rewrite malloc_body. cbn [negb].
      set (c2 := Rbuf _ _ _).
      assert (Hadv : advances h body rest ch' (read_body (rsp_len h) ch' c2)).
      { eapply read_body_step; [|done|subst c2; cbn [spc_off]; lia|done|by rewrite Hrest].
        apply (partial_body h body c2 [] body); subst c2; cbn [spc_hdr spc_off spc_buf]; [done| |done|done|].
        - intros Hbd. rewrite Hbd in *. cbn in *. lia.
        - rewrite h_len. cbn [app]. replace (24 + Z.of_nat (length body) - 24) with (Z.of_nat (length body)) by lia. by rewrite Nat2Z.id. }
      destruct (read_body (rsp_len h) ch' c2) as [[r2 ch2] c3]. destruct Hadv as (Ha & Hb' & Hc).
      split; [done|]. split; [lia|]. destruct Hc as [Hc|(Hc1 & Hc2 & Hc3)]; [by left|right; split_and!; [done|done|lia]].
Qed.

Lemma read_until_complete fuel ch c todo :
  partial h body c todo -> pieces ch -> stream ch = todo ++ rest -> (work ch < fuel)%nat ->
  exists ch' c', read_until malloc_ok fuel ch c = Ret (1, ch', c') /\ complete h body c' /\ stream ch' = rest.
Proof.
  induction fuel as [|fuel IH] in ch, c, todo |- *; intros Hpart Hp Hs Hf; [lia|]. cbn [read_until].
  pose proof (readframe_step ch c todo Hpart Hp Hs) as Hadv.
  destruct (readframe malloc_ok ch c) as [[r ch'] c']. destruct Hadv as (Hp' & Hw & [(-> & Hc & Hst)|(-> & (todo' & Ht & Hst) & Hw')]).
  - cbn [Z.eqb]. eauto.
  - cbn [Z.eqb]. eapply IH; [done|done|done|lia].
Qed.

End Facts.
End FrameFacts.

(** ** Facts: sending *)

Module SendFacts.
Import Send.

Lemma advance_spec n iov :
  0 <= n <= Z.of_nat (length (concat iov)) ->
  let '(n', iov') := advance n iov in
  drop (Z.to_nat n) (concat iov) = match iov' with [] => [] | b :: r => drop (Z.to_nat n') b ++ concat r end /\
  match iov' with [] => n = Z.of_nat (length (concat iov)) | b :: _ => 0 <= n' < Z.of_nat (length b) end.
Proof.
  induction iov as [|b iov IH] in n |- *; intros Hn; cbn [advance concat] in *; [cbn in *; split; [by destruct (Z.to_nat n)|lia]|].
  rewrite length_app in Hn. case_cmp.
  - specialize (IH (n - Z.of_nat (length b)) ltac:(lia)).
    destruct (advance (n - Z.of_nat (length b)) iov) as [n' [|b' r]]; destruct IH as [IH1 IH2].
    + rewrite drop_app_ge by lia. replace (Z.to_nat n - length b)%nat with (Z.to_nat (n - Z.of_nat (length b))) by lia.
      split; [done|]. rewrite length_app. lia.
    + rewrite drop_app_ge by lia. replace (Z.to_nat n - length b)%nat with (Z.to_nat (n - Z.of_nat (length b))) by lia. done.
  - rewrite drop_app_le by lia. split; [done|lia].
Qed.

Lemma advance_rest n iov n' b r :
  0 <= n <= Z.of_nat (length (concat iov)) -> advance n iov = (n', b :: r) ->
  drop (Z.to_nat n) (concat iov) = concat (drop (Z.to_nat n') b :: r) /\ n < Z.of_nat (length (concat iov)).
Proof.
  intros Hn Ha. pose proof (advance_spec n iov Hn) as H. rewrite Ha in H. destruct H as [H1 H2]. split; [done|].
  apply (f_equal length) in H1. rewrite length_drop, length_app, length_drop in H1. lia.
Qed.

(** Error numbers are positive and counts are not negative. *)
Definition round_ok (o : round) : Prop :=
  (forall e, poll_err o = Some e -> 0 < e) /\
  match sendmsg o with inl n => 0 <= n | inr e => 0 < e end.

Lemma send_loop_prefix os n iov sent error sent' :
  Forall round_ok os -> send_loop os n iov sent = Ret (error, sent') ->
  exists mid, sent' = sent ++ mid /\ mid `prefix_of` concat iov /\ 0 <= error /\ (error = 0 -> mid = concat iov).
Proof.
  intros Hos. induction Hos as [|o os [Hpe Hsm] _ IH] in n, iov, sent |- *; cbn [send_loop]; [done|].
  assert (Hnil : forall e, 0 < e -> Ret (e, sent) = Ret (error, sent') ->
    exists mid, sent' = sent ++ mid /\ mid `prefix_of` concat iov /\ 0 <= error /\ (error = 0 -> mid = concat iov)).
  { intros e He [= <- <-]. exists []. rewrite app_nil_r. split_and!; [done|apply prefix_nil|lia|lia]. }
  destruct (if n =? 0 then None else poll_err o) as [e|] eqn:Ep.
  { assert (0 < e) by (destruct (n =? 0); [done|by apply Hpe]). case_cmp; [apply IH|by apply Hnil]. }
  destruct (sendmsg o) as [k|e].
  - case_cmp; [by apply Hnil|]. set (m := Z.min k _) in *.
    assert (Hm : 0 <= m <= Z.of_nat (length (concat iov))) by lia.
    destruct (advance m iov) as [n' [|b r]] eqn:Ea.
    + intros [= <- <-]. exists (take (Z.to_nat m) (concat iov)).
      pose proof (advance_spec m iov Hm) as Hs. rewrite Ea in Hs. destruct Hs as [_ ->].
      rewrite Nat2Z.id, firstn_all. split_and!; done.
    + destruct (advance_rest m iov n' b r Hm Ea) as [Hd _].
      intros (mid & -> & [tl Hp] & He & Hz)%IH. rewrite <- Hd in Hp, Hz.
      exists (take (Z.to_nat m) (concat iov) ++ mid). split; [by rewrite app_assoc|]. split; [|split; [done|]].
      * exists tl. by rewrite <- app_assoc, <- Hp, take_drop.
      * intros E0. by rewrite (Hz E0), take_drop.
  - destruct (Z.eqb_spec e EAGAIN) as [->|Hne]; cbn [negb].
    + change (if EAGAIN =? EPIPE then ENOTCONN else 0) with 0. cbn [Z.eqb negb]. apply IH.
    + case_cmp; [by apply Hnil|lia].
Qed.

(** A round in which the socket takes something, or says to come back later. *)
Definition good (o : round) : Prop :=
  (poll_err o = None \/ poll_err o = Some EINTR) /\
  (sendmsg o = inr EAGAIN \/ exists k, sendmsg o = inl k /\ 1 <= k).
Definition takes (o : round) : bool :=
  match poll_err o, sendmsg o with None, inl _ => true | _, _ => false end.

Lemma send_loop_progress os n iov sent :
  Forall good os -> concat iov <> [] -> (length (concat iov) <= length (filter takes os))%nat ->
  send_loop os n iov sent = Ret (0, sent ++ concat iov).
Proof.
  intros Hos. induction Hos as [|o os [Hp Hs] _ IH] in n, iov, sent |- *; intros Hne Hl.
  { exfalso. apply Hne, length_zero_iff_nil. cbn in Hl. lia. }
  cbn [send_loop]. assert (Hlen : (0 < length (concat iov))%nat) by (destruct (concat iov); [done|cbn; lia]).
  rewrite filter_cons in Hl.
  assert (Hother : takes o = false -> (length (concat iov) <= length (filter takes os))%nat).
  { intros Ht. rewrite decide_False in Hl; [done|]. rewrite Ht. by intros []. }
  assert (Hany : (length (concat iov) <= S (length (filter takes os)))%nat) by (case_decide; cbn [length] in Hl; lia).
  destruct (if n =? 0 then None else poll_err o) as [e|] eqn:Ep.
  { assert (e = EINTR /\ poll_err o = Some EINTR) as [-> Hpe] by (destruct (n =? 0); destruct Hp; simplify_eq; split; congruence).
    cbn [Z.eqb]. change (EINTR =? EINTR) with true. cbv iota. apply IH; [done|]. apply Hother. unfold takes. by rewrite Hpe. }
  destruct Hs as [Hs|(k & Hs & Hk)]; rewrite Hs.
  - change (if negb (EAGAIN =? EAGAIN) then EAGAIN else if EAGAIN =? EPIPE then ENOTCONN else 0) with 0.
    cbn [Z.eqb negb]. apply IH; [done|]. apply Hother. unfold takes. rewrite Hs. by destruct (poll_err o).
  - case_cmp; [lia|]. set (m := Z.min k _) in *.
    assert (Hm : 1 <= m <= Z.of_nat (length (concat iov))) by lia.
    destruct (advance m iov) as [n' [|b r]] eqn:Ea.
    + pose proof (advance_spec m iov ltac:(lia)) as Hsp. rewrite Ea in Hsp. destruct Hsp as [_ ->].
      by rewrite Nat2Z.id, firstn_all.
    + destruct (advance_rest m iov n' b r ltac:(lia) Ea) as [Hd Hlt].
      rewrite IH, <- Hd, <- app_assoc, take_drop; [done|rewrite <- Hd|rewrite <- Hd, length_drop; lia].
      intros Hnil%(f_equal length). rewrite length_drop in Hnil. cbn in Hnil. lia.
Qed.

End SendFacts.

(** ** Facts: addresses *)

Module UrlFacts.
Import Str Url.

Lemma split_at_spec c a b : Forall (fun x => x <> c) a -> split_at c (a ++ c :: b) = Some (a, b).
Proof.
  induction 1 as [|x a Hx _ IH]; cbn [app split_at]; [by rewrite Z.eqb_refl|].
  rewrite (proj2 (Z.eqb_neq _ _) Hx). by rewrite IH.
Qed.

Lemma digits_len_all ds rest :
  NumFacts.digits ds -> (forall c r, rest = c :: r -> isdigit c = false) ->
  digits_len (ds ++ rest) = length ds.
Proof.
  intros Hd Hr. induction Hd as [|d ds Hd _ IH]; cbn [app digits_len length].
  - destruct rest as [|c r]; cbn; [done|]. by rewrite (Hr c r).
  - rewrite NumFacts.isdigit_true by done. by rewrite IH.
Qed.

End UrlFacts.

(** ** Properties of the message layer *)

Module WireProperties.
Import Wire Frame FrameFacts Send SendFacts Url.

(** C12. However the socket cuts a frame into pieces, with whatever pauses, the
    calls of readframe end with 1, the header and the body that were sent in
    place, and exactly the bytes after the frame left in the socket. *)
Theorem readframe_reassembles h body rest ch c malloc_ok fuel :
  hdr_ok h -> rsp_len h = 24 + Z.of_nat (length body) -> malloc_ok (rsp_len h - 24) = true ->
  pieces ch -> stream ch = hdr_bytes h ++ body ++ rest ->
  spc_off c = 0 -> spc_buf c = None -> length (spc_hdr c) = 24%nat ->
  (length (stream ch) + length ch < fuel)%nat ->
  exists ch' c', read_until malloc_ok fuel ch c = Ret (1, ch', c') /\
    hdr_of (spc_hdr c') = h /\ spc_off c' = rsp_len h /\
    spc_buf c' = match body with [] => None | _ => Some body end /\ stream ch' = rest.
Proof.
  intros Hok Hl Hm Hp Hs Ho Hb Hh Hf.
  destruct (read_until_complete h body rest Hok Hl malloc_ok Hm fuel ch c (hdr_bytes h ++ body))
    as (ch' & c' & Hr & (H1 & H2 & H3) & H4); [|done|by rewrite Hs, app_assoc|done|].
  - apply (partial_hdr h body c [] (hdr_bytes h)); done.
  - exists ch', c'. split_and!; done.
Qed.

(** A send that succeeds has put every byte of the message on the socket, in
    order and once; a send that fails has put a prefix of it there. *)
Theorem dosend_sends_prefix os mylwp iov error sent evs :
  Forall round_ok os -> dosend os mylwp iov = Ret (error, sent, evs) ->
  sent `prefix_of` concat iov /\ (error = 0 -> sent = concat iov).
Proof.
  intros Hos. unfold dosend. destruct (send_loop os 0 iov []) as [[e s]| | |] eqn:El; cbn [mbind outcome_bind]; try done.
  intros [= <- <- <-]. by destruct (send_loop_prefix _ _ _ _ _ _ Hos El) as (mid & -> & Hp & _ & Hz).
Qed.

(** C26. A send ends with success once the socket has been ready often enough,
    whatever share of the message it takes each time. *)
Theorem dosend_completes os mylwp iov :
  Forall good os -> concat iov <> [] -> (length (concat iov) <= length (filter takes os))%nat ->
  exists evs, dosend os mylwp iov = Ret (0, concat iov, evs).
Proof.
  intros Hos Hne Hl. unfold dosend. rewrite send_loop_progress by done. by eexists.
Qed.

(** A send to a closed connection reports EPIPE, not the ENOTCONN set for it,
    and keeps the thread it took for the send. *)
Theorem dosend_epipe os mylwp iov p :
  exists evs, dosend (Round p (inr EPIPE) :: os) mylwp iov = Ret (EPIPE, [], evs) /\ evs = [Newlwp 1].
Proof. eexists. split; reflexivity. Qed.

(** A TCP address printed with its port is parsed back. *)
Theorem tcp_url_roundtrip inet_pton getcwd parsedurl name addr port :
  Forall (fun c => c <> 58 /\ 0 < c < 256) name -> (length name <= 63)%nat -> 0 <= port < 65536 ->
  name <> lit "*" -> name <> lit "0" -> inet_pton name = inl (Some addr) ->
  parseurl inet_pton getcwd None (lit "tcp://" ++ name ++ [58] ++ Str.print_dec port) true parsedurl
  = Ret (inr (Sin addr port, 0), parsedurl).
Proof.
  intros Hn Hl Hp Hstar H0 Hpton. unfold parseurl.
  change (lit "tcp://" ++ name ++ [58] ++ Str.print_dec port)
    with (116 :: 99 :: 112 :: 58 :: 47 :: 47 :: name ++ 58 :: Str.print_dec port).
  cbn [split_scheme length Nat.ltb Nat.leb].
  change (Str.cmp_bytes [116; 99; 112] (lit "tcp") =? 0) with true. cbv iota. unfold tcp_parse.
  rewrite UrlFacts.split_at_spec by (eapply Forall_impl; [exact Hn|intros ? [? ?]; done]).
  rewrite (proj2 (Nat.ltb_ge _ _)) by done. unfold tcp_addr.
  assert (Hneq : forall s, Forall (fun x => 0 < x < 256) s -> name <> s -> (Str.cmp_bytes name s =? 0) = false).
  { intros s Hs Hne. apply Z.eqb_neq. intros Hz. apply Hne. apply StrFacts.cmp_bytes_eq0; [|done|done].
    eapply Forall_impl; [exact Hn|]. intros ? [? ?]; done. }
  rewrite (Hneq (lit "*")), (Hneq (lit "0")) by (done || (vm_compute; repeat constructor)).
  cbn [orb]. rewrite Hpton. cbn [mbind outcome_bind negb andb]. unfold tcp_port.
  destruct (NumFacts.atoi_bytes_print port ltac:(lia)) as (Hd & Ha & Hlen).
  rewrite <- (app_nil_r (Str.print_dec port)), UrlFacts.digits_len_all by done.
  destruct (Nat.eqb_spec (length (Str.print_dec port)) 0); [lia|].
  destruct (Nat.leb_spec 64 (length (Str.print_dec port))); [lia|].
  rewrite app_nil_r, drop_all, firstn_all, Ha. cbn [mbind outcome_bind].
  destruct (Z.ltb_spec port 0); [lia|]. destruct (Z.leb_spec (2 ^ 16) port); [lia|]. done.
Qed.

(** A port of 64 digits or more is copied past the end of the parser's
    buffer. *)
Theorem tcp_port_overruns inet_pton name addr ds :
  Forall (fun c => c <> 58) name -> (length name <= 63)%nat ->
  inet_pton name = inl (Some addr) ->
  Str.cmp_bytes name (lit "*") <> 0 -> Str.cmp_bytes name (lit "0") <> 0 ->
  NumFacts.digits ds -> (64 <= length ds)%nat ->
  tcp_parse inet_pton None (name ++ [58] ++ ds) true = UB.
Proof.
  intros Hn Hl Hpton H1 H2 Hd Hlen. unfold tcp_parse.
  change (name ++ [58] ++ ds) with (name ++ 58 :: ds). rewrite UrlFacts.split_at_spec by done.
  rewrite (proj2 (Nat.ltb_ge _ _)) by done. unfold tcp_addr.
  rewrite (proj2 (Z.eqb_neq _ _) H1), (proj2 (Z.eqb_neq _ _) H2). cbn [orb]. rewrite Hpton.
  cbn [mbind outcome_bind negb andb]. unfold tcp_port.
  rewrite <- (app_nil_r ds), UrlFacts.digits_len_all by done.
  destruct (Nat.eqb_spec (length ds) 0); [lia|]. destruct (Nat.leb_spec 64 (length ds)); [done|lia].
Qed.

(** *** Witnesses *)

Definition demo_hdr : rsp_hdr := Hdr 27 5 RUMPSP_REQ RUMPSP_SYSCALL 4.

(** The frame in three pieces, with a pause inside the header. *)
Definition demo_chan : list rd :=
  [Data (take 10 (hdr_bytes demo_hdr)); Again; Data (drop 10 (hdr_bytes demo_hdr) ++ [1; 2]); Data [3; 9]].

Lemma readframe_reassembles_witness :
  exists ch' c', read_until (fun _ => true) 40 demo_chan (Rbuf (repeat 7 24) None 0) = Ret (1, ch', c') /\
    hdr_of (spc_hdr c') = demo_hdr /\ spc_off c' = 27 /\ spc_buf c' = Some [1; 2; 3] /\ stream ch' = [9].
Proof.
  apply (readframe_reassembles demo_hdr [1; 2; 3] [9] demo_chan (Rbuf (repeat 7 24) None 0) (fun _ => true) 40);
    try reflexivity.
  - repeat split; vm_compute; discriminate || reflexivity.
  - repeat (apply Forall_cons; split); try (right; eexists _, _; reflexivity); [by left|by constructor].
  - vm_compute. lia.
Defined.

Lemma dosend_sends_prefix_witness :
  [1; 2] `prefix_of` concat [[1; 2; 3]; [4]] /\ (32 = 0 -> [1; 2] = concat [[1; 2; 3]; [4]]).
Proof.
  apply (dosend_sends_prefix [Round None (inl 2); Round None (inr EPIPE)] 0 [[1; 2; 3]; [4]] 32 [1; 2] [Newlwp 1]);
    [|reflexivity].
  repeat (apply Forall_cons; split); [| |by constructor]; (split; [by intros|cbn; done || lia]).
Defined.

Lemma dosend_completes_witness :
  exists evs, dosend [Round None (inl 3); Round None (inr EAGAIN); Round (Some EINTR) (inl 1); Round None (inl 1);
                      Round None (inl 1); Round None (inl 1)] 8 [[1; 2]; []; [3; 4]]
              = Ret (0, concat [[1; 2]; []; [3; 4]], evs).
Proof.
  apply (dosend_completes [Round None (inl 3); Round None (inr EAGAIN); Round (Some EINTR) (inl 1); Round None (inl 1);
                           Round None (inl 1); Round None (inl 1)] 8 [[1; 2]; []; [3; 4]]).
  - repeat (apply Forall_cons; split); [..|by constructor];
      (split; [by (left + right)|]; (by left) || (right; eexists; split; [reflexivity|lia])).
  - discriminate.
  - vm_compute. lia.
Defined.

Lemma tcp_url_roundtrip_witness :
  parseurl (fun s => if bool_decide (s = lit "10.0.0.1") then inl (Some 167772161) else inl None) None None
    (lit "tcp://" ++ lit "10.0.0.1" ++ [58] ++ Str.print_dec 12345) true []
  = Ret (inr (Sin 167772161 12345, 0), []).
Proof.
  apply (tcp_url_roundtrip _ None [] (lit "10.0.0.1") 167772161 12345);
    [vm_compute; repeat constructor; discriminate|vm_compute; lia|lia|discriminate|discriminate|reflexivity].
Defined.

Lemma tcp_port_overruns_witness :
  tcp_parse (fun _ => inl (Some 5)) None (lit "10.0.0.1" ++ [58] ++ repeat 49 64) true = UB.
Proof.
  apply (tcp_port_overruns (fun _ => inl (Some 5)) (lit "10.0.0.1") 5 (repeat 49 64));
    [vm_compute; repeat constructor; discriminate|vm_compute; lia|reflexivity|discriminate|discriminate| |vm_compute; lia].
  repeat constructor; lia.
Defined.

End WireProperties.
