(* ===== verification/Spserver.v ===== *)
(** * The system call proxy: the server

    The upper half of [librumpuser/sysproxy.c]: the clients and their slots, the
    requests of a client ([handlereq]), the requests the server makes of a
    client and waits for ([putwait], [kickwaiter], [waitresp]), the pool of
    worker threads and the main loop.

    The guest kernel, the socket and the C library's allocator are not part of
    the program: every call of them is recorded in [trace], and the answer to a
    call is a function of the calls made before it.  A send is one event here;
    [Spwire.Send] is what it does.  The code between two waits on a condition
    variable is taken as one step, as it is for cooperative threads; a call that
    waits is modelled up to the wait and after it. *)

From S2P Require Import Prelude Spwire.
From Stdlib Require Import ZArith Lia.
From stdpp Require Import base numbers list.
Local Open Scope Z_scope.

Module Server.
Import Wire Frame.

Definition SPCSTATUS_FREE : Z := 0.
Definition SPCSTATUS_BUSY : Z := 1.
Definition SPCSTATUS_WANTED : Z := 2.

Definition SPCSTATE_NEW : Z := 0.
Definition SPCSTATE_RUNNING : Z := 1.
Definition SPCSTATE_DYING : Z := 2.

Definition RUMP_RFFD_SHARE : Z := 0.
Definition RUMP_RFFD_COPY : Z := 1.
Definition RUMP_RFFD_CLEAR : Z := 2.

Definition MAXCLI : nat := 256.

(** struct respwait, on the stack of the thread that waits; [None] is NULL. *)
Record respwait : Type := Rw {
  rw_reqno : Z;
  rw_data : option (list Z);
  rw_dlen : Z;
  rw_done : bool;
  rw_error : Z;
}.

(** struct spclient.  The waiting threads are named by numbers.  [spc_pflist],
    [spc_generation] and [spc_reconnecting] are never read. *)
Record spclient : Type := Spc {
  spc_fd : Z;
  spc_refcnt : Z;
  spc_state : Z;
  spc_mainlwp : Z;
  spc_pid : Z;
  spc_respwait : list (Z * respwait);
  spc_rb : rbuf;                        (* spc_hdr, spc_buf, spc_off *)
  spc_nextreq : Z;
  spc_syscallreq : Z;
  spc_ostatus : Z;
  spc_istatus : Z;
  spc_inexec : Z;
}.

Definition set_fd x c := Spc x (spc_refcnt c) (spc_state c) (spc_mainlwp c) (spc_pid c) (spc_respwait c) (spc_rb c) (spc_nextreq c) (spc_syscallreq c) (spc_ostatus c) (spc_istatus c) (spc_inexec c).
Definition set_refcnt x c := Spc (spc_fd c) x (spc_state c) (spc_mainlwp c) (spc_pid c) (spc_respwait c) (spc_rb c) (spc_nextreq c) (spc_syscallreq c) (spc_ostatus c) (spc_istatus c) (spc_inexec c).
Definition set_state x c := Spc (spc_fd c) (spc_refcnt c) x (spc_mainlwp c) (spc_pid c) (spc_respwait c) (spc_rb c) (spc_nextreq c) (spc_syscallreq c) (spc_ostatus c) (spc_istatus c) (spc_inexec c).
Definition set_mainlwp x c := Spc (spc_fd c) (spc_refcnt c) (spc_state c) x (spc_pid c) (spc_respwait c) (spc_rb c) (spc_nextreq c) (spc_syscallreq c) (spc_ostatus c) (spc_istatus c) (spc_inexec c).
Definition set_pid x c := Spc (spc_fd c) (spc_refcnt c) (spc_state c) (spc_mainlwp c) x (spc_respwait c) (spc_rb c) (spc_nextreq c) (spc_syscallreq c) (spc_ostatus c) (spc_istatus c) (spc_inexec c).
Definition set_respwait x c := Spc (spc_fd c) (spc_refcnt c) (spc_state c) (spc_mainlwp c) (spc_pid c) x (spc_rb c) (spc_nextreq c) (spc_syscallreq c) (spc_ostatus c) (spc_istatus c) (spc_inexec c).
Definition set_rb x c := Spc (spc_fd c) (spc_refcnt c) (spc_state c) (spc_mainlwp c) (spc_pid c) (spc_respwait c) x (spc_nextreq c) (spc_syscallreq c) (spc_ostatus c) (spc_istatus c) (spc_inexec c).
Definition set_nextreq x c := Spc (spc_fd c) (spc_refcnt c) (spc_state c) (spc_mainlwp c) (spc_pid c) (spc_respwait c) (spc_rb c) x (spc_syscallreq c) (spc_ostatus c) (spc_istatus c) (spc_inexec c).
Definition set_syscallreq x c := Spc (spc_fd c) (spc_refcnt c) (spc_state c) (spc_mainlwp c) (spc_pid c) (spc_respwait c) (spc_rb c) (spc_nextreq c) x (spc_ostatus c) (spc_istatus c) (spc_inexec c).
Definition set_ostatus x c := Spc (spc_fd c) (spc_refcnt c) (spc_state c) (spc_mainlwp c) (spc_pid c) (spc_respwait c) (spc_rb c) (spc_nextreq c) (spc_syscallreq c) x (spc_istatus c) (spc_inexec c).
Definition set_istatus x c := Spc (spc_fd c) (spc_refcnt c) (spc_state c) (spc_mainlwp c) (spc_pid c) (spc_respwait c) (spc_rb c) (spc_nextreq c) (spc_syscallreq c) (spc_ostatus c) x (spc_inexec c).
Definition set_inexec x c := Spc (spc_fd c) (spc_refcnt c) (spc_state c) (spc_mainlwp c) (spc_pid c) (spc_respwait c) (spc_rb c) (spc_nextreq c) (spc_syscallreq c) (spc_ostatus c) (spc_istatus c) x.

(** The header of the frame being handled. *)
Definition hdr (c : spclient) : rsp_hdr := hdr_of (spc_hdr (spc_rb c)).

(** [memset] from [spc_pfd] to the end of the structure. *)
Definition zero_rest (c : spclient) : spclient :=
  Spc (spc_fd c) (spc_refcnt c) (spc_state c) (spc_mainlwp c) (spc_pid c) (spc_respwait c)
      (Rbuf (repeat 0 24) None 0) 0 0 0 0 0.

Definition spc0 : spclient := Spc (-1) 0 SPCSTATE_NEW 0 0 [] (Rbuf (repeat 0 24) None 0) 0 0 0 0 0.

(** struct prefork: the 128-bit token as its bytes. *)
Record prefork : Type := Pf { pf_auth : list Z; pf_lwp : Z }.

Inductive sbatype : Type := SBA_SYSCALL | SBA_EXEC.

(** struct servbouncearg: a request handed to the workers. *)
Record servbouncearg : Type := Sba {
  sba_spc : nat;
  sba_hdr : rsp_hdr;
  sba_type : sbatype;
  sba_data : option (list Z);
}.

(** The calls of other code, [cl] being the client's slot. *)
Inductive ev : Type :=
  | Newlwp (pid : Z)
  | Release
  | Switch (lwp : Z)
  | Rfork (cl : nat) (flags : Z) (comm : option (list Z))
  | Curlwp
  | Getpid
  | Execnotify (comm : list Z)
  | Lwpexit
  | Syscall (num : Z) (data : option (list Z))
  | SendFrame (cl : nat) (bs : list Z)
  | Shutdown (fd : Z)
  | CloseFd (fd : Z)
  | Malloc
  | Free (buf : option (list Z))
  | Usleep
  | Random
  | Overrun (cl : nat) (off : Z)            (* a write past the end of the buffer *)
  | Signal (id : Z)                         (* a waiting thread is woken *)
  | Broadcast (cl : nat)                    (* those waiting on the client are woken *)
  | Unlink (path : list Z)
  | SignalWorker
  | CreateWorker
  | Unsched
  | Sched.

Record server : Type := Srv {
  spclist : list spclient;
  pfdlist : list (Z * Z);               (* fd, revents *)
  preforks : list prefork;
  disco : Z;
  nworker : Z;
  idleworker : Z;
  nwork : Z;
  wrklist : list servbouncearg;
  nfds : Z;
  maxidx : nat;
  spfini : bool;
  trace : list ev;
}.

Definition upd_spclist f s := Srv (f (spclist s)) (pfdlist s) (preforks s) (disco s) (nworker s) (idleworker s) (nwork s) (wrklist s) (nfds s) (maxidx s) (spfini s) (trace s).
Definition upd_pfdlist f s := Srv (spclist s) (f (pfdlist s)) (preforks s) (disco s) (nworker s) (idleworker s) (nwork s) (wrklist s) (nfds s) (maxidx s) (spfini s) (trace s).
Definition upd_preforks f s := Srv (spclist s) (pfdlist s) (f (preforks s)) (disco s) (nworker s) (idleworker s) (nwork s) (wrklist s) (nfds s) (maxidx s) (spfini s) (trace s).
Definition upd_disco f s := Srv (spclist s) (pfdlist s) (preforks s) (f (disco s)) (nworker s) (idleworker s) (nwork s) (wrklist s) (nfds s) (maxidx s) (spfini s) (trace s).
Definition upd_nworker f s := Srv (spclist s) (pfdlist s) (preforks s) (disco s) (f (nworker s)) (idleworker s) (nwork s) (wrklist s) (nfds s) (maxidx s) (spfini s) (trace s).
Definition upd_idleworker f s := Srv (spclist s) (pfdlist s) (preforks s) (disco s) (nworker s) (f (idleworker s)) (nwork s) (wrklist s) (nfds s) (maxidx s) (spfini s) (trace s).
Definition upd_nwork f s := Srv (spclist s) (pfdlist s) (preforks s) (disco s) (nworker s) (idleworker s) (f (nwork s)) (wrklist s) (nfds s) (maxidx s) (spfini s) (trace s).
Definition upd_wrklist f s := Srv (spclist s) (pfdlist s) (preforks s) (disco s) (nworker s) (idleworker s) (nwork s) (f (wrklist s)) (nfds s) (maxidx s) (spfini s) (trace s).
Definition upd_nfds f s := Srv (spclist s) (pfdlist s) (preforks s) (disco s) (nworker s) (idleworker s) (nwork s) (wrklist s) (f (nfds s)) (maxidx s) (spfini s) (trace s).
Definition upd_maxidx f s := Srv (spclist s) (pfdlist s) (preforks s) (disco s) (nworker s) (idleworker s) (nwork s) (wrklist s) (nfds s) (f (maxidx s)) (spfini s) (trace s).
Definition upd_trace f s := Srv (spclist s) (pfdlist s) (preforks s) (disco s) (nworker s) (idleworker s) (nwork s) (wrklist s) (nfds s) (maxidx s) (spfini s) (f (trace s)).

Definition upd_spfini f s := Srv (spclist s) (pfdlist s) (preforks s) (disco s) (nworker s) (idleworker s) (nwork s) (wrklist s) (nfds s) (maxidx s) (f (spfini s)) (trace s).

Definition get_spc (i : nat) (s : server) : outcome spclient :=
  match spclist s !! i with Some c => Ret c | None => UB end.

Definition on_spc (i : nat) (f : spclient -> spclient) (s : server) : server := upd_spclist (alter f i) s.

Section Ops.
(** The answer to a call after the calls before it. *)
Variable answer : list ev -> ev -> Z.
(** The 16 bytes [rumpuser_getrandom] gives. *)
Variable random : list ev -> list Z.
(** The bytes of padding in struct rsp_sysresp, which nothing sets. *)
Variable padding : list Z.
(** [rumpsp_maxworker] and [rumpsp_idleworker]. *)
Variable maxworker idlemax : Z.

Definition emit (e : ev) (s : server) : server := upd_trace (fun t => t ++ [e]) s.
Definition call (e : ev) (s : server) : Z * server := (answer (trace s) e, emit e s).

(** *** Buffers *)

Definition spcfreebuf (i : nat) (s : server) : outcome server :=
  c ← get_spc i s;
  Ret (on_spc i (fun c => set_rb (spcresetbuf (spc_rb c)) c) (emit (Free (spc_buf (spc_rb c))) s)).

(** *** The send lock: the code of the locked region *)

(** [sendlockl], when the lock is free; otherwise the thread waits. *)
Definition sendlockl (c : spclient) : option spclient :=
  if spc_ostatus c =? SPCSTATUS_FREE then Some (set_ostatus SPCSTATUS_BUSY c) else None.
Definition sendlock_wait (c : spclient) : spclient := set_ostatus SPCSTATUS_WANTED c.
(** Whether the waiting threads are woken, and the new state. *)
Definition sendunlockl (c : spclient) : bool * spclient :=
  (spc_ostatus c =? SPCSTATUS_WANTED, set_ostatus SPCSTATUS_FREE c).

(** *** Responses *)

Definition send_error_resp (i : nat) (reqno : Z) (error : rumpsp_err) (s : server) : server :=
  emit (SendFrame i (hdr_bytes (Hdr HDRSZ reqno RUMPSP_ERROR 0 (err_num error)))) s.

Definition send_handshake_resp (i : nat) (reqno error : Z) (s : server) : Z * server :=
  call (SendFrame i (hdr_bytes (Hdr (HDRSZ + 4) reqno RUMPSP_RESP RUMPSP_HANDSHAKE 0) ++ le 4 error)) s.

Definition send_syscall_resp (i : nat) (reqno error : Z) (retval : Z * Z) (s : server) : Z * server :=
  call (SendFrame i (hdr_bytes (Hdr (HDRSZ + 24) reqno RUMPSP_RESP RUMPSP_SYSCALL 0) ++
                     le 4 error ++ padding ++ le 8 retval.1 ++ le 8 retval.2)) s.

Definition send_prefork_resp (i : nat) (reqno : Z) (auth : list Z) (s : server) : Z * server :=
  call (SendFrame i (hdr_bytes (Hdr (HDRSZ + 16) reqno RUMPSP_RESP RUMPSP_PREFORK 0) ++ auth)) s.

(** *** Requests to a client *)

(** The state a waiter starts in. *)
Definition rw0 (reqno : Z) : respwait := Rw reqno None 0 false 0.

(** [doputwait]: the request number goes into the header as well. *)
Definition doputwait (id : Z) (c : spclient) : Z * spclient :=
  let reqno := spc_nextreq c in
  (reqno, set_nextreq (u64 (reqno + 1)) (set_respwait (spc_respwait c ++ [(id, rw0 reqno)]) c)).

(** [nextreq]. *)
Definition nextreq (c : spclient) : Z * spclient := (spc_nextreq c, set_nextreq (u64 (spc_nextreq c + 1)) c).

(** [dounputwait], and the removal in [waitresp]. *)
Definition dounputwait (id : Z) (c : spclient) : spclient :=
  set_respwait (filter (fun w => w.1 <> id) (spc_respwait c)) c.

(** The first waiter for a request number. *)
Fixpoint find_waiter (reqno : Z) (l : list (Z * respwait)) : option Z :=
  match l with
  | [] => None
  | (id, w) :: l => if rw_reqno w =? reqno then Some id else find_waiter reqno l
  end.

Definition on_waiter (id : Z) (f : respwait -> respwait) (l : list (Z * respwait)) : list (Z * respwait) :=
  map (fun w => if w.1 =? id then (id, f w.2) else w) l.

Definition kickwaiter (i : nat) (s : server) : outcome server :=
  c ← get_spc i s;
  match find_waiter (rsp_reqno (hdr c)) (spc_respwait c) with
  | None => spcfreebuf i s
  | Some id =>
      let error := if rsp_class (hdr c) =? RUMPSP_ERROR then errmap (rsp_u (hdr c)) else 0 in
      let answered w := Rw (rw_reqno w) (spc_buf (spc_rb c)) (u64 (spc_off (spc_rb c) - HDRSZ)) true
                           (if rsp_class (hdr c) =? RUMPSP_ERROR then error else rw_error w) in
      let s := on_spc i (fun c => set_respwait (on_waiter id answered (spc_respwait c)) c) s in
      let s := emit (Signal id) s in
      if negb (error =? 0) then spcfreebuf i s
      else Ret (on_spc i (fun c => set_rb (spcresetbuf (spc_rb c)) c) s)
  end.

(** [kickall]. *)
Definition kickall (c : spclient) (s : server) : server :=
  fold_left (fun s w => emit (Signal w.1) s) (spc_respwait c) s.

(** [waitresp] once the wait is over: its result, with the waiter removed. *)
Definition waitresp_done (id : Z) (c : spclient) : bool :=
  match List.find (fun w => w.1 =? id) (spc_respwait c) with
  | Some w => rw_done w.2 || (spc_state c =? SPCSTATE_DYING)
  | None => false
  end.

Definition waitresp (i : nat) (id : Z) (s : server) : outcome (Z * option (list Z) * Z * server) :=
  c ← get_spc i s;
  match List.find (fun w => w.1 =? id) (spc_respwait c) with
  | None => UB
  | Some (_, w) =>
      Ret (if spc_state c =? SPCSTATE_DYING then ENOTCONN else rw_error w, rw_data w, rw_dlen w,
           on_spc i (dounputwait id) s)
  end.

(** A request that is answered: [putwait], the send, and on failure
    [unputwait].  The result is the error; with 0 the thread goes on to wait. *)
Definition request (i : nat) (id : Z) (type : Z) (body : list Z) (s : server) : outcome (Z * server) :=
  c ← get_spc i s;
  let '(reqno, c) := doputwait id c in
  let s := on_spc i (fun _ => c) s in
  let '(rv, s) := call (SendFrame i (hdr_bytes (Hdr (HDRSZ + Z.of_nat (length body)) reqno RUMPSP_REQ type 0) ++ body)) s in
  Ret (rv, if negb (rv =? 0) then on_spc i (dounputwait id) s else s).

(** [copyin_req] up to its wait and after it: the error, the data and the
    length. *)
Definition copyin_req (i : nat) (id remaddr dlen : Z) (wantstr : bool) (s : server) : outcome (Z * server) :=
  request i id (if wantstr then RUMPSP_COPYINSTR else RUMPSP_COPYIN) (le 8 dlen ++ le 8 remaddr) s.

Definition copyin_resp (i : nat) (id dlen : Z) (wantstr : bool) (s : server) :
    outcome (Z * option (list Z) * Z * server) :=
  '(rv, data, len, s) ← waitresp i id s;
  Ret (rv, data, if wantstr then len else dlen, s).

(** [sp_copyin]: what is copied to the caller's buffer.  The copy takes [len]
    bytes from the response, whose own length is not looked at. *)
Definition sp_copyin_begin (i : nat) (id raddr len : Z) (wantstr : bool) (s : server) : outcome (option Z * server) :=
  '(rv, s) ← copyin_req i id raddr len wantstr (emit Unsched s);
  if negb (rv =? 0) then Ret (Some EFAULT, emit Sched s) else Ret (None, s).

Definition sp_copyin_end (i : nat) (id len : Z) (wantstr : bool) (s : server) :
    outcome (Z * list Z * server) :=
  '(rv, data, len, s) ← copyin_resp i id len wantstr s;
  if negb (rv =? 0) then Ret (EFAULT, [], emit Sched s)
  else
    match data with
    | None => if len =? 0 then Ret (0, [], emit Sched (emit (Free None) s)) else UB
    | Some d =>
        if Z.of_nat (length d) <? len then UB
        else Ret (0, take (Z.to_nat len) d, emit Sched (emit (Free (Some d)) s))
    end.

(** [send_copyout_req] and [sp_copyout]. *)
Definition send_copyout_req (i : nat) (remaddr : Z) (data : list Z) (s : server) : outcome (Z * server) :=
  c ← get_spc i s;
  let '(reqno, c) := nextreq c in
  let s := on_spc i (fun _ => c) s in
  let dlen := Z.of_nat (length data) in
  Ret (call (SendFrame i (hdr_bytes (Hdr (HDRSZ + 16 + dlen) reqno RUMPSP_REQ RUMPSP_COPYOUT 0) ++
                          le 8 dlen ++ le 8 remaddr ++ data)) s).

Definition sp_copyout (i : nat) (raddr : Z) (data : list Z) (s : server) : outcome (Z * server) :=
  '(rv, s) ← send_copyout_req i raddr data (emit Unsched s);
  Ret (if negb (rv =? 0) then EFAULT else rv, emit Sched s).

(** [anonmmap_req] up to its wait, and [rumpuser_sp_anonmmap] on both sides of
    the wait: the answer holds a pointer. *)
Definition anonmmap_req (i : nat) (id howmuch : Z) (s : server) : outcome (Z * server) :=
  request i id RUMPSP_ANONMMAP (le 8 howmuch) s.

Definition anonmmap_begin (i : nat) (id howmuch : Z) (s : server) : outcome (option Z * server) :=
  '(rv, s) ← anonmmap_req i id howmuch (emit Unsched s);
  if negb (rv =? 0) then Ret (Some EFAULT, emit Sched s) else Ret (None, s).

Definition anonmmap_end (i : nat) (id : Z) (s : server) : outcome (Z * option Z * server) :=
  '(rv, data, _, s) ← waitresp i id s;
  if negb (rv =? 0) then Ret (EFAULT, None, emit Sched s)
  else
    match data with
    | None => UB
    | Some d =>
        if (length d <? 8)%nat then UB
        else
          let resp := unle (take 8 d) in
          Ret (if resp =? 0 then ENOMEM else 0, Some resp, emit Sched (emit (Free (Some d)) s))
    end.

(** [send_raise_req] leaves the request number of its header unset: [junk]. *)
Definition send_raise_req (i : nat) (junk signo : Z) (s : server) : Z * server :=
  call (SendFrame i (hdr_bytes (Hdr HDRSZ junk RUMPSP_REQ RUMPSP_RAISE (u32 signo)))) s.

Definition rumpuser_sp_raise (i : nat) (junk signo : Z) (s : server) : Z * server :=
  let '(rv, s) := send_raise_req i junk signo (emit Unsched s) in
  (rv, emit Sched s).

(** *** Slots *)

Definition spcref (i : nat) (s : server) : server := on_spc i (fun c => set_refcnt (spc_refcnt c + 1) c) s.

Definition signaldisco (s : server) : server := upd_disco (fun d => u32 (d + 1)) s.

Definition spcrelease (i : nat) (s : server) : outcome server :=
  c ← get_spc i s;
  let ref := spc_refcnt c - 1 in
  let s := on_spc i (set_refcnt ref) s in
  let s := if negb (spc_inexec c =? 0) && (ref <=? 2) then emit (Broadcast i) s else s in
  if 0 <? ref then Ret s
  else
    let s := if negb (spc_mainlwp c =? 0) then emit Release (emit (Switch (spc_mainlwp c)) s) else s in
    let s := on_spc i (set_mainlwp 0) s in
    let s := emit (CloseFd (spc_fd c)) s in
    let s := on_spc i (fun c => set_state SPCSTATE_NEW (set_fd (-1) c)) s in
    Ret (signaldisco s).

Definition serv_handledisco (i : nat) (s : server) : outcome server :=
  c ← get_spc i s;
  let s := upd_pfdlist (alter (fun _ => (-1, 0)) i) s in
  let s := on_spc i (set_state SPCSTATE_DYING) s in
  let s := kickall c s in
  let s := if (sendunlockl c).1 then emit (Broadcast i) s else s in
  let s := on_spc i (fun c => (sendunlockl c).2) s in
  let dolwpexit := spc_inexec c =? 0 in
  let s := if dolwpexit && negb (spc_mainlwp c =? 0)
           then emit (Switch 0) (emit Lwpexit (emit (Switch (spc_mainlwp c)) s)) else s in
  let s := on_spc i zero_rest s in
  spcrelease i s.

(** The first free slot. *)
Fixpoint find_slot (i : nat) (pfds : list (Z * Z)) (cs : list spclient) : option nat :=
  match pfds, cs with
  | (fd, _) :: pfds, c :: cs =>
      if (fd =? -1) && (spc_state c =? SPCSTATE_NEW) then Some i else find_slot (S i) pfds cs
  | _, _ => None
  end.

(** [serv_handleconn] once the connection is accepted: [newfd] is the socket, or
    -1 when [accept] failed, [fcntl_ok], [hook_ok] and [banner_ok] say how the
    steps that follow went. *)
Definition serv_handleconn (newfd : Z) (fcntl_ok hook_ok banner_ok busy : bool) (s : server) : outcome (nat * server) :=
  if newfd =? -1 then Ret (0%nat, s)
  else if busy || negb fcntl_ok || negb hook_ok || negb banner_ok then Ret (0%nat, emit (CloseFd newfd) s)
  else
    match find_slot 0 (pfdlist s) (spclist s) with
    | None => Abort
    | Some i =>
        let s := upd_pfdlist (alter (fun p => (newfd, p.2)) i) s in
        let s := on_spc i (fun c => set_respwait [] (set_refcnt 1 (set_istatus SPCSTATUS_BUSY (set_fd newfd c)))) s in
        Ret (i, s)
    end.

(** *** Workers *)

(** [schedulework]: the request is queued and a worker woken or created.  The
    loop around [malloc] tests a counter of retries that it never increases. *)
Fixpoint alloc_sba (fuel : nat) (s : server) : outcome (bool * server) :=
  match fuel with
  | O => NoFuel
  | S fuel =>
      let '(p, s) := call Malloc s in
      if negb (p =? 0) then Ret (true, s)
      else if nworker s =? 0 then Ret (false, s)
      else alloc_sba fuel (emit Usleep s)
  end.

Definition queue_work (i : nat) (sba : servbouncearg) (s : server) : server :=
  let s := spcref i (on_spc i (fun c => set_rb (spcresetbuf (spc_rb c)) c) s) in
  let s := upd_nwork (fun n => n + 1) (upd_wrklist (fun l => l ++ [sba]) s) in
  if nwork s <=? idleworker s then emit SignalWorker s
  else if nworker s <? maxworker then
    let '(r, s) := call CreateWorker s in
    if r =? 0 then upd_nworker (fun n => n + 1) s else s
  else s.

Definition schedulework (fuel : nat) (i : nat) (type : sbatype) (s : server) : outcome server :=
  c ← get_spc i s;
  '(ok, s) ← alloc_sba fuel s;
  if (ok : bool) then Ret (queue_work i (Sba i (hdr c) type (spc_buf (spc_rb c))) s)
  else spcfreebuf i (send_error_resp i (rsp_reqno (hdr c)) RUMPSP_ERR_TRYAGAIN s).

(** [serv_handlesyscall] up to its call of the guest kernel, and whether it gets
    there; and after the call, which makes requests of the client of its own. *)
Definition syscall_begin (i : nat) (h : rsp_hdr) (data : option (list Z)) (s : server) : outcome (bool * server) :=
  c ← get_spc i s;
  let '(rv, s) := call (Newlwp (spc_pid c)) s in
  if negb (rv =? 0) then Ret (false, (send_syscall_resp i (rsp_reqno h) rv (-1, 0) s).2)
  else Ret (true, emit (Syscall (i32 (rsp_u h)) data) (on_spc i (set_syscallreq (rsp_reqno h)) s)).

Definition syscall_end (i : nat) (h : rsp_hdr) (rv : Z) (retval : Z * Z) (s : server) : server :=
  let s := emit Release (on_spc i (set_syscallreq 0) s) in
  (send_syscall_resp i (rsp_reqno h) rv retval s).2.

(** A NUL is written after the [len] bytes of the body. *)
Definition terminate (i : nat) (buf : option (list Z)) (len : Z) (s : server) : outcome (list Z * server) :=
  match buf with
  | None => UB
  | Some b =>
      if len <? Z.of_nat (length b) then Ret (take (Z.to_nat len) b, s)
      else Ret (b, emit (Overrun i len) s)
  end.

(** A C string ends at its first NUL. *)
Fixpoint cstring (b : list Z) : list Z :=
  match b with [] => [] | c :: b => if c =? 0 then [] else c :: cstring b end.

(** The wait in [serv_handleexec] is over when the client's other threads are
    gone: one reference for the connection and one for this thread. *)
Definition exec_ready (c : spclient) : bool := spc_refcnt c <=? 2.

(** [serv_handleexec] after the wait. *)
Definition serv_handleexec (i : nat) (h : rsp_hdr) (data : option (list Z)) (s : server) : outcome server :=
  '(comm, s) ← terminate i data (u64 (rsp_len h - HDRSZ)) s;
  c ← get_spc i s;
  let s := emit (Switch 0) (emit (Execnotify (cstring comm)) (emit (Switch (spc_mainlwp c)) s)) in
  let s := on_spc i (set_inexec 0) s in
  Ret (send_handshake_resp i (rsp_reqno h) 0 s).2.

(** What a worker does when a request is done. *)
Definition work_done (sba : servbouncearg) (s : server) : outcome server :=
  s ← spcrelease (sba_spc sba) s;
  Ret (emit (Free (sba_data sba)) s).

(** [serv_workbouncer] from the top of its loop, and after a wait: the worker
    ends, waits, or leaves the locked region with a request. *)
Inductive bounce : Type := WorkerExit | WorkerWait | WorkerTake (sba : servbouncearg).

Definition bounce_take (s : server) : bounce * server :=
  match wrklist s with
  | [] => (WorkerWait, s)
  | sba :: l =>
      let s := upd_idleworker (fun n => n - 1) s in
      (WorkerTake sba, upd_nwork (fun n => n - 1) (upd_wrklist (fun _ => l) s))
  end.

Definition bounce_top (s : server) : bounce * server :=
  if idlemax <=? idleworker s - nwork s then (WorkerExit, upd_nworker (fun n => n - 1) s)
  else bounce_take (upd_idleworker (fun n => n + 1) s).

(** *** Requests of a client *)

(** The outstanding fork with a given token, and the others. *)
Fixpoint take_prefork (auth : list Z) (l : list prefork) : option prefork * list prefork :=
  match l with
  | [] => (None, [])
  | pf :: l =>
      if bool_decide (auth = pf_auth pf) then (Some pf, l)
      else let '(r, l) := take_prefork auth l in (r, pf :: l)
  end.

(** The client is told and its connection shut down. *)
Definition refuse (i : nat) (error : rumpsp_err) (s : server) : outcome server :=
  c ← get_spc i s;
  Ret (emit (Shutdown (spc_fd c)) (send_error_resp i (rsp_reqno (hdr c)) error s)).

(** The end of a successful handshake. *)
Definition handshake_done (i : nat) (s : server) : outcome server :=
  c ← get_spc i s;
  let s := (send_handshake_resp i (rsp_reqno (hdr c)) 0 s).2 in
  let '(pid, s) := call Getpid s in
  let s := on_spc i (set_pid pid) s in
  let s := emit (Switch 0) s in
  Ret (on_spc i (set_state SPCSTATE_RUNNING) s).

Definition handshake_guest (i : nat) (s : server) : outcome server :=
  c ← get_spc i s;
  '(comm, s) ← terminate i (spc_buf (spc_rb c)) (u64 (rsp_len (hdr c) - HDRSZ)) s;
  let '(error, s) := call (Rfork i RUMP_RFFD_CLEAR (Some (cstring comm))) s in
  let s := if negb (error =? 0) then emit (Shutdown (spc_fd c)) s else s in
  s ← spcfreebuf i s;
  if negb (error =? 0) then Ret s
  else
    let '(l, s) := call Curlwp s in
    handshake_done i (on_spc i (set_mainlwp l) s).

(** struct handshake_fork: the token and a flag. *)
Definition handshake_fork (i : nat) (s : server) : outcome server :=
  c ← get_spc i s;
  if negb (u64 (spc_off (spc_rb c) - HDRSZ) =? 20) then
    s ← refuse i RUMPSP_ERR_MALFORMED_REQUEST s; spcfreebuf i s
  else
    match spc_buf (spc_rb c) with
    | None => UB
    | Some rfp =>
        let cancel := unle (take 4 (drop 16 rfp)) in
        let '(pf, rest) := take_prefork (take 16 rfp) (preforks s) in
        let s := upd_preforks (fun _ => rest) s in
        s ← spcfreebuf i s;
        match pf with
        | None => refuse i RUMPSP_ERR_INVALID_PREFORK s
        | Some pf =>
            let tmpmain := pf_lwp pf in
            let s := emit (Switch tmpmain) s in
            if negb (cancel =? 0) then Ret (emit (Shutdown (spc_fd c)) (emit Release s))
            else
              let '(error, s) := call (Rfork i RUMP_RFFD_SHARE None) s in
              if negb (error =? 0) then s ← refuse i RUMPSP_ERR_RFORK_FAILED s; Ret (emit Release s)
              else
                let '(l, s) := call Curlwp s in
                let s := on_spc i (set_mainlwp l) s in
                let s := emit (Switch l) (emit Release (emit (Switch tmpmain) s)) in
                handshake_done i s
        end
    end.

Definition handle_prefork (i : nat) (s : server) : outcome server :=
  c ← get_spc i s;
  let reqno := rsp_reqno (hdr c) in
  s ← spcfreebuf i s;
  if negb (spc_inexec c =? 0) then refuse i RUMPSP_ERR_INEXEC s
  else
    let '(p, s) := call Malloc s in
    if p =? 0 then Ret (send_error_resp i reqno RUMPSP_ERR_NOMEM s)
    else
      let s := emit (Switch (spc_mainlwp c)) s in
      let '(error, s) := call (Rfork i RUMP_RFFD_COPY None) s in
      if negb (error =? 0) then Ret (emit (Free None) (emit (Switch 0) (send_error_resp i reqno RUMPSP_ERR_RFORK_FAILED s)))
      else
        let auth := random (trace s) in
        let s := emit Random s in
        let '(l, s) := call Curlwp s in
        let s := emit (Switch 0) s in
        let s := upd_preforks (fun ps => Pf auth l :: ps) s in
        Ret (send_prefork_resp i reqno auth s).2.

Definition handle_exec (fuel : nat) (i : nat) (s : server) : outcome server :=
  c ← get_spc i s;
  if negb (rsp_u (hdr c) =? HANDSHAKE_EXEC) then s ← refuse i RUMPSP_ERR_MALFORMED_REQUEST s; spcfreebuf i s
  else if negb (spc_inexec c =? 0) then s ← refuse i RUMPSP_ERR_INEXEC s; spcfreebuf i s
  else
    let s := on_spc i (set_inexec 1) s in
    let s := emit (Switch 0) (emit Lwpexit (emit (Switch (spc_mainlwp c)) s)) in
    schedulework fuel i SBA_EXEC s.

Definition handlereq (fuel : nat) (i : nat) (s : server) : outcome server :=
  c ← get_spc i s;
  if spc_state c =? SPCSTATE_NEW then
    if negb (rsp_type (hdr c) =? RUMPSP_HANDSHAKE) then s ← refuse i RUMPSP_ERR_AUTH s; spcfreebuf i s
    else if rsp_u (hdr c) =? HANDSHAKE_GUEST then handshake_guest i s
    else if rsp_u (hdr c) =? HANDSHAKE_FORK then handshake_fork i s
    else s ← refuse i RUMPSP_ERR_AUTH s; spcfreebuf i s
  else if rsp_type (hdr c) =? RUMPSP_PREFORK then handle_prefork i s
  else if rsp_type (hdr c) =? RUMPSP_HANDSHAKE then handle_exec fuel i s
  else if negb (rsp_type (hdr c) =? RUMPSP_SYSCALL) then
    spcfreebuf i (send_error_resp i (rsp_reqno (hdr c)) RUMPSP_ERR_MALFORMED_REQUEST s)
  else schedulework fuel i SBA_SYSCALL s.

(** *** The main loop *)

(** What the loop does with the result of [readframe]. *)
Definition dispatch (fuel : nat) (i : nat) (r : Z) (s : server) : outcome server :=
  if r =? 0 then Ret s
  else if r =? -1 then serv_handledisco i s
  else
    c ← get_spc i s;
    if rsp_class (hdr c) =? RUMPSP_RESP then kickwaiter i s
    else if rsp_class (hdr c) =? RUMPSP_REQ then handlereq fuel i s
    else spcfreebuf i (send_error_resp i (rsp_reqno (hdr c)) RUMPSP_ERR_MALFORMED_REQUEST s).

(** Activity on the connection of a client: the socket has [ch] for it.  The
    result is also what the socket has left. *)
Definition client_input (malloc_ok : Z -> bool) (fuel : nat) (i : nat) (ch : list rd) (s : server) :
    outcome (list rd * server) :=
  c ← get_spc i s;
  let '(r, ch, rb) := readframe malloc_ok ch (spc_rb c) in
  s ← dispatch fuel i r (on_spc i (set_rb rb) s);
  Ret (ch, s).

(** What happens to a new connection: the socket [accept] returns (-1 when it
    fails), and whether the steps that follow go well. *)
Record conn : Type := Conn { newfd : Z; fcntl_ok : bool; hook_ok : bool; banner_ok : bool }.

(** A new connection: its slot (0 for none). *)
Definition new_conn (a : conn) (s : server) : outcome (nat * server) :=
  '(idx, s) ← serv_handleconn (newfd a) (fcntl_ok a) (hook_ok a) (banner_ok a) (nfds s =? 256) s;
  let s := if (idx =? 0)%nat then s else upd_nfds (fun n => n + 1) s in
  Ret (idx, if (maxidx s <? idx)%nat then upd_maxidx (fun _ => idx) s else s).

(** The highest slot in use from [idx] down, if there is one above 0. *)
Fixpoint last_used (idx : nat) (pfds : list (Z * Z)) : option nat :=
  match idx with
  | O => None
  | S idx' =>
      match pfds !! idx with
      | Some (fd, _) => if negb (fd =? -1) then Some idx else last_used idx' pfds
      | None => last_used idx' pfds
      end
  end.

(** One pass of [while (discoed--)]. *)
Definition gc_one (s : server) : server :=
  let s := upd_nfds (fun n => u32 (n - 1)) s in
  match last_used (maxidx s) (pfdlist s) with
  | Some idx => upd_maxidx (fun _ => idx) s
  | None => s
  end.

(** [getdisco] and the loop. *)
Definition gc (s : server) : server :=
  let discoed := disco s in
  Nat.iter (Z.to_nat discoed) gc_one (upd_disco (fun _ => 0) s).

(** The state when [spserver] enters its loop; [sock] is the listening socket. *)
Definition server0 (sock : Z) : server :=
  Srv (set_fd sock spc0 :: replicate 255 spc0) ((sock, 0) :: replicate 255 (-1, 0)) [] 0 0 0 0 [] 1 0 false [].

(** [serv_shutdown]. *)
Definition shutdown_one (i : nat) (s : server) : outcome server :=
  c ← get_spc i s;
  if spc_fd c =? -1 then Ret s
  else
    s ← serv_handledisco i (emit (Shutdown (spc_fd c)) s);
    spcrelease i s.

Fixpoint shutdown_loop (n : nat) (i : nat) (s : server) : outcome server :=
  match n with
  | O => Ret s
  | S n => s ← shutdown_one i s; shutdown_loop n (S i) s
  end.

Definition serv_shutdown (s : server) : outcome server := shutdown_loop 255 1 s.

Definition POLLIN : Z := 1.

(** The loop over the slots after [poll] has returned [rv]: [chans] is what the
    socket of each slot has to read, [a] the connection [accept] would give.
    The loop's variable is set to the slot of a new connection.  The result says
    whether the server ends. *)
Fixpoint serve (malloc_ok : Z -> bool) (fuel : nat) (a : conn) (n : nat) (idx : nat) (seen rv : Z)
    (chans : nat -> list rd) (s : server) : outcome (bool * (nat -> list rd) * server) :=
  match n with
  | O => NoFuel
  | S n =>
      if (seen <? rv) && (idx <? MAXCLI)%nat then
        match pfdlist s !! idx with
        | None => UB
        | Some (_, revents) =>
            if Z.land revents POLLIN =? 0 then serve malloc_ok fuel a n (S idx) seen rv chans s
            else if (0 <? idx)%nat then
              '(ch, s) ← client_input malloc_ok fuel idx (chans idx) s;
              serve malloc_ok fuel a n (S idx) (seen + 1) rv (fun j => if (j =? idx)%nat then ch else chans j) s
            else if spfini s then
              c ← get_spc 0 s;
              s ← serv_shutdown (emit (CloseFd (spc_fd c)) s);
              Ret (true, chans, s)
            else
              '(idx, s) ← new_conn a s;
              serve malloc_ok fuel a n (S idx) (seen + 1) rv chans s
        end
      else Ret (false, chans, s)
  end.

(** [poll] looks at the first [n] slots and reports their events. *)
Definition set_revents (n : nat) (revents : nat -> Z) (pfds : list (Z * Z)) : list (Z * Z) :=
  imap (fun j p => if (j <? n)%nat then (p.1, revents j) else p) pfds.

(** One round of the main loop; [polled] is the errno of [poll], or what it
    returns and the events. *)
Definition server_round (malloc_ok : Z -> bool) (fuel : nat) (polled : Z + Z * (nat -> Z)) (a : conn)
    (chans : nat -> list rd) (s : server) : outcome (bool * (nat -> list rd) * server) :=
  let s := gc s in
  if negb (maxidx s + 1 <=? MAXCLI)%nat then Abort
  else
    match polled with
    | inl errno => Ret (negb (errno =? EINTR), chans, s)
    | inr (rv, revents) =>
        if rv =? 0 then Abort
        else serve malloc_ok fuel a 257 0 0 rv chans (upd_pfdlist (set_revents (maxidx s + 1) revents) s)
    end.

(** [rumpuser_sp_fini]: [arg] is the client whose system call ends the guest,
    [path] what [unix_cleanup] removes.  The main loop ends when it next sees
    activity on the listening socket. *)
Definition rumpuser_sp_fini (arg : option nat) (path : option (list Z)) (s : server) : outcome server :=
  let s := emit (Newlwp 1) (emit Unsched s) in
  l ← get_spc 0 s;
  let s := match path with
           | Some p => if negb (spc_fd l =? 0) then emit (Unlink p) s else s
           | None => s
           end in
  s ← match arg with
      | None => Ret s
      | Some i =>
          c ← get_spc i s;
          Ret (if negb (spc_syscallreq c =? 0) then (send_syscall_resp i (spc_syscallreq c) 0 (0, 0) s).2 else s)
      end;
  Ret (if negb (spc_fd l =? 0) then upd_spfini (fun _ => true) (emit (Shutdown (spc_fd l)) s) else s).

End Ops.
End Server.

(** ** Facts: what an operation changes *)

Module ServerFacts.
Import Wire Frame Server.

(** The calls from [s] to [s'] leave the workers alone. *)
Definition quiet (s s' : server) : Prop :=
  exists l, trace s' = trace s ++ l /\ (SignalWorker ∉ l) /\ (CreateWorker ∉ l).

Lemma quiet_same s s' : trace s' = trace s -> quiet s s'.
Proof. intros H. exists []. rewrite H, app_nil_r. split_and!; [done|apply not_elem_of_nil..]. Qed.

Lemma quiet_then s1 s2 s3 : quiet s1 s2 -> quiet s2 s3 -> quiet s1 s3.
Proof.
  intros (l1 & H1 & S1 & C1) (l2 & H2 & S2 & C2). exists (l1 ++ l2). rewrite H2, H1, app_assoc.
  rewrite !elem_of_app. split_and!; [done|tauto..].
Qed.

Lemma quiet_emit e s : e <> SignalWorker -> e <> CreateWorker -> quiet s (emit e s).
Proof. intros. exists [e]. rewrite !list_elem_of_singleton. split_and!; [done|congruence..]. Qed.

(** From [s] to [s'] the client [i] changes by [f], and nothing else the server
    keeps about clients or work. *)
Record eff (i : nat) (f : spclient -> spclient) (s s' : server) : Prop := {
  eff_spclist : spclist s' = alter f i (spclist s);
  eff_pfdlist : pfdlist s' = pfdlist s;
  eff_preforks : preforks s' = preforks s;
  eff_work : wrklist s' = wrklist s /\ nwork s' = nwork s /\ nworker s' = nworker s /\ idleworker s' = idleworker s;
  eff_slots : disco s' = disco s /\ nfds s' = nfds s /\ maxidx s' = maxidx s;
  eff_quiet : quiet s s';
}.

Lemma eff_refl i s : eff i (fun c => c) s s.
Proof.
  split; try done; [|by apply quiet_same]. symmetry. apply list_eq. intros j. destruct (decide (i = j)) as [->|].
  - rewrite list_lookup_alter_eq. by destruct (spclist s !! j).
  - by rewrite list_lookup_alter_ne.
Qed.

Lemma eff_trans i f g h s1 s2 s3 :
  eff i f s1 s2 -> eff i g s2 s3 -> (forall c, h c = g (f c)) -> eff i h s1 s3.
Proof.
  intros [H1 H2 H3 H4 H5 H6] [K1 K2 K3 K4 K5 K6] Hh. split; [|congruence|congruence| | |by eapply quiet_then];
    [|destruct_and!; split_and!; congruence..].
  rewrite K1, H1, list_alter_alter_eq. apply list_alter_ext; [|done]. intros x _. by rewrite Hh.
Qed.

Lemma eff_emit i f e s s' : e <> SignalWorker -> e <> CreateWorker -> eff i f s s' -> eff i f s (emit e s').
Proof. intros Hs Hc [H1 H2 H3 H4 H5 H6]. split; try done. eapply quiet_then; [done|by apply quiet_emit]. Qed.

Lemma eff_on i f g h s s' : eff i f s s' -> (forall c, h c = g (f c)) -> eff i h s (on_spc i g s').
Proof. intros H Hh. eapply eff_trans; [exact H| |exact Hh]. split; try done. by apply quiet_same. Qed.

Lemma eff_preforks_on i f g s s' : eff i f s s' -> eff i f (upd_preforks g s) (upd_preforks g s').
Proof. intros [H1 H2 H3 H4 H5 H6]. split; try done. cbn. by rewrite H3. Qed.

Lemma eff_error_resp i f j reqno e s s' : eff i f s s' -> eff i f s (send_error_resp j reqno e s').
Proof. by apply eff_emit. Qed.

(** The frame's buffer is given up. *)
Definition reset (c : spclient) : spclient := set_rb (spcresetbuf (spc_rb c)) c.

(** The client has completed its handshake. *)
Definition start (l pid : Z) (c : spclient) : spclient :=
  set_state SPCSTATE_RUNNING (set_pid pid (set_mainlwp l (reset c))).

(** The effect of a sequence of recorded calls and changes of the client. *)
Ltac effs :=
  repeat first [assumption | apply eff_refl | apply eff_emit; [done|done|] | eapply eff_on; [|intros; cbv beta delta [reset start]; reflexivity]].

Lemma eff_get i f s s' c : eff i f s s' -> spclist s !! i = Some c -> spclist s' !! i = Some (f c).
Proof. intros [H _ _ _ _ _] Hc. by rewrite H, list_lookup_alter_eq, Hc. Qed.

Lemma eff_other i j f s s' : eff i f s s' -> i <> j -> spclist s' !! j = spclist s !! j.
Proof. intros [H _ _ _ _ _] Hij. by rewrite H, list_lookup_alter_ne. Qed.

Lemma get_spc_some i s c : spclist s !! i = Some c -> get_spc i s = Ret c.
Proof. unfold get_spc. by intros ->. Qed.

Lemma spcfreebuf_eff i s c :
  spclist s !! i = Some c -> exists s', spcfreebuf i s = Ret s' /\ eff i reset s s'.
Proof.
  intros Hc. unfold spcfreebuf. rewrite (get_spc_some i s c Hc). eexists. split; [done|]. effs.
Qed.

Lemma refuse_eff i e s c :
  spclist s !! i = Some c -> exists s', refuse i e s = Ret s' /\ eff i (fun c => c) s s'.
Proof.
  intros Hc. unfold refuse. rewrite (get_spc_some i s c Hc). eexists. split; [done|]. unfold send_error_resp. effs.
Qed.

Lemma refuse_free_eff i e s c :
  spclist s !! i = Some c -> exists s', (s ← refuse i e s; spcfreebuf i s) = Ret s' /\ eff i reset s s'.
Proof.
  intros Hc. destruct (refuse_eff i e s c Hc) as (s1 & -> & H1). cbn [mbind outcome_bind].
  destruct (spcfreebuf_eff i s1 c (eff_get _ _ _ _ _ H1 Hc)) as (s2 & -> & H2).
  eexists. split; [done|]. by eapply eff_trans.
Qed.

Section Answers.
Variable answer : list ev -> ev -> Z.
Variable random : list ev -> list Z.
Variable padding : list Z.
Variable maxworker idlemax : Z.

Lemma handshake_done_eff i s c :
  spclist s !! i = Some c ->
  exists pid s', handshake_done answer i s = Ret s' /\
    eff i (fun c => set_state SPCSTATE_RUNNING (set_pid pid c)) s s'.
Proof.
  intros Hc. unfold handshake_done, send_handshake_resp. rewrite (get_spc_some i s c Hc).
  cbn [mbind outcome_bind call snd]. do 2 eexists. split; [done|]. effs.
Qed.

Lemma handshake_guest_eff i s s' c :
  spclist s !! i = Some c -> handshake_guest answer i s = Ret s' ->
  eff i reset s s' \/ exists l pid, eff i (start l pid) s s'.
Proof.
  intros Hc. unfold handshake_guest. rewrite (get_spc_some i s c Hc). cbn [mbind outcome_bind].
  intros Hs. inv_bind Hs. destruct a as [comm s1].
  assert (H1 : eff i (fun c => c) s s1).
  { unfold terminate in E. destruct (spc_buf (spc_rb c)) as [b|]; [|done].
    destruct (_ <? _); simplify_eq; effs. }
  cbn [call] in Hs. set (s2 := emit _ s1) in Hs. set (error := answer _ _) in Hs. clearbody error.
  assert (H2 : eff i (fun c => c) s (if negb (error =? 0) then emit (Shutdown (spc_fd c)) s2 else s2))
    by (subst s2; destruct (negb (error =? 0)); effs).
  destruct (spcfreebuf_eff _ _ _ (eff_get _ _ _ _ _ H2 Hc)) as (s3 & Hf & H3). rewrite Hf in Hs.
  pose proof (eff_trans _ _ _ reset _ _ _ H2 H3 (fun _ => eq_refl)) as H4. cbn [mbind outcome_bind] in Hs.
  destruct (negb (error =? 0)); [left; by simplify_eq|]. right.
  set (s4 := on_spc i _ _) in Hs. set (l := answer _ Curlwp) in *.
  assert (H5 : eff i (fun c => set_mainlwp l (reset c)) s s4) by (subst s4; effs).
  destruct (handshake_done_eff i s4 _ (eff_get _ _ _ _ _ H5 Hc)) as (pid & s5 & Hd & H6).
  exists l, pid. assert (s' = s5) as -> by congruence. by eapply eff_trans.
Qed.

Lemma take_prefork_spec auth l :
  let '(r, rest) := take_prefork auth l in
  match r with
  | Some pf => pf_auth pf = auth /\ exists l1 l2, l = l1 ++ pf :: l2 /\ rest = l1 ++ l2 /\
                 Forall (fun p => pf_auth p <> auth) l1
  | None => rest = l /\ Forall (fun p => pf_auth p <> auth) l
  end.
Proof.
  induction l as [|pf l IH]; cbn [take_prefork]; [done|]. case_bool_decide as Hb.
  - split; [done|]. by exists [], l.
  - destruct (take_prefork auth l) as [[pf'|] rest].
    + destruct IH as (Ha & l1 & l2 & -> & -> & Hl). split; [done|]. exists (pf :: l1), l2. split_and!; try done.
      constructor; [congruence|done].
    + destruct IH as [-> Hl]. split; [done|]. constructor; [congruence|done].
Qed.

Lemma handshake_fork_eff i s s' c :
  spclist s !! i = Some c -> handshake_fork answer i s = Ret s' ->
  eff i reset s s' \/
  exists rfp pf rest, spc_buf (spc_rb c) = Some rfp /\ take_prefork (take 16 rfp) (preforks s) = (pf, rest) /\
    (eff i reset (upd_preforks (fun _ => rest) s) s' \/
     is_Some pf /\ exists l pid, eff i (start l pid) (upd_preforks (fun _ => rest) s) s').
Proof.
  intros Hc. unfold handshake_fork. rewrite (get_spc_some i s c Hc). cbn [mbind outcome_bind].
  destruct (negb _).
  { intros Hs. left. destruct (refuse_free_eff i RUMPSP_ERR_MALFORMED_REQUEST s c Hc) as (s1 & H1 & He).
    assert (s' = s1) as -> by congruence. done. }
  destruct (spc_buf (spc_rb c)) as [rfp|]; [|done].
  destruct (take_prefork (take 16 rfp) (preforks s)) as [pf rest] eqn:Et. intros Hs. right.
  exists rfp, pf, rest. split_and!; [done|done|]. set (s0 := upd_preforks _ s) in *.
  assert (Hc0 : spclist s0 !! i = Some c) by done. clearbody s0.
  destruct (spcfreebuf_eff i s0 c Hc0) as (s1 & Hf & H1). rewrite Hf in Hs. cbn [mbind outcome_bind] in Hs.
  destruct pf as [pf|].
  2: { destruct (refuse_eff i RUMPSP_ERR_INVALID_PREFORK s1 _ (eff_get _ _ _ _ _ H1 Hc0)) as (s2 & H2 & He).
       assert (s' = s2) as -> by congruence. left. by eapply eff_trans. }
  destruct (negb (unle _ =? 0)); [simplify_eq; left; effs|]. cbn [call] in Hs.
  set (s2 := emit (Rfork _ _ _) _) in Hs. assert (H2 : eff i reset s0 s2) by (subst s2; effs). clearbody s2.
  destruct (negb (answer _ _ =? 0)).
  { destruct (refuse_eff i RUMPSP_ERR_RFORK_FAILED s2 _ (eff_get _ _ _ _ _ H2 Hc0)) as (s3 & H3 & He).
    rewrite H3 in Hs. cbn [mbind outcome_bind] in Hs. simplify_eq. left. apply eff_emit; [done|done|]. by eapply eff_trans. }
  right. split; [by eexists|]. set (l := answer _ Curlwp) in Hs. set (s3 := emit (Switch l) _) in Hs.
  assert (H3 : eff i (fun c => set_mainlwp l (reset c)) s0 s3) by (subst s3; effs).
  destruct (handshake_done_eff i s3 _ (eff_get _ _ _ _ _ H3 Hc0)) as (pid & s4 & Hd & H4).
  exists l, pid. assert (s' = s4) as -> by congruence. by eapply eff_trans.
Qed.

Lemma handle_prefork_eff i s s' c :
  spclist s !! i = Some c -> handle_prefork answer random i s = Ret s' ->
  eff i reset s s' \/ exists pf, eff i reset (upd_preforks (fun ps => pf :: ps) s) s'.
Proof.
  intros Hc. unfold handle_prefork. rewrite (get_spc_some i s c Hc). cbn [mbind outcome_bind].
  destruct (spcfreebuf_eff i s c Hc) as (s1 & Hf & H1). rewrite Hf. cbn [mbind outcome_bind].
  destruct (negb (spc_inexec c =? 0)).
  { destruct (refuse_eff i RUMPSP_ERR_INEXEC s1 _ (eff_get _ _ _ _ _ H1 Hc)) as (s2 & H2 & He). intros Hs.
    assert (s' = s2) as -> by congruence. left. by eapply eff_trans. }
  cbn [call]. unfold send_error_resp, send_prefork_resp. cbn [call snd].
  destruct (answer _ Malloc =? 0); [intros [= <-]; left; effs|].
  destruct (negb (answer _ _ =? 0)); [intros [= <-]; left; effs|].
  intros [= <-]. right. set (l := answer _ Curlwp). set (auth := random _). exists (Pf auth l).
  apply eff_emit; [done|done|]. apply eff_preforks_on. effs.
Qed.

Lemma alloc_sba_eff fuel i s ok s' : alloc_sba answer fuel s = Ret (ok, s') -> eff i (fun c => c) s s'.
Proof.
  induction fuel as [|fuel IH] in s |- *; cbn [alloc_sba call]; [done|].
  destruct (negb _); [intros [= _ <-]; effs|]. destruct (nworker _ =? 0); [intros [= _ <-]; effs|].
  intros H%IH. eapply eff_trans; [|exact H|done]. effs.
Qed.

(** What is done about the workers when a request is queued, after the calls [l]:
    an idle one is woken, or there are too many, or one is created if the C
    library can. *)
Inductive staffed (l : list ev) (s s' : server) : Prop :=
  | staffed_woken :
      nwork s + 1 <= idleworker s -> trace s' = trace s ++ l ++ [SignalWorker] -> nworker s' = nworker s ->
      staffed l s s'
  | staffed_full :
      idleworker s < nwork s + 1 -> maxworker <= nworker s -> trace s' = trace s ++ l -> nworker s' = nworker s ->
      staffed l s s'
  | staffed_created :
      idleworker s < nwork s + 1 -> nworker s < maxworker -> trace s' = trace s ++ l ++ [CreateWorker] ->
      nworker s' = nworker s + (if answer (trace s ++ l) CreateWorker =? 0 then 1 else 0) ->
      staffed l s s'.

Lemma staffed_after l1 l s s1 s' :
  trace s1 = trace s ++ l1 -> nwork s1 = nwork s -> nworker s1 = nworker s -> idleworker s1 = idleworker s ->
  staffed l s1 s' -> staffed (l1 ++ l) s s'.
Proof.
  intros Ht Hw Hn Hi [P1 P2 P3|P1 P2 P3 P4|P1 P2 P3 P4].
  - apply staffed_woken; [lia|by rewrite P2, Ht, !app_assoc|lia].
  - apply staffed_full; [lia|lia|by rewrite P3, Ht, !app_assoc|lia].
  - apply staffed_created; [lia|lia|by rewrite P3, Ht, !app_assoc|]. rewrite P4, Hn, Ht. by rewrite app_assoc.
Qed.

(** A request has been queued for the workers. *)
Record queued (i : nat) (sba : servbouncearg) (s s' : server) : Prop := {
  queued_spclist : spclist s' = alter (fun c => set_refcnt (spc_refcnt c + 1) (reset c)) i (spclist s);
  queued_pfdlist : pfdlist s' = pfdlist s;
  queued_preforks : preforks s' = preforks s;
  queued_work : wrklist s' = wrklist s ++ [sba] /\ nwork s' = nwork s + 1 /\ idleworker s' = idleworker s;
  queued_slots : disco s' = disco s /\ nfds s' = nfds s /\ maxidx s' = maxidx s;
  queued_pool : exists l, (SignalWorker ∉ l) /\ (CreateWorker ∉ l) /\ staffed l s s';
}.

Lemma queue_work_queued i sba s : queued i sba s (queue_work answer maxworker i sba s).
Proof.
  unfold queue_work, spcref. cbn [call]. set (s1 := upd_nwork _ _).
  change (nwork s1) with (nwork s + 1). change (idleworker s1) with (idleworker s). change (nworker s1) with (nworker s).
  assert (Hl : spclist s1 = alter (fun c => set_refcnt (spc_refcnt c + 1) (reset c)) i (spclist s))
    by apply list_alter_alter_eq.
  assert (Hn : (SignalWorker ∉ @nil ev) /\ (CreateWorker ∉ @nil ev)) by (split; apply not_elem_of_nil).
  destruct (Z.leb_spec (nwork s + 1) (idleworker s)) as [Hi|Hi]; [|destruct (Z.ltb_spec (nworker s) maxworker) as [Hm|Hm]].
  - split; [exact Hl|done..|]. exists []. split_and!; [apply Hn..|]. by apply staffed_woken.
  - assert (Hp : staffed [] s (if answer (trace s1) CreateWorker =? 0
                               then upd_nworker (fun n => n + 1) (emit CreateWorker s1) else emit CreateWorker s1)).
    { apply staffed_created; [done|done|by destruct (_ =? 0)|]. change (trace s1) with (trace s). rewrite app_nil_r.
      destruct (_ =? 0); cbn; lia. }
    destruct (answer (trace s1) CreateWorker =? 0); (split; [exact Hl|done..|]); exists []; by split_and!; [apply Hn..|].
  - split; [exact Hl|done..|]. exists []. split_and!; [apply Hn..|]. apply staffed_full; [done|done|by rewrite app_nil_r|done].
Qed.

Lemma queued_after i sba s s1 s' :
  eff i (fun c => c) s s1 -> queued i sba s1 s' -> queued i sba s s'.
Proof.
  intros [K1 K2 K3 (K4 & K5 & K6 & K7) (K8 & K9 & K10) (l1 & Ht & Hs & Hc)] [Q1 Q2 Q3 (Q4 & Q5 & Q6) (Q7 & Q8 & Q9) (l & Ls & Lc & Hp)].
  split; [|congruence|congruence|split_and!; congruence|split_and!; congruence|].
  - rewrite Q1, K1, list_alter_alter_eq. by apply list_alter_ext.
  - exists (l1 ++ l). rewrite !elem_of_app. split_and!; [tauto|tauto|].
    by eapply staffed_after.
Qed.

Lemma schedulework_eff fuel i type s s' c :
  spclist s !! i = Some c -> schedulework answer maxworker fuel i type s = Ret s' ->
  eff i reset s s' \/ queued i (Sba i (hdr c) type (spc_buf (spc_rb c))) s s'.
Proof.
  intros Hc. unfold schedulework. rewrite (get_spc_some i s c Hc). cbn [mbind outcome_bind].
  intros Hs. inv_bind Hs. destruct a as [ok s1]. pose proof (alloc_sba_eff _ i _ _ _ E) as H1. destruct ok.
  - right. simplify_eq. eapply queued_after; [exact H1|apply queue_work_queued].
  - left. assert (Hc1 : spclist (send_error_resp i (rsp_reqno (hdr c)) RUMPSP_ERR_TRYAGAIN s1) !! i = Some c)
      by (cbn; apply (eff_get _ _ _ _ _ H1 Hc)).
    destruct (spcfreebuf_eff _ _ _ Hc1) as (s2 & H2 & He). assert (s' = s2) as -> by congruence.
    eapply eff_trans; [by apply eff_error_resp|exact He|done].
Qed.

(** Every outcome of a request. *)
Inductive handled (i : nat) (c : spclient) (s s' : server) : Prop :=
  | handled_dropped : eff i reset s s' -> handled i c s s'
  | handled_guest l pid :
      spc_state c = SPCSTATE_NEW -> rsp_type (hdr c) = RUMPSP_HANDSHAKE -> rsp_u (hdr c) = HANDSHAKE_GUEST ->
      eff i (start l pid) s s' -> handled i c s s'
  | handled_fork l pid rfp pf rest :
      spc_state c = SPCSTATE_NEW -> rsp_type (hdr c) = RUMPSP_HANDSHAKE -> rsp_u (hdr c) = HANDSHAKE_FORK ->
      spc_buf (spc_rb c) = Some rfp -> take_prefork (take 16 rfp) (preforks s) = (Some pf, rest) ->
      eff i (start l pid) (upd_preforks (fun _ => rest) s) s' -> handled i c s s'
  | handled_token rfp pf rest :
      spc_state c = SPCSTATE_NEW -> rsp_u (hdr c) = HANDSHAKE_FORK ->
      spc_buf (spc_rb c) = Some rfp -> take_prefork (take 16 rfp) (preforks s) = (pf, rest) ->
      eff i reset (upd_preforks (fun _ => rest) s) s' -> handled i c s s'
  | handled_prefork pf :
      spc_state c <> SPCSTATE_NEW -> eff i reset (upd_preforks (fun ps => pf :: ps) s) s' -> handled i c s s'
  | handled_queued type :
      spc_state c <> SPCSTATE_NEW -> type = SBA_SYSCALL ->
      queued i (Sba i (hdr c) type (spc_buf (spc_rb c))) s s' -> handled i c s s'
  | handled_exec s1 :
      spc_state c <> SPCSTATE_NEW -> spc_inexec c = 0 -> eff i (set_inexec 1) s s1 ->
      eff i reset s1 s' \/ queued i (Sba i (hdr c) SBA_EXEC (spc_buf (spc_rb c))) s1 s' -> handled i c s s'.

Lemma handlereq_handled fuel i s s' c :
  spclist s !! i = Some c -> handlereq answer random maxworker fuel i s = Ret s' -> handled i c s s'.
Proof.
  intros Hc. unfold handlereq. rewrite (get_spc_some i s c Hc). cbn [mbind outcome_bind].
  assert (Href : forall e, (s ← refuse i e s; spcfreebuf i s) = Ret s' -> handled i c s s').
  { intros e Hs. destruct (refuse_free_eff i e s c Hc) as (s1 & H1 & He).
    assert (s' = s1) as -> by congruence. by apply handled_dropped. }
  destruct (Z.eqb_spec (spc_state c) SPCSTATE_NEW) as [Hst|Hst].
  - destruct (Z.eqb_spec (rsp_type (hdr c)) RUMPSP_HANDSHAKE) as [Ht|Ht]; cbn [negb]; [|apply Href].
    destruct (Z.eqb_spec (rsp_u (hdr c)) HANDSHAKE_GUEST) as [Hu|Hu].
    { intros [H|(l & pid & H)]%(handshake_guest_eff _ _ _ _ Hc); [by apply handled_dropped|by eapply handled_guest]. }
    destruct (Z.eqb_spec (rsp_u (hdr c)) HANDSHAKE_FORK) as [Hu'|Hu']; [|apply Href].
    intros [H|(rfp & pf & rest & Hb & Hp & [H|[[pf' ->] (l & pid & H)]])]%(handshake_fork_eff _ _ _ _ Hc);
      [by apply handled_dropped|by eapply handled_token|by eapply handled_fork].
  - destruct (rsp_type (hdr c) =? RUMPSP_PREFORK).
    { intros [H|[pf H]]%(handle_prefork_eff _ _ _ _ Hc); [by apply handled_dropped|by eapply handled_prefork]. }
    destruct (rsp_type (hdr c) =? RUMPSP_HANDSHAKE).
    { unfold handle_exec. rewrite (get_spc_some i s c Hc). cbn [mbind outcome_bind].
      destruct (negb _); [apply Href|]. destruct (Z.eqb_spec (spc_inexec c) 0) as [Hi|]; cbn [negb]; [|apply Href].
      set (s1 := emit (Switch 0) _). assert (H1 : eff i (set_inexec 1) s s1) by (subst s1; effs).
      intros Hs. eapply handled_exec; [done|done|exact H1|].
      apply (schedulework_eff _ _ _ _ _ _ (eff_get _ _ _ _ _ H1 Hc) Hs). }
    destruct (negb _).
    { intros Hs. assert (Hc1 : spclist (send_error_resp i (rsp_reqno (hdr c)) RUMPSP_ERR_MALFORMED_REQUEST s) !! i = Some c) by done.
      destruct (spcfreebuf_eff _ _ _ Hc1) as (s2 & H2 & He). assert (s' = s2) as -> by congruence.
      apply handled_dropped. eapply eff_trans; [apply eff_error_resp, eff_refl|exact He|done]. }
    intros [H|H]%(schedulework_eff _ _ _ _ _ _ Hc); [by apply handled_dropped|by eapply handled_queued].
Qed.

End Answers.
End ServerFacts.

(** ** Facts: slots and references *)

Module SlotFacts.
Import Wire Frame Server ServerFacts.

(** The slot is taken: it has a connection, or a worker still refers to it. *)
Definition used (p : Z * Z) (c : spclient) : bool := negb ((p.1 =? -1) && (spc_state c =? SPCSTATE_NEW)).

Fixpoint nused (ps : list (Z * Z)) (cs : list spclient) : Z :=
  match ps, cs with
  | p :: ps, c :: cs => b2z (used p c) + nused ps cs
  | _, _ => 0
  end.

Lemma nused_range ps cs : 0 <= nused ps cs <= Z.of_nat (length cs).
Proof.
  induction ps as [|p ps IH] in cs |- *; destruct cs as [|c cs]; cbn [nused length]; try lia.
  specialize (IH cs). unfold b2z. destruct (used p c); lia.
Qed.

Lemma nused_update ps cs i p c p' c' :
  ps !! i = Some p -> cs !! i = Some c ->
  nused (<[i := p']> ps) (<[i := c']> cs) = nused ps cs - b2z (used p c) + b2z (used p' c').
Proof.
  induction ps as [|q ps IH] in cs, i |- *; destruct cs as [|d cs], i as [|i]; intros Hp Hc; try done.
  - cbn in *. simplify_eq. lia.
  - specialize (IH cs i Hp Hc).
    change (b2z (used q d) + nused (<[i := p']> ps) (<[i := c']> cs) =
            b2z (used q d) + nused ps cs - b2z (used p c) + b2z (used p' c')). lia.
Qed.

(** A free slot is found as long as one exists. *)
Lemma find_slot_some k ps cs :
  length ps = length cs -> nused ps cs < Z.of_nat (length cs) ->
  exists i p c, find_slot k ps cs = Some (k + i)%nat /\ ps !! i = Some p /\ cs !! i = Some c /\ used p c = false.
Proof.
  induction ps as [|[fd rv] ps IH] in k, cs |- *; destruct cs as [|c cs]; cbn [nused length find_slot]; intros Hl Hn;
    simplify_eq; try lia.
  unfold used in Hn at 1. cbn [fst] in Hn. destruct ((fd =? -1) && (spc_state c =? SPCSTATE_NEW)) eqn:E.
  - exists 0%nat, (fd, rv), c. rewrite Nat.add_0_r. split_and!; try done. unfold used. cbn [fst]. by rewrite E.
  - cbn [negb b2z] in Hn. destruct (IH (S k) cs) as (i & p & c' & Hf & Hp & Hc & Hu); [lia|lia|].
    exists (S i), p, c'. split_and!; try done. rewrite Hf. f_equal. lia.
Qed.

Lemma find_slot_free k ps cs j :
  find_slot k ps cs = Some j ->
  exists i p c, j = (k + i)%nat /\ ps !! i = Some p /\ cs !! i = Some c /\ p.1 = -1 /\ spc_state c = SPCSTATE_NEW /\
    forall i' p' c', (i' < i)%nat -> ps !! i' = Some p' -> cs !! i' = Some c' -> used p' c' = true.
Proof.
  induction ps as [|[fd rv] ps IH] in k, cs |- *; destruct cs as [|c cs]; cbn [find_slot]; try done.
  destruct ((fd =? -1) && (spc_state c =? SPCSTATE_NEW)) eqn:E.
  - intros [= <-]. exists 0%nat, (fd, rv), c. to_prop. split_and!; (done || lia).
  - intros (i & p & c' & -> & H1 & H2 & H3 & H4 & H5)%IH. exists (S i), p, c'. split_and!; [lia|done..|].
    intros [|i'] p' d Hi Hp Hd; [|by apply (H5 i'); [lia|..]]. cbn in Hp, Hd. simplify_eq. unfold used. cbn [fst]. by rewrite E.
Qed.

(** The number of requests, queued or being worked on, that refer to a slot. *)
Definition refs (i : nat) (held : list nat) : Z := Z.of_nat (length (filter (fun j => j = i) held)).

Lemma refs_nonneg i held : 0 <= refs i held.
Proof. unfold refs. lia. Qed.

Lemma refs_cons i j held : refs i (j :: held) = (if decide (j = i) then 1 else 0) + refs i held.
Proof. unfold refs. rewrite filter_cons. case_decide; cbn [length]; lia. Qed.

(** A slot with a connection is new or running and counts one reference for the
    connection; one without is free, or dying until its workers are done. *)
Definition slot_ok (p : Z * Z) (c : spclient) (k : Z) : Prop :=
  (p.1 <> -1 /\ (spc_state c = SPCSTATE_NEW \/ spc_state c = SPCSTATE_RUNNING) /\ spc_refcnt c = 1 + k) \/
  (p.1 = -1 /\ spc_state c = SPCSTATE_NEW /\ spc_refcnt c = 0 /\ k = 0) \/
  (p.1 = -1 /\ spc_state c = SPCSTATE_DYING /\ spc_refcnt c = k /\ 1 <= k).

Record sinv (s : server) (held : list nat) : Prop := {
  sinv_len : length (spclist s) = 256%nat /\ length (pfdlist s) = 256%nat;
  sinv_listen : exists p, pfdlist s !! 0%nat = Some p /\ p.1 <> -1;
  sinv_nfds : nfds s = nused (pfdlist s) (spclist s) + disco s;
  sinv_bound : 0 <= disco s /\ nfds s <= 256;
  sinv_held : Forall (fun j => (1 <= j < 256)%nat) held;
  sinv_slot : forall i p c, pfdlist s !! S i = Some p -> spclist s !! S i = Some c -> slot_ok p c (refs (S i) held);
  sinv_max : (maxidx s < 256)%nat /\ forall j p, pfdlist s !! j = Some p -> p.1 <> -1 -> (j <= maxidx s)%nat;
}.

(** Nothing about the slots changes. *)
Definition same_slots (s s' : server) : Prop :=
  pfdlist s' = pfdlist s /\ disco s' = disco s /\ nfds s' = nfds s /\ maxidx s' = maxidx s /\
  length (spclist s') = length (spclist s) /\
  forall i c, spclist s !! i = Some c ->
    exists c', spclist s' !! i = Some c' /\ spc_state c' = spc_state c /\ spc_refcnt c' = spc_refcnt c.

Lemma nused_same ps cs cs' :
  length cs' = length cs ->
  (forall i c, cs !! i = Some c -> exists c', cs' !! i = Some c' /\ spc_state c' = spc_state c) ->
  nused ps cs' = nused ps cs.
Proof.
  induction ps as [|p ps IH] in cs, cs' |- *; destruct cs as [|c cs], cs' as [|c' cs']; cbn; intros Hl H; try lia.
  destruct (H 0%nat c eq_refl) as (c1 & [= <-] & Hs). unfold used at 1 2. rewrite Hs. f_equal.
  apply IH; [lia|]. intros i d Hd. apply (H (S i) d Hd).
Qed.

Lemma sinv_same s s' held : sinv s held -> same_slots s s' -> sinv s' held.
Proof.
  intros [[L1 L2] Hlis Hn Hb Hh Hsl Hm] (Hp & Hd & Hf & Hmx & Hl & Hc).
  split; [split; congruence|by rewrite Hp| |by rewrite Hd, Hf|done| |by rewrite Hp, Hmx].
  - rewrite Hf, Hd, Hp, Hn. f_equal. symmetry. apply nused_same; [done|].
    intros i c H. destruct (Hc i c H) as (c' & ? & ? & ?). eauto.
  - rewrite Hp. intros i p c' Hi Hc'.
    destruct (lookup_lt_is_Some_2 (spclist s) (S i)) as [c Hci]; [rewrite <- Hl; by eapply lookup_lt_Some|].
    destruct (Hc _ _ Hci) as (c1 & Hc1 & Hst & Hr). assert (c1 = c') as -> by congruence.
    specialize (Hsl i p c Hi Hci). unfold slot_ok in *. by rewrite Hst, Hr.
Qed.

(** One slot changes. *)
Lemma sinv_update i p c p' c' s s' held held' :
  sinv s held -> pfdlist s !! S i = Some p -> spclist s !! S i = Some c ->
  pfdlist s' = <[S i := p']> (pfdlist s) -> spclist s' = <[S i := c']> (spclist s) ->
  nfds s' - disco s' = nfds s - disco s - b2z (used p c) + b2z (used p' c') ->
  0 <= disco s' -> nfds s' <= 256 ->
  Forall (fun j => (1 <= j < 256)%nat) held' ->
  (forall j, j <> S i -> refs j held' = refs j held) -> slot_ok p' c' (refs (S i) held') ->
  (maxidx s <= maxidx s' < 256)%nat -> (p'.1 <> -1 -> (S i <= maxidx s')%nat) ->
  sinv s' held'.
Proof.
  intros [[L1 L2] (p0 & Hp0 & Hlis) Hn Hb Hh Hsl [_ Hm]] Hp Hc Ep Ec Hnf Hd Hf Hh' Hrefs Hok Hmx Hmi. split.
  - rewrite Ep, Ec, !length_insert. done.
  - exists p0. by rewrite Ep, list_lookup_insert_ne.
  - rewrite Ep, Ec, (nused_update _ _ _ p c) by done. lia.
  - done.
  - done.
  - rewrite Ep, Ec. intros j q d. destruct (decide (i = j)) as [->|Hij].
    + rewrite !list_lookup_insert_eq by (rewrite ?L1, ?L2; eapply lookup_lt_Some in Hp; lia).
      intros [= <-] [= <-]. done.
    + rewrite !list_lookup_insert_ne by lia. rewrite Hrefs by lia. apply Hsl.
  - split; [lia|]. rewrite Ep. intros j q Hj Hq. destruct (decide (j = S i)) as [->|Hij].
    + rewrite list_lookup_insert_eq in Hj by (eapply lookup_lt_Some; exact Hp). simplify_eq. by apply Hmi.
    + rewrite list_lookup_insert_ne in Hj by done. specialize (Hm j q Hj Hq). lia.
Qed.

Lemma alter_insert {A} (f : A -> A) i (l : list A) x : l !! i = Some x -> alter f i l = <[i := f x]> l.
Proof.
  intros Hx. rewrite list_insert_alter. apply list_alter_ext; [|done]. intros y Hy. congruence.
Qed.

Lemma insert_id_same {A} i (l : list A) x : l !! i = Some x -> l = <[i := x]> l.
Proof. intros Hx. symmetry. by apply list_insert_id. Qed.

(** Nothing about the work changes. *)
Definition same_work (s s' : server) : Prop :=
  (wrklist s' = wrklist s /\ nwork s' = nwork s /\ nworker s' = nworker s /\ idleworker s' = idleworker s) /\ quiet s s'.

Lemma same_work_refl s s' :
  wrklist s' = wrklist s -> nwork s' = nwork s -> nworker s' = nworker s -> idleworker s' = idleworker s ->
  trace s' = trace s -> same_work s s'.
Proof. intros. split; [done|by apply quiet_same]. Qed.

Lemma same_work_trans s1 s2 s3 : same_work s1 s2 -> same_work s2 s3 -> same_work s1 s3.
Proof.
  intros [(H1 & H2 & H3 & H4) Hq] [(K1 & K2 & K3 & K4) Kq]. split; [split_and!; congruence|by eapply quiet_then].
Qed.

Lemma same_work_eff i f s s' : eff i f s s' -> same_work s s'.
Proof. by intros [_ _ _ H _ Hq]. Qed.

(** *** Connections *)

Lemma sinv_eq s s' held :
  sinv s held -> spclist s' = spclist s -> pfdlist s' = pfdlist s -> disco s' = disco s -> nfds s' = nfds s ->
  maxidx s' = maxidx s -> sinv s' held.
Proof. intros [H1 H2 H3 H4 H5 H6 H7] Es Ep Ed En Em. split; rewrite ?Es, ?Ep, ?Ed, ?En, ?Em; done. Qed.

(** The client of a new connection. *)
Definition connected (newfd : Z) (c : spclient) : spclient :=
  set_respwait [] (set_refcnt 1 (set_istatus SPCSTATUS_BUSY (set_fd newfd c))).

Lemma new_conn_ok a s held :
  sinv s held -> exists idx s', new_conn a s = Ret (idx, s') /\ sinv s' held.
Proof.
  intros Hinv. destruct a as [newfd fcntl_ok hook_ok banner_ok]. unfold new_conn, serv_handleconn.
  cbn [Server.newfd Server.fcntl_ok Server.hook_ok Server.banner_ok].
  assert (Hno : forall s1, sinv s1 held -> exists idx s',
    ('(idx, s) ← Ret (0%nat, s1);
     let s := if (idx =? 0)%nat then s else upd_nfds (fun n => n + 1) s in
     Ret (idx, if (maxidx s <? idx)%nat then upd_maxidx (fun _ => idx) s else s)) = Ret (idx, s') /\ sinv s' held).
  { intros s1 H1. do 2 eexists. split; [done|]. done. }
  destruct (Z.eqb_spec newfd (-1)) as [|Hfd]; [by apply Hno|].
  destruct (Z.eqb_spec (nfds s) 256) as [|Hn]; cbn [orb]; [by apply Hno; eapply sinv_eq|].
  destruct (negb fcntl_ok || negb hook_ok || negb banner_ok); [by apply Hno; eapply sinv_eq|].
  pose proof Hinv as [[L1 L2] (p0 & Hp0 & Hlis) Hnf [Hd Hb] Hh Hsl [Hmx _]].
  destruct (find_slot_some 0 (pfdlist s) (spclist s)) as (i & p & d & Hf & Hp & Hc & Hu); [lia|lia|].
  rewrite Hf. destruct i as [|i].
  { exfalso. rewrite Hp0 in Hp. simplify_eq. unfold used in Hu. destruct (Z.eqb_spec p.1 (-1)); [done|]. done. }
  cbn [mbind outcome_bind Nat.add Nat.eqb]. do 2 eexists. split; [done|].
  specialize (Hsl i p d Hp Hc) as Hok.
  assert (Hfree : p.1 = -1 /\ spc_state d = SPCSTATE_NEW).
  { unfold used in Hu. apply negb_false_iff, andb_true_iff in Hu as [H1 H2]. to_prop. done. }
  set (d' := connected newfd d).
  assert (Hold : b2z (used p d) = 0) by by rewrite Hu.
  assert (Hnew : b2z (used (newfd, p.2) d') = 1).
  { unfold used. cbn [fst]. by destruct (Z.eqb_spec newfd (-1)). }
  eapply (sinv_update i p d (newfd, p.2) d' s _ held held); [exact Hinv|exact Hp|exact Hc|..].
  - destruct (_ <? _)%nat; cbn; by rewrite (alter_insert _ _ _ _ Hp).
  - destruct (_ <? _)%nat; cbn; by rewrite (alter_insert _ _ _ _ Hc).
  - destruct (_ <? _)%nat; cbn [nfds disco upd_nfds upd_maxidx on_spc upd_spclist upd_pfdlist]; lia.
  - destruct (_ <? _)%nat; cbn; done.
  - destruct (_ <? _)%nat; cbn; lia.
  - done.
  - done.
  - destruct Hfree as [Hp1 Hst]. destruct Hok as [(H & _)|[(_ & _ & Hr & Hk)|(_ & H & _)]];
      [done| |rewrite Hst in H; discriminate].
    left. rewrite Hk. split_and!; [done|by left|done].
  - apply lookup_lt_Some in Hp. change (maxidx (upd_nfds _ _)) with (maxidx s).
    destruct (Nat.ltb_spec (maxidx s) (S i)); cbn; lia.
  - intros _. change (maxidx (upd_nfds _ _)) with (maxidx s). destruct (Nat.ltb_spec (maxidx s) (S i)); cbn; lia.
Qed.

(** A new connection takes the lowest free slot. *)
Lemma new_conn_cases a s idx s' :
  new_conn a s = Ret (idx, s') -> (forall p, pfdlist s !! 0%nat = Some p -> p.1 <> -1) ->
  (idx = 0%nat /\ spclist s' = spclist s /\ pfdlist s' = pfdlist s /\ same_work s s' /\ spfini s' = spfini s) \/
  (exists i p c, idx = S i /\ pfdlist s !! S i = Some p /\ spclist s !! S i = Some c /\ p.1 = -1 /\
     spc_state c = SPCSTATE_NEW /\ newfd a <> -1 /\
     pfdlist s' = <[S i := (newfd a, p.2)]> (pfdlist s) /\ spclist s' = <[S i := connected (newfd a) c]> (spclist s) /\
     same_work s s' /\ spfini s' = spfini s /\
     forall j q d, (j < i)%nat -> pfdlist s !! S j = Some q -> spclist s !! S j = Some d -> used q d = true).
Proof.
  intros Hs H0. destruct a as [fd b1 b2 b3]. unfold new_conn, serv_handleconn in Hs. cbn [newfd fcntl_ok hook_ok banner_ok] in *.
  destruct (Z.eqb_spec fd (-1)) as [|Hfd]; [left; cbn in Hs; simplify_eq; split_and!; try done; by apply same_work_refl|].
  destruct (_ || _).
  { left. cbn in Hs. simplify_eq. split_and!; try done. split; [done|by apply quiet_emit]. }
  destruct (find_slot 0 (pfdlist s) (spclist s)) as [j|] eqn:Hf; [|done].
  apply find_slot_free in Hf as (i & p & c & -> & Hp & Hc & Hp1 & Hst & Hlow). destruct i as [|i]; [by destruct (H0 p Hp)|].
  right. exists i, p, c. cbn [mbind outcome_bind Nat.add Nat.eqb] in Hs.
  change (maxidx (upd_nfds _ _)) with (maxidx s) in Hs. injection Hs as <- <-.
  destruct (maxidx s <? S i)%nat;
    (split_and!; try done; [cbn; by rewrite (alter_insert _ _ _ _ Hp)|cbn; by rewrite (alter_insert _ _ _ _ Hc)|
                            by apply same_work_refl|]);
    intros j q d Hj; apply (Hlow (S j)); lia.
Qed.

(** *** Releases and disconnections *)

Definition freed (r : Z) (c : spclient) : spclient :=
  set_state SPCSTATE_NEW (set_fd (-1) (set_mainlwp 0 (set_refcnt r c))).

Lemma spcrelease_spec i s c :
  spclist s !! i = Some c ->
  exists s', spcrelease i s = Ret s' /\ pfdlist s' = pfdlist s /\ nfds s' = nfds s /\ maxidx s' = maxidx s /\ same_work s s' /\
    (0 < spc_refcnt c - 1 /\ spclist s' = <[i := set_refcnt (spc_refcnt c - 1) c]> (spclist s) /\ disco s' = disco s \/
     spc_refcnt c - 1 <= 0 /\ spclist s' = <[i := freed (spc_refcnt c - 1) c]> (spclist s) /\
     disco s' = u32 (disco s + 1)).
Proof.
  intros Hc. unfold spcrelease. rewrite (get_spc_some i s c Hc). cbn [mbind outcome_bind].
  set (s1 := if negb (spc_inexec c =? 0) && _ then _ else _).
  assert (H1 : eff i (set_refcnt (spc_refcnt c - 1)) s s1) by (subst s1; destruct (_ && _); effs). clearbody s1.
  destruct (Z.ltb_spec 0 (spc_refcnt c - 1)) as [Hr|Hr]; eexists; (split; [done|]).
  - pose proof (same_work_eff _ _ _ _ H1) as Hw. destruct H1 as [K1 K2 K3 K4 K5 K6]. destruct_and!.
    split_and!; [done..|]. left. split_and!; [lia| |done].
    rewrite K1. apply (alter_insert _ _ _ _ Hc).
  - set (s2 := if negb (spc_mainlwp c =? 0) then _ else _).
    assert (H2 : eff i (set_refcnt (spc_refcnt c - 1)) s s2) by (subst s2; destruct (negb _); effs). clearbody s2.
    assert (H3 : eff i (freed (spc_refcnt c - 1)) s
      (on_spc i (fun c => set_state SPCSTATE_NEW (set_fd (-1) c)) (emit (CloseFd (spc_fd c)) (on_spc i (set_mainlwp 0) s2)))).
    { eapply eff_on; [apply eff_emit; [done|done|]; eapply eff_on; [exact H2|intros; reflexivity]|done]. }
    pose proof (same_work_eff _ _ _ _ H3) as Hw.
    destruct H3 as [K1 K2 K3 K4 K5 K6]. destruct_and!. unfold signaldisco. split_and!; [done..|]. right. split_and!; [lia| |].
    + cbn in *. rewrite K1. apply (alter_insert _ _ _ _ Hc).
    + cbn in *. congruence.
Qed.

(** The slot's entries. *)
Lemma sinv_lookup s held i :
  sinv s held -> (i < 256)%nat -> exists p c, pfdlist s !! i = Some p /\ spclist s !! i = Some c.
Proof.
  intros [[L1 L2] _ _ _ _ _ _] Hi.
  destruct (lookup_lt_is_Some_2 (pfdlist s) i ltac:(lia)) as [p Hp].
  destruct (lookup_lt_is_Some_2 (spclist s) i ltac:(lia)) as [c Hc]. eauto.
Qed.

Lemma refs_skip i j held : j <> i -> refs j (i :: held) = refs j held.
Proof. intros. rewrite refs_cons. case_decide; [congruence|lia]. Qed.

Lemma refs_here i held : refs i (i :: held) = 1 + refs i held.
Proof. rewrite refs_cons. by rewrite decide_True. Qed.

Lemma used_state p c c' : spc_state c' = spc_state c -> used p c' = used p c.
Proof. unfold used. by intros ->. Qed.

Lemma used_dying p c : spc_state c = SPCSTATE_DYING -> used p c = true.
Proof. unfold used. intros ->. by rewrite andb_false_r. Qed.

Lemma used_connected p c : p.1 <> -1 -> used p c = true.
Proof. unfold used. intros Hp. by destruct (Z.eqb_spec p.1 (-1)). Qed.

Lemma disco_small s held i p c :
  sinv s held -> pfdlist s !! S i = Some p -> spclist s !! S i = Some c -> used p c = true -> u32 (disco s + 1) = disco s + 1.
Proof.
  intros [_ _ Hnf [Hd Hb] _ _ _] Hp Hc Hu. apply u32_small. pose proof (nused_range (pfdlist s) (spclist s)). lia.
Qed.

(** A worker is done with a request of slot [S i]. *)
Lemma release_ok i s held :
  sinv s (S i :: held) -> exists s', spcrelease (S i) s = Ret s' /\ sinv s' held.
Proof.
  intros Hinv. pose proof Hinv as [_ _ Hnf [Hd Hb] Hh Hsl [Hmx Hmc]].
  apply Forall_cons in Hh as [Hi Hh]. destruct (sinv_lookup _ _ (S i) Hinv ltac:(lia)) as (p & c & Hp & Hc).
  specialize (Hsl i p c Hp Hc). rewrite refs_here in Hsl. pose proof (refs_nonneg (S i) held) as Hnn.
  destruct (spcrelease_spec (S i) s c Hc) as (s' & Hr & Ep & En & Em & Hw & Hcase). exists s'. split; [done|].
  destruct Hcase as [(Hpos & Es & Ed)|(Hneg & Es & Ed)].
  - eapply (sinv_update i p c p _ s s'); [exact Hinv|exact Hp|exact Hc| |exact Es|..].
    + rewrite Ep. by apply insert_id_same.
    + rewrite En, Ed, (used_state p c (set_refcnt (spc_refcnt c - 1) c) eq_refl). lia.
    + lia.
    + lia.
    + done.
    + intros j Hj. by rewrite refs_skip.
    + destruct Hsl as [(H1 & H2 & H3)|[(_ & _ & _ & H4)|(H1 & H2 & H3 & H4)]]; [|lia|].
      * left. cbn. split_and!; [done|done|lia].
      * right. right. cbn. split_and!; [done|done|lia|lia].
    + lia.
    + intros Hq. rewrite Em. by apply (Hmc _ p).
  - destruct Hsl as [(H1 & H2 & H3)|[(_ & _ & _ & H4)|(H1 & H2 & H3 & H4)]]; [lia|lia|].
    assert (Hu : used p c = true) by by apply used_dying.
    rewrite (disco_small _ _ _ _ _ Hinv Hp Hc Hu) in Ed.
    eapply (sinv_update i p c p _ s s'); [exact Hinv|exact Hp|exact Hc| |exact Es|..].
    + rewrite Ep. by apply insert_id_same.
    + rewrite En, Ed, Hu. assert (Hf : used p (freed (spc_refcnt c - 1) c) = false); [|rewrite Hf; cbn; lia].
      unfold used. rewrite H1. done.
    + lia.
    + lia.
    + done.
    + intros j Hj. by rewrite refs_skip.
    + right. left. cbn. split_and!; [done|done|lia|lia].
    + lia.
    + intros Hq. rewrite Em. by apply (Hmc _ p).
Qed.

Lemma kickall_eff i c s : eff i (fun c => c) s (kickall c s).
Proof.
  unfold kickall. generalize (spc_respwait c). intros l. induction l as [|w l IH] in s |- *; cbn [fold_left]; [effs|].
  eapply eff_trans; [apply (eff_emit _ _ (Signal w.1)); [done|done|apply eff_refl]|apply IH|done].
Qed.

(** The client of slot [i] goes away: what is left of it. *)
Definition dying (c : spclient) : spclient := zero_rest (set_ostatus SPCSTATUS_FREE (set_state SPCSTATE_DYING c)).

Lemma disco_spec i s c p :
  spclist s !! i = Some c -> pfdlist s !! i = Some p ->
  exists s', serv_handledisco i s = Ret s' /\ pfdlist s' = <[i := (-1, 0)]> (pfdlist s) /\ nfds s' = nfds s /\
    maxidx s' = maxidx s /\ same_work s s' /\
    (0 < spc_refcnt c - 1 /\ spclist s' = <[i := set_refcnt (spc_refcnt c - 1) (dying c)]> (spclist s) /\ disco s' = disco s \/
     spc_refcnt c - 1 <= 0 /\ spclist s' = <[i := freed (spc_refcnt c - 1) (dying c)]> (spclist s) /\
     disco s' = u32 (disco s + 1)).
Proof.
  intros Hc Hp. unfold serv_handledisco. rewrite (get_spc_some _ _ _ Hc). cbn [mbind outcome_bind].
  set (s0 := upd_pfdlist _ s). set (s1 := on_spc i zero_rest _).
  assert (H1 : eff i dying s0 s1).
  { subst s1. eapply eff_on; [|intros; reflexivity]. set (s3 := on_spc i (fun c => (sendunlockl c).2) _).
    assert (H3 : eff i (fun c => set_ostatus SPCSTATUS_FREE (set_state SPCSTATE_DYING c)) s0 s3).
    { subst s3. eapply eff_on; [|intros; reflexivity].
      assert (Hk : eff i (set_state SPCSTATE_DYING) s0 (kickall c (on_spc i (set_state SPCSTATE_DYING) s0))).
      { eapply eff_trans; [eapply eff_on; [apply eff_refl|done]|apply kickall_eff|done]. }
      destruct (sendunlockl c).1; [by apply eff_emit|done]. }
    clearbody s3. destruct (_ && _); effs. }
  clearbody s1. pose proof (eff_get _ _ _ _ _ H1 Hc) as Hc1.
  destruct (spcrelease_spec i s1 _ Hc1) as (s' & Hrel & Ep & En & Em & [Hw Hq] & Hcase). exists s'. split; [done|].
  destruct H1 as [K1 K2 _ K4 (K5 & K6 & K7) K8].
  assert (Es1 : spclist s1 = <[i := dying c]> (spclist s)) by (rewrite K1; apply (alter_insert _ _ _ _ Hc)).
  assert (Ep1 : pfdlist s1 = <[i := (-1, 0)]> (pfdlist s)) by (rewrite K2; apply (alter_insert _ _ _ _ Hp)).
  change (spc_refcnt (dying c)) with (spc_refcnt c) in Hcase. change (disco s0) with (disco s) in K5.
  change (nfds s0) with (nfds s) in K6. change (maxidx s0) with (maxidx s) in K7.
  split_and!; [congruence|congruence|congruence| |].
  - split; [|by eapply quiet_then; [exact K8|]]. unfold s0 in K4. cbn in K4. destruct_and!. split_and!; congruence.
  - destruct Hcase as [(Hr & Es & Ed)|(Hr & Es & Ed)]; rewrite Es1, list_insert_insert_eq in Es; rewrite K5 in Ed; [left|right]; done.
Qed.

Lemma disco_ok i s held p :
  sinv s held -> pfdlist s !! S i = Some p -> p.1 <> -1 ->
  exists s', serv_handledisco (S i) s = Ret s' /\ sinv s' held.
Proof.
  intros Hinv Hp Hp1. pose proof Hinv as [[L1 L2] _ Hnf [Hd Hb] Hh Hsl [Hmx Hmc]].
  destruct (lookup_lt_is_Some_2 (spclist s) (S i)) as [c Hc]; [rewrite L1, <- L2; by eapply lookup_lt_Some|].
  specialize (Hsl i p c Hp Hc). pose proof (refs_nonneg (S i) held) as Hnn.
  destruct Hsl as [(_ & Hst & Hr)|[(H & _)|(H & _)]]; [|done|done].
  destruct (disco_spec (S i) s c p Hc Hp) as (s' & Hs & Ep & En & Em & _ & Hcase). exists s'. split; [done|].
  assert (Hu : used p c = true) by by apply used_connected.
  destruct Hcase as [(Hpos & Es & Ed)|(Hneg & Es & Ed)].
  - eapply (sinv_update i p c (-1, 0) _ s s'); [exact Hinv|exact Hp|exact Hc|exact Ep|exact Es|..].
    + rewrite En, Ed, Hu. cbn. lia.
    + by rewrite Ed.
    + by rewrite En.
    + done.
    + done.
    + right. right. cbn. split_and!; [done|done|lia|lia].
    + lia.
    + done.
  - rewrite (disco_small _ _ _ _ _ Hinv Hp Hc Hu) in Ed.
    eapply (sinv_update i p c (-1, 0) _ s s'); [exact Hinv|exact Hp|exact Hc|exact Ep|exact Es|..].
    + rewrite En, Ed, Hu. cbn. lia.
    + lia.
    + by rewrite En.
    + done.
    + done.
    + right. left. cbn. split_and!; [done|done|lia|lia].
    + lia.
    + done.
Qed.

End SlotFacts.
