(* ===== verification/Spsystem.v ===== *)
(** * The system call proxy: the server's threads together

    [librumpuser/sysproxy.c] as a system: the main thread ([spserver]) accepts
    clients, reads their frames and queues their requests; the workers
    ([serv_workbouncer]) take the requests, run the guest's system calls, and
    while they do so make requests of the client themselves and wait for the
    answers.  A step of the system is what one thread does between two waits;
    the steps are the operations of [Spserver].

    Executions with undefined behaviour have no step here: the operations that
    can have it are those that trust the client's frame lengths (a handshake or
    an exec without a body, an answer shorter than what was asked for). *)

From S2P Require Import Prelude Libc Spwire Spserver.
From Stdlib Require Import ZArith Lia String.
From stdpp Require Import base numbers list relations.
Local Open Scope Z_scope.

Module System.
Import Wire Frame Server.

(** Where a worker is: at the top of its loop, waiting for work, woken from that
    wait, about to handle a request, in the guest's system call, waiting for the
    client's answer, or gone. *)
Inductive wstate : Type :=
  | WTop
  | WWait
  | WWoken
  | WTaken (sba : servbouncearg)
  | WCall (sba : servbouncearg)
  | WResp (sba : servbouncearg)
  | WGone.

Record config : Type := Config { srv : server; workers : list wstate }.

Section Steps.
Variable answer : list ev -> ev -> Z.
Variable random : list ev -> list Z.
Variable padding : list Z.
Variable maxworker idlemax : Z.
Variable malloc_ok : Z -> bool.

(** What the calls of the main thread do to the workers: [pthread_cond_signal]
    wakes one of those that wait, if any does, and [pthread_create] starts one
    when it succeeds. *)
Inductive notified (s s' : server) (ws : list wstate) : list wstate -> Prop :=
  | notified_none l :
      trace s' = trace s ++ l -> (SignalWorker ∉ l) -> (CreateWorker ∉ l) -> notified s s' ws ws
  | notified_signal l k :
      trace s' = trace s ++ l ++ [SignalWorker] -> (SignalWorker ∉ l) -> (CreateWorker ∉ l) ->
      ws !! k = Some WWait -> notified s s' ws (<[k := WWoken]> ws)
  | notified_nobody l :
      trace s' = trace s ++ l ++ [SignalWorker] -> (SignalWorker ∉ l) -> (CreateWorker ∉ l) ->
      (WWait ∉ ws) -> notified s s' ws ws
  | notified_create l :
      trace s' = trace s ++ l ++ [CreateWorker] -> (SignalWorker ∉ l) -> (CreateWorker ∉ l) ->
      notified s s' ws (if answer (trace s ++ l) CreateWorker =? 0 then ws ++ [WTop] else ws).

(** The state of a worker after the locked region of its loop. *)
Definition bounced (b : bounce) : wstate :=
  match b with WorkerExit => WGone | WorkerWait => WWait | WorkerTake sba => WTaken sba end.

Inductive step : config -> config -> Prop :=
  (* the main thread *)
  | step_gc s ws : step (Config s ws) (Config (gc s) ws)
  | step_poll s ws revents :
      (forall j p, pfdlist s !! j = Some p -> p.1 = -1 -> revents j = 0) ->
      step (Config s ws) (Config (upd_pfdlist (set_revents (maxidx s + 1) revents) s) ws)
  | step_conn s ws a idx s' : new_conn a s = Ret (idx, s') -> step (Config s ws) (Config s' ws)
  | step_input fuel s ws i p ch ch' s' ws' :
      pfdlist s !! S i = Some p -> p.1 <> -1 ->
      client_input answer random maxworker malloc_ok fuel (S i) ch s = Ret (ch', s') ->
      notified s s' ws ws' -> step (Config s ws) (Config s' ws')
  (* a worker and the queue; a wait may end for no reason *)
  | step_top s ws k b s' :
      ws !! k = Some WTop -> bounce_top idlemax s = (b, s') ->
      step (Config s ws) (Config s' (<[k := bounced b]> ws))
  | step_woken s ws k b s' :
      ws !! k = Some WWoken -> bounce_take s = (b, s') ->
      step (Config s ws) (Config s' (<[k := bounced b]> ws))
  | step_spurious s ws k :
      ws !! k = Some WWait -> step (Config s ws) (Config s (<[k := WWoken]> ws))
  (* a worker and its request *)
  | step_syscall s ws k sba s' :
      ws !! k = Some (WTaken sba) -> sba_type sba = SBA_SYSCALL ->
      syscall_begin answer padding (sba_spc sba) (sba_hdr sba) (sba_data sba) s = Ret (true, s') ->
      step (Config s ws) (Config s' (<[k := WCall sba]> ws))
  | step_refused s ws k sba s1 s' :
      ws !! k = Some (WTaken sba) -> sba_type sba = SBA_SYSCALL ->
      syscall_begin answer padding (sba_spc sba) (sba_hdr sba) (sba_data sba) s = Ret (false, s1) ->
      work_done sba s1 = Ret s' -> step (Config s ws) (Config s' (<[k := WTop]> ws))
  | step_return s ws k sba rv retval s' :
      ws !! k = Some (WCall sba) ->
      work_done sba (syscall_end answer padding (sba_spc sba) (sba_hdr sba) rv retval s) = Ret s' ->
      step (Config s ws) (Config s' (<[k := WTop]> ws))
  | step_exec s ws k sba c s1 s' :
      ws !! k = Some (WTaken sba) -> sba_type sba = SBA_EXEC ->
      spclist s !! sba_spc sba = Some c -> exec_ready c = true ->
      serv_handleexec answer (sba_spc sba) (sba_hdr sba) (sba_data sba) s = Ret s1 ->
      work_done sba s1 = Ret s' -> step (Config s ws) (Config s' (<[k := WTop]> ws))
  (* a worker in a system call and its client *)
  | step_request s ws k sba c type body rv s' :
      ws !! k = Some (WCall sba) -> spclist s !! sba_spc sba = Some c -> spc_nextreq c + 1 < 2 ^ 64 ->
      request answer (sba_spc sba) (Z.of_nat k) type body s = Ret (rv, s') ->
      step (Config s ws) (Config s' (if rv =? 0 then <[k := WResp sba]> ws else ws))
  | step_answered s ws k sba c r s' :
      ws !! k = Some (WResp sba) -> spclist s !! sba_spc sba = Some c -> waitresp_done (Z.of_nat k) c = true ->
      waitresp (sba_spc sba) (Z.of_nat k) s = Ret (r, s') ->
      step (Config s ws) (Config s' (<[k := WCall sba]> ws))
  | step_copyout s ws k sba c remaddr data rv s' :
      ws !! k = Some (WCall sba) -> spclist s !! sba_spc sba = Some c -> spc_nextreq c + 1 < 2 ^ 64 ->
      send_copyout_req answer (sba_spc sba) remaddr data s = Ret (rv, s') -> step (Config s ws) (Config s' ws)
  | step_raise s ws k sba junk signo :
      ws !! k = Some (WCall sba) ->
      step (Config s ws) (Config (send_raise_req answer (sba_spc sba) junk signo s).2 ws)
  (* a system call that ends the guest *)
  | step_fini s ws k sba path s' :
      ws !! k = Some (WCall sba) -> rumpuser_sp_fini answer padding (Some (sba_spc sba)) path s = Ret s' ->
      step (Config s ws) (Config s' ws).

(** The states the system gets to from its start, with no worker yet. *)
Inductive reach (sock : Z) : config -> Prop :=
  | reach_start : reach sock (Config (server0 sock) [])
  | reach_step cf cf' : reach sock cf -> step cf cf' -> reach sock cf'.

End Steps.
End System.

(** ** Starting the server (rumpuser_sp_init) *)

Module Startup.
Import Str Wire Url Server.

(** What the calls of the host answer: [inl] is an error number. *)
Record host_calls : Type := HostCalls {
  strdup_ok : bool;
  sys_socket : Z -> Z + Z;                    (* of the index in parsetab *)
  malloc_sarg_ok : bool;
  sys_bind : Z -> sockaddr -> option Z;
  sys_listen : Z -> option Z;
  sys_pthread_create : Z;
}.

(** The statics of the file that the routine sets, the descriptors it has open,
    and the socket of the server thread it started. *)
Record statics : Type := Statics {
  banner : str;
  cleanup : option (Z * sockaddr);            (* cleanupidx, cleanupsa *)
  parsedurl : str;
  open_sockets : list Z;
  listening : list (Z * sockaddr);
  server_thread : option Z;
}.

Definition statics0 : statics := Statics [] None [] [] [] None.

Definition PROTOMAJOR : Z := 0.
Definition PROTOMINOR : Z := 4.
Definition MAXBANNER : nat := 96.

(** "RUMPSP-%d.%d-%s-%s/%s\n" *)
Definition banner_text (ostype osrelease machine : str) : str :=
  lit "RUMPSP-" ++ print_dec PROTOMAJOR ++ lit "." ++ print_dec PROTOMINOR ++ lit "-" ++ ostype ++ lit "-" ++
  osrelease ++ lit "/" ++ machine ++ [10].

Section Init.
Variable inet_pton : str -> option Z + Z.
Variable getcwd : option str.
Variable malloc_errno : option Z.
Variable h : host_calls.

(** From [bind] on, with the socket [s] open: "sloppy error recovery". *)
Definition start_server (s : Z) (sap : sockaddr) (st : statics) : Z * statics :=
  match sys_bind h s sap with
  | Some errno => (errno, st)
  | None =>
      match sys_listen h s with
      | Some errno => (errno, st)
      | None =>
          let st := Statics (banner st) (cleanup st) (parsedurl st) (open_sockets st) (listening st ++ [(s, sap)]) (server_thread st) in
          if negb (sys_pthread_create h =? 0) then (sys_pthread_create h, st)
          else (0, Statics (banner st) (cleanup st) (parsedurl st) (open_sockets st) (listening st) (Some s))
      end
  end.

Definition rumpuser_sp_init (url ostype osrelease machine : str) (st : statics) : outcome (Z * statics) :=
  if negb (strdup_ok h) then Ret (ENOMEM, st)
  else
    '(r, purl) ← parseurl inet_pton getcwd malloc_errno url true (parsedurl st);
    let st := Statics (banner st) (cleanup st) purl (open_sockets st) (listening st) (server_thread st) in
    match r with
    | inl error => Ret (error, st)
    | inr (sap, idx) =>
        let st := Statics (take (MAXBANNER - 1) (banner_text ostype osrelease machine))
                    (cleanup st) (parsedurl st) (open_sockets st) (listening st) (server_thread st) in
        match sys_socket h idx with
        | inl errno => Ret (errno, st)
        | inr s =>
            if negb (malloc_sarg_ok h) then Ret (ENOMEM, st)
            else
              Ret (start_server s sap
                     (Statics (banner st) (Some (idx, sap)) (parsedurl st) (open_sockets st ++ [s]) (listening st) (server_thread st)))
        end
    end.

End Init.

(** The arrays as the program starts with them. *)
Definition server_static : server :=
  Srv (replicate 256 (set_fd 0 spc0)) (replicate 256 (0, 0)) [] 0 0 0 0 [] 0 0 false [].

(** The start of [spserver] in its thread. *)
Definition spserver_start (sock : Z) (s : server) : server :=
  let s := upd_spclist (fun l => <[0%nat := set_fd sock (default spc0 (head l))]> (map (set_fd (-1)) l)) s in
  let s := upd_pfdlist (fun l => <[0%nat := (sock, snd (default (0, 0) (head l)))]> (map (fun p => (-1, snd p)) l)) s in
  upd_maxidx (fun _ => 0%nat) (upd_nfds (fun _ => 1) s).

End Startup.

(** ** Facts: the requests the workers hold *)

Module PoolFacts.
Import Wire Frame Server ServerFacts SlotFacts System.

(** The requests a worker holds. *)
Definition holds (w : wstate) : list servbouncearg :=
  match w with WTaken sba | WCall sba | WResp sba => [sba] | _ => [] end.

(** All requests that are not done, and the slots they refer to. *)
Definition jobs (s : server) (ws : list wstate) : list servbouncearg := wrklist s ++ concat (map holds ws).
Definition held (s : server) (ws : list wstate) : list nat := map sba_spc (jobs s ws).

Fixpoint count (p : wstate -> bool) (ws : list wstate) : Z :=
  match ws with [] => 0 | w :: ws => b2z (p w) + count p ws end.

Definition live (w : wstate) : bool := match w with WGone => false | _ => true end.
Definition idle (w : wstate) : bool := match w with WWait | WWoken => true | _ => false end.
Definition woken (w : wstate) : bool := match w with WWoken => true | _ => false end.

Lemma b2z_range b : 0 <= b2z b <= 1.
Proof. destruct b; cbn; lia. Qed.

Lemma count_nonneg p ws : 0 <= count p ws.
Proof. induction ws as [|w ws IH]; cbn [count]; [lia|]. pose proof (b2z_range (p w)). lia. Qed.

Lemma count_app p ws ws' : count p (ws ++ ws') = count p ws + count p ws'.
Proof. induction ws as [|w ws IH]; cbn [count app]; lia. Qed.

Lemma count_insert p ws k w w' :
  ws !! k = Some w -> count p (<[k := w']> ws) = count p ws - b2z (p w) + b2z (p w').
Proof.
  induction ws as [|v ws IH] in k |- *; destruct k as [|k]; intros Hk; try done.
  - cbn in *. simplify_eq. lia.
  - specialize (IH k Hk). change (b2z (p v) + count p (<[k := w']> ws) = b2z (p v) + count p ws - b2z (p w) + b2z (p w')).
    lia.
Qed.

Lemma count_le p q ws : (forall w, p w = true -> q w = true) -> count p ws <= count q ws.
Proof.
  intros H. induction ws as [|w ws IH]; cbn [count]; [lia|]. specialize (H w).
  destruct (p w), (q w); cbn [b2z]; lia.
Qed.

Lemma count_pos p ws : 0 < count p ws -> exists k w, ws !! k = Some w /\ p w = true.
Proof.
  induction ws as [|w ws IH]; cbn [count]; [lia|]. destruct (p w) eqn:E.
  - intros _. by exists 0%nat, w.
  - cbn [b2z]. intros H. destruct IH as (k & v & Hk & Hv); [lia|]. by exists (S k), v.
Qed.

Lemma count_none_wait ws : (WWait ∉ ws) -> count idle ws = count woken ws.
Proof.
  induction ws as [|w ws IH]; cbn [count]; [done|]. rewrite not_elem_of_cons. intros [Hw Hws].
  rewrite IH by done. by destruct w.
Qed.

(** A worker's requests among the others'. *)
Lemma holds_split ws k w :
  ws !! k = Some w -> exists rest, concat (map holds ws) ≡ₚ holds w ++ rest /\
    forall w', concat (map holds (<[k := w']> ws)) ≡ₚ holds w' ++ rest.
Proof.
  intros Hk. pose proof (lookup_lt_Some _ _ _ Hk) as Hl. pose proof (take_drop_middle ws k w Hk) as Hs.
  exists (concat (map holds (take k ws)) ++ concat (map holds (drop (S k) ws))). split.
  - rewrite <- Hs at 1. rewrite map_app, concat_app. cbn [map concat].
    rewrite !app_assoc. apply Permutation_app_tail, Permutation_app_comm.
  - intros w'. rewrite insert_take_drop by done. rewrite map_app, concat_app. cbn [map concat].
    rewrite !app_assoc. apply Permutation_app_tail, Permutation_app_comm.
Qed.

(** *** Slots and held references *)

Lemma refs_perm i h h' : h ≡ₚ h' -> refs i h = refs i h'.
Proof. intros H. unfold refs. by rewrite H. Qed.

Lemma sinv_perm s h h' : h ≡ₚ h' -> sinv s h -> sinv s h'.
Proof.
  intros Hp [H1 H2 H3 H4 H5 H6 H7]. split; try done.
  - by rewrite <- Hp.
  - intros i p c Hi Hc. rewrite <- (refs_perm _ _ _ Hp). by apply H6.
Qed.

Lemma refs_pos i h : i ∈ h -> 1 <= refs i h.
Proof.
  intros H. unfold refs. assert (Hf : i ∈ filter (fun j => j = i) h) by (apply list_elem_of_filter; done).
  destruct (filter (fun j => j = i) h); [by apply not_elem_of_nil in Hf|]. cbn [length]. lia.
Qed.

(** *** What a frame of a client does *)

(** [eff] without the outstanding forks. *)
Record chg (i : nat) (f : spclient -> spclient) (s s' : server) : Prop := {
  chg_spclist : spclist s' = alter f i (spclist s);
  chg_pfdlist : pfdlist s' = pfdlist s;
  chg_work : wrklist s' = wrklist s /\ nwork s' = nwork s /\ nworker s' = nworker s /\ idleworker s' = idleworker s;
  chg_slots : disco s' = disco s /\ nfds s' = nfds s /\ maxidx s' = maxidx s;
  chg_quiet : quiet s s';
}.

Lemma chg_eff i f s s' : eff i f s s' -> chg i f s s'.
Proof. intros [H1 H2 H3 H4 H5 H6]. by split. Qed.

Lemma chg_eff_preforks i f g s s' : eff i f (upd_preforks g s) s' -> chg i f s s'.
Proof. intros [H1 H2 H3 H4 H5 H6]. by split. Qed.

Lemma chg_trans i f g h s1 s2 s3 :
  chg i f s1 s2 -> chg i g s2 s3 -> (forall c, h c = g (f c)) -> chg i h s1 s3.
Proof.
  intros [H1 H2 H4 H5 H6] [K1 K2 K4 K5 K6] Hh. split; [|congruence| | |by eapply quiet_then];
    [|destruct_and!; split_and!; congruence..].
  rewrite K1, H1, list_alter_alter_eq. apply list_alter_ext; [|done]. intros x _. by rewrite Hh.
Qed.

(** The client of a slot changes, but neither its references nor whether the
    slot is taken. *)
Lemma sinv_chg i f p c s s' h :
  sinv s h -> pfdlist s !! S i = Some p -> spclist s !! S i = Some c -> chg (S i) f s s' ->
  used p (f c) = used p c -> slot_ok p (f c) (refs (S i) h) -> sinv s' h.
Proof.
  intros Hinv Hp Hc [K1 K2 _ (K5 & K6 & K7) _] Hu Hok. pose proof Hinv as [_ _ _ [Hd Hb] Hh _ [Hmx Hmc]].
  eapply (sinv_update i p c p (f c) s s'); [exact Hinv|exact Hp|exact Hc|..].
  - rewrite K2. by apply insert_id_same.
  - rewrite K1. by apply alter_insert.
  - rewrite K5, K6, Hu. lia.
  - lia.
  - lia.
  - done.
  - done.
  - done.
  - lia.
  - intros Hq. rewrite K7. by apply (Hmc _ p).
Qed.

(** A change that keeps the state and the references. *)
Lemma sinv_chg_same i f s s' h :
  sinv s h -> chg i f s s' ->
  (forall c, spclist s !! i = Some c -> spc_state (f c) = spc_state c /\ spc_refcnt (f c) = spc_refcnt c) -> sinv s' h.
Proof.
  intros Hinv [K1 K2 _ (K5 & K6 & K7) _] Hf. eapply sinv_same; [exact Hinv|].
  split_and!; [done..|by rewrite K1, length_alter|]. intros j c Hc. rewrite K1.
  destruct (decide (i = j)) as [->|Hij].
  - rewrite list_lookup_alter_eq, Hc. cbn. destruct (Hf c Hc). eauto.
  - rewrite list_lookup_alter_ne by done. eauto.
Qed.

(** A request is queued, and the client changes by [f] on the way. *)
Record took (answer : list ev -> ev -> Z) (maxworker : Z) (i : nat) (f : spclient -> spclient) (sba : servbouncearg)
    (s s' : server) : Prop := {
  took_spclist : spclist s' = alter f i (spclist s);
  took_pfdlist : pfdlist s' = pfdlist s;
  took_work : wrklist s' = wrklist s ++ [sba] /\ nwork s' = nwork s + 1 /\ idleworker s' = idleworker s;
  took_slots : disco s' = disco s /\ nfds s' = nfds s /\ maxidx s' = maxidx s;
  took_pool : exists l, (SignalWorker ∉ l) /\ (CreateWorker ∉ l) /\ staffed answer maxworker l s s';
}.

Lemma took_after answer maxworker i f g h sba s s1 s' :
  chg i f s s1 -> took answer maxworker i g sba s1 s' -> (forall c, h c = g (f c)) -> took answer maxworker i h sba s s'.
Proof.
  intros [K1 K2 (K4 & K5 & K6 & K7) (K8 & K9 & K10) (l1 & Ht & Hs & Hc)] [Q1 Q2 (Q4 & Q5 & Q6) (Q7 & Q8 & Q9) (l & Ls & Lc & Hp)] Hh.
  split; [|congruence|split_and!; congruence|split_and!; congruence|].
  - rewrite Q1, K1, list_alter_alter_eq. apply list_alter_ext; [|done]. intros x _. by rewrite Hh.
  - exists (l1 ++ l). rewrite !elem_of_app. split_and!; [tauto|tauto|].
    by eapply staffed_after.
Qed.

(** The threads that wait for the client and the numbers of their requests. *)
Definition waits (c : spclient) : list (Z * Z) := map (fun w => (w.1, rw_reqno w.2)) (spc_respwait c).

Definition same_waits (c c' : spclient) : Prop := waits c' = waits c /\ spc_nextreq c' = spc_nextreq c.

Section Input.
Variable answer : list ev -> ev -> Z.
Variable random : list ev -> list Z.
Variable maxworker : Z.

Lemma waits_on_waiter id f c :
  (forall w, rw_reqno (f w) = rw_reqno w) -> waits (set_respwait (on_waiter id f (spc_respwait c)) c) = waits c.
Proof.
  intros Hf. unfold waits, on_waiter. cbn [spc_respwait set_respwait]. rewrite map_map. apply map_ext.
  intros [j w]. cbn. destruct (Z.eqb_spec j id) as [->|]; cbn; [by rewrite Hf|done].
Qed.

Lemma kickwaiter_eff i s s' c :
  spclist s !! i = Some c -> kickwaiter i s = Ret s' ->
  exists f, eff i f s s' /\ spc_state (f c) = spc_state c /\ spc_refcnt (f c) = spc_refcnt c /\ same_waits c (f c).
Proof.
  intros Hc. unfold kickwaiter. rewrite (get_spc_some i s c Hc). cbn [mbind outcome_bind].
  destruct (find_waiter _ _) as [id|].
  2: { destruct (spcfreebuf_eff i s c Hc) as (s1 & H1 & He). intros Hs. assert (s' = s1) as -> by congruence.
       exists reset. by split_and!. }
  set (answered := fun w => Rw _ _ _ _ _). set (error := if _ =? RUMPSP_ERROR then _ else 0).
  set (s1 := emit _ _). set (g := fun c => set_respwait (on_waiter id answered (spc_respwait c)) c).
  assert (H1 : eff i g s s1) by (subst s1 g; effs).
  intros Hs. exists (fun c => reset (g c)). split.
  - destruct (negb (error =? 0)).
    + destruct (spcfreebuf_eff i s1 _ (eff_get _ _ _ _ _ H1 Hc)) as (s2 & H2 & He). assert (s' = s2) as -> by congruence.
      by eapply eff_trans.
    + simplify_eq. eapply eff_on; [exact H1|done].
  - split_and!; [done|done|]. split; [|done]. by apply (waits_on_waiter id answered c).
Qed.

(** Every outcome of activity on the connection of slot [i], whose client is
    [c]: the client goes on as it was, completes its handshake, has a request
    queued, or is gone. *)
Inductive input (i : nat) (c : spclient) (s s' : server) : Prop :=
  | input_same f :
      chg i f s s' -> spc_state (f c) = spc_state c -> spc_refcnt (f c) = spc_refcnt c -> same_waits c (f c) ->
      input i c s s'
  | input_started f :
      spc_state c = SPCSTATE_NEW -> chg i f s s' -> spc_state (f c) = SPCSTATE_RUNNING ->
      spc_refcnt (f c) = spc_refcnt c -> same_waits c (f c) -> input i c s s'
  | input_queued f sba :
      spc_state c <> SPCSTATE_NEW -> took answer maxworker i f sba s s' -> sba_spc sba = i ->
      spc_state (f c) = spc_state c -> spc_refcnt (f c) = spc_refcnt c + 1 -> same_waits c (f c) -> input i c s s'
  | input_gone rb s1 : chg i (set_rb rb) s s1 -> serv_handledisco i s1 = Ret s' -> input i c s s'.

Lemma took_queued i sba s s' :
  queued answer maxworker i sba s s' ->
  took answer maxworker i (fun c => set_refcnt (spc_refcnt c + 1) (reset c)) sba s s'.
Proof. intros [H1 H2 H3 H4 H5 H6]. by split. Qed.

Lemma handled_input i c s s' : handled answer maxworker i c s s' -> input i c s s'.
Proof.
  intros [He|l pid Hst _ _ He|l pid rfp pf rest Hst _ _ _ _ He|rfp pf rest Hst _ _ _ He|pf Hst He|type Hst _ Hq|s1 Hst _ He Hq].
  - eapply input_same; [by apply chg_eff|done..].
  - eapply (input_started _ _ _ _ (start l pid)); [done|by apply chg_eff|done..].
  - eapply (input_started _ _ _ _ (start l pid)); [done|by eapply chg_eff_preforks|done..].
  - eapply input_same; [by eapply chg_eff_preforks|done..].
  - eapply input_same; [by eapply chg_eff_preforks|done..].
  - eapply (input_queued _ _ _ _ _ _ Hst); [by apply took_queued|done..].
  - destruct Hq as [Hr|Hq].
    + eapply (input_same _ _ _ _ (fun c => reset (set_inexec 1 c))); [|done..].
      eapply chg_trans; [by apply chg_eff|by apply chg_eff|done].
    + eapply (input_queued _ _ _ _ (fun c => set_refcnt (spc_refcnt c + 1) (reset (set_inexec 1 c))) _ Hst);
        [eapply took_after; [by apply chg_eff|by apply took_queued|done]|done..].
Qed.

Lemma input_after i rb c s s1 s' :
  chg i (set_rb rb) s s1 -> input i (set_rb rb c) s1 s' -> input i c s s'.
Proof.
  intros H1 [f Hf F1 F2 F3|f Hst Hf F1 F2 F3|f sba Hst Hf Hi F1 F2 F3|rb' s2 H2 Hd].
  - eapply (input_same _ _ _ _ (fun c => f (set_rb rb c))); [by eapply chg_trans|done..].
  - eapply (input_started _ _ _ _ (fun c => f (set_rb rb c))); [done|by eapply chg_trans|done..].
  - eapply (input_queued _ _ _ _ (fun c => f (set_rb rb c))); [done|by eapply took_after|done..].
  - eapply input_gone; [|exact Hd]. by eapply chg_trans.
Qed.

Lemma client_input_cases malloc_ok fuel i ch ch' s s' c :
  spclist s !! i = Some c -> client_input answer random maxworker malloc_ok fuel i ch s = Ret (ch', s') ->
  input i c s s'.
Proof.
  intros Hc. unfold client_input. rewrite (get_spc_some i s c Hc). cbn [mbind outcome_bind].
  destruct (readframe malloc_ok ch (spc_rb c)) as [[r ch1] rb]. intros Hs. inv_bind Hs. injection Hs as <- <-.
  rename a into s2. set (s1 := on_spc i (set_rb rb) s) in E.
  assert (H1 : eff i (set_rb rb) s s1) by (subst s1; effs). pose proof (eff_get _ _ _ _ _ H1 Hc) as Hc1. clearbody s1.
  eapply input_after; [by apply chg_eff|]. unfold dispatch in E.
  assert (H0 : chg i (fun c => c) s1 s1) by apply chg_eff, eff_refl.
  destruct (r =? 0); [simplify_eq; by eapply input_same|].
  destruct (r =? -1).
  { eapply (input_gone _ _ _ _ rb); [|exact E]. apply chg_eff.
    destruct H1 as [K1 K2 K3 K4 K5 K6]. split; try done; [|by apply quiet_same].
    rewrite (alter_insert _ _ _ _ Hc1). by apply insert_id_same. }
  rewrite (get_spc_some _ _ _ Hc1) in E. cbn [mbind outcome_bind] in E.
  destruct (rsp_class _ =? RUMPSP_RESP).
  { destruct (kickwaiter_eff _ _ _ _ Hc1 E) as (f & He & F1 & F2 & F3). eapply input_same; [by apply chg_eff|done..]. }
  destruct (rsp_class _ =? RUMPSP_REQ).
  { by eapply handled_input, handlereq_handled. }
  set (s3 := send_error_resp _ _ _ _) in E. assert (H3 : eff i (fun c => c) s1 s3) by apply eff_error_resp, eff_refl.
  destruct (spcfreebuf_eff i s3 _ (eff_get _ _ _ _ _ H3 Hc1)) as (s4 & H4 & He). assert (s2 = s4) as -> by congruence.
  eapply (input_same _ _ _ _ reset); [|done..]. apply chg_eff. by eapply eff_trans.
Qed.

End Input.
End PoolFacts.

(** ** Facts: the invariant of the system *)

Module SystemInv.
Import Wire Frame Server ServerFacts SlotFacts System PoolFacts.

Lemma elem_of_last {A} (l : list A) x : x ∈ l ++ [x].
Proof. apply elem_of_app. right. by apply list_elem_of_singleton. Qed.

(** *** The workers' counters *)

(** The counters are right, and of the workers that wait for work as many have
    been woken as there are requests. *)
Record pool_ok (s : server) (ws : list wstate) : Prop := {
  pool_work : nwork s = Z.of_nat (length (wrklist s));
  pool_live : nworker s = count live ws;
  pool_idle : idleworker s = count idle ws;
  pool_woken : Z.min (nwork s) (count idle ws) <= count woken ws;
}.

Lemma pool_same s s' ws : same_work s s' -> pool_ok s ws -> pool_ok s' ws.
Proof. intros [(E1 & E2 & E3 & E4) _] [H1 H2 H3 H4]. split; rewrite ?E1, ?E2, ?E3, ?E4; done. Qed.

(** A worker moves on without touching the queue. *)
Lemma pool_set s s' ws k w w' :
  same_work s s' -> ws !! k = Some w -> live w' = live w -> idle w' = idle w -> b2z (woken w) <= b2z (woken w') ->
  pool_ok s ws -> pool_ok s' (<[k := w']> ws).
Proof.
  intros Hw Hk Hl Hi Ho Hp. destruct (pool_same _ _ _ Hw Hp) as [H1 H2 H3 H4].
  split; rewrite ?(count_insert _ _ _ _ _ Hk), ?Hl, ?Hi; lia.
Qed.

(** A request is queued and the workers are told. *)
Lemma pool_took answer maxworker i f sba s s' ws ws' :
  took answer maxworker i f sba s s' -> notified answer s s' ws ws' -> pool_ok s ws -> pool_ok s' ws'.
Proof.
  intros [_ _ (Q1 & Q2 & Q3) _ (l & Ls & Lc & Hst)] Hn [H1 H2 H3 H4].
  assert (Hlen : nwork s' = Z.of_nat (length (wrklist s'))).
  { rewrite Q1, length_app, Q2, H1. cbn. lia. }
  assert (Htr : forall l' e, trace s' = trace s ++ l' ++ [e] -> (SignalWorker ∉ l') -> (CreateWorker ∉ l') ->
    forall e', trace s' = trace s ++ l ++ [e'] -> e = e' /\ l' = l).
  { intros l' e E _ _ e' E'. rewrite E in E'. by apply app_inv_head, app_inj_tail in E' as [-> ->]. }
  pose proof (count_nonneg woken ws) as Hnn.
  destruct Hst as [P1 P2 P3|P1 P2 P3 P4|P1 P2 P3 P4].
  - destruct Hn as [l' E Es Ec|l' k E Es Ec Hk|l' E Es Ec Hw|l' E Es Ec].
    + exfalso. apply Es. assert (l' = l ++ [SignalWorker]) as -> by (rewrite E in P2; by apply app_inv_head in P2).
      apply elem_of_last.
    + split; rewrite ?Q2, ?Q3, ?P3, ?(count_insert _ _ _ _ _ Hk); cbn [live idle woken b2z]; lia.
    + split; rewrite ?Q2, ?Q3, ?P3; try lia. rewrite (count_none_wait ws Hw). lia.
    + by destruct (Htr _ _ E Es Ec _ P2).
  - destruct Hn as [l' E Es Ec|l' k E Es Ec Hk|l' E Es Ec Hw|l' E Es Ec].
    2-4: exfalso; rewrite E in P3; apply app_inv_head in P3; subst l; first [apply Ls, elem_of_last|apply Lc, elem_of_last].
    split; rewrite ?Q2, ?Q3, ?P4; lia.
  - destruct Hn as [l' E Es Ec|l' k E Es Ec Hk|l' E Es Ec Hw|l' E Es Ec].
    + exfalso. apply Ec. assert (l' = l ++ [CreateWorker]) as -> by (rewrite E in P3; by apply app_inv_head in P3).
      apply elem_of_last.
    + by destruct (Htr _ _ E Es Ec _ P3).
    + by destruct (Htr _ _ E Es Ec _ P3).
    + destruct (Htr _ _ E Es Ec _ P3) as [_ ->].
      destruct (answer (trace s ++ l) CreateWorker =? 0); split; rewrite ?count_app, ?Q2, ?Q3, ?P4; cbn [count live idle woken b2z]; lia.
Qed.

(** A worker goes through the locked region of its loop. *)
Lemma bounce_take_cases s b s' :
  bounce_take s = (b, s') ->
  (wrklist s = [] /\ b = WorkerWait /\ s' = s) \/
  exists sba l, wrklist s = sba :: l /\ b = WorkerTake sba /\
    s' = upd_nwork (fun n => n - 1) (upd_wrklist (fun _ => l) (upd_idleworker (fun n => n - 1) s)).
Proof.
  unfold bounce_take. destruct (wrklist s) as [|sba l]; intros [= <- <-]; [by left|right]. by exists sba, l.
Qed.

Lemma pool_woken_step s ws k b s' :
  ws !! k = Some WWoken -> bounce_take s = (b, s') -> pool_ok s ws -> pool_ok s' (<[k := bounced b]> ws).
Proof.
  intros Hk Hb [H1 H2 H3 H4]. pose proof (count_nonneg woken (<[k := WWait]> ws)) as Hnn.
  rewrite (count_insert _ _ _ _ _ Hk) in Hnn. cbn [woken b2z] in Hnn.
  destruct (bounce_take_cases _ _ _ Hb) as [(He & -> & ->)|(sba & l & He & -> & ->)]; rewrite He in H1;
    split; cbn [bounced nwork wrklist nworker idleworker upd_nwork upd_wrklist upd_idleworker];
    rewrite ?He, ?(count_insert _ _ _ _ _ Hk); cbn [live idle woken b2z length] in *; lia.
Qed.

Lemma pool_top_step idlemax s ws k b s' :
  ws !! k = Some WTop -> bounce_top idlemax s = (b, s') -> pool_ok s ws -> pool_ok s' (<[k := bounced b]> ws).
Proof.
  intros Hk Hb [H1 H2 H3 H4]. pose proof (count_nonneg idle ws). pose proof (count_nonneg woken ws).
  unfold bounce_top in Hb. destruct (_ <=? _).
  - simplify_eq. split; cbn [bounced nwork wrklist nworker idleworker upd_nworker];
      rewrite ?(count_insert _ _ _ _ _ Hk); cbn [live idle woken b2z]; lia.
  - destruct (bounce_take_cases _ _ _ Hb) as [(He & -> & ->)|(sba & l & He & -> & ->)]; cbn in He; rewrite He in H1;
      split; cbn [bounced nwork wrklist nworker idleworker upd_nwork upd_wrklist upd_idleworker];
      rewrite ?He, ?(count_insert _ _ _ _ _ Hk); cbn [live idle woken b2z length] in *; lia.
Qed.

(** *** The requests the workers hold *)

Lemma held_set s s' ws k w w' :
  ws !! k = Some w -> wrklist s' = wrklist s -> holds w' = holds w -> held s' (<[k := w']> ws) ≡ₚ held s ws.
Proof.
  intros Hk Hw Hh. destruct (holds_split ws k w Hk) as (rest & H1 & H2). unfold held, jobs.
  by rewrite H1, H2, Hh, Hw.
Qed.

Lemma held_done s s' ws k w sba :
  ws !! k = Some w -> wrklist s' = wrklist s -> holds w = [sba] ->
  held s ws ≡ₚ sba_spc sba :: held s' (<[k := WTop]> ws).
Proof.
  intros Hk Hw Hh. destruct (holds_split ws k w Hk) as (rest & H1 & H2). unfold held, jobs.
  rewrite H1, H2, Hh, Hw. cbn [app holds]. rewrite !map_app. cbn [map]. symmetry. apply Permutation_middle.
Qed.

Lemma held_bounced s s' ws k w b :
  ws !! k = Some w -> holds w = [] ->
  (wrklist s' = wrklist s /\ (b = WorkerWait \/ b = WorkerExit)) \/
  (exists sba, wrklist s = sba :: wrklist s' /\ b = WorkerTake sba) ->
  held s' (<[k := bounced b]> ws) ≡ₚ held s ws.
Proof.
  intros Hk Hh Hb. destruct (holds_split ws k w Hk) as (rest & H1 & H2). unfold held, jobs. rewrite H1, H2, Hh.
  destruct Hb as [(-> & [-> | ->])|(sba & -> & ->)]; [done..|]. cbn [bounced holds app map].
  rewrite !map_app. cbn [map]. symmetry. apply Permutation_middle.
Qed.

Lemma holds_notified answer s s' ws ws' :
  notified answer s s' ws ws' -> concat (map holds ws') ≡ₚ concat (map holds ws).
Proof.
  intros [l _ _ _|l k _ _ _ Hk|l _ _ _ _|l _ _ _]; [done| |done|].
  - destruct (holds_split ws k WWait Hk) as (rest & H1 & H2). by rewrite H1, H2.
  - destruct (_ =? 0); [|done]. by rewrite map_app, concat_app, app_nil_r.
Qed.

Lemma held_notified answer s s' s1 s2 ws ws' :
  notified answer s s' ws ws' -> wrklist s2 = wrklist s1 -> held s2 ws' ≡ₚ held s1 ws.
Proof. intros H Hw. unfold held, jobs. by rewrite (holds_notified _ _ _ _ _ H), Hw. Qed.

Lemma held_took answer maxworker i f sba s s' ws ws' :
  took answer maxworker i f sba s s' -> notified answer s s' ws ws' -> held s' ws' ≡ₚ sba_spc sba :: held s ws.
Proof.
  intros [_ _ (Q1 & _) _ _] Hn. unfold held, jobs. rewrite (holds_notified _ _ _ _ _ Hn), Q1, !map_app. cbn [map].
  rewrite <- app_assoc. cbn [app]. symmetry. apply Permutation_middle.
Qed.

(** *** The slots *)

(** The slots after a frame of a connected client. *)
Lemma input_slots answer maxworker i p c s s' ws ws' :
  input answer maxworker (S i) c s s' -> notified answer s s' ws ws' ->
  pfdlist s !! S i = Some p -> p.1 <> -1 -> spclist s !! S i = Some c ->
  sinv s (held s ws) -> sinv s' (held s' ws').
Proof.
  intros Hin Hn Hp Hp1 Hc Hinv. pose proof Hinv as [_ _ _ [Hd Hb] Hh Hsl [Hmx Hmc]].
  specialize (Hsl i p c Hp Hc) as [(_ & Hst & Hr)|[(H & _)|(H & _)]]; [|done|done].
  destruct Hin as [f Hf F1 F2 F3|f Hnew Hf F1 F2 F3|f sba Hnew Hf Hi F1 F2 F3|rb s1 Hf Hd1].
  - eapply sinv_perm; [symmetry; eapply held_notified; [exact Hn|by destruct Hf as [_ _ (-> & _) _ _]]|].
    eapply (sinv_chg i f p c s); [exact Hinv|done|done|done|by apply used_state|]. left. by rewrite F1, F2.
  - eapply sinv_perm; [symmetry; eapply held_notified; [exact Hn|by destruct Hf as [_ _ (-> & _) _ _]]|].
    eapply (sinv_chg i f p c s); [exact Hinv|done|done|done|by rewrite !used_connected|].
    left. rewrite F1, F2. split_and!; [done|by right|done].
  - eapply sinv_perm; [symmetry; by eapply held_took|]. rewrite Hi.
    destruct Hf as [Q1 Q2 _ (Q4 & Q5 & Q6) _].
    eapply (sinv_update i p c p (f c) s s'); [exact Hinv|exact Hp|exact Hc|..].
    + rewrite Q2. by apply insert_id_same.
    + rewrite Q1. by apply alter_insert.
    + rewrite Q4, Q5, (used_state p c (f c) F1). lia.
    + lia.
    + lia.
    + constructor; [|done]. apply lookup_lt_Some in Hp. destruct Hinv as [[_ L2] _ _ _ _ _ _]. lia.
    + intros j Hj. by rewrite refs_skip.
    + left. rewrite refs_here, F1, F2. split_and!; [done|done|lia].
    + lia.
    + intros Hq. rewrite Q6. by apply (Hmc _ p).
  - assert (Hinv1 : sinv s1 (held s ws)) by by eapply sinv_chg_same.
    assert (Hp' : pfdlist s1 !! S i = Some p) by by destruct Hf as [_ -> _ _ _].
    destruct (disco_ok i s1 (held s ws) p Hinv1 Hp' Hp1) as (s2 & Hs2 & Hinv2).
    assert (s' = s2) as -> by congruence.
    destruct (disco_spec (S i) s1 (set_rb rb c) p) as (s3 & Hs3 & _ & _ & _ & [(Hw & _) _] & _).
    { destruct Hf as [K1 _ _ _ _]. rewrite K1, list_lookup_alter_eq. by rewrite Hc. }
    { done. }
    assert (s2 = s3) as -> by congruence. eapply sinv_perm; [|exact Hinv2]. symmetry.
    eapply held_notified; [exact Hn|]. rewrite Hw. by destruct Hf as [_ _ (-> & _) _ _].
Qed.

(** The highest slot in use. *)
Lemma last_used_spec n ps idx :
  last_used n ps = Some idx ->
  (idx <= n)%nat /\ forall j p, (idx < j <= n)%nat -> ps !! j = Some p -> p.1 = -1.
Proof.
  induction n as [|n IH]; cbn [last_used]; [done|]. intros Hl.
  assert (Hrec : last_used n ps = Some idx -> (forall p, ps !! S n = Some p -> p.1 = -1) ->
    (idx <= S n)%nat /\ forall j p, (idx < j <= S n)%nat -> ps !! j = Some p -> p.1 = -1).
  { intros [H1 H2]%IH Hn. split; [lia|]. intros j p Hj Hp. destruct (decide (j = S n)) as [->|]; [by apply Hn|].
    apply (H2 j); [lia|done]. }
  destruct (ps !! S n) as [[fd rv]|] eqn:E; [|by apply Hrec].
  destruct (Z.eqb_spec fd (-1)) as [->|Hfd]; cbn [negb] in Hl.
  - apply Hrec; [done|]. by intros p [= <-].
  - simplify_eq. split; [lia|]. intros j p Hj. lia.
Qed.

(** The garbage collection after [n] disconnections. *)
Definition collected (n : nat) (s s' : server) : Prop :=
  spclist s' = spclist s /\ pfdlist s' = pfdlist s /\ disco s' = disco s /\ nfds s' = nfds s - Z.of_nat n /\
  same_work s s' /\ (maxidx s' <= maxidx s)%nat /\
  forall j p, (maxidx s' < j <= maxidx s)%nat -> pfdlist s !! j = Some p -> p.1 = -1.

Lemma gc_one_spec s : 1 <= nfds s <= 256 -> collected 1 s (gc_one s).
Proof.
  intros Hn. unfold gc_one, collected. change (maxidx (upd_nfds _ s)) with (maxidx s).
  change (pfdlist (upd_nfds _ s)) with (pfdlist s).
  assert (Hnf : u32 (nfds s - 1) = nfds s - Z.of_nat 1) by (rewrite u32_small; lia).
  destruct (last_used (maxidx s) (pfdlist s)) as [idx|] eqn:El; cbn [upd_maxidx upd_nfds spclist pfdlist disco nfds maxidx].
  - apply last_used_spec in El as [L1 L2]. split_and!; try done. by apply same_work_refl.
  - split_and!; try done; try lia. by apply same_work_refl.
Qed.

Lemma gc_loop_spec n s : Z.of_nat n <= nfds s <= 256 -> collected n s (Nat.iter n gc_one s).
Proof.
  intros Hn. induction n as [|n IH].
  { unfold collected. cbn [Nat.iter nat_rect]. split_and!; try done; try lia. by apply same_work_refl. }
  destruct IH as (E1 & E2 & E3 & E4 & Ew & E5 & E6); [lia|].
  change (Nat.iter (S n) gc_one s) with (gc_one (Nat.iter n gc_one s)). set (s1 := Nat.iter n gc_one s) in *. clearbody s1.
  destruct (gc_one_spec s1) as (F1 & F2 & F3 & F4 & Fw & F5 & F6); [lia|].
  split_and!; try congruence; try lia; [by eapply same_work_trans|].
  intros j p Hj Hp. destruct (decide (j <= maxidx s1)%nat); [apply (F6 j p)|apply (E6 j p)]; [lia|congruence|lia|done].
Qed.

Lemma gc_slots s h : sinv s h -> sinv (gc s) h.
Proof.
  intros [[L1 L2] (p0 & Hp0 & Hl) Hn [Hd Hb] Hh Hsl [Hm Hmc]]. unfold gc.
  pose proof (nused_range (pfdlist s) (spclist s)) as Hr.
  destruct (gc_loop_spec (Z.to_nat (disco s)) (upd_disco (fun _ => 0) s)) as (E1 & E2 & E3 & E4 & _ & E5 & E6); [cbn; lia|].
  cbn [spclist pfdlist disco nfds maxidx upd_disco] in *.
  split; rewrite ?E1, ?E2, ?E3, ?E4; try done; [eauto|lia|lia|].
  split; [lia|]. intros j p Hp Hq. specialize (Hmc j p Hp Hq).
  destruct (decide (j <= maxidx (Nat.iter (Z.to_nat (disco s)) gc_one (upd_disco (fun _ => 0%Z) s)))%nat); [done|].
  exfalso. apply Hq, (E6 j p); [lia|done].
Qed.

Lemma gc_work s : 0 <= disco s <= nfds s -> nfds s <= 256 -> same_work s (gc s).
Proof.
  intros H1 H2. unfold gc.
  by destruct (gc_loop_spec (Z.to_nat (disco s)) (upd_disco (fun _ => 0) s)) as (_ & _ & _ & _ & E & _); [cbn; lia|].
Qed.

(** [poll] changes the events of the slots only. *)
Lemma nused_fst ps ps' cs : map fst ps' = map fst ps -> nused ps' cs = nused ps cs.
Proof.
  revert ps cs. induction ps' as [|p' ps' IH]; intros [|p ps] [|c cs] H; try done; cbn in H; simplify_eq.
  cbn [nused]. unfold used at 1 2. rewrite H. f_equal. by apply IH.
Qed.

Lemma fst_set_revents n revents ps : map fst (set_revents n revents ps) = map fst ps.
Proof.
  unfold set_revents. apply list_eq. intros j. rewrite !list_lookup_fmap, list_lookup_imap.
  destruct (ps !! j) as [p|]; [|done]. cbn -[Nat.ltb]. by destruct (j <? n)%nat.
Qed.

Lemma fst_lookup (ps ps' : list (Z * Z)) j p' :
  map fst ps' = map fst ps -> ps' !! j = Some p' -> exists p, ps !! j = Some p /\ p.1 = p'.1.
Proof.
  intros H Hp. assert (Hf : map fst ps !! j = Some p'.1) by (rewrite <- H, list_lookup_fmap, Hp; done).
  rewrite list_lookup_fmap in Hf. destruct (ps !! j) as [p|]; [|done]. exists p. cbn in Hf. by simplify_eq.
Qed.

Lemma poll_slots n revents s h : sinv s h -> sinv (upd_pfdlist (set_revents n revents) s) h.
Proof.
  intros [[L1 L2] (p0 & Hp0 & Hl) Hn Hb Hh Hsl [Hm Hmc]].
  pose proof (fst_set_revents n revents (pfdlist s)) as Hf.
  split; cbn [spclist pfdlist disco nfds maxidx upd_pfdlist]; try done.
  - split; [done|]. pose proof (f_equal length Hf) as Hlen. rewrite !length_map in Hlen. lia.
  - destruct (fst_lookup (set_revents n revents (pfdlist s)) (pfdlist s) 0 p0) as (p & Hp & He); [done|done|].
    exists p. split; [done|]. by rewrite He.
  - by rewrite (nused_fst _ _ _ Hf).
  - intros i p' c Hp' Hc. destruct (fst_lookup _ _ _ _ Hf Hp') as (p & Hp & He).
    specialize (Hsl i p c Hp Hc). unfold slot_ok in *. by rewrite <- He.
  - split; [done|]. intros j p' Hp' Hq. destruct (fst_lookup _ _ _ _ Hf Hp') as (p & Hp & He).
    apply (Hmc j p); [done|]. by rewrite He.
Qed.

(** *** The threads that wait for an answer *)

(** A worker waits for the client of slot [i]. *)
Definition waiting (ws : list wstate) (i : nat) (id : Z) : Prop :=
  exists k sba, id = Z.of_nat k /\ ws !! k = Some (WResp sba) /\ sba_spc sba = i.

(** The queue of the client holds exactly those workers, and while answers can
    come in their request numbers are different. *)
Record client_ok (ws : list wstate) (i : nat) (c : spclient) : Prop := {
  cl_ids : NoDup (map fst (waits c));
  cl_waiting : forall id, id ∈ map fst (waits c) <-> waiting ws i id;
  cl_next : 0 <= spc_nextreq c < 2 ^ 64;
  cl_reqnos : spc_state c <> SPCSTATE_DYING ->
    NoDup (map snd (waits c)) /\ Forall (fun r => 0 <= r < spc_nextreq c) (map snd (waits c));
}.

Definition waiters_ok (s : server) (ws : list wstate) : Prop :=
  forall i c, spclist s !! i = Some c -> client_ok ws i c.

Lemma client_ok_same ws i c c' :
  same_waits c c' -> (spc_state c = SPCSTATE_DYING -> spc_state c' = SPCSTATE_DYING) -> client_ok ws i c -> client_ok ws i c'.
Proof.
  intros [Hw Hn] Hst [H1 H2 H3 H4]. split; rewrite ?Hw, ?Hn; try done. intros Hd. apply H4. intros H. by apply Hd, Hst.
Qed.

Lemma client_ok_workers ws ws' i c :
  (forall id, waiting ws' i id <-> waiting ws i id) -> client_ok ws i c -> client_ok ws' i c.
Proof. intros Hw [H1 H2 H3 H4]. split; try done. intros id. by rewrite Hw. Qed.

(** Without waiters the client's state does not matter. *)
Lemma client_ok_empty ws i c c' :
  waits c = [] -> waits c' = [] -> 0 <= spc_nextreq c' < 2 ^ 64 -> client_ok ws i c -> client_ok ws i c'.
Proof.
  intros Hc Hc' Hn [H1 H2 H3 H4]. rewrite Hc in H2. split; rewrite ?Hc'; [constructor|done|done|]. intros _. split; constructor.
Qed.

Definition is_resp (w : wstate) : bool := match w with WResp _ => true | _ => false end.

Lemma waiting_set ws k w w' i id :
  ws !! k = Some w -> is_resp w = false -> is_resp w' = false -> waiting (<[k := w']> ws) i id <-> waiting ws i id.
Proof.
  intros Hk Hw Hw'. pose proof (lookup_lt_Some _ _ _ Hk) as Hl. unfold waiting. split; intros (k' & sba & Hid & Hk' & Hi); exists k', sba.
  - destruct (decide (k = k')) as [->|]; [|by rewrite list_lookup_insert_ne in Hk'].
    rewrite list_lookup_insert_eq in Hk' by done. by simplify_eq.
  - destruct (decide (k = k')) as [->|]; [simplify_eq|by rewrite list_lookup_insert_ne].
Qed.

Lemma waiting_notified answer s s' ws ws' i id :
  notified answer s s' ws ws' -> waiting ws' i id <-> waiting ws i id.
Proof.
  intros [l _ _ _|l k _ _ _ Hk|l _ _ _ _|l _ _ _]; [done|by eapply waiting_set|done|].
  destruct (_ =? 0); [|done]. unfold waiting. split; intros (k & sba & Hid & Hk & Hi); exists k, sba; split_and!; try done.
  - apply lookup_app_Some in Hk as [Hk|[_ Hk]]; [done|]. destruct (k - length ws)%nat as [|[|]]; cbn in Hk; simplify_eq.
  - by apply lookup_app_l_Some.
Qed.

(** One client changes. *)
Lemma waiters_chg f i s s' ws ws' :
  spclist s' = alter f i (spclist s) -> (forall c, spclist s !! i = Some c -> client_ok ws i c -> client_ok ws' i (f c)) ->
  (forall j id, j <> i -> waiting ws' j id <-> waiting ws j id) -> waiters_ok s ws -> waiters_ok s' ws'.
Proof.
  intros Hs Hi Ho Hw j c Hc. rewrite Hs in Hc. destruct (decide (i = j)) as [->|Hij].
  - rewrite list_lookup_alter_eq in Hc. destruct (spclist s !! j) as [d|] eqn:Hd; cbn in Hc; simplify_eq.
    apply Hi; [done|by apply Hw].
  - rewrite list_lookup_alter_ne in Hc by done. eapply client_ok_workers; [|by apply Hw]. intros id. apply Ho. congruence.
Qed.

Lemma waiters_same s s' ws ws' :
  spclist s' = spclist s -> (forall j id, waiting ws' j id <-> waiting ws j id) -> waiters_ok s ws -> waiters_ok s' ws'.
Proof. intros Hs Ho Hw j c Hc. rewrite Hs in Hc. eapply client_ok_workers; [apply Ho|by apply Hw]. Qed.

(** Nobody waits for a client no request refers to. *)
Lemma waiting_held s ws i id : waiting ws i id -> 1 <= refs i (held s ws).
Proof.
  intros (k & sba & _ & Hk & <-). apply refs_pos. unfold held, jobs. apply list_elem_of_fmap. exists sba. split; [done|].
  apply elem_of_app. right. destruct (holds_split ws k _ Hk) as (rest & Hp & _). rewrite Hp. by left.
Qed.

Lemma no_waits s ws i c : refs i (held s ws) = 0 -> client_ok ws i c -> waits c = [].
Proof.
  intros Hr [_ Hw _ _]. destruct (waits c) as [|[id r] l]; [done|]. exfalso.
  assert (Hid : waiting ws i id) by (apply Hw; by left). apply (waiting_held s) in Hid. lia.
Qed.

Lemma input_waiters answer maxworker i p c s s' ws ws' :
  input answer maxworker (S i) c s s' -> notified answer s s' ws ws' ->
  pfdlist s !! S i = Some p -> p.1 <> -1 -> spclist s !! S i = Some c ->
  sinv s (held s ws) -> waiters_ok s ws -> waiters_ok s' ws'.
Proof.
  intros Hin Hn Hp Hp1 Hc Hinv Hw. pose proof (fun j id => waiting_notified _ _ _ _ _ j id Hn) as Hnot.
  pose proof (sinv_slot _ _ Hinv i p c Hp Hc) as [(_ & Hst & Hr)|[(H & _)|(H & _)]]; [|done|done].
  assert (Hkeep : forall f s1, spclist s1 = alter f (S i) (spclist s) -> same_waits c (f c) ->
    waiters_ok s1 ws').
  { intros f s1 Hs Hf. eapply waiters_chg; [exact Hs| |by intros; apply Hnot|exact Hw]. intros d Hd Hok.
    assert (d = c) as -> by congruence. eapply client_ok_same; [exact Hf| |eapply client_ok_workers; [apply Hnot|exact Hok]].
    intros Hdy. rewrite Hdy in Hst. by destruct Hst. }
  destruct Hin as [f Hf F1 F2 F3|f Hnew Hf F1 F2 F3|f sba Hnew Hf Hi F1 F2 F3|rb s1 Hf Hd].
  - by apply (Hkeep f); [destruct Hf|].
  - by apply (Hkeep f); [destruct Hf|].
  - by apply (Hkeep f); [destruct Hf|].
  - assert (Hw1 : waiters_ok s1 ws') by by apply (Hkeep (set_rb rb)); [destruct Hf|].
    assert (Hc1 : spclist s1 !! S i = Some (set_rb rb c)).
    { destruct Hf as [K1 _ _ _ _]. by rewrite K1, list_lookup_alter_eq, Hc. }
    assert (Hp' : pfdlist s1 !! S i = Some p) by by destruct Hf as [_ -> _ _ _].
    destruct (disco_spec _ _ _ _ Hc1 Hp') as (s2 & Hs2 & _ & _ & _ & _ & Hcase). assert (s' = s2) as -> by congruence.
    assert (Hgo : forall d, spclist s2 = <[S i := d]> (spclist s1) -> waits d = waits c -> spc_nextreq d = 0 ->
      (spc_state d <> SPCSTATE_DYING -> refs (S i) (held s ws) = 0) -> waiters_ok s2 ws').
    { intros d Hs Hwd Hnd Hfree. rewrite list_insert_alter in Hs. eapply waiters_chg; [exact Hs| |done|exact Hw1].
      intros e He Hok. assert (e = set_rb rb c) as -> by congruence. destruct (decide (spc_state d = SPCSTATE_DYING)) as [Hdy|Hdy].
      - destruct Hok as [O1 O2 O3 O4]. split; rewrite ?Hwd, ?Hnd; [exact O1|exact O2|done|done].
      - assert (Hwc : waits c = []) by (apply (no_waits s ws (S i)); [by apply Hfree|by apply Hw]).
        eapply client_ok_empty; [|by rewrite Hwd|by rewrite Hnd|exact Hok]. done. }
    destruct Hcase as [(Hpos & Es & _)|(Hneg & Es & _)]; (eapply Hgo; [exact Es|done|done|]); [done|].
    intros _. cbn in Hneg. pose proof (refs_nonneg (S i) (held s ws)). lia.
Qed.

(** The rest of the invariant after a frame of a client. *)
Lemma quiet_notified answer s s' ws ws' : quiet s s' -> notified answer s s' ws ws' -> ws' = ws.
Proof.
  intros (l & Hl & Hs & Hc) [l' E _ _|l' k E _ _ _|l' E _ _ _|l' E _ _]; [done| |done|];
    rewrite E in Hl; apply app_inv_head in Hl; subst l; exfalso;
    first [apply Hs, elem_of_last|apply Hc, elem_of_last].
Qed.

Lemma input_gone_spec i p c rb s s1 s' :
  chg i (set_rb rb) s s1 -> serv_handledisco i s1 = Ret s' -> pfdlist s !! i = Some p -> spclist s !! i = Some c ->
  same_work s s' /\ pfdlist s' = <[i := (-1, 0)]> (pfdlist s).
Proof.
  intros [K1 K2 K3 K4 K5] Hd Hp Hc.
  destruct (disco_spec i s1 (set_rb rb c) p) as (s2 & Hs2 & Ep & _ & _ & Hw & _);
    [by rewrite K1, list_lookup_alter_eq, Hc|by rewrite K2|].
  assert (s' = s2) as -> by congruence. split; [|by rewrite Ep, K2]. by eapply same_work_trans.
Qed.

Lemma input_pool answer maxworker i p c s s' ws ws' :
  input answer maxworker i c s s' -> notified answer s s' ws ws' ->
  pfdlist s !! i = Some p -> spclist s !! i = Some c -> pool_ok s ws -> pool_ok s' ws'.
Proof.
  intros Hin Hn Hp Hc Hok.
  destruct Hin as [f Hf F1 F2 F3|f Hnew Hf F1 F2 F3|f sba Hnew Hf Hi F1 F2 F3|rb s1 Hf Hd].
  - destruct Hf as [_ _ Hw _ Hq]. rewrite (quiet_notified _ _ _ _ _ Hq Hn). eapply pool_same; [|exact Hok]. by split.
  - destruct Hf as [_ _ Hw _ Hq]. rewrite (quiet_notified _ _ _ _ _ Hq Hn). eapply pool_same; [|exact Hok]. by split.
  - by eapply pool_took.
  - destruct (input_gone_spec _ _ _ _ _ _ _ Hf Hd Hp Hc) as [[Hw Hq] _]. rewrite (quiet_notified _ _ _ _ _ Hq Hn).
    eapply pool_same; [|exact Hok]. by split.
Qed.

Lemma input_events answer maxworker i p c s s' :
  input answer maxworker i c s s' -> pfdlist s !! i = Some p -> spclist s !! i = Some c ->
  (forall j q, pfdlist s !! j = Some q -> q.1 = -1 -> q.2 = 0) ->
  forall j q, pfdlist s' !! j = Some q -> q.1 = -1 -> q.2 = 0.
Proof.
  intros Hin Hp Hc Hev.
  destruct Hin as [f Hf F1 F2 F3|f Hnew Hf F1 F2 F3|f sba Hnew Hf Hi F1 F2 F3|rb s1 Hf Hd];
    [by destruct Hf as [_ -> _ _ _]..|].
  destruct (input_gone_spec _ _ _ _ _ _ _ Hf Hd Hp Hc) as [_ ->]. intros j q Hq. destruct (decide (j = i)) as [->|Hj].
  - rewrite list_lookup_insert_eq in Hq by (eapply lookup_lt_Some; exact Hp). by simplify_eq.
  - rewrite list_lookup_insert_ne in Hq by done. by apply (Hev j q).
Qed.

(** *** Requests to the client *)

Lemma request_eff answer i id type body s rv s' c :
  spclist s !! i = Some c -> request answer i id type body s = Ret (rv, s') ->
  exists f, eff i f s s' /\ f c = (if rv =? 0 then (doputwait id c).2 else dounputwait id (doputwait id c).2).
Proof.
  intros Hc. unfold request. rewrite (get_spc_some i s c Hc). cbn [mbind outcome_bind doputwait call].
  set (c1 := set_nextreq _ _). set (s1 := emit _ _). assert (H1 : eff i (fun _ => c1) s s1) by (subst s1; effs).
  intros [= <- <-]. set (rv := answer _ _). destruct (rv =? 0); cbn [negb].
  - by exists (fun _ => c1).
  - exists (fun _ => dounputwait id c1). split; [|done]. eapply eff_on; [exact H1|done].
Qed.

Lemma waits_unput id c : waits (dounputwait id c) = filter (fun w => w.1 <> id) (waits c).
Proof.
  unfold waits, dounputwait. cbn [spc_respwait set_respwait]. induction (spc_respwait c) as [|w l IH]; [done|].
  cbn [map]. rewrite !filter_cons. cbn [fst]. case_decide; cbn [map]; by rewrite IH.
Qed.

Lemma filter_absent (l : list (Z * Z)) id : (id ∉ map fst l) -> filter (fun w => w.1 <> id) l = l.
Proof.
  induction l as [|w l IH]; [done|]. cbn [map]. rewrite not_elem_of_cons, filter_cons. intros [Hw Hl].
  rewrite decide_True by congruence. by rewrite IH.
Qed.

Lemma elem_of_filter_fst (l : list (Z * Z)) id x :
  x ∈ map fst (filter (fun w => w.1 <> id) l) <-> x ∈ map fst l /\ x <> id.
Proof.
  rewrite !list_elem_of_fmap. split.
  - intros (w & -> & Hw). apply list_elem_of_filter in Hw as [Hne Hw]. split; [by exists w|done].
  - intros [(w & -> & Hw) Hne]. exists w. split; [done|]. by apply list_elem_of_filter.
Qed.

Lemma NoDup_map_filter {B} (g : Z * Z -> B) (l : list (Z * Z)) id :
  NoDup (map g l) -> NoDup (map g (filter (fun w => w.1 <> id) l)).
Proof.
  induction l as [|w l IH]; [done|]. cbn [map]. rewrite list.NoDup_cons, filter_cons. intros [Hw Hl].
  case_decide; [|by apply IH]. cbn [map]. apply list.NoDup_cons. split; [|by apply IH].
  rewrite list_elem_of_fmap. intros (v & Hv & Hin). apply list_elem_of_filter in Hin as [_ Hin]. apply Hw.
  rewrite Hv. by apply list_elem_of_fmap_2.
Qed.

Lemma Forall_map_filter (P : Z -> Prop) (l : list (Z * Z)) id :
  Forall P (map snd l) -> Forall P (map snd (filter (fun w => w.1 <> id) l)).
Proof.
  induction l as [|w l IH]; [done|]. cbn [map]. rewrite Forall_cons, filter_cons. intros [Hw Hl].
  case_decide; [|by apply IH]. cbn [map]. constructor; [done|by apply IH].
Qed.

(** A worker starts to wait for the client of its request, or stops. *)
Lemma waiting_resp ws k w sba j id :
  ws !! k = Some w -> is_resp w = false ->
  waiting (<[k := WResp sba]> ws) j id <-> waiting ws j id \/ (id = Z.of_nat k /\ j = sba_spc sba).
Proof.
  intros Hk Hw. pose proof (lookup_lt_Some _ _ _ Hk) as Hl. unfold waiting. split.
  - intros (k' & sba' & Hid & Hk' & Hi). destruct (decide (k = k')) as [->|].
    + rewrite list_lookup_insert_eq in Hk' by done. simplify_eq. by right.
    + rewrite list_lookup_insert_ne in Hk' by done. left. by exists k', sba'.
  - intros [(k' & sba' & Hid & Hk' & Hi)|[-> ->]].
    + exists k', sba'. split_and!; try done. rewrite list_lookup_insert_ne; [done|]. intros ->. by simplify_eq.
    + exists k, sba. by rewrite list_lookup_insert_eq.
Qed.

Lemma waiting_answered ws k sba w j id :
  ws !! k = Some (WResp sba) -> is_resp w = false ->
  waiting (<[k := w]> ws) j id <-> waiting ws j id /\ id <> Z.of_nat k.
Proof.
  intros Hk Hw. pose proof (lookup_lt_Some _ _ _ Hk) as Hl. unfold waiting. split.
  - intros (k' & sba' & Hid & Hk' & Hi). destruct (decide (k = k')) as [->|Hne].
    + rewrite list_lookup_insert_eq in Hk' by done. by simplify_eq.
    + rewrite list_lookup_insert_ne in Hk' by done. split; [by exists k', sba'|lia].
  - intros [(k' & sba' & -> & Hk' & Hi) Hne]. exists k', sba'. split_and!; try done.
    rewrite list_lookup_insert_ne; [done|]. lia.
Qed.

Lemma not_waiting ws k w j : ws !! k = Some w -> is_resp w = false -> ~ waiting ws j (Z.of_nat k).
Proof. intros Hk Hw (k' & sba & Hid & Hk' & _). assert (k' = k) as -> by lia. by simplify_eq. Qed.

(** *** All together *)

Record inv (s : server) (ws : list wstate) : Prop := {
  inv_slots : sinv s (held s ws);
  inv_pool : pool_ok s ws;
  inv_wait : waiters_ok s ws;
  inv_events : forall j p, pfdlist s !! j = Some p -> p.1 = -1 -> p.2 = 0;
}.

(** A worker changes its state and nothing else. *)
Lemma inv_set s ws k w w' :
  ws !! k = Some w -> holds w' = holds w -> live w' = live w -> idle w' = idle w -> b2z (woken w) <= b2z (woken w') ->
  is_resp w = false -> is_resp w' = false -> inv s ws -> inv s (<[k := w']> ws).
Proof.
  intros Hk Hh Hl Hi Ho Hr Hr' [H1 H2 H3 H4]. split; [| | |done].
  - eapply sinv_perm; [symmetry; by eapply held_set|done].
  - eapply pool_set; try done. by apply same_work_refl.
  - eapply waiters_same; [done| |exact H3]. intros j id. by eapply waiting_set.
Qed.

(** A client changes, but neither its references nor its waiters. *)
Lemma inv_eff i f s s' ws :
  eff i f s s' ->
  (forall c, spclist s !! i = Some c -> spc_state (f c) = spc_state c /\ spc_refcnt (f c) = spc_refcnt c /\
     waits (f c) = waits c /\ spc_nextreq c <= spc_nextreq (f c) < 2 ^ 64) ->
  inv s ws -> inv s' ws.
Proof.
  intros He Hf [H1 H2 H3 H4]. pose proof (same_work_eff _ _ _ _ He) as Hwk. split.
  - unfold held, jobs. destruct Hwk as [(-> & _) _]. eapply sinv_chg_same; [exact H1|by apply chg_eff|].
    intros c Hc. by destruct (Hf c Hc) as (? & ? & _).
  - by eapply pool_same.
  - destruct He as [K1 _ _ _ _ _]. eapply waiters_chg; [exact K1| |done|exact H3]. intros c Hc [O1 O2 O3 O4].
    destruct (Hf c Hc) as (Hst & _ & Hw & Hn). split; rewrite ?Hw, ?Hst; try done; [lia|].
    intros Hd. destruct (O4 Hd) as [N1 N2]. split; [done|]. eapply Forall_impl; [exact N2|]. cbn. lia.
  - destruct He as [_ -> _ _ _ _]. done.
Qed.

Lemma inv_eff_same i f s s' ws :
  eff i f s s' -> (forall c, spc_state (f c) = spc_state c /\ spc_refcnt (f c) = spc_refcnt c /\ same_waits c (f c)) ->
  inv s ws -> inv s' ws.
Proof.
  intros He Hf Hinv. eapply inv_eff; [exact He| |exact Hinv].
  intros c Hc. destruct (Hf c) as (? & ? & Hw & Hn). pose proof (cl_next _ _ _ (inv_wait _ _ Hinv i c Hc)). split_and!; (done || lia).
Qed.

(** A worker is done with its request. *)
Lemma inv_done s s' ws k w sba :
  ws !! k = Some w -> holds w = [sba] -> is_resp w = false -> inv s ws -> work_done sba s = Ret s' ->
  inv s' (<[k := WTop]> ws).
Proof.
  intros Hk Hh Hr [H1 H2 H3 H4] Hs. unfold work_done in Hs. inv_bind Hs. injection Hs as <-. rename a into s1.
  assert (Hwk : live w = true /\ idle w = false /\ woken w = false) by by destruct w. destruct Hwk as (Hl & Hi & Ho).
  pose proof (sinv_perm _ _ _ (held_done s s ws k w sba Hk eq_refl Hh) H1) as Hinv.
  destruct (sba_spc sba) as [|i] eqn:Hspc.
  { exfalso. pose proof (sinv_held _ _ Hinv) as Hf. apply Forall_cons in Hf as [Hf _]. lia. }
  destruct (release_ok i s _ Hinv) as (s2 & Hs2 & Hinv2). assert (s1 = s2) as -> by congruence.
  pose proof (sinv_held _ _ Hinv) as Hf. apply Forall_cons in Hf as [Hf _].
  destruct (sinv_lookup _ _ (S i) Hinv ltac:(lia)) as (p & c & Hp & Hc).
  destruct (spcrelease_spec (S i) s c Hc) as (s3 & Hs3 & Ep & _ & _ & Hwork & Hcase). assert (s2 = s3) as -> by congruence.
  assert (Hwr : wrklist s3 = wrklist s) by by destruct Hwork as [(? & _) _].
  assert (Hwork' : same_work s (emit (Free (sba_data sba)) s3))
    by (eapply same_work_trans; [exact Hwork|]; split; [done|by apply quiet_emit]).
  split.
  - eapply (sinv_eq s3); [|done..]. eapply sinv_perm; [|exact Hinv2]. unfold held, jobs. cbn [wrklist emit upd_trace]. by rewrite Hwr.
  - eapply pool_set; [exact Hwork'|exact Hk|by rewrite Hl|by rewrite Hi|by rewrite Ho|done].
  - assert (Hgo : forall d, spclist s3 = <[S i := d]> (spclist s) -> waits d = waits c -> spc_nextreq d = spc_nextreq c ->
      (spc_state d = spc_state c \/ refs (S i) (held s (<[k := WTop]> ws)) = 0) ->
      waiters_ok (emit (Free (sba_data sba)) s3) (<[k := WTop]> ws)).
    { intros d Hs Hwd Hnd Hst. rewrite list_insert_alter in Hs.
      assert (Hsame : forall j id, waiting (<[k := WTop]> ws) j id <-> waiting ws j id) by (intros; by eapply waiting_set).
      eapply (waiters_chg (fun _ => d)); [exact Hs| |intros; apply Hsame|exact H3].
      intros e He Hok. assert (e = c) as -> by congruence.
      assert (Hok' : client_ok (<[k := WTop]> ws) (S i) c) by (eapply client_ok_workers; [apply Hsame|exact Hok]).
      destruct Hst as [Hst|Hz].
      - eapply client_ok_same; [done|by rewrite Hst|done].
      - pose proof (no_waits _ _ _ _ Hz Hok') as Hwc. eapply client_ok_empty; [exact Hwc|by rewrite Hwd| |exact Hok'].
        rewrite Hnd. by apply (cl_next _ _ _ Hok). }
    destruct Hcase as [(Hpos & Es & _)|(Hneg & Es & _)]; (eapply Hgo; [exact Es|done|done|]); [by left|right].
    pose proof (sinv_slot _ _ Hinv i p c Hp Hc) as Hok. rewrite refs_here in Hok.
    pose proof (refs_nonneg (S i) (held s (<[k := WTop]> ws))).
    destruct Hok as [(_ & _ & Hrc)|[(_ & _ & _ & Hz)|(_ & _ & Hrc & _)]]; lia.
  - intros j q. change (pfdlist (emit _ s3)) with (pfdlist s3). rewrite Ep. apply H4.
Qed.

(** *** The steps *)

Section Steps.
Variable answer : list ev -> ev -> Z.
Variable random : list ev -> list Z.
Variable padding : list Z.
Variable maxworker idlemax : Z.
Variable malloc_ok : Z -> bool.

Lemma syscall_begin_eff i h data s ok s' :
  syscall_begin answer padding i h data s = Ret (ok, s') ->
  exists f, eff i f s s' /\ forall c, spc_state (f c) = spc_state c /\ spc_refcnt (f c) = spc_refcnt c /\ same_waits c (f c).
Proof.
  unfold syscall_begin, send_syscall_resp. intros Hs. inv_bind Hs. cbn [call snd] in Hs. destruct (negb _); injection Hs as <- <-.
  - exists (fun c => c). split; [effs|done].
  - exists (set_syscallreq (rsp_reqno h)). split; [effs|done].
Qed.

Lemma syscall_end_eff i h rv retval s :
  eff i (set_syscallreq 0) s (syscall_end answer padding i h rv retval s).
Proof. unfold syscall_end, send_syscall_resp. cbn [call snd]. effs. Qed.

Lemma serv_handleexec_eff i h data s s' :
  serv_handleexec answer i h data s = Ret s' -> eff i (set_inexec 0) s s'.
Proof.
  unfold serv_handleexec, terminate, send_handshake_resp. destruct data as [b|]; [|done].
  destruct (_ <? _); cbn [mbind outcome_bind]; intros Hs; inv_bind Hs; cbn [call snd] in Hs; injection Hs as <-; effs.
Qed.

Lemma inv_request s ws k sba c type body rv s' :
  ws !! k = Some (WCall sba) -> spclist s !! sba_spc sba = Some c -> spc_nextreq c + 1 < 2 ^ 64 ->
  request answer (sba_spc sba) (Z.of_nat k) type body s = Ret (rv, s') ->
  inv s ws -> inv s' (if rv =? 0 then <[k := WResp sba]> ws else ws).
Proof.
  intros Hk Hc Hn Hs Hinv. pose proof (inv_wait _ _ Hinv _ _ Hc) as [O1 O2 O3 O4].
  assert (Hu : u64 (spc_nextreq c + 1) = spc_nextreq c + 1) by (apply u64_small; lia).
  assert (Hnot : Z.of_nat k ∉ map fst (waits c)) by (rewrite O2; by eapply not_waiting).
  destruct (request_eff _ _ _ _ _ _ _ _ _ Hc Hs) as (f & He & Hf).
  assert (Hput : waits (doputwait (Z.of_nat k) c).2 = waits c ++ [(Z.of_nat k, spc_nextreq c)]).
  { unfold doputwait, waits. cbn [snd set_nextreq set_respwait spc_respwait]. by rewrite map_app. }
  destruct (rv =? 0).
  - destruct Hinv as [H1 H2 H3 H4]. pose proof (same_work_eff _ _ _ _ He) as Hwk. split.
    + eapply sinv_perm; [symmetry; eapply held_set; [exact Hk|by destruct Hwk as [(? & _) _]|done]|].
      eapply sinv_chg_same; [exact H1|by apply chg_eff|]. intros d Hd. assert (d = c) as -> by congruence. by rewrite Hf.
    + by eapply pool_set.
    + destruct He as [K1 _ _ _ _ _]. eapply waiters_chg; [exact K1| |..|exact H3].
      2: { intros j id Hj. rewrite waiting_resp by done. split; [intros [|[_ ?]]; [done|congruence]|by left]. }
      intros d Hd _. assert (d = c) as -> by congruence. rewrite Hf.
      split; rewrite ?Hput, ?map_app; cbn [map fst snd doputwait set_nextreq set_respwait spc_nextreq spc_state]; rewrite ?Hu.
      * apply NoDup_app. split_and!; [done| |apply NoDup_singleton]. intros x Hx ->%list_elem_of_singleton. done.
      * intros id. rewrite elem_of_app, O2, list_elem_of_singleton, (waiting_resp ws k (WCall sba)) by done. tauto.
      * lia.
      * intros Hd'. destruct (O4 Hd') as [N1 N2]. split.
        -- apply NoDup_app. split_and!; [done| |apply NoDup_singleton]. intros x Hx ->%list_elem_of_singleton.
           rewrite Forall_forall in N2. specialize (N2 _ Hx). lia.
        -- apply Forall_app. split; [|by repeat constructor; lia]. eapply Forall_impl; [exact N2|]. cbn. lia.
    + by destruct He as [_ -> _ _ _ _].
  - eapply inv_eff; [exact He| |exact Hinv]. intros d Hd. assert (d = c) as -> by congruence. rewrite Hf. split_and!; [done|done| |..].
    + rewrite waits_unput, Hput, filter_app, filter_absent by done.
      rewrite filter_cons, decide_False by (cbn; tauto). by rewrite filter_nil, app_nil_r.
    + cbn [dounputwait doputwait snd set_nextreq set_respwait spc_nextreq]. lia.
    + cbn [dounputwait doputwait snd set_nextreq set_respwait spc_nextreq]. lia.
Qed.

Lemma inv_answered s ws k sba r s' :
  ws !! k = Some (WResp sba) -> waitresp (sba_spc sba) (Z.of_nat k) s = Ret (r, s') ->
  inv s ws -> inv s' (<[k := WCall sba]> ws).
Proof.
  intros Hk Hs [H1 H2 H3 H4]. set (id := Z.of_nat k) in *. unfold waitresp in Hs. inv_bind Hs.
  destruct (List.find _ _) as [[j w]|]; [|done]. injection Hs as _ <-.
  assert (He : eff (sba_spc sba) (dounputwait id) s (on_spc (sba_spc sba) (dounputwait id) s)) by effs.
  pose proof (same_work_eff _ _ _ _ He) as Hwk. split.
  - eapply sinv_perm; [symmetry; eapply held_set; [exact Hk|by destruct Hwk as [(? & _) _]|done]|].
    eapply sinv_chg_same; [exact H1|by apply chg_eff|done].
  - by eapply pool_set.
  - eapply (waiters_chg (dounputwait id) (sba_spc sba)); [done| |..|exact H3].
    2: { intros i x Hi. rewrite (waiting_answered ws k sba) by done. split; [by intros []|]. intros Hx. split; [done|].
         intros ->. destruct Hx as (k' & sba' & Hkk & Hk' & Hi'). assert (k' = k) as -> by (unfold id in *; lia). by simplify_eq. }
    intros c Hc [O1 O2 O3 O4]. split; rewrite ?waits_unput.
    + by apply NoDup_map_filter.
    + intros x. rewrite elem_of_filter_fst, O2, (waiting_answered ws k sba) by done. done.
    + done.
    + intros Hd. destruct (O4 Hd). split; [by apply NoDup_map_filter|by apply Forall_map_filter].
  - done.
Qed.

Lemma inv_copyout s ws i c remaddr data rv s' :
  spclist s !! i = Some c -> spc_nextreq c + 1 < 2 ^ 64 -> send_copyout_req answer i remaddr data s = Ret (rv, s') ->
  inv s ws -> inv s' ws.
Proof.
  intros Hc Hn Hs Hinv. unfold send_copyout_req in Hs. rewrite (get_spc_some _ _ _ Hc) in Hs.
  cbn [mbind outcome_bind nextreq call] in Hs. injection Hs as _ <-.
  eapply (inv_eff i (fun _ => set_nextreq (u64 (spc_nextreq c + 1)) c)); [effs| |exact Hinv].
  intros d Hd. assert (d = c) as -> by congruence. pose proof (cl_next _ _ _ (inv_wait _ _ Hinv i c Hc)).
  cbn [set_nextreq spc_state spc_refcnt spc_nextreq]. rewrite u64_small by lia. split_and!; (done || lia).
Qed.

Lemma inv_conn s ws a idx s' : new_conn a s = Ret (idx, s') -> inv s ws -> inv s' ws.
Proof.
  intros Hs [H1 H2 H3 H4].
  assert (H0 : forall p, pfdlist s !! 0%nat = Some p -> p.1 <> -1).
  { destruct (sinv_listen _ _ H1) as (p & Hp & Hl). intros q Hq. congruence. }
  destruct (new_conn_ok a s (held s ws) H1) as (idx' & s1 & Hs1 & Hinv). assert (s1 = s') as -> by congruence.
  destruct (new_conn_cases a s idx s' Hs H0) as [(_ & Es & Ep & Hw & _)|(i & p & c & -> & Hp & Hc & Hp1 & Hst & _ & Ep & Es & Hw & _)].
  - split; [|by eapply pool_same|by eapply waiters_same|by rewrite Ep].
    unfold held, jobs in *. by destruct Hw as [(-> & _) _].
  - split.
    + unfold held, jobs in *. by destruct Hw as [(-> & _) _].
    + by eapply pool_same.
    + rewrite list_insert_alter in Es. eapply waiters_chg; [exact Es| |done|exact H3]. intros d Hd Hok.
      assert (d = c) as -> by congruence.
      destruct (sinv_slot _ _ H1 i p c Hp Hc) as [(H & _)|[(_ & _ & _ & Hz)|(_ & H & _)]]; [done| |by rewrite Hst in H].
      eapply client_ok_empty; [by eapply no_waits|done|apply (cl_next _ _ _ Hok)|exact Hok].
    + rewrite Ep. intros j q Hq Hq1. destruct (decide (j = S i)) as [->|Hj].
      * rewrite list_lookup_insert_eq in Hq by (eapply lookup_lt_Some; exact Hp). simplify_eq. by apply (H4 _ _ Hp).
      * rewrite list_lookup_insert_ne in Hq by done. by apply (H4 j q).
Qed.

Lemma inv_gc s ws : inv s ws -> inv (gc s) ws.
Proof.
  intros [H1 H2 H3 H4]. pose proof (gc_slots _ _ H1) as Hinv. pose proof H1 as [_ _ Hn [Hd Hb] _ _ _].
  pose proof (nused_range (pfdlist s) (spclist s)) as Hr.
  assert (Hw : same_work s (gc s)) by (apply gc_work; lia).
  destruct (gc_loop_spec (Z.to_nat (disco s)) (upd_disco (fun _ => 0) s)) as (E1 & E2 & _); [cbn; lia|].
  split.
  - unfold held, jobs in *. by destruct Hw as [(-> & _) _].
  - by eapply pool_same.
  - by eapply waiters_same.
  - unfold gc. by rewrite E2.
Qed.

Lemma inv_poll s ws n revents :
  (forall j p, pfdlist s !! j = Some p -> p.1 = -1 -> revents j = 0) ->
  inv s ws -> inv (upd_pfdlist (set_revents n revents) s) ws.
Proof.
  intros Hr [H1 H2 H3 H4]. split; [by apply poll_slots|apply (pool_same s); [by apply same_work_refl|exact H2]|by eapply waiters_same|].
  cbn [pfdlist upd_pfdlist]. intros j p Hp Hp1. unfold set_revents in Hp. rewrite list_lookup_imap in Hp.
  destruct (pfdlist s !! j) as [q|] eqn:Hq; [|done]. cbn -[Nat.ltb] in Hp. destruct (j <? n)%nat; simplify_eq; cbn in *; [by apply (Hr j q)|].
  by apply (H4 j p).
Qed.

Lemma inv_input fuel s ws i p ch ch' s' ws' :
  pfdlist s !! S i = Some p -> p.1 <> -1 -> client_input answer random maxworker malloc_ok fuel (S i) ch s = Ret (ch', s') ->
  notified answer s s' ws ws' -> inv s ws -> inv s' ws'.
Proof.
  intros Hp Hp1 Hs Hn [H1 H2 H3 H4].
  assert (Hi : (S i < 256)%nat) by (apply lookup_lt_Some in Hp; destruct H1 as [[_ L2] _ _ _ _ _ _]; lia).
  destruct (sinv_lookup _ _ (S i) H1 Hi) as (p' & c & Hp' & Hc). assert (p' = p) as -> by congruence.
  pose proof (client_input_cases _ _ _ _ _ _ _ _ _ _ _ Hc Hs) as Hin. split.
  - by eapply input_slots.
  - by eapply input_pool.
  - by eapply input_waiters.
  - by eapply input_events.
Qed.

(** The state the main thread starts from. *)
Lemma server0_client sock j c : spclist (server0 sock) !! S j = Some c -> c = spc0.
Proof. change (spclist (server0 sock) !! S j) with (replicate 255 spc0 !! j). by intros [-> _]%lookup_replicate. Qed.

Lemma server0_pollfd sock j p : pfdlist (server0 sock) !! S j = Some p -> p = (-1, 0).
Proof. change (pfdlist (server0 sock) !! S j) with (replicate 255 (-1, 0) !! j). by intros [-> _]%lookup_replicate. Qed.

Lemma server0_clients sock j c : spclist (server0 sock) !! j = Some c -> exists fd, c = set_fd fd spc0.
Proof. destruct j as [|j]; [intros [= <-]; by eexists|]. intros ->%server0_client. by exists (-1). Qed.

Lemma sinv_server0 sock : sock <> -1 -> sinv (server0 sock) [].
Proof.
  intros Hs. split; [done| | |cbn; lia|constructor| |].
  - by exists (sock, 0).
  - unfold server0. cbn [pfdlist spclist nused nfds disco used fst set_fd spc_state spc0].
    unfold used. cbn [fst]. rewrite (proj2 (Z.eqb_neq _ _) Hs). vm_compute. done.
  - intros i p c Hp Hc. apply server0_pollfd in Hp as ->. apply server0_client in Hc as ->. right. left. done.
  - cbn [maxidx server0]. split; [lia|]. intros [|j] p Hp Hp1; [lia|]. by apply server0_pollfd in Hp as ->.
Qed.

(** A worker goes through the locked region of its loop. *)
Lemma inv_bounced s s' ws k w b :
  ws !! k = Some w -> holds w = [] -> is_resp w = false -> spclist s' = spclist s -> pfdlist s' = pfdlist s ->
  disco s' = disco s /\ nfds s' = nfds s /\ maxidx s' = maxidx s ->
  (wrklist s' = wrklist s /\ (b = WorkerWait \/ b = WorkerExit)) \/
  (exists sba, wrklist s = sba :: wrklist s' /\ b = WorkerTake sba) ->
  pool_ok s' (<[k := bounced b]> ws) -> inv s ws -> inv s' (<[k := bounced b]> ws).
Proof.
  intros Hk Hh Hr Es Ep (Ed & En & Em) Hb Hpool [H1 H2 H3 H4]. split; [|done| |by rewrite Ep].
  - eapply sinv_perm; [symmetry; by eapply held_bounced|]. eapply sinv_same; [exact H1|]. unfold same_slots. rewrite Es.
    split_and!; [done..|]. intros i c Hc. by exists c.
  - eapply waiters_same; [exact Es| |exact H3]. intros j id. by eapply waiting_set; [..|by destruct b].
Qed.

Lemma inv_woken s ws k b s' :
  ws !! k = Some WWoken -> bounce_take s = (b, s') -> inv s ws -> inv s' (<[k := bounced b]> ws).
Proof.
  intros Hk Hb Hinv. pose proof (pool_woken_step _ _ _ _ _ Hk Hb (inv_pool _ _ Hinv)) as Hpool.
  destruct (bounce_take_cases _ _ _ Hb) as [(He & -> & ->)|(sba & l & He & -> & ->)];
    (eapply (inv_bounced s); [exact Hk|done..| |exact Hpool|exact Hinv]); [by left; split; [|left]|right; by exists sba].
Qed.

Lemma inv_top s ws k b s' :
  ws !! k = Some WTop -> bounce_top idlemax s = (b, s') -> inv s ws -> inv s' (<[k := bounced b]> ws).
Proof.
  intros Hk Hb Hinv. pose proof (pool_top_step _ _ _ _ _ _ Hk Hb (inv_pool _ _ Hinv)) as Hpool.
  unfold bounce_top in Hb. destruct (_ <=? _).
  { simplify_eq. eapply (inv_bounced s); [exact Hk|done..| |exact Hpool|exact Hinv]. left. by split; [|right]. }
  destruct (bounce_take_cases _ _ _ Hb) as [(He & -> & ->)|(sba & l & He & -> & ->)];
    (eapply (inv_bounced s); [exact Hk|done..| |exact Hpool|exact Hinv]); [by left; split; [|left]|right; by exists sba].
Qed.

Lemma rumpuser_sp_fini_eff i path s s' :
  rumpuser_sp_fini answer padding (Some i) path s = Ret s' -> eff i (fun c => c) s s'.
Proof.
  unfold rumpuser_sp_fini, send_syscall_resp. intros Hs. inv_bind Hs. cbn zeta in Hs.
  set (s1 := match path with Some _ => _ | None => _ end) in *.
  assert (H1 : eff i (fun c => c) s s1) by (subst s1; destruct path; [destruct (negb _)|]; effs). clearbody s1.
  destruct (get_spc i s1) as [c| | |]; [|done..]. cbn [mbind outcome_bind] in Hs. set (s2 := if negb (spc_syscallreq c =? 0) then _ else s1) in Hs.
  assert (H2 : eff i (fun c => c) s s2) by (clear Hs; subst s2; case_match; [cbn [call snd]; by apply eff_emit|done]).
  clearbody s2. injection Hs as <-. destruct (negb _); [|done]. set (s3 := emit _ s2).
  assert (H3 : eff i (fun c => c) s s3) by (subst s3; by apply eff_emit). clearbody s3. destruct H3. by split.
Qed.

(** Every step keeps the invariant, and it holds at the start. *)
Lemma step_inv cf cf' :
  step answer random padding maxworker idlemax malloc_ok cf cf' ->
  inv (srv cf) (workers cf) -> inv (srv cf') (workers cf').
Proof.
  intros Hstep Hinv. destruct Hstep; cbn [srv workers] in *.
  - by apply inv_gc.
  - by apply inv_poll.
  - by eapply inv_conn.
  - by eapply inv_input.
  - by eapply inv_top.
  - by eapply inv_woken.
  - by eapply inv_set.
  - match goal with H : syscall_begin _ _ _ _ _ _ = _ |- _ => destruct (syscall_begin_eff _ _ _ _ _ _ H) as (f & He & Hf) end.
    eapply inv_set; [eassumption|done..|by eapply inv_eff_same].
  - match goal with H : syscall_begin _ _ _ _ _ _ = _ |- _ => destruct (syscall_begin_eff _ _ _ _ _ _ H) as (f & He & Hf) end.
    eapply inv_done; [eassumption|done|done|by eapply inv_eff_same|eassumption].
  - eapply inv_done; [eassumption|done|done| |eassumption]. eapply inv_eff_same; [apply syscall_end_eff|done|exact Hinv].
  - eapply inv_done; [eassumption|done|done| |eassumption]. eapply inv_eff_same; [by eapply serv_handleexec_eff|done|exact Hinv].
  - by eapply inv_request.
  - by eapply inv_answered.
  - by eapply inv_copyout.
  - eapply (inv_eff_same (sba_spc sba) (fun c => c)); [|done|exact Hinv]. unfold send_raise_req. cbn [call snd]. effs.
  - eapply (inv_eff_same (sba_spc sba) (fun c => c)); [by eapply rumpuser_sp_fini_eff|done|exact Hinv].
Qed.

Lemma inv_start sock : sock <> -1 -> inv (server0 sock) [].
Proof.
  intros Hs. split.
  - by apply sinv_server0.
  - split; cbn; lia.
  - intros j c Hc. destruct (server0_clients sock j c Hc) as (fd & ->). split; cbn.
    + constructor.
    + intros id. split; [by intros ?%elem_of_nil|]. by intros (k & sba & _ & Hk & _).
    + lia.
    + intros _. split; constructor.
  - intros [|j] p Hp Hp1; [by cbn in Hp; simplify_eq|]. by apply server0_pollfd in Hp as ->.
Qed.

Lemma reach_inv sock cf :
  sock <> -1 -> reach answer random padding maxworker idlemax malloc_ok sock cf -> inv (srv cf) (workers cf).
Proof. intros Hs Hr. induction Hr as [|cf cf' Hr IH Hstep]; [by apply inv_start|by eapply step_inv]. Qed.

End Steps.
End SystemInv.

(** ** Facts: the main loop *)

Module LoopFacts.
Import Wire Frame Server ServerFacts SlotFacts System PoolFacts SystemInv.

(** An operation neither aborts nor, if [P] holds, goes on for ever. *)
Definition safe {A} (P : Prop) (o : outcome A) : Prop := o <> Abort /\ (P -> o <> NoFuel).

Lemma safe_ret {A} P (a : A) : safe P (Ret a).
Proof. done. Qed.

Lemma safe_ub {A} P : safe P (@UB A).
Proof. done. Qed.

Lemma safe_bind {A B} P (o : outcome A) (f : A -> outcome B) :
  safe P o -> (forall a, o = Ret a -> safe P (f a)) -> safe P (a ← o; f a).
Proof. intros [H1 H2] Hf. destruct o as [a| | |]; [by apply Hf|by split|done|split; [done|]]. intros HP. by destruct (H2 HP). Qed.

Lemma safe_get P i s : safe P (get_spc i s).
Proof. unfold get_spc. by destruct (_ !! _). Qed.

Create HintDb sp_safe.
#[export] Hint Resolve safe_ret safe_ub safe_get : sp_safe.

Ltac safes :=
  repeat first [solve [auto with sp_safe]|apply safe_bind; [|intros ? _]|progress cbn [call]|case_match].

Section Safe.
Variable answer : list ev -> ev -> Z.
Variable random : list ev -> list Z.
Variable padding : list Z.
Variable maxworker idlemax : Z.
Variable malloc_ok : Z -> bool.

Lemma spcfreebuf_safe P i s : safe P (spcfreebuf i s).
Proof. unfold spcfreebuf. safes. Qed.

Lemma refuse_safe P i e s : safe P (refuse i e s).
Proof. unfold refuse. safes. Qed.

Lemma handshake_done_safe P i s : safe P (handshake_done answer i s).
Proof. unfold handshake_done. safes. Qed.

Lemma terminate_safe P i b n s : safe P (terminate i b n s).
Proof. unfold terminate. safes. Qed.

Lemma spcrelease_safe P i s : safe P (spcrelease i s).
Proof. unfold spcrelease. apply safe_bind; [apply safe_get|intros c _]. cbn zeta. by destruct (0 <? _). Qed.

#[local] Hint Resolve spcfreebuf_safe refuse_safe handshake_done_safe terminate_safe spcrelease_safe : sp_safe.

Lemma serv_handledisco_safe P i s : safe P (serv_handledisco i s).
Proof. unfold serv_handledisco. apply safe_bind; [apply safe_get|intros c _]. auto with sp_safe. Qed.

Lemma kickwaiter_safe P i s : safe P (kickwaiter i s).
Proof. unfold kickwaiter. safes. Qed.

Lemma handshake_guest_safe P i s : safe P (handshake_guest answer i s).
Proof. unfold handshake_guest. safes. Qed.

Lemma handshake_fork_safe P i s : safe P (handshake_fork answer i s).
Proof. unfold handshake_fork. safes. Qed.

Lemma handle_prefork_safe P i s : safe P (handle_prefork answer random i s).
Proof. unfold handle_prefork. safes. Qed.

(** The loop around [malloc] ends when it succeeds. *)
Lemma alloc_sba_safe fuel s : safe ((0 < fuel)%nat /\ forall t, answer t Malloc <> 0) (alloc_sba answer fuel s).
Proof.
  induction fuel as [|fuel IH] in s |- *; [split; [done|lia]|]. cbn [alloc_sba call]. split.
  - case_match; [done|]. case_match; [done|]. apply IH.
  - intros [_ Hm]. destruct (Z.eqb_spec (answer (trace s) Malloc) 0) as [H|H]; [by destruct (Hm _ H)|done].
Qed.

#[local] Hint Resolve serv_handledisco_safe kickwaiter_safe handshake_guest_safe handshake_fork_safe handle_prefork_safe
  alloc_sba_safe : sp_safe.

Lemma schedulework_safe fuel i type s :
  safe ((0 < fuel)%nat /\ forall t, answer t Malloc <> 0) (schedulework answer maxworker fuel i type s).
Proof. unfold schedulework. safes. Qed.

#[local] Hint Resolve schedulework_safe : sp_safe.

Lemma handlereq_safe fuel i s :
  safe ((0 < fuel)%nat /\ forall t, answer t Malloc <> 0) (handlereq answer random maxworker fuel i s).
Proof. unfold handlereq, handle_exec. safes. Qed.

#[local] Hint Resolve handlereq_safe : sp_safe.

Lemma client_input_safe fuel i ch s :
  safe ((0 < fuel)%nat /\ forall t, answer t Malloc <> 0) (client_input answer random maxworker malloc_ok fuel i ch s).
Proof.
  unfold client_input. apply safe_bind; [apply safe_get|intros c _]. destruct (readframe _ _ _) as [[r ch'] rb].
  unfold dispatch. safes.
Qed.

Lemma shutdown_loop_safe P n i s : safe P (shutdown_loop n i s).
Proof.
  induction n as [|n IH] in i, s |- *; cbn [shutdown_loop]; [done|]. apply safe_bind; [|auto].
  unfold shutdown_one. safes.
Qed.

(** Whatever the main thread does, the workers can take notice of it. *)
Lemma someone_waits (ws : list wstate) : (exists k, ws !! k = Some WWait) \/ (WWait ∉ ws).
Proof.
  induction ws as [|w ws IH]; [right; apply not_elem_of_nil|]. destruct IH as [[k Hk]|Hn]; [left; by exists (S k)|].
  destruct w; try (right; by apply not_elem_of_cons). left. by exists 0%nat.
Qed.

Lemma quiet_total s s' ws : quiet s s' -> exists ws', notified answer s s' ws ws'.
Proof. intros (l & H1 & H2 & H3). exists ws. by eapply notified_none. Qed.

Lemma notified_total i p c s s' ws :
  input answer maxworker i c s s' -> pfdlist s !! i = Some p -> spclist s !! i = Some c ->
  exists ws', notified answer s s' ws ws'.
Proof.
  intros Hin Hp Hc. destruct Hin as [f Hf F1 F2 F3|f Hnew Hf F1 F2 F3|f sba Hnew Hf Hi F1 F2 F3|rb s1 Hf Hd].
  - by apply quiet_total, (chg_quiet _ _ _ _ Hf).
  - by apply quiet_total, (chg_quiet _ _ _ _ Hf).
  - destruct (took_pool _ _ _ _ _ _ _ Hf) as (l & Ls & Lc & [P1 P2 P3|P1 P2 P3 P4|P1 P2 P3 P4]).
    + destruct (someone_waits ws) as [[k Hk]|Hn]; eexists; [by eapply notified_signal|by eapply notified_nobody].
    + eexists. by eapply notified_none.
    + eexists. by eapply notified_create.
  - destruct (input_gone_spec _ _ _ _ _ _ _ Hf Hd Hp Hc) as [[_ Hq] _]. by apply quiet_total.
Qed.

Abbreviation step := (step answer random padding maxworker idlemax malloc_ok).
Abbreviation works fuel := ((0 < fuel)%nat /\ forall t, answer t Malloc <> 0).

(** The slot of a new connection. *)
Lemma new_conn_bound a s ws idx s' : inv s ws -> new_conn a s = Ret (idx, s') -> (idx < 256)%nat.
Proof.
  intros Hinv Hs. pose proof (inv_slots _ _ Hinv) as [[_ L2] (p0 & Hp0 & Hlis) _ _ _ _ _].
  destruct (new_conn_cases a s idx s' Hs) as [(-> & _)|(i & p & c & -> & Hp & _)]; [intros; congruence|lia|].
  apply lookup_lt_Some in Hp. lia.
Qed.

(** The loop over the slots is a sequence of steps of the system. *)
Lemma serve_steps fuel a n idx seen rv chans s ws :
  inv s ws -> (257 <= n + idx)%nat -> (idx <= 256)%nat ->
  let o := serve answer random maxworker malloc_ok fuel a n idx seen rv chans s in
  safe (works fuel) o /\
  forall ch' s', o = Ret (false, ch', s') -> exists ws', rtc step (Config s ws) (Config s' ws').
Proof.
  cbn zeta. induction n as [|n IH] in idx, seen, chans, s, ws |- *; [lia|]. intros Hinv Hn Hidx. cbn [serve].
  destruct (_ && _) eqn:Hgo; [|split; [done|]; intros ch' s' [= _ <-]; exists ws; apply rtc_refl].
  apply andb_true_iff in Hgo as [_ Hlt]. apply Nat.ltb_lt in Hlt. unfold MAXCLI in Hlt.
  destruct (sinv_lookup _ _ idx (inv_slots _ _ Hinv) Hlt) as ([fd revents] & c & Hp & Hc). rewrite Hp.
  destruct (Z.land revents POLLIN =? 0) eqn:Hpoll; [apply IH; (done || lia)|].
  assert (Hfd : fd <> -1).
  { intros ->. pose proof (inv_events _ _ Hinv _ _ Hp eq_refl) as H. cbn in H. subst. done. }
  destruct (Nat.ltb_spec 0 idx) as [Hpos|Hzero].
  - pose proof (client_input_safe fuel idx (chans idx) s) as Hsafe.
    destruct (client_input _ _ _ _ _ _ _ _) as [[ch s1]| | |] eqn:E; cbn [mbind outcome_bind]; [|by destruct Hsafe|done|].
    2: { split; [|done]. split; [done|]. intros HP. by destruct (proj2 Hsafe HP). }
    destruct idx as [|i]; [lia|].
    destruct (notified_total _ _ _ _ _ ws (client_input_cases _ _ _ _ _ _ _ _ _ _ _ Hc E) Hp Hc) as [ws1 Hnot].
    assert (Hstep : step (Config s ws) (Config s1 ws1)) by by eapply step_input.
    edestruct (IH (S (S i)) (seen + 1)) as [Hs Hr]; [exact (step_inv _ _ _ _ _ _ _ _ Hstep Hinv)|lia|lia|].
    split; [exact Hs|]. intros ch' s' Hret. destruct (Hr _ _ Hret) as [ws' Hws]. exists ws'. by eapply rtc_l.
  - assert (idx = 0%nat) as -> by lia. destruct (spfini s).
    { rewrite (get_spc_some _ _ _ Hc). cbn [mbind outcome_bind].
      pose proof (shutdown_loop_safe (works fuel) 255 1 (emit (CloseFd (spc_fd c)) s)) as Hsafe. unfold serv_shutdown.
      destruct (shutdown_loop _ _ _); cbn [mbind outcome_bind]; [done|by destruct Hsafe|done|].
      split; [|done]. split; [done|]. intros HP. by destruct (proj2 Hsafe HP). }
    destruct (new_conn_ok a s _ (inv_slots _ _ Hinv)) as (idx' & s1 & Hs1 & _). rewrite Hs1. cbn [mbind outcome_bind].
    assert (Hstep : step (Config s ws) (Config s1 ws)) by by eapply step_conn.
    pose proof (new_conn_bound _ _ _ _ _ Hinv Hs1).
    edestruct (IH (S idx') (seen + 1)) as [Hs Hr]; [exact (step_inv _ _ _ _ _ _ _ _ Hstep Hinv)|lia|lia|].
    split; [exact Hs|]. intros ch' s' Hret. destruct (Hr _ _ Hret) as [ws' Hws]. exists ws'. by eapply rtc_l.
Qed.

End Safe.

Lemma gc_pfdlist s : pfdlist (gc s) = pfdlist s.
Proof.
  unfold gc. induction (Z.to_nat (disco s)) as [|n IH]; [done|]. 
  change (Nat.iter (S n) gc_one (upd_disco (fun _ => 0) s)) with (gc_one (Nat.iter n gc_one (upd_disco (fun _ => 0) s))).
  rewrite <- IH. unfold gc_one at 1. by case_match.
Qed.

(** An accepted connection is counted. *)
Lemma new_conn_accepts a s idx s' :
  new_conn a s = Ret (idx, s') -> nfds s <> 256 -> newfd a <> -1 -> fcntl_ok a = true -> hook_ok a = true ->
  banner_ok a = true -> (forall p, pfdlist s !! 0%nat = Some p -> p.1 <> -1) ->
  idx <> 0%nat /\ nfds s' = nfds s + 1 /\ maxidx s' = Nat.max (maxidx s) idx.
Proof.
  intros Hs Hn Hfd H1 H2 H3 H0. unfold new_conn, serv_handleconn in Hs. rewrite H1, H2, H3 in Hs.
  rewrite (proj2 (Z.eqb_neq _ _) Hfd), (proj2 (Z.eqb_neq _ _) Hn) in Hs. cbn [orb negb] in Hs.
  destruct (find_slot 0 (pfdlist s) (spclist s)) as [j|] eqn:Hf; [|done].
  apply find_slot_free in Hf as (i & p & c & -> & Hp & _ & Hp1 & _). destruct i as [|i]; [by destruct (H0 p Hp)|].
  cbn [mbind outcome_bind Nat.add Nat.eqb] in Hs. change (maxidx (upd_nfds _ _)) with (maxidx s) in Hs.
  injection Hs as <- <-. destruct (Nat.ltb_spec (maxidx s) (S i)); cbn [nfds maxidx upd_maxidx upd_nfds on_spc upd_spclist upd_pfdlist];
    split_and!; (done || lia).
Qed.

(** The loop reads no connection below the slot it is at. *)
Lemma serve_chans answer random maxworker malloc_ok fuel a n idx seen rv chans s b chans' s' :
  serve answer random maxworker malloc_ok fuel a n (S idx) seen rv chans s = Ret (b, chans', s') ->
  forall j, (j <= idx)%nat -> chans' j = chans j.
Proof.
  induction n as [|n IH] in idx, seen, chans, s |- *; [done|]. cbn [serve]. intros Hs j Hj.
  destruct (_ && _); [|by injection Hs as _ <- _]. destruct (pfdlist s !! S idx) as [[fd revents]|]; [|done].
  destruct (_ =? 0); [apply (IH _ _ _ _ Hs); lia|]. cbn [Nat.ltb Nat.leb] in Hs.
  destruct (client_input _ _ _ _ _ _ _ _) as [[ch s1]| | |]; [|done..]. cbn [mbind outcome_bind] in Hs.
  rewrite (IH _ _ _ _ Hs j) by lia. destruct (Nat.eqb_spec j (S idx)); [lia|done].
Qed.

(** Activity on the listening socket. *)
Lemma serve_accept answer random maxworker malloc_ok fuel a n rv chans s i s1 fd revents :
  pfdlist s !! 0%nat = Some (fd, revents) -> Z.land revents POLLIN <> 0 -> spfini s = false -> 0 < rv ->
  new_conn a s = Ret (i, s1) ->
  serve answer random maxworker malloc_ok fuel a (S n) 0 0 rv chans s =
  serve answer random maxworker malloc_ok fuel a n (S i) 1 rv chans s1.
Proof.
  intros Hp Hpoll Hfin Hrv Hn. cbn [serve].
  by rewrite (proj2 (Z.ltb_lt _ _) Hrv), Hp, (proj2 (Z.eqb_neq _ _) Hpoll), Hfin, Hn.
Qed.

(** Either every worker there is waits, or one does not. *)
Lemma all_wait ws :
  (count idle ws = count live ws /\ count woken ws = 0) \/ exists k w, ws !! k = Some w /\ live w = true /\ w <> WWait.
Proof.
  induction ws as [|w ws IH]; [by left|]. destruct IH as [[H1 H2]|(k & w' & Hk & H)]; [|right; by exists (S k), w'].
  destruct w; try (right; by exists 0%nat; eexists); left; cbn [count live idle woken b2z]; lia.
Qed.

End LoopFacts.

(** ** Facts: answers *)

Module AnswerFacts.
Import Wire Frame Server ServerFacts SlotFacts System PoolFacts SystemInv.

Lemma waits_ids c : map fst (waits c) = map fst (spc_respwait c).
Proof. unfold waits. by rewrite map_map. Qed.

Lemma waits_reqnos c : map snd (waits c) = map (fun w => rw_reqno w.2) (spc_respwait c).
Proof. unfold waits. by rewrite map_map. Qed.

(** A request number belongs to one waiter, and a waiter is in the queue once. *)
Lemma find_waiter_unique id w l :
  NoDup (map (fun w => rw_reqno w.2) l) -> (id, w) ∈ l -> find_waiter (rw_reqno w) l = Some id.
Proof.
  induction l as [|[id' w'] l IH]; cbn [map find_waiter]; [by intros _ ?%elem_of_nil|]. intros [Hn Hd]%list.NoDup_cons.
  intros [[= <- <-]|Hin]%elem_of_cons; [by rewrite Z.eqb_refl|]. cbn [snd] in Hn.
  destruct (Z.eqb_spec (rw_reqno w') (rw_reqno w)) as [He|]; [|by apply IH].
  destruct Hn. rewrite He. apply list_elem_of_fmap. by exists (id, w).
Qed.

Lemma find_id_unique id w (l : list (Z * respwait)) :
  NoDup (map fst l) -> (id, w) ∈ l -> List.find (fun w => w.1 =? id) l = Some (id, w).
Proof.
  induction l as [|[id' w'] l IH]; cbn [map List.find fst]; [by intros _ ?%elem_of_nil|]. intros [Hn Hd]%list.NoDup_cons.
  intros [[= <- <-]|Hin]%elem_of_cons; [by rewrite Z.eqb_refl|].
  destruct (Z.eqb_spec id' id) as [->|]; [|by apply IH]. destruct Hn. apply list_elem_of_fmap. by exists (id, w).
Qed.

Lemma on_waiter_ids id f l : map fst (on_waiter id f l) = map fst l.
Proof.
  unfold on_waiter. rewrite map_map. apply map_ext. intros [id' w]. cbn. by destruct (Z.eqb_spec id' id) as [->|].
Qed.

Lemma on_waiter_other id f l id' w : id' <> id -> (id', w) ∈ on_waiter id f l <-> (id', w) ∈ l.
Proof.
  intros Hne. unfold on_waiter. rewrite list_elem_of_fmap. split.
  - intros ([j v] & Hw & Hin). cbn in Hw. by destruct (Z.eqb_spec j id) as [->|]; simplify_eq.
  - intros Hin. exists (id', w). split; [|done]. cbn. by rewrite (proj2 (Z.eqb_neq _ _) Hne).
Qed.

Lemma on_waiter_self id f l w : (id, w) ∈ l -> (id, f w) ∈ on_waiter id f l.
Proof. intros Hin. unfold on_waiter. apply list_elem_of_fmap. exists (id, w). split; [|done]. cbn. by rewrite Z.eqb_refl. Qed.

(** A client after the answer to one of its waiters. *)
Definition answered (id : Z) (c : spclient) : spclient :=
  reset (set_respwait (on_waiter id (fun w => Rw (rw_reqno w) (spc_buf (spc_rb c)) (u64 (spc_off (spc_rb c) - HDRSZ)) true
    (rw_error w)) (spc_respwait c)) c).

Lemma kickwaiter_answers i s c id w :
  spclist s !! i = Some c -> NoDup (map (fun w => rw_reqno w.2) (spc_respwait c)) -> (id, w) ∈ spc_respwait c ->
  rsp_class (hdr c) = RUMPSP_RESP -> rsp_reqno (hdr c) = rw_reqno w ->
  exists s', kickwaiter i s = Ret s' /\ spclist s' = <[i := answered id c]> (spclist s).
Proof.
  intros Hc Hnd Hin Hcl Hreq. unfold kickwaiter. rewrite (get_spc_some _ _ _ Hc). cbn [mbind outcome_bind].
  rewrite Hreq, (find_waiter_unique _ _ _ Hnd Hin), Hcl. cbn [Z.eqb RUMPSP_RESP RUMPSP_ERROR negb].
  eexists. split; [done|]. cbn [spclist on_spc upd_spclist emit upd_trace].
  rewrite list_alter_alter_eq. by rewrite (alter_insert _ _ _ _ Hc).
Qed.

Lemma waitresp_answered i s c id w :
  spclist s !! i = Some (answered id c) -> NoDup (map fst (spc_respwait c)) -> (id, w) ∈ spc_respwait c ->
  spc_state c <> SPCSTATE_DYING ->
  waitresp_done id (answered id c) = true /\ waitresp i id s = Ret (rw_error w, spc_buf (spc_rb c), u64 (spc_off (spc_rb c) - HDRSZ), on_spc i (dounputwait id) s).
Proof.
  intros Hc Hnd Hin Hst. unfold waitresp, waitresp_done. rewrite (get_spc_some _ _ _ Hc). cbn [mbind outcome_bind].
  cbn [answered reset set_rb set_respwait spc_respwait spc_state].
  rewrite (find_id_unique id _ _ ltac:(by rewrite on_waiter_ids) (on_waiter_self _ _ _ _ Hin)).
  cbn [snd rw_done orb rw_error rw_data rw_dlen]. by rewrite (proj2 (Z.eqb_neq _ _) Hst).
Qed.

End AnswerFacts.

(** ** The guarantees of the server *)

Module SystemProperties.
Import Wire Frame Server ServerFacts SlotFacts System PoolFacts SystemInv LoopFacts AnswerFacts.

Section Properties.
Variable answer : list ev -> ev -> Z.
Variable random : list ev -> list Z.
Variable padding : list Z.
Variable maxworker idlemax : Z.
Variable malloc_ok : Z -> bool.

Abbreviation step := (step answer random padding maxworker idlemax malloc_ok).
Abbreviation reach := (reach answer random padding maxworker idlemax malloc_ok).

(** C3. A round of the main loop (collection of closed slots, the assertions,
    [poll], the loop over the slots) is made of steps of the system: from any
    reachable state it fails no assertion, always finds a slot for a connection
    it accepts, ends if the allocation in [schedulework] does, and leaves a state
    the threads can reach together. *)
Theorem main_loop_refines sock s ws fuel rv revents a chans :
  sock <> -1 -> reach sock (Config s ws) -> rv <> 0 ->
  (forall j p, pfdlist s !! j = Some p -> p.1 = -1 -> revents j = 0) ->
  let o := server_round answer random maxworker malloc_ok fuel (inr (rv, revents)) a chans s in
  o <> Abort /\ ((0 < fuel)%nat /\ (forall t, answer t Malloc <> 0) -> o <> NoFuel) /\
  forall chans' s', o = Ret (false, chans', s') -> exists ws', rtc step (Config s ws) (Config s' ws').
Proof.
  intros Hsock Hr Hrv Hpoll. cbn zeta. pose proof (reach_inv _ _ _ _ _ _ _ _ Hsock Hr) as Hinv. cbn [srv workers] in Hinv.
  pose proof (inv_gc _ _ Hinv) as Hgc. unfold server_round. destruct (sinv_max _ _ (inv_slots _ _ Hgc)) as [Hmax _].
  rewrite (proj2 (Nat.leb_le _ _)) by (unfold MAXCLI; lia). cbn [negb]. rewrite (proj2 (Z.eqb_neq _ _) Hrv).
  assert (Hev : forall j p, pfdlist (gc s) !! j = Some p -> p.1 = -1 -> revents j = 0) by by rewrite gc_pfdlist.
  pose proof (inv_poll _ _ (maxidx (gc s) + 1) revents Hev Hgc) as Hp.
  destruct (serve_steps answer random padding maxworker idlemax malloc_ok fuel a 257 0 0 rv chans _ ws Hp) as [[H1 H2] H3]; [lia|lia|].
  split_and!; [exact H1|exact H2|]. intros chans' s' Ho. destruct (H3 _ _ Ho) as [ws' Hs]. exists ws'.
  eapply rtc_l; [apply step_gc|]. eapply rtc_l; [by apply step_poll|exact Hs].
Qed.

(** C14. A connection that is accepted while the table is not full gets the
    lowest slot with no connection and no client, and no request in the queue or
    with a worker refers to that slot, nor does a thread wait on it; the other
    slots stay as they are and the counts of slots follow. *)
Theorem accept_takes_free_slot sock s ws a :
  sock <> -1 -> reach sock (Config s ws) -> nfds s <> 256 ->
  newfd a <> -1 -> fcntl_ok a = true -> hook_ok a = true -> banner_ok a = true ->
  exists i c s',
    new_conn a s = Ret (S i, s') /\ pfdlist s !! S i = Some (-1, 0) /\ spclist s !! S i = Some c /\
    spc_state c = SPCSTATE_NEW /\ spc_respwait c = [] /\ (S i ∉ held s ws) /\
    (forall j q d, (j < i)%nat -> pfdlist s !! S j = Some q -> spclist s !! S j = Some d -> used q d = true) /\
    pfdlist s' = <[S i := (newfd a, 0)]> (pfdlist s) /\ spclist s' = <[S i := connected (newfd a) c]> (spclist s) /\
    nfds s' = nfds s + 1 /\ maxidx s' = Nat.max (maxidx s) (S i).
Proof.
  intros Hsock Hr Hn Hfd H1 H2 H3. pose proof (reach_inv _ _ _ _ _ _ _ _ Hsock Hr) as Hinv. cbn [srv workers] in Hinv.
  destruct (new_conn_ok a s _ (inv_slots _ _ Hinv)) as (idx & s' & Hs & _).
  destruct (sinv_listen _ _ (inv_slots _ _ Hinv)) as (p0 & Hp0 & Hlis).
  destruct (new_conn_accepts a s idx s' Hs) as (Hidx & En & Em); [done..|intros; congruence|].
  destruct (new_conn_cases a s idx s' Hs) as [(-> & _)|(i & p & c & -> & Hp & Hc & Hp1 & Hst & _ & Ep & Es & _ & _ & Hlow)];
    [intros; congruence|done|]. destruct p as [fd rv]. cbn in Hp1. subst fd.
  pose proof (inv_events _ _ Hinv _ _ Hp eq_refl) as Hrv. cbn in Hrv. subst rv.
  assert (Hz : refs (S i) (held s ws) = 0).
  { destruct (sinv_slot _ _ (inv_slots _ _ Hinv) i _ c Hp Hc) as [(H & _)|[(_ & _ & _ & H)|(_ & H & _)]]; [done..|].
    by rewrite Hst in H. }
  exists i, c, s'. split_and!; try done.
  - pose proof (no_waits _ _ _ _ Hz (inv_wait _ _ Hinv _ _ Hc)) as Hw. unfold waits in Hw. by destruct (spc_respwait c).
  - intros Hin%refs_pos. lia.
Qed.

(** C10. No queued request is forgotten: the counters of the pool are exact, as
    many idle workers have been woken as there is work for, and so while there is
    work either a worker is on its way to it or there is no worker at all. *)
Theorem work_not_lost sock s ws :
  sock <> -1 -> reach sock (Config s ws) ->
  nwork s = Z.of_nat (length (wrklist s)) /\ nworker s = count live ws /\ idleworker s = count idle ws /\
  Z.min (nwork s) (idleworker s) <= count woken ws /\
  (wrklist s <> [] -> nworker s = 0 \/ exists k w, ws !! k = Some w /\ live w = true /\ w <> WWait).
Proof.
  intros Hsock Hr. pose proof (reach_inv _ _ _ _ _ _ _ _ Hsock Hr) as Hinv. cbn [srv workers] in Hinv.
  destruct (inv_pool _ _ Hinv) as [P1 P2 P3 P4]. split_and!; [done|done|done|lia|]. intros Hw.
  destruct (all_wait ws) as [Hall|He]; [left|by right]. destruct Hall as [Hi Ho]. rewrite P2.
  destruct (wrklist s) as [|sba l]; [done|]. cbn [length] in P1. pose proof (count_nonneg live ws). lia.
Qed.

(** C13. A thread that waits for a client's answer is in the client's queue, and
    when the main thread has read the answer with its request number, that
    thread, and no other, gets the body that was received: its wait is over and
    [waitresp] returns the body. *)
Theorem response_reaches_requester sock s ws k sba c :
  sock <> -1 -> reach sock (Config s ws) -> ws !! k = Some (WResp sba) ->
  spclist s !! sba_spc sba = Some c -> spc_state c <> SPCSTATE_DYING ->
  exists w, (Z.of_nat k, w) ∈ spc_respwait c /\
    forall fuel ch ch' rb, readframe malloc_ok ch (spc_rb c) = (1, ch', rb) ->
     rsp_class (hdr_of (spc_hdr rb)) = RUMPSP_RESP -> rsp_reqno (hdr_of (spc_hdr rb)) = rw_reqno w ->
     exists s' c', client_input answer random maxworker malloc_ok fuel (sba_spc sba) ch s = Ret (ch', s') /\
       spclist s' = <[sba_spc sba := c']> (spclist s) /\
       (forall id v, id <> Z.of_nat k -> (id, v) ∈ spc_respwait c' <-> (id, v) ∈ spc_respwait c) /\
       waitresp_done (Z.of_nat k) c' = true /\
       waitresp (sba_spc sba) (Z.of_nat k) s' =
         Ret (rw_error w, spc_buf rb, u64 (spc_off rb - HDRSZ), on_spc (sba_spc sba) (dounputwait (Z.of_nat k)) s').
Proof.
  intros Hsock Hr Hk Hc Hst. pose proof (reach_inv _ _ _ _ _ _ _ _ Hsock Hr) as Hinv. cbn [srv workers] in Hinv.
  destruct (inv_wait _ _ Hinv _ _ Hc) as [O1 O2 _ O4]. destruct (O4 Hst) as [N1 _]. rewrite waits_reqnos in N1.
  assert (Hin : Z.of_nat k ∈ map fst (waits c)) by (apply O2; by exists k, sba). rewrite waits_ids in O1, Hin.
  apply list_elem_of_fmap in Hin as ([id w] & Hid & Hin). cbn in Hid. subst id. exists w. split; [done|].
  intros fuel ch ch' rb Hread Hcl Hreq. set (i := sba_spc sba) in *. set (s1 := on_spc i (set_rb rb) s).
  assert (Hc1 : spclist s1 !! i = Some (set_rb rb c)) by (cbn; by rewrite list_lookup_alter_eq, Hc).
  destruct (kickwaiter_answers i s1 (set_rb rb c) (Z.of_nat k) w Hc1 N1 Hin Hcl Hreq) as (s' & Hs & Es).
  assert (Es' : spclist s' = <[i := answered (Z.of_nat k) (set_rb rb c)]> (spclist s)).
  { rewrite Es. cbn. by rewrite (alter_insert _ _ _ _ Hc), list_insert_insert_eq. }
  exists s', (answered (Z.of_nat k) (set_rb rb c)).
  destruct (waitresp_answered i s' (set_rb rb c) (Z.of_nat k) w) as [W1 W2]; [|done..|].
  { rewrite Es'. apply list_lookup_insert_eq. by eapply lookup_lt_Some. }
  split_and!; try done; [|intros id v Hne; by apply on_waiter_other].
  unfold client_input. rewrite (get_spc_some _ _ _ Hc). cbn [mbind outcome_bind]. rewrite Hread. fold s1. unfold dispatch.
  rewrite (get_spc_some _ _ _ Hc1). cbn [mbind outcome_bind]. unfold hdr. cbn [Z.eqb set_rb spc_rb]. by rewrite Hcl, Hs.
Qed.

(** C11. A request that is queued or with a worker keeps its client's slot: the
    slot is never free for another connection, and its reference count is the
    number of such requests and one for the connection while that lasts. *)
Theorem unfinished_request_keeps_client sock s ws sba :
  sock <> -1 -> reach sock (Config s ws) -> sba ∈ jobs s ws ->
  exists p c, (1 <= sba_spc sba < 256)%nat /\ pfdlist s !! sba_spc sba = Some p /\ spclist s !! sba_spc sba = Some c /\
    used p c = true /\ find_slot 0 (pfdlist s) (spclist s) <> Some (sba_spc sba) /\
    spc_refcnt c = (if p.1 =? -1 then 0 else 1) + refs (sba_spc sba) (held s ws) /\ 1 <= refs (sba_spc sba) (held s ws).
Proof.
  intros Hsock Hr Hin. pose proof (reach_inv _ _ _ _ _ _ _ _ Hsock Hr) as Hinv. cbn [srv workers] in Hinv.
  pose proof (inv_slots _ _ Hinv) as Hsl. assert (Hh : sba_spc sba ∈ held s ws) by by apply list_elem_of_fmap_2.
  pose proof (refs_pos _ _ Hh) as Hpos. pose proof (sinv_held _ _ Hsl) as Hb. rewrite Forall_forall in Hb. specialize (Hb _ Hh).
  destruct (sinv_lookup _ _ (sba_spc sba) Hsl) as (p & c & Hp & Hc); [lia|]. exists p, c.
  destruct (sba_spc sba) as [|i] eqn:E; [lia|].
  assert (Hfin : used p c = true /\ spc_refcnt c = (if p.1 =? -1 then 0 else 1) + refs (S i) (held s ws)).
  { unfold used. destruct (sinv_slot _ _ Hsl i p c Hp Hc) as [(H1 & H2 & H3)|[(H1 & H2 & H3 & H4)|(H1 & H2 & H3 & H4)]]; [|lia|].
    - by rewrite (proj2 (Z.eqb_neq _ _) H1).
    - rewrite H1, H2. split; [done|]. cbn. lia. }
  destruct Hfin as [Hu Hrc]. split_and!; try (done || lia).
  intros (j & q & d & Hj & Hq & Hd & Hq1 & Hst & _)%find_slot_free. cbn in Hj. subst j. simplify_eq.
  unfold used in Hu. by rewrite Hq1, Hst in Hu.
Qed.

(** C15. A request that a client sends before its handshake gets it nothing but
    the handshake: no request is queued and no other client changes, and the client
    is let in by a guest's handshake, or by that of a fork with a token that is
    outstanding, which is then used up. *)
Theorem handshake_required fuel i s s' c :
  spclist s !! i = Some c -> spc_state c = SPCSTATE_NEW -> handlereq answer random maxworker fuel i s = Ret s' ->
  wrklist s' = wrklist s /\ nwork s' = nwork s /\ (forall j, j <> i -> spclist s' !! j = spclist s !! j) /\
  exists c', spclist s' !! i = Some c' /\
    (spc_state c' = SPCSTATE_NEW \/
     spc_state c' = SPCSTATE_RUNNING /\ rsp_type (hdr c) = RUMPSP_HANDSHAKE /\
     (rsp_u (hdr c) = HANDSHAKE_GUEST /\ preforks s' = preforks s \/
      rsp_u (hdr c) = HANDSHAKE_FORK /\
      exists body pf l1 l2, spc_buf (spc_rb c) = Some body /\ pf_auth pf = take 16 body /\
        preforks s = l1 ++ pf :: l2 /\ preforks s' = l1 ++ l2)).
Proof.
  intros Hc Hst Hs.
  assert (Hgo : forall f s1, eff i f s1 s' -> spclist s1 = spclist s -> wrklist s1 = wrklist s -> nwork s1 = nwork s ->
    wrklist s' = wrklist s /\ nwork s' = nwork s /\ (forall j, j <> i -> spclist s' !! j = spclist s !! j) /\
    spclist s' !! i = Some (f c)).
  { intros f s1 [K1 _ _ (W1 & W2 & _) _ _] E1 E2 E3. rewrite K1, E1, W1, W2. split_and!; try done.
    - intros j Hj. by apply list_lookup_alter_ne.
    - by rewrite list_lookup_alter_eq, Hc. }
  destruct (handlereq_handled _ _ _ _ _ _ _ _ Hc Hs) as
    [He|l pid _ Ht Hu He|l pid body pf rest _ Ht Hu Hb Htk He|body pf rest _ _ _ _ He|pf H|type H|s1 H]; [..|done|done|done].
  - destruct (Hgo _ _ He) as (? & ? & ? & ?); [done..|]. split_and!; try done. eexists. split; [done|]. by left.
  - destruct (Hgo _ _ He) as (? & ? & ? & ?); [done..|]. split_and!; try done. eexists. split; [done|]. right.
    split_and!; try done. left. split; [done|by destruct He].
  - destruct (Hgo _ _ He) as (? & ? & ? & ?); [done..|]. split_and!; try done. eexists. split; [done|]. right.
    split_and!; try done. right. split; [done|]. pose proof (take_prefork_spec (take 16 body) (preforks s)) as Hsp.
    rewrite Htk in Hsp. destruct Hsp as (Ha & l1 & l2 & E1 & E2 & _). exists body, pf, l1, l2. split_and!; try done.
    rewrite <- E2. by destruct He.
  - destruct (Hgo _ _ He) as (? & ? & ? & ?); [done..|]. split_and!; try done. eexists. split; [done|]. by left.
Qed.

(** The loop over the slots takes the number of the slot it gives to a new
    connection as its loop variable, so in the round of the connection it reads
    from no client in a slot up to that one, whatever [poll] said of it. *)
Theorem accept_skips_lower_slots fuel a rv chans s i s1 b chans' s' revents fd :
  pfdlist s !! 0%nat = Some (fd, revents) -> Z.land revents POLLIN <> 0 -> spfini s = false -> 0 < rv ->
  new_conn a s = Ret (i, s1) ->
  serve answer random maxworker malloc_ok fuel a 257 0 0 rv chans s = Ret (b, chans', s') ->
  forall j, (j <= i)%nat -> chans' j = chans j.
Proof.
  intros Hp Hpoll Hfin Hrv Hn Hs. rewrite (serve_accept _ _ _ _ _ _ 256 _ _ _ _ _ _ _ Hp Hpoll Hfin Hrv Hn) in Hs.
  by eapply serve_chans.
Qed.

End Properties.

(** *** A run: a client connects, shakes hands and makes a system call, which
    asks for data of the client *)

Definition demo_answer (t : list ev) (e : ev) : Z :=
  match e with Malloc => 1 | Curlwp => 5 | Getpid => 7 | _ => 0 end.
Definition demo_random (t : list ev) : list Z := repeat 9 16.
Definition demo_conn (fd : Z) : conn := Conn fd true true true.
Definition demo_hello : list rd := [Data (hdr_bytes (Hdr 28 0 RUMPSP_REQ RUMPSP_HANDSHAKE HANDSHAKE_GUEST)); Data [115; 104; 0; 0]].
Definition demo_call : list rd := [Data (hdr_bytes (Hdr 24 1 RUMPSP_REQ RUMPSP_SYSCALL 4))].
Definition demo_reply : list rd := [Data (hdr_bytes (Hdr 28 0 RUMPSP_RESP RUMPSP_COPYIN 0)); Data [1; 2; 3; 4]].

Definition ret_server {A} (o : outcome (A * server)) : server := match o with Ret (_, s) => s | _ => server0 3 end.

Definition demo_input (ch : list rd) (s : server) : outcome (list rd * server) :=
  client_input demo_answer demo_random 8 (fun _ => true) 1 1 ch s.
Definition demo1 : server := ret_server (new_conn (demo_conn 4) (server0 3)).
Definition demo2 : server := ret_server (demo_input demo_hello demo1).
Definition demo3 : server := ret_server (demo_input demo_call demo2).
Definition demo4 : server := (bounce_top 4 demo3).2.
Definition demo_sba : servbouncearg := Sba 1 (Hdr 24 1 RUMPSP_REQ RUMPSP_SYSCALL 4) SBA_SYSCALL None.
Definition demo5 : server := ret_server (syscall_begin demo_answer [0; 0; 0; 0] 1 (sba_hdr demo_sba) None demo4).
Definition demo6 : server := ret_server (copyin_req demo_answer 1 0 4096 4 false demo5).

Abbreviation demo_reach := (reach demo_answer demo_random [0; 0; 0; 0] 8 4 (fun _ => true) 3).

Lemma demo_reach3 : demo_reach (Config demo3 [WTop]).
Proof.
  assert (H1 : demo_reach (Config demo1 [])).
  { eapply reach_step; [apply reach_start|]. apply (step_conn _ _ _ _ _ _ _ _ (demo_conn 4) 1). vm_compute. reflexivity. }
  assert (H2 : demo_reach (Config demo2 [])).
  { eapply reach_step; [exact H1|]. apply (step_input _ _ _ _ _ _ 1 demo1 [] 0 (4, 0) demo_hello []);
      [vm_compute; reflexivity|done|vm_compute; reflexivity|].
    apply (notified_none _ _ _ _ (drop (length (trace demo1)) (trace demo2))); [vm_compute; reflexivity|..];
      (intros Hin; vm_compute in Hin; repeat (apply elem_of_cons in Hin as [Hin|Hin]; [done|]); by apply elem_of_nil in Hin). }
  eapply reach_step; [exact H2|]. apply (step_input _ _ _ _ _ _ 1 demo2 [] 0 (4, 0) demo_call []);
    [vm_compute; reflexivity|done|vm_compute; reflexivity|].
  apply (notified_create demo_answer demo2 demo3 [] [Malloc]); [vm_compute; reflexivity|..];
    (intros Hin; by apply list_elem_of_singleton in Hin).
Qed.

Lemma demo_reach6 : demo_reach (Config demo6 [WResp demo_sba]).
Proof.
  assert (H4 : demo_reach (Config demo4 [WTaken demo_sba])).
  { eapply reach_step; [exact demo_reach3|].
    apply (step_top _ _ _ _ _ _ demo3 [WTop] 0 (WorkerTake demo_sba)); [done|vm_compute; reflexivity]. }
  assert (H5 : demo_reach (Config demo5 [WCall demo_sba])).
  { eapply reach_step; [exact H4|].
    apply (step_syscall _ _ _ _ _ _ demo4 [WTaken demo_sba] 0 demo_sba); [done|done|vm_compute; reflexivity]. }
  destruct (spclist demo5 !! 1%nat) as [c|] eqn:Hc; [|vm_compute in Hc; discriminate Hc].
  assert (Hn : spc_nextreq c = 0) by (vm_compute in Hc; by simplify_eq).
  eapply reach_step; [exact H5|].
  apply (step_request _ _ _ _ _ _ demo5 [WCall demo_sba] 0 demo_sba c RUMPSP_COPYIN (le 8 4 ++ le 8 4096) 0);
    [done|exact Hc|by rewrite Hn|vm_compute; reflexivity].
Qed.

(** The listening socket, and every client, is readable. *)
Definition demo_events (n : nat) (j : nat) : Z := if (j <? n)%nat then 1 else 0.

Lemma demo_events_free n s j p :
  (forall j p, (j < n)%nat -> pfdlist s !! j = Some p -> p.1 <> -1) ->
  pfdlist s !! j = Some p -> p.1 = -1 -> demo_events n j = 0.
Proof. intros Hn Hp Hp1. unfold demo_events. destruct (Nat.ltb_spec j n); [|done]. by destruct (Hn j p). Qed.

Lemma demo_events3 j p : pfdlist demo3 !! j = Some p -> p.1 = -1 -> demo_events 2 j = 0.
Proof.
  apply demo_events_free. intros [|[|k]] q Hk; [| |lia]; intros Hq; vm_compute in Hq; by simplify_eq.
Qed.

(** The run above, when both sockets are readable. *)
Lemma main_loop_refines_witness :
  server_round demo_answer demo_random 8 (fun _ => true) 1 (inr (2, demo_events 2)) (demo_conn 5) (fun _ => demo_call) demo3 <> Abort.
Proof.
  apply (main_loop_refines demo_answer demo_random [0; 0; 0; 0] 8 4 (fun _ => true) 3 demo3 [WTop]);
    [done|exact demo_reach3|done|exact demo_events3].
Defined.

(** A second client connects. *)
Lemma accept_takes_free_slot_witness :
  exists i c s', new_conn (demo_conn 5) demo3 = Ret (S i, s') /\ spclist demo3 !! S i = Some c /\ spc_respwait c = [] /\
    nfds s' = nfds demo3 + 1.
Proof.
  destruct (accept_takes_free_slot demo_answer demo_random [0; 0; 0; 0] 8 4 (fun _ => true) 3 demo3 [WTop] (demo_conn 5))
    as (i & c & s' & H1 & _ & H2 & _ & H3 & _ & _ & _ & _ & H4 & _); [done|exact demo_reach3|vm_compute; done|done..|].
  exists i, c, s'. split; [exact H1|]. split; [exact H2|]. split; [exact H3|exact H4].
Defined.

(** A request is queued and the worker that was created for it is
    at the top of its loop. *)
Lemma work_not_lost_witness :
  wrklist demo3 <> [] /\ Z.min (nwork demo3) (idleworker demo3) <= count woken [WTop].
Proof.
  destruct (work_not_lost demo_answer demo_random [0; 0; 0; 0] 8 4 (fun _ => true) 3 demo3 [WTop])
    as (_ & _ & _ & H & _); [done|exact demo_reach3|]. split; [vm_compute; done|exact H].
Defined.

(** The answer to the worker's request arrives. *)
Lemma response_reaches_requester_witness :
  exists s' w, demo_input demo_reply demo6 = Ret ([], s') /\
    waitresp 1 0 s' = Ret (rw_error w, Some [1; 2; 3; 4], 4, on_spc 1 (dounputwait 0) s').
Proof.
  destruct (spclist demo6 !! 1%nat) as [c|] eqn:Hc; [|vm_compute in Hc; discriminate Hc].
  destruct (response_reaches_requester demo_answer demo_random [0; 0; 0; 0] 8 4 (fun _ => true) 3 demo6 [WResp demo_sba] 0 demo_sba c)
    as (w & Hw & Hgo); [done|exact demo_reach6|done|exact Hc|vm_compute in Hc; by simplify_eq|].
  assert (Hr : rw_reqno w = 0) by (vm_compute in Hc; simplify_eq; by apply list_elem_of_singleton in Hw; simplify_eq).
  destruct (readframe (fun _ => true) demo_reply (spc_rb c)) as [[r ch] rb] eqn:Hrd.
  assert (Hrb : r = 1 /\ ch = [] /\ rb = Rbuf (hdr_bytes (Hdr 28 0 RUMPSP_RESP RUMPSP_COPYIN 0)) (Some [1; 2; 3; 4]) 28).
  { clear Hgo Hw. vm_compute in Hc. simplify_eq. vm_compute in Hrd. by simplify_eq. }
  destruct Hrb as (-> & -> & ->). destruct (Hgo 1%nat demo_reply [] _ Hrd) as (s' & c' & Hin & _ & _ & _ & Hwr);
    [done|by rewrite Hr|]. exists s', w. split; [exact Hin|exact Hwr].
Defined.

(** The worker waits for its client. *)
Lemma unfinished_request_keeps_client_witness :
  exists c, spclist demo6 !! 1%nat = Some c /\ find_slot 0 (pfdlist demo6) (spclist demo6) <> Some 1%nat.
Proof.
  destruct (unfinished_request_keeps_client demo_answer demo_random [0; 0; 0; 0] 8 4 (fun _ => true) 3 demo6 [WResp demo_sba] demo_sba)
    as (p & c & _ & _ & Hc & _ & Hf & _); [done|exact demo_reach6|by apply elem_of_app; right; left|].
  exists c. split; [exact Hc|exact Hf].
Defined.

(** The client's first frame has been read. *)
Definition demo_greeted : server :=
  on_spc 1 (set_rb (Rbuf (hdr_bytes (Hdr 28 0 RUMPSP_REQ RUMPSP_HANDSHAKE HANDSHAKE_GUEST)) (Some [115; 104; 0; 0]) 28)) demo1.

Lemma handshake_required_witness :
  exists s' c', handlereq demo_answer demo_random 8 1 1 demo_greeted = Ret s' /\ wrklist s' = [] /\
    spclist s' !! 1%nat = Some c' /\ spc_state c' = SPCSTATE_RUNNING.
Proof.
  destruct (spclist demo_greeted !! 1%nat) as [c|] eqn:Hc; [|vm_compute in Hc; discriminate Hc].
  destruct (handlereq demo_answer demo_random 8 1 1 demo_greeted) as [s'| | |] eqn:Hs; [|vm_compute in Hs; discriminate Hs..].
  destruct (handshake_required demo_answer demo_random 8 1 1 demo_greeted s' c) as (Hw & _ & _ & c' & Hc' & _);
    [exact Hc|vm_compute in Hc; by simplify_eq|exact Hs|].
  exists s', c'. split; [reflexivity|]. split; [exact Hw|]. split; [exact Hc'|].
  clear Hw. vm_compute in Hs. simplify_eq. vm_compute in Hc'. by simplify_eq.
Defined.

(** The client in slot 1 has sent a request, and is not read from
    in the round in which slot 2 is taken. *)
Lemma accept_skips_lower_slots_witness :
  exists chans s', serve demo_answer demo_random 8 (fun _ => true) 1 (demo_conn 5) 257 0 0 2 (fun _ => demo_call)
      (upd_pfdlist (set_revents 2 (demo_events 2)) demo3) = Ret (false, chans, s') /\ chans 1%nat = demo_call.
Proof.
  set (s := upd_pfdlist _ _). set (o := serve _ _ _ _ _ _ _ _ _ _ _ _).
  assert (Hb : match o with Ret (b, _, _) => b | _ => true end = false) by (vm_compute; reflexivity).
  assert (Hi : match new_conn (demo_conn 5) s with Ret (i, _) => i | _ => 0%nat end = 2%nat) by (vm_compute; reflexivity).
  destruct o as [[[b chans] s']| | |] eqn:Hs; [|discriminate Hb..].
  destruct (new_conn (demo_conn 5) s) as [[i s1]| | |] eqn:Hn; [|discriminate Hi..]. subst b i.
  exists chans, s'. split; [reflexivity|].
  apply (accept_skips_lower_slots demo_answer demo_random 8 (fun _ => true) 1 (demo_conn 5) 2 (fun _ => demo_call) s 2 s1 false chans s' 1 3);
    [vm_compute; reflexivity|discriminate|vm_compute; reflexivity|lia|exact Hn|exact Hs|lia].
Defined.

End SystemProperties.

(** ** Properties of the start of the server *)

Module StartupProperties.
Import Str Wire Url Server System Startup.

Section Init.
Context (inet_pton : str -> option Z + Z) (getcwd : option str) (malloc_errno : option Z).
Context (h : host_calls).

(** Error numbers are not 0. *)
Record errors_ok : Prop := {
  eo_pton s e : inet_pton s = inr e -> e <> 0;
  eo_malloc e : malloc_errno = Some e -> e <> 0;
  eo_socket i e : sys_socket h i = inl e -> e <> 0;
  eo_bind s sa e : sys_bind h s sa = Some e -> e <> 0;
  eo_listen s e : sys_listen h s = Some e -> e <> 0;
}.

Lemma tcp_parse_error addr wild e :
  errors_ok -> tcp_parse inet_pton malloc_errno addr wild = Ret (inl e) -> e <> 0.
Proof.
  intros [Hp Hm _ _ _] Hop. unfold tcp_parse in Hop. destruct (split_at 58 addr) as [[buf p]|]; [|by injection Hop as <-].
  destruct (63 <? length buf)%nat; [by injection Hop as <-|]. inv_bind Hop. unfold tcp_addr in E.
  destruct a as [e'|a].
  - injection Hop as <-. destruct (_ || _); [done|]. destruct (inet_pton buf) as [[x|]|x] eqn:Hx; [done|by injection E as <-|].
    injection E as <-. by eapply Hp.
  - destruct (_ && _); [by injection Hop as <-|]. inv_bind Hop. destruct a0 as [e'|port].
    + injection Hop as <-. unfold tcp_port in E0. repeat (case_match; simplify_eq; try done);
        inv_bind E0; injection E0 as E0; by case_match; simplify_eq.
    + destruct malloc_errno as [x|]; [|done]. injection Hop as <-. by apply Hm.
Qed.

Lemma parseurl_error url wild purl e purl' :
  errors_ok -> parseurl inet_pton getcwd malloc_errno url wild purl = Ret (inl e, purl') -> e <> 0.
Proof.
  intros Hok Hop. unfold parseurl in Hop. destruct (split_scheme url) as [[id addr]|]; [|by injection Hop as <-].
  destruct (15 <? length id)%nat; [by injection Hop as <-|]. destruct (_ =? 0).
  { inv_bind Hop. destruct a as [e'|sa]; [|done]. injection Hop as <- _. by eapply tcp_parse_error. }
  destruct (_ =? 0); [|destruct (_ =? 0); by injection Hop as <-].
  destruct (unix_parse _ _ _ _) as [[e'|sa] purl1] eqn:Hu; [|done]. injection Hop as <- _. destruct Hok as [_ Hm _ _ _].
  unfold unix_parse in Hu. repeat (case_match; simplify_eq; try done); by apply Hm.
Qed.

(** The thread of the server starts in the state in which the system of its
    threads starts. *)
Lemma spserver_start_static sock : spserver_start sock server_static = server0 sock.
Proof. reflexivity. Qed.

(** [rumpuser_sp_init] returns 0 exactly when it has started the server: then
    the socket listens at the address of the URL, the address is kept for the
    clean-up, the banner fits its buffer, and the thread begins in the first
    state of the system; on an error no server runs. *)
Theorem sp_init_outcome url ostype osrelease machine st e st' :
  errors_ok -> server_thread st = None ->
  rumpuser_sp_init inet_pton getcwd malloc_errno h url ostype osrelease machine st = Ret (e, st') ->
  (e = 0 /\ exists s sap idx purl,
     parseurl inet_pton getcwd malloc_errno url true (parsedurl st) = Ret (inr (sap, idx), purl) /\
     server_thread st' = Some s /\ listening st' = listening st ++ [(s, sap)] /\ cleanup st' = Some (idx, sap) /\
     (length (banner st') < 96)%nat /\ spserver_start s server_static = server0 s) \/
  (e <> 0 /\ server_thread st' = None).
Proof.
  intros Hok Hn Hop. unfold rumpuser_sp_init in Hop. destruct (strdup_ok h); [|injection Hop as <- <-; by right].
  cbn [negb] in Hop. inv_bind Hop. destruct a as [[e'|[sap idx]] purl].
  { injection Hop as <- <-. right. split; [by eapply parseurl_error|done]. }
  destruct (sys_socket h idx) as [e'|s] eqn:Hs; [injection Hop as <- <-; right; split; [by eapply (eo_socket Hok)|done]|].
  cbn [banner cleanup parsedurl open_sockets listening server_thread] in Hop.
  assert (Hlen : (length (take (MAXBANNER - 1) (banner_text ostype osrelease machine)) < 96)%nat)
    by (rewrite length_take; unfold MAXBANNER; lia).
  set (b := take _ _) in *. clearbody b.
  destruct (malloc_sarg_ok h); [|injection Hop as <- <-; by right]. cbn [negb] in Hop. injection Hop as Hop.
  unfold start_server in Hop. destruct (sys_bind h s sap) as [e'|] eqn:Hb;
    [injection Hop as <- <-; right; split; [by eapply (eo_bind Hok)|done]|].
  destruct (sys_listen h s) as [e'|] eqn:Hl; [injection Hop as <- <-; right; split; [by eapply (eo_listen Hok)|done]|].
  destruct (Z.eqb_spec (sys_pthread_create h) 0) as [E0|E0]; cbn [negb] in Hop; injection Hop as <- <-; [left|by right].
  split; [done|]. exists s, sap, idx, purl. cbn [server_thread listening cleanup banner].
  done.
Qed.

(** When [bind], [listen] or [pthread_create] fails, the socket stays open. *)
Theorem sp_init_leaks_socket url ostype osrelease machine st sap idx purl s e :
  strdup_ok h = true -> malloc_sarg_ok h = true -> sys_socket h idx = inr s ->
  parseurl inet_pton getcwd malloc_errno url true (parsedurl st) = Ret (inr (sap, idx), purl) ->
  sys_bind h s sap = Some e ->
  exists st', rumpuser_sp_init inet_pton getcwd malloc_errno h url ostype osrelease machine st = Ret (e, st') /\
    open_sockets st' = open_sockets st ++ [s] /\ server_thread st' = server_thread st.
Proof.
  intros H1 H2 H3 H4 H5. unfold rumpuser_sp_init. rewrite H1, H4. cbn [negb mbind outcome_bind]. rewrite H3, H2.
  cbn [negb]. unfold start_server. rewrite H5. by eexists.
Qed.

End Init.

(** A shutdown that comes before the server's thread has run is lost: nothing is
    shut down or removed, and the thread then starts as if nothing had been. *)
Theorem early_fini_lost answer padding path sock :
  exists s, rumpuser_sp_fini answer padding None path server_static = Ret s /\
    trace s = [Unsched; Newlwp 1] /\ spserver_start sock s = upd_trace (fun _ => trace s) (server0 sock) /\
    spfini (spserver_start sock s) = false.
Proof. destruct path; (eexists; split; [done|]); done. Qed.

(** *** Witnesses *)

Definition demo_calls (bind : option Z) : host_calls :=
  HostCalls true (fun _ => inr 4) true (fun _ _ => bind) (fun _ => None) 0.

Definition demo_pton (s : str) : option Z + Z := if bool_decide (s = lit "10.0.0.1") then inl (Some 167772161) else inl None.

Lemma sp_init_outcome_witness :
  exists st', rumpuser_sp_init demo_pton None None (demo_calls None) (lit "tcp://10.0.0.1:1234") (lit "NetBSD") (lit "7.99") (lit "amd64")
      statics0 = Ret (0, st') /\ server_thread st' = Some 4.
Proof.
  destruct (rumpuser_sp_init demo_pton None None (demo_calls None) (lit "tcp://10.0.0.1:1234") (lit "NetBSD") (lit "7.99") (lit "amd64") statics0)
    as [[e st']| | |] eqn:E; [|vm_compute in E; discriminate E..]. exists st'.
  destruct (sp_init_outcome demo_pton None None (demo_calls None) (lit "tcp://10.0.0.1:1234") (lit "NetBSD") (lit "7.99")
    (lit "amd64") statics0 e st') as [(-> & _)|(Hne & _)]; [|reflexivity|exact E|..].
  - split; try done. intros s e'. unfold demo_pton. by case_bool_decide.
  - split; [reflexivity|]. vm_compute in E. injection E as <-. reflexivity.
  - vm_compute in E. injection E as <- _. done.
Defined.

Lemma sp_init_leaks_socket_witness :
  exists st', rumpuser_sp_init demo_pton None None (demo_calls (Some 98)) (lit "tcp://10.0.0.1:1234") [] [] [] statics0 = Ret (98, st') /\
    open_sockets st' = [4].
Proof.
  destruct (sp_init_leaks_socket demo_pton None None (demo_calls (Some 98)) (lit "tcp://10.0.0.1:1234") [] [] [] statics0
    (Sin 167772161 1234) 0 [] 4 98) as (st' & H1 & H2 & _); [reflexivity..|]. by exists st'.
Defined.

End StartupProperties.
