(* ===== verification/Loader.v ===== *)
(** * The loader: its calls of the host, and the network set-up

    [tools/rexec.c] opens the files and devices named on its command line,
    describes them in the environment, confines itself and executes the
    unikernel.  This file has the monad in which the loader is written and the
    part of [tools/linux.c] that opens network devices: [packet_open], [os_open],
    and for Docker networks the netmask, and the default gateway from a dump of
    the routing table ([readRoutes], [parseRoutes], [get_gateway]).

    The host is a parameter: what a call returns, what it writes to a buffer and
    the mode of a file are functions of the calls made before.  Messages are not
    modelled.  The sizes and macros of netlink are those of netlink(7) and
    rtnetlink(3). *)

From S2P Require Import Prelude Libc Spwire.
From Stdlib Require Import ZArith Lia String.
From stdpp Require Import base numbers list.
Local Open Scope Z_scope.

Module Host.
Import Wire.

Abbreviation str := (list Z).

(** System calls a filter speaks of. *)
Inductive sysno : Type :=
  | SYS_arch_prctl | SYS_exit | SYS_exit_group | SYS_clock_gettime | SYS_clock_getres | SYS_clock_nanosleep
  | SYS_getrandom | SYS_kill | SYS_mmap | SYS_mprotect | SYS_munmap | SYS_fstat | SYS_ppoll
  | SYS_read | SYS_pread64 | SYS_readv | SYS_preadv | SYS_write | SYS_pwrite64 | SYS_writev | SYS_pwritev
  | SYS_fsync | SYS_fcntl | SYS_ioctl | SYS_getsockname | SYS_execve | SYS_execveat
  | SYS_other (n : Z).

#[global] Instance sysno_eq_dec : EqDecision sysno.
Proof. solve_decision. Defined.

(** A comparison of an argument, and a rule of the filter. *)
Inductive scmp : Type :=
  | SCMP_CMP_EQ (arg : nat) (datum : Z)
  | SCMP_CMP_MASKED_EQ (arg : nat) (mask datum : Z).

Record rule : Type := Rule { rule_sys : sysno; rule_args : list scmp }.

(** What is executed in the end: the file, its arguments and its environment. *)
Record image : Type := Image { im_path : str; im_argv : list (option str); im_env : list str }.

(** What a descriptor may be used for on FreeBSD (Capsicum). *)
Inductive right : Type :=
  CAP_READ | CAP_WRITE | CAP_SEEK | CAP_FSYNC | CAP_FCNTL | CAP_FSTAT | CAP_IOCTL | CAP_EVENT | CAP_FEXECVE.

(** The calls of the host. *)
Inductive oscall : Type :=
  | Open (path : str) (flags : Z)
  | Fcntl_getfl (fd : Z)
  | Fcntl_setfl (fd flags : Z)
  | Dup2 (old new : Z)
  | Close (fd : Z)
  | Read (fd n : Z)
  | Stat (path : str)
  | Fstat (fd : Z)
  | Access (path : str)
  | Socket (domain type proto : Z)
  | Socketpair
  | Connect (fd : Z) (addr : list Z) (port : Z)
  | Bind (fd ifindex : Z)
  | Setsockopt_qdisc_bypass (fd : Z)
  | Ioctl (fd request : Z) (arg : list Z)
  | Send (fd : Z) (msg : list Z)
  | Recv (fd n : Z)
  | Getpid
  | Strdup (s : str)
  | Calloc (n size : Z)
  | Mkdtemp (template : str)
  | Chdir (path : str)
  | Unlinkat (dirfd : Z) (path : str)
  | Chroot (path : str)
  | Chmod (path : str) (mode : Z)
  | Getuid
  | Geteuid
  | Setuid (uid : Z)
  | Setgid (gid : Z)
  | Capset
  | Getrandom
  | Seccomp_init
  | Seccomp_rule_add (r : rule)
  | Seccomp_load
  | Seccomp_release
  | Cap_enter
  | Cap_rights_limit (fd : Z) (rights : list right)
  | Cap_ioctls_limit (fd : Z) (cmds : list Z)
  | Cap_fcntls_limit (fd cmds : Z)
  | Execve (im : image)
  | Execveat (fd : Z) (im : image)
  | Fexecve (fd : Z) (im : image).

(** The host: the result of a call after those before it, the bytes it writes,
    the mode of a file, and errno when the result is -1. *)
Record host : Type := MkHost {
  h_ret : list oscall -> oscall -> Z;
  h_data : list oscall -> oscall -> list Z;
  h_mode : list oscall -> oscall -> Z;
  h_errno : list oscall -> oscall -> Z;
}.

(** The loader's globals: the environment, [fdinfo_list] up to [fdinfo_num],
    [spec_9pfs], the filter, [pfd]; and the calls made so far. *)
Record state : Type := State {
  environ : list str;
  fdinfo_list : list (str * Z);         (* name, fd *)
  spec_9pfs : option str;
  ctx : list rule;
  pfd : Z;
  calls : list oscall;
}.

Definition upd_environ f s := State (f (environ s)) (fdinfo_list s) (spec_9pfs s) (ctx s) (pfd s) (calls s).
Definition upd_fdinfo f s := State (environ s) (f (fdinfo_list s)) (spec_9pfs s) (ctx s) (pfd s) (calls s).
Definition upd_9pfs f s := State (environ s) (fdinfo_list s) (f (spec_9pfs s)) (ctx s) (pfd s) (calls s).
Definition upd_ctx f s := State (environ s) (fdinfo_list s) (spec_9pfs s) (f (ctx s)) (pfd s) (calls s).
Definition upd_pfd f s := State (environ s) (fdinfo_list s) (spec_9pfs s) (ctx s) (f (pfd s)) (calls s).
Definition upd_calls f s := State (environ s) (fdinfo_list s) (spec_9pfs s) (ctx s) (pfd s) (f (calls s)).

Definition state0 (env : list str) : state := State env [] None [] (-1) [].

(** *** The loader's computations: a value, the end of the loader, the execution
    of another program, or undefined behaviour *)

Inductive res (A : Type) : Type :=
  | Ok (a : A) (s : state)
  | Exit (status : Z) (s : state)
  | Exec (im : image) (s : state)
  | Wild.
Arguments Ok {A} a s.
Arguments Exit {A} status s.
Arguments Exec {A} im s.
Arguments Wild {A}.

Definition prog (A : Type) : Type := state -> res A.

#[global] Instance prog_ret : MRet prog := fun A a s => Ok a s.
#[global] Instance prog_bind : MBind prog := fun A B f m s =>
  match m s with Ok a s => f a s | Exit c s => Exit c s | Exec im s => Exec im s | Wild => Wild end.

Definition exit {A} (status : Z) : prog A := fun s => Exit status s.
Definition wild {A} : prog A := fun _ => Wild.
Definition get : prog state := fun s => Ok s s.
Definition modify (f : state -> state) : prog unit := fun s => Ok tt (f s).

(** A test that ends the loader. *)
Definition exit_if (b : bool) : prog unit := if b then exit 1 else mret tt.

Section Calls.
Variable h : host.

Definition sys (c : oscall) : prog Z := fun s => Ok (h_ret h (calls s) c) (upd_calls (fun l => l ++ [c]) s).
Definition sys_data (c : oscall) : prog (Z * list Z) := fun s =>
  Ok (h_ret h (calls s) c, h_data h (calls s) c) (upd_calls (fun l => l ++ [c]) s).
Definition sys_mode (c : oscall) : prog (Z * Z) := fun s =>
  Ok (h_ret h (calls s) c, h_mode h (calls s) c) (upd_calls (fun l => l ++ [c]) s).
Definition sys_errno (c : oscall) : prog (Z * Z) := fun s =>
  Ok (h_ret h (calls s) c, h_errno h (calls s) c) (upd_calls (fun l => l ++ [c]) s).
(** A call whose result is not looked at. *)
Definition sys_ (c : oscall) : prog unit := _ ← sys c; mret tt.
(** A call whose failure ends the loader. *)
Definition sys_or_exit (c : oscall) : prog Z := r ← sys c; _ ← exit_if (r =? -1); mret r.
(** A call whose failure is that of the function. *)
Definition or_fail (c : oscall) (k : Z -> prog Z) : prog Z := r ← sys c; if r =? -1 then mret (-1) else k r.

End Calls.

(** *** The C library of the host *)

(** [setenv]: a name that is empty or has a ['='] is an error, which the loader
    ignores. *)
Definition entry (name value : str) : str := name ++ 61 :: value.

Fixpoint put_entry (name value : str) (env : list str) : list str :=
  match env with
  | [] => [entry name value]
  | e :: env => match Str.env_value name e with Some _ => entry name value :: env | None => e :: put_entry name value env end
  end.

Fixpoint getenv (name : str) (env : list str) : option str :=
  match env with
  | [] => None
  | e :: env => match Str.env_value name e with Some v => Some v | None => getenv name env end
  end.

Definition setenv (name value : str) (overwrite : bool) (env : list str) : list str :=
  if bool_decide (name = []) || bool_decide (61 ∈ name) then env
  else if negb overwrite && bool_decide (is_Some (getenv name env)) then env
  else put_entry name value env.

Definition set_env (name value : str) (overwrite : bool) : prog unit := modify (upd_environ (setenv name value overwrite)).

(** [snprintf] with room for [n] bytes keeps [n - 1]. *)
Definition snprintf (n : nat) (s : str) : str := take (n - 1) s.

(** [htons] and [htonl] on a little-endian host. *)
Definition htons (x : Z) : Z := unle (rev (le 2 x)).
Definition htonl (x : Z) : Z := unle (rev (le 4 x)).

(** [inet_ntop] for AF_INET: the four bytes in decimal. *)
Definition inet_ntop (a : list Z) : str :=
  match a with
  | [w; x; y; z] => Str.print_dec w ++ 46 :: Str.print_dec x ++ 46 :: Str.print_dec y ++ 46 :: Str.print_dec z
  | _ => []
  end.

End Host.

Module Netlink.
Import Host Wire.

Definition NLMSG_ERROR : Z := 2.
Definition NLMSG_DONE : Z := 3.
Definition NLM_F_MULTI : Z := 2.
Definition RTM_GETROUTE : Z := 26.
Definition AF_INET : Z := 2.
Definition RT_TABLE_MAIN : Z := 254.
Definition RTA_DST : Z := 1.
Definition RTA_GATEWAY : Z := 5.

(** Messages and attributes are aligned to 4 bytes. *)
Definition align4 (n : Z) : Z := Z.land (n + 3) (Z.lnot 3).

(** [n] bytes of the buffer at [off]: an access outside of it is undefined. *)
Definition peek_at (buf : list Z) (off : Z) (n : nat) : outcome (list Z) :=
  if (0 <=? off) && (off + Z.of_nat n <=? Z.of_nat (length buf)) then Ret (take n (drop (Z.to_nat off) buf)) else UB.

Definition load_at (buf : list Z) (off : Z) (n : nat) : outcome Z := b ← peek_at buf off n; Ret (unle b).

(** struct nlmsghdr: len, type, flags, seq, pid. *)
Definition nlmsg_len (buf : list Z) (off : Z) : outcome Z := load_at buf off 4.
Definition nlmsg_type (buf : list Z) (off : Z) : outcome Z := load_at buf (off + 4) 2.
Definition nlmsg_flags (buf : list Z) (off : Z) : outcome Z := load_at buf (off + 6) 2.
Definition nlmsg_seq (buf : list Z) (off : Z) : outcome Z := load_at buf (off + 8) 4.
Definition nlmsg_pid (buf : list Z) (off : Z) : outcome Z := load_at buf (off + 12) 4.

Definition NLMSG_OK (buf : list Z) (off len : Z) : outcome bool :=
  if u32 len <? 16 then Ret false
  else n ← nlmsg_len buf off; Ret ((16 <=? n) && (n <=? u32 len)).

(** [RTA_OK]: [rtlen] is an int. *)
Definition RTA_OK (buf : list Z) (off rtlen : Z) : outcome bool :=
  if rtlen <? 4 then Ret false
  else n ← load_at buf off 2; Ret ((4 <=? n) && (n <=? rtlen)).

(** Bounds of the loops over a buffer of 8192 bytes: an attribute has at least 4
    bytes and a message 16. *)
Definition max_attrs : nat := Z.to_nat 2049.
Definition max_msgs : nat := Z.to_nat 513.

(** The loop of [parseRoutes] over the attributes at [off]. *)
Fixpoint parse_attrs (fuel : nat) (buf : list Z) (off rtlen : Z) (dst gw : list Z) : outcome (list Z * list Z) :=
  match fuel with
  | O => NoFuel
  | S fuel =>
      ok ← RTA_OK buf off rtlen;
      if ok : bool then
        n ← load_at buf off 2;
        type ← load_at buf (off + 2) 2;
        '(dst, gw) ← (if type =? RTA_GATEWAY then b ← peek_at buf (off + 4) 4; Ret (dst, b)
                      else if type =? RTA_DST then b ← peek_at buf (off + 4) 4; Ret (b, gw)
                      else Ret (dst, gw));
        parse_attrs fuel buf (off + align4 n) (rtlen - align4 n) dst gw
      else Ret (dst, gw)
  end.

(** [parseRoutes]: the result, and what it leaves in [dst] and [gw]. *)
Definition parseRoutes (fuel : nat) (buf : list Z) (hdr : Z) (dst gw : list Z) : outcome (Z * list Z * list Z) :=
  family ← load_at buf (hdr + 16) 1;
  other ← (if negb (family =? AF_INET) then Ret true
           else table ← load_at buf (hdr + 16 + 4) 1; Ret (negb (table =? RT_TABLE_MAIN)));
  if other : bool then Ret (-1, dst, gw)
  else
    n ← nlmsg_len buf hdr;
    '(dst, gw) ← parse_attrs fuel buf (hdr + 28) (i32 (n - 28)) dst gw;
    Ret (0, dst, gw).

(** The loop of [get_gateway] over the messages. *)
Fixpoint gateway_loop (fuel : nat) (buf : list Z) (off len : Z) (dest gw : list Z) : outcome (Z * list Z) :=
  match fuel with
  | O => NoFuel
  | S fuel =>
      ok ← NLMSG_OK buf off len;
      if ok : bool then
        '(r, dest, gw) ← parseRoutes max_attrs buf off dest gw;
        if negb (r =? -1) && (unle dest =? 0) then Ret (0, gw)
        else
          n ← nlmsg_len buf off;
          gateway_loop fuel buf (off + align4 n) (i32 (len - align4 n)) dest gw
      else Ret (-1, gw)
  end.

(** [while (mask) { mask >>= 1; n--; }] *)
Fixpoint mask_loop (fuel : nat) (mask n : Z) : outcome Z :=
  match fuel with
  | O => NoFuel
  | S fuel => if mask =? 0 then Ret n else mask_loop fuel (Z.shiftr mask 1) (n - 1)
  end.

(** The length of the prefix of a netmask, given as in struct sockaddr_in. *)
Definition prefix_length (sin_addr : list Z) : outcome Z := mask_loop 33 (u32 (Z.lnot (htonl (unle sin_addr)))) 32.

Section Calls.
Variable h : host.
(** What is in memory before it is written to: the buffer of [get_gateway], its
    [dest] and the caller's [gw], and the bytes that follow a string. *)
Variable buf0 dest0 gw0 : list Z.
Variable after_string : list Z.

Definition of_outcome {A} (o : outcome A) : prog A := match o with Ret a => mret a | _ => wild end.

(** [bs] is stored in the buffer at [off]. *)
Definition store_at (buf : list Z) (off : Z) (bs : list Z) : list Z :=
  take (Z.to_nat off) buf ++ bs ++ drop (Z.to_nat off + length bs) buf.

Fixpoint readRoutes (fuel : nat) (sock size seq pid : Z) (off len : Z) (buf : list Z) : prog (Z * list Z) :=
  match fuel with
  | O => wild
  | S fuel =>
      '(n, d) ← sys_data h (Recv sock (size - len));
      if n =? -1 then mret (-1, buf)
      else
        let buf := store_at buf off (take (Z.to_nat n) d) in
        ok ← of_outcome (NLMSG_OK buf off n);
        if negb ok then mret (-1, buf)
        else
          type ← of_outcome (nlmsg_type buf off);
          if type =? NLMSG_ERROR then mret (-1, buf)
          else if type =? NLMSG_DONE then mret (len, buf)
          else
            flags ← of_outcome (nlmsg_flags buf off);
            if Z.land flags NLM_F_MULTI =? 0 then mret (len + n, buf)
            else
              seq' ← of_outcome (nlmsg_seq buf off);
              pid' ← of_outcome (nlmsg_pid buf off);
              if negb (seq' =? seq) || negb (pid' =? pid)
              then readRoutes fuel sock size seq pid (off + n) (len + n) buf
              else mret (len + n, buf)
  end.

(** The first 28 bytes of the buffer are sent; only the header is set. *)
Definition get_gateway : prog (Z * list Z) :=
  sock ← sys h (Socket 16 2 0);
  if sock =? -1 then mret (-1, gw0)
  else
    pid ← sys h Getpid;
    let hdr := le 4 28 ++ le 2 RTM_GETROUTE ++ le 2 769 ++ le 4 0 ++ le 4 pid in
    let buf := store_at buf0 0 hdr in
    r ← sys h (Send sock (take 28 buf));
    if r =? -1 then mret (-1, gw0)
    else
      '(len, buf) ← readRoutes max_msgs sock 8192 0 pid 0 0 buf;
      if len =? -1 then mret (-1, gw0)
      else
        '(ret, gw) ← of_outcome (gateway_loop max_msgs buf 0 len dest0 gw0);
        _ ← sys_ h (Close sock);
        mret (ret, gw).

Definition IFNAMSIZ : nat := 16.
Definition SIOCGIFINDEX : Z := 35123.
Definition SIOCGIFADDR : Z := 35093.
Definition SIOCSIFADDR : Z := 35094.
Definition SIOCGIFNETMASK : Z := 35099.
Definition TUNSETIFF : Z := 1074025674.
Definition TUNSETVNETHDRSZ : Z := 1074025688.
Definition TUNSETOFFLOAD : Z := 1074025680.
Definition IFF_TAP : Z := 2.
Definition IFF_NO_PI : Z := 4096.
Definition IFF_VNET_HDR : Z := 16384.
Definition O_NONBLOCK : Z := 2048.

Definition packet_open (post : str) : prog Z :=
  or_fail h (Socket 17 3 (htons 3)) (fun sock =>
    '(r, ifr) ← sys_data h (Ioctl sock SIOCGIFINDEX (Str.strncpy_bytes IFNAMSIZ post));
    if r =? -1 then mret (-1)
    else
      or_fail h (Bind sock (unle (take 4 ifr))) (fun _ =>
      or_fail h (Fcntl_getfl sock) (fun flags =>
      or_fail h (Fcntl_setfl sock (Z.lor flags O_NONBLOCK)) (fun _ =>
        _ ← sys_ h (Setsockopt_qdisc_bypass sock);
        mret sock)))).

(** A tap device; with LKL_OFFLOAD set, with checksum and segmentation offload. *)
Definition tap_open (post : str) : prog Z :=
  s ← get;
  let offload := bool_decide (is_Some (getenv (lit "LKL_OFFLOAD") (environ s))) in
  let flags := Z.lor (Z.lor IFF_TAP IFF_NO_PI) (if offload then IFF_VNET_HDR else 0) in
  or_fail h (Open (lit "/dev/net/tun") (Z.lor 2 O_NONBLOCK)) (fun fd =>
  or_fail h (Ioctl fd TUNSETIFF (Str.strncpy_bytes IFNAMSIZ post ++ le 2 flags)) (fun _ =>
    r ← (if offload then sys h (Ioctl fd TUNSETVNETHDRSZ (le 4 12)) else mret 0);
    if negb (r =? 0) then mret (-1)
    else
      r ← sys h (Ioctl fd TUNSETOFFLOAD (le 8 (if offload then 3 else 0)));
      mret (if negb (r =? 0) then -1 else fd))).

(** The address in the union of a struct ifreq. *)
Definition sin_addr (ifru : list Z) : list Z := take 4 (drop 4 ifru).

(** A packet socket, and the interface's address, which goes to the guest.  The
    name is copied with a length of 16, whatever the string's length. *)
Definition docker_open (post : str) : prog Z :=
  let post := if bool_decide (post = []) then lit "eth0" else post in
  sock ← packet_open post;
  if sock =? -1 then mret (-1)
  else
    let name := take IFNAMSIZ (post ++ 0 :: after_string) in
    '(r, ifru) ← sys_data h (Ioctl sock SIOCGIFADDR name);
    if r =? -1 then mret (-1)
    else
      _ ← set_env (lit "FIXED_ADDRESS") (inet_ntop (sin_addr ifru)) true;
      '(r, ifru) ← sys_data h (Ioctl sock SIOCGIFNETMASK name);
      if r =? -1 then mret (-1)
      else
        n ← of_outcome (prefix_length (sin_addr ifru));
        _ ← set_env (lit "FIXED_MASK") (Str.print_dec n) true;
        '(r, gw) ← get_gateway;
        if r =? -1 then mret (-1)
        else
          _ ← set_env (lit "FIXED_GATEWAY") (inet_ntop gw) true;
          r ← sys h (Ioctl sock SIOCSIFADDR (name ++ take 4 ifru ++ [0; 0; 0; 0] ++ drop 8 ifru));
          mret (if r =? -1 then -1 else sock).

Definition os_open (pre post : str) : prog Z :=
  if bool_decide (pre = lit "tun") || bool_decide (pre = lit "tap") then tap_open post
  else if bool_decide (pre = lit "packet") then packet_open post
  else if bool_decide (pre = lit "docker") then docker_open post
  else exit 1.

End Calls.
End Netlink.

(** ** A dump of the routing table *)

Module NetlinkFacts.
Import Host Wire FrameFacts Netlink.

(** An attribute, padded to 4 bytes, and a message. *)
Definition enc_attr (a : Z * list Z) : list Z :=
  le 2 (4 + Z.of_nat (length a.2)) ++ le 2 a.1 ++ a.2 ++
  repeat 0 (Z.to_nat (align4 (Z.of_nat (length a.2)) - Z.of_nat (length a.2))).

Definition enc_attrs (l : list (Z * list Z)) : list Z := concat (map enc_attr l).

(** A message about a route: the flags and the process of its header, the fields
    of struct rtmsg, the attributes. *)
Record route : Type := Route {
  rt_nlflags : Z;
  rt_pid : Z;
  rt_family : Z;
  rt_dst_len : Z;
  rt_src_len : Z;
  rt_tos : Z;
  rt_table : Z;
  rt_protocol : Z;
  rt_scope : Z;
  rt_type : Z;
  rt_flags : Z;
  rt_attrs : list (Z * list Z);
}.

(** The header of a message of a dump; the request had the number 0. *)
Definition enc_header (len type flags pid : Z) : list Z := le 4 len ++ le 2 type ++ le 2 flags ++ le 4 0 ++ le 4 pid.

(** The message has the type RTM_NEWROUTE. *)
Definition enc_route (r : route) : list Z :=
  enc_header (28 + Z.of_nat (length (enc_attrs (rt_attrs r)))) 24 (rt_nlflags r) (rt_pid r) ++
  [rt_family r; rt_dst_len r; rt_src_len r; rt_tos r] ++ [rt_table r] ++ [rt_protocol r; rt_scope r; rt_type r] ++
  le 4 (rt_flags r) ++ enc_attrs (rt_attrs r).

Definition dump (l : list route) : list Z := concat (map enc_route l).

(** The end of a dump, with its status, comes in the same datagram or in a later
    one: [done] is its sender in the first case. *)
Definition enc_done (done : option Z) : list Z :=
  match done with None => [] | Some pid => enc_header 20 NLMSG_DONE NLM_F_MULTI pid ++ le 4 0 end.

Definition datagram (l : list route) (done : option Z) : list Z := dump l ++ enc_done done.

(** Addresses have four bytes. *)
Definition attr_ok (a : Z * list Z) : Prop :=
  0 <= a.1 < 2 ^ 16 /\ Z.of_nat (length a.2) < 2 ^ 15 /\ (a.1 = RTA_DST \/ a.1 = RTA_GATEWAY -> length a.2 = 4%nat).

Definition route_ok (r : route) : Prop := 0 <= rt_family r < 256 /\ 0 <= rt_table r < 256 /\ Forall attr_ok (rt_attrs r).

(** What the attributes of a route leave in the two addresses. *)
Fixpoint take_attrs (l : list (Z * list Z)) (dst gw : list Z) : list Z * list Z :=
  match l with
  | [] => (dst, gw)
  | (t, d) :: l => take_attrs l (if t =? RTA_DST then d else dst) (if t =? RTA_GATEWAY then d else gw)
  end.

Definition main_ipv4 (r : route) : bool := (rt_family r =? AF_INET) && (rt_table r =? RT_TABLE_MAIN).

(** The gateway of the first route of the main table after which the last
    destination that was seen is 0.0.0.0. *)
Fixpoint first_default (l : list route) (dst gw : list Z) : Z * list Z :=
  match l with
  | [] => (-1, gw)
  | r :: l =>
      if main_ipv4 r then
        let '(dst, gw) := take_attrs (rt_attrs r) dst gw in
        if unle dst =? 0 then (0, gw) else first_default l dst gw
      else first_default l dst gw
  end.

Lemma align4_eq n : align4 n = (n + 3) / 4 * 4.
Proof.
  unfold align4. change (Z.lnot 3) with (Z.lnot (Z.ones 2)). rewrite <- Z.ldiff_land, Z.ldiff_ones_r by lia.
  by rewrite Z.shiftl_mul_pow2, Z.shiftr_div_pow2 by lia.
Qed.

Lemma align4_spec n : n <= align4 n <= n + 3 /\ align4 n mod 4 = 0.
Proof.
  rewrite align4_eq. pose proof (Z.div_mod (n + 3) 4). pose proof (Z.mod_pos_bound (n + 3) 4).
  split; [lia|]. apply Z.mod_mul. lia.
Qed.

Lemma align4_add n : align4 (4 + n) = 4 + align4 n.
Proof. rewrite !align4_eq. replace (4 + n + 3) with (n + 3 + 1 * 4) by lia. rewrite Z.div_add by lia. lia. Qed.

Lemma align4_mult n : n mod 4 = 0 -> align4 n = n.
Proof.
  intros H. rewrite align4_eq. pose proof (Z.div_mod n 4). replace (n + 3) with (3 + n / 4 * 4) by lia.
  rewrite Z.div_add by lia. change (3 / 4) with 0. lia.
Qed.

(** The buffer holds [bs] at an offset. *)
Definition at_off (buf : list Z) (off : Z) (bs : list Z) : Prop :=
  0 <= off <= Z.of_nat (length buf) /\ exists rest, drop (Z.to_nat off) buf = bs ++ rest.

Lemma at_split buf off a b : at_off buf off (a ++ b) -> at_off buf (off + Z.of_nat (length a)) b.
Proof.
  intros [Ho [rest Hr]]. assert (Hlen : length (drop (Z.to_nat off) buf) = length ((a ++ b) ++ rest)) by by rewrite Hr.
  rewrite length_drop, !length_app in Hlen. split; [lia|]. exists rest.
  rewrite Z2Nat.inj_add, Nat2Z.id, <- drop_drop, Hr, <- app_assoc by lia. by rewrite drop_app_length.
Qed.

Lemma at_prefix buf off a b : at_off buf off (a ++ b) -> at_off buf off a.
Proof. intros [Ho [rest Hr]]. split; [done|]. exists (b ++ rest). by rewrite Hr, app_assoc. Qed.

Lemma at_peek buf off bs : at_off buf off bs -> peek_at buf off (length bs) = Ret bs.
Proof.
  intros [Ho [rest Hr]]. assert (Hlen : length (drop (Z.to_nat off) buf) = length (bs ++ rest)) by by rewrite Hr.
  rewrite length_drop, length_app in Hlen. unfold peek_at. rewrite Hr, take_app_length.
  by rewrite (proj2 (Z.leb_le _ _)), (proj2 (Z.leb_le _ _)) by lia.
Qed.

Lemma at_load buf off n v : at_off buf off (le n v) -> 0 <= v < 256 ^ Z.of_nat n -> load_at buf off n = Ret v.
Proof.
  intros Ha Hv. unfold load_at. apply at_peek in Ha. rewrite length_le in Ha. rewrite Ha. cbn [mbind outcome_bind].
  by rewrite unle_le.
Qed.

Lemma at_byte buf off v : at_off buf off [v] -> load_at buf off 1 = Ret v.
Proof. intros Ha%at_peek. unfold load_at. cbn [length] in Ha. rewrite Ha. cbn. f_equal. lia. Qed.

Lemma length_enc_attr a : Z.of_nat (length (enc_attr a)) = align4 (4 + Z.of_nat (length a.2)).
Proof.
  unfold enc_attr. rewrite !length_app, !length_le, repeat_length, align4_add.
  pose proof (align4_spec (Z.of_nat (length a.2))). lia.
Qed.

(** The fields of an attribute. *)
Lemma attr_fields buf off a rest :
  attr_ok a -> at_off buf off (enc_attr a ++ rest) ->
  load_at buf off 2 = Ret (4 + Z.of_nat (length a.2)) /\ load_at buf (off + 2) 2 = Ret a.1 /\
  at_off buf (off + 4) a.2 /\ at_off buf (off + align4 (4 + Z.of_nat (length a.2))) rest.
Proof.
  intros (Ht & Hl & _) Ha. pose proof (at_split _ _ _ _ Ha) as Hrest. rewrite length_enc_attr in Hrest.
  apply at_prefix in Ha. unfold enc_attr in Ha.
  pose proof (at_split _ _ _ _ Ha) as Ha2. rewrite length_le in Ha2.
  pose proof (at_split _ _ _ _ Ha2) as Ha4. rewrite length_le in Ha4. split_and!.
  - apply at_load; [by eapply at_prefix|]. cbn. lia.
  - apply at_load; [by eapply at_prefix|done].
  - replace (off + 4) with (off + Z.of_nat 2 + Z.of_nat 2) by lia. by eapply at_prefix.
  - done.
Qed.

Lemma parse_attrs_enc buf l : forall fuel off dst gw,
  Forall attr_ok l -> at_off buf off (enc_attrs l) -> (length l < fuel)%nat ->
  parse_attrs fuel buf off (Z.of_nat (length (enc_attrs l))) dst gw = Ret (take_attrs l dst gw).
Proof.
  induction l as [|a l IH]; intros fuel off dst gw Hok Ha Hf; (destruct fuel as [|fuel]; [cbn in Hf; lia|]); [done|].
  apply Forall_cons in Hok as [Hok Hoks]. unfold enc_attrs in *. cbn [map concat] in *.
  destruct (attr_fields _ _ _ _ Hok Ha) as (H1 & H2 & H3 & H4). destruct a as [t d]. cbn [fst snd] in *.
  pose proof (length_enc_attr (t, d)) as Hlen. cbn [snd] in Hlen. pose proof (align4_spec (4 + Z.of_nat (length d))) as Hal.
  rewrite length_app, Nat2Z.inj_add, Hlen. cbn [parse_attrs].
  unfold RTA_OK. rewrite (proj2 (Z.ltb_ge _ _)), H1 by lia. cbn [mbind outcome_bind].
  rewrite (proj2 (Z.leb_le _ _)), (proj2 (Z.leb_le _ _)) by lia. cbn [andb mbind outcome_bind]. rewrite H2. cbn [mbind outcome_bind].
  destruct Hok as (_ & _ & H4b). cbn [fst snd] in H4b. cbn [take_attrs].
  assert (Hgo : forall dst gw, parse_attrs fuel buf (off + align4 (4 + Z.of_nat (length d)))
      (align4 (4 + Z.of_nat (length d)) + Z.of_nat (length (concat (map enc_attr l))) - align4 (4 + Z.of_nat (length d))) dst gw =
      Ret (take_attrs l dst gw)).
  { intros. rewrite Z.add_simpl_l. apply IH; [done|done|cbn in Hf; lia]. }
  pose proof (at_peek _ _ _ H3) as Hp. destruct (Z.eqb_spec t RTA_GATEWAY) as [->|Hg].
  - rewrite H4b in Hp by auto. rewrite Hp. cbn [mbind outcome_bind]. apply Hgo.
  - destruct (Z.eqb_spec t RTA_DST) as [->|Hd]; [|apply Hgo].
    rewrite H4b in Hp by auto. rewrite Hp. cbn [mbind outcome_bind]. apply Hgo.
Qed.

Lemma length_enc_attrs l : 4 * Z.of_nat (length l) <= Z.of_nat (length (enc_attrs l)) /\ Z.of_nat (length (enc_attrs l)) mod 4 = 0.
Proof.
  unfold enc_attrs. induction l as [|a l [IH1 IH2]]; [done|]. cbn [map concat length]. rewrite length_app, Nat2Z.inj_add, length_enc_attr.
  pose proof (align4_spec (4 + Z.of_nat (length a.2))) as [H1 H2]. split; [lia|]. by rewrite Z.add_mod, H2, IH2 by lia.
Qed.

Lemma length_enc_header n t f p : length (enc_header n t f p) = 16%nat.
Proof. unfold enc_header. by rewrite !length_app, !length_le. Qed.

Lemma length_enc_route r : Z.of_nat (length (enc_route r)) = 28 + Z.of_nat (length (enc_attrs (rt_attrs r))).
Proof. unfold enc_route. rewrite !length_app, length_enc_header, length_le. cbn [length]. lia. Qed.

Lemma length_dump l : 28 * Z.of_nat (length l) <= Z.of_nat (length (dump l)).
Proof.
  unfold dump. induction l as [|r l IH]; [done|]. cbn [map concat length]. rewrite length_app, Nat2Z.inj_add, length_enc_route.
  pose proof (length_enc_attrs (rt_attrs r)). lia.
Qed.

Lemma at_length buf off bs : at_off buf off bs -> Z.of_nat (length bs) <= Z.of_nat (length buf).
Proof.
  intros [Ho [rest Hr]]. assert (Hlen : length (drop (Z.to_nat off) buf) = length (bs ++ rest)) by by rewrite Hr.
  rewrite length_drop, length_app in Hlen. lia.
Qed.

(** Some of the bytes at an offset, by their place. *)
Lemma at_part buf off a b c k : at_off buf off (a ++ b ++ c) -> k = Z.of_nat (length a) -> at_off buf (off + k) b.
Proof. intros Ha ->. eapply at_prefix, at_split, Ha. Qed.

(** The fields of a header. *)
Lemma header_fields buf off n t f p rest :
  0 <= n < 2 ^ 32 -> 0 <= t < 2 ^ 16 -> 0 <= f < 2 ^ 16 -> 0 <= p < 2 ^ 32 -> at_off buf off (enc_header n t f p ++ rest) ->
  nlmsg_len buf off = Ret n /\ nlmsg_type buf off = Ret t /\ nlmsg_flags buf off = Ret f /\ nlmsg_seq buf off = Ret 0 /\
  nlmsg_pid buf off = Ret p.
Proof.
  intros Hn Ht Hf Hp Ha. apply at_prefix in Ha. unfold enc_header in Ha.
  unfold nlmsg_len, nlmsg_type, nlmsg_flags, nlmsg_seq, nlmsg_pid. split_and!; (apply at_load; [|done]).
  - by eapply at_prefix.
  - by eapply (at_part _ _ (le 4 n)); [exact Ha|].
  - by eapply (at_part _ _ (le 4 n ++ le 2 t)); [rewrite <- !app_assoc; exact Ha|].
  - by eapply (at_part _ _ (le 4 n ++ le 2 t ++ le 2 f)); [rewrite <- !app_assoc; exact Ha|].
  - by eapply (at_part _ _ (le 4 n ++ le 2 t ++ le 2 f ++ le 4 0) _ []); [rewrite <- !app_assoc, app_nil_r; exact Ha|].
Qed.

Lemma header_len buf off n t f p rest :
  0 <= n < 2 ^ 32 -> at_off buf off (enc_header n t f p ++ rest) -> nlmsg_len buf off = Ret n.
Proof. intros Hn Ha. apply at_load; [|done]. unfold enc_header in Ha. rewrite <- app_assoc in Ha. by eapply at_prefix. Qed.

(** The fields of a route. *)
Lemma route_fields buf off r rest :
  Z.of_nat (length buf) < 2 ^ 31 -> at_off buf off (enc_route r ++ rest) ->
  nlmsg_len buf off = Ret (28 + Z.of_nat (length (enc_attrs (rt_attrs r)))) /\
  load_at buf (off + 16) 1 = Ret (rt_family r) /\ load_at buf (off + 16 + 4) 1 = Ret (rt_table r) /\
  at_off buf (off + 28) (enc_attrs (rt_attrs r)) /\
  at_off buf (off + (28 + Z.of_nat (length (enc_attrs (rt_attrs r))))) rest.
Proof.
  intros Hb Ha. pose proof (at_split _ _ _ _ Ha) as Hrest. rewrite length_enc_route in Hrest.
  pose proof (at_length _ _ _ Ha) as Hlen. rewrite length_app, Nat2Z.inj_add, length_enc_route in Hlen.
  apply at_prefix in Ha. unfold enc_route in Ha. set (attrs := enc_attrs (rt_attrs r)) in *.
  pose proof (at_split _ _ _ _ Ha) as Hm. rewrite length_enc_header in Hm. change (Z.of_nat 16) with 16 in Hm.
  pose proof (at_split _ _ _ _ Hm) as Ht. pose proof (at_split _ _ _ _ Ht) as Hp. pose proof (at_split _ _ _ _ Hp) as Hfl.
  pose proof (at_split _ _ _ _ Hfl) as Hat. rewrite length_le in Hat. cbn [length] in *. split_and!.
  - eapply header_len; [|exact Ha]. lia.
  - apply at_byte. eapply (at_prefix _ _ [rt_family r] ([_; _; _] ++ _)). exact Hm.
  - apply at_byte. eapply at_prefix. exact Ht.
  - replace (off + 28) with (off + 16 + Z.of_nat 4 + Z.of_nat 1 + Z.of_nat 3 + Z.of_nat 4) by lia. exact Hat.
  - done.
Qed.

Lemma parseRoutes_enc buf off r rest dst gw :
  Z.of_nat (length buf) <= 8192 -> route_ok r -> at_off buf off (enc_route r ++ rest) ->
  parseRoutes max_attrs buf off dst gw =
  Ret (if main_ipv4 r then (0, (take_attrs (rt_attrs r) dst gw).1, (take_attrs (rt_attrs r) dst gw).2) else (-1, dst, gw)).
Proof.
  intros Hb (_ & _ & Hok) Ha. destruct (route_fields buf off r rest ltac:(lia) Ha) as (H1 & H2 & H3 & H4 & _).
  pose proof (at_length _ _ _ H4). pose proof (length_enc_attrs (rt_attrs r)) as [Hc _].
  unfold parseRoutes, main_ipv4. rewrite H2, H3. cbn [mbind outcome_bind].
  destruct (rt_family r =? AF_INET), (rt_table r =? RT_TABLE_MAIN); cbn [negb andb mbind outcome_bind]; try done.
  rewrite H1. cbn [mbind outcome_bind]. rewrite i32_small by lia. rewrite Z.add_simpl_l.
  rewrite parse_attrs_enc by (done || (unfold max_attrs; lia)). cbn [mbind outcome_bind]. by destruct (take_attrs _ _ _).
Qed.

(** The end of a dump is no route, and the last message. *)
Lemma gateway_loop_done buf done off fuel dst gw :
  Z.of_nat (length buf) <= 8192 -> at_off buf off (enc_done done) -> (1 < fuel)%nat ->
  gateway_loop fuel buf off (Z.of_nat (length (enc_done done))) dst gw = Ret (-1, gw).
Proof.
  intros Hb Ha Hf. destruct fuel as [|[|fuel]]; [lia|lia|]. destruct done as [pid|]; [|done]. unfold enc_done in *.
  pose proof (at_split _ _ _ _ Ha) as Hs. rewrite length_enc_header in Hs.
  assert (Hfam : load_at buf (off + 16) 1 = Ret 0) by (apply at_byte; eapply (at_prefix _ _ [0] [0; 0; 0]); exact Hs).
  apply header_len in Ha; [|done]. change (Z.of_nat _) with 20.
  assert (Hok : NLMSG_OK buf off 20 = Ret true) by (unfold NLMSG_OK; by rewrite Ha).
  assert (Hpr : parseRoutes max_attrs buf off dst gw = Ret (-1, dst, gw)) by (unfold parseRoutes; by rewrite Hfam).
  cbn [gateway_loop]. rewrite Hok. cbn [mbind outcome_bind]. rewrite Hpr. cbn [mbind outcome_bind]. rewrite Ha. done.
Qed.

(** The loop over a whole dump. *)
Lemma gateway_loop_dump buf done l : forall fuel off dst gw,
  Z.of_nat (length buf) <= 8192 -> Forall route_ok l -> at_off buf off (datagram l done) -> (S (length l) < fuel)%nat ->
  gateway_loop fuel buf off (Z.of_nat (length (datagram l done))) dst gw = Ret (first_default l dst gw).
Proof.
  induction l as [|r l IH]; intros fuel off dst gw Hb Hok Ha Hf; [by apply gateway_loop_done|].
  destruct fuel as [|fuel]; [lia|]. change (datagram (r :: l) done) with ((enc_route r ++ dump l) ++ enc_done done) in *.
  rewrite <- app_assoc in *. fold (datagram l done) in *.
  apply Forall_cons in Hok as [Hok Hoks]. pose proof (at_length _ _ _ Ha) as Hlen.
  destruct (route_fields buf off r _ ltac:(lia) Ha) as (H1 & _ & _ & _ & H5).
  rewrite length_app, Nat2Z.inj_add, length_enc_route in *. pose proof (length_enc_attrs (rt_attrs r)) as [_ Hm].
  set (n := 28 + Z.of_nat (length (enc_attrs (rt_attrs r)))) in *.
  assert (Hal : align4 n = n).
  { apply align4_mult. unfold n. rewrite Z.add_mod, Hm by lia. done. }
  cbn [gateway_loop]. unfold NLMSG_OK. rewrite u32_small by lia. rewrite (proj2 (Z.ltb_ge _ _)), H1 by lia.
  cbn [mbind outcome_bind]. rewrite (proj2 (Z.leb_le _ _)), (proj2 (Z.leb_le _ _)) by lia. cbn [andb].
  rewrite (parseRoutes_enc _ _ _ _ _ _ Hb Hok Ha). cbn [mbind outcome_bind first_default].
  assert (Hgo : forall dst gw,
      gateway_loop fuel buf (off + align4 n) (i32 (n + Z.of_nat (length (datagram l done)) - align4 n)) dst gw =
      Ret (first_default l dst gw)).
  { intros dst' gw'. rewrite Hal, Z.add_simpl_l, i32_small by lia. apply IH; [done|done|done|cbn in Hf; lia]. }
  destruct (main_ipv4 r); [|cbn [Z.eqb Pos.eqb negb andb]; apply Hgo]. destruct (take_attrs (rt_attrs r) dst gw) as [dst' gw'].
  cbn [fst snd Z.eqb negb andb]. destruct (unle dst' =? 0); [done|]. apply Hgo.
Qed.

(** The loops end within their bounds, whatever the buffer holds. *)
Lemma peek_at_bound buf off n b : peek_at buf off n = Ret b -> 0 <= off /\ off + Z.of_nat n <= Z.of_nat (length buf).
Proof. unfold peek_at. destruct (_ && _) eqn:E; [|done]. to_prop. done. Qed.

Lemma load_at_bound buf off n v : load_at buf off n = Ret v -> 0 <= off /\ off + Z.of_nat n <= Z.of_nat (length buf).
Proof. unfold load_at. intros H. inv_bind H. by eapply peek_at_bound. Qed.

Lemma peek_at_ends buf off n : peek_at buf off n <> NoFuel.
Proof. unfold peek_at. by destruct (_ && _). Qed.

Lemma load_at_ends buf off n : load_at buf off n <> NoFuel.
Proof. unfold load_at. pose proof (peek_at_ends buf off n). by destruct (peek_at _ _ _). Qed.

Lemma parse_attrs_ends buf : forall fuel off rtlen dst gw,
  Z.of_nat (length buf) - off < 4 * Z.of_nat fuel -> (0 < fuel)%nat -> parse_attrs fuel buf off rtlen dst gw <> NoFuel.
Proof.
  induction fuel as [|fuel IH]; intros off rtlen dst gw Hf Hp; [lia|]. cbn [parse_attrs]. unfold RTA_OK.
  destruct (rtlen <? 4); [done|]. destruct (load_at buf off 2) as [n| | |] eqn:E; cbn [mbind outcome_bind]; try done;
    [|by destruct (load_at_ends buf off 2)].
  pose proof (load_at_bound _ _ _ _ E) as Hb. destruct ((4 <=? n) && (n <=? rtlen)) eqn:Ec; [|done]. to_prop.
  pose proof (load_at_ends buf (off + 2) 2). destruct (load_at buf (off + 2) 2) as [t| | |] eqn:Et; cbn [mbind outcome_bind]; try done.
  pose proof (load_at_bound _ _ _ _ Et) as Hb2.
  pose proof (peek_at_ends buf (off + 4) 4). pose proof (align4_spec n).
  assert (Hgo : forall dst gw, parse_attrs fuel buf (off + align4 n) (rtlen - align4 n) dst gw <> NoFuel).
  { intros dst' gw'. destruct fuel; [|apply IH; lia]. lia. }
  destruct (t =? RTA_GATEWAY); [|destruct (t =? RTA_DST); [|apply Hgo]]; destruct (peek_at _ _ _); cbn [mbind outcome_bind]; try done;
    apply Hgo.
Qed.

Lemma gateway_loop_ends buf : forall fuel off len dst gw,
  Z.of_nat (length buf) <= 8192 -> 0 <= off -> Z.of_nat (length buf) - off < 16 * Z.of_nat fuel -> (0 < fuel)%nat ->
  gateway_loop fuel buf off len dst gw <> NoFuel.
Proof.
  induction fuel as [|fuel IH]; intros off len dst gw Hbuf Hoff Hf Hp; [lia|]. cbn [gateway_loop]. unfold NLMSG_OK.
  destruct (u32 len <? 16); [done|]. unfold nlmsg_len.
  destruct (load_at buf off 4) as [n| | |] eqn:E; cbn [mbind outcome_bind]; try done; [|by destruct (load_at_ends buf off 4)].
  pose proof (load_at_bound _ _ _ _ E) as Hb. destruct ((16 <=? n) && (n <=? u32 len)) eqn:Ec; [|done]. to_prop.
  unfold parseRoutes, nlmsg_len. rewrite E. cbn [mbind outcome_bind].
  pose proof (load_at_ends buf (off + 16) 1). destruct (load_at buf (off + 16) 1) eqn:E1; cbn [mbind outcome_bind]; try done.
  pose proof (load_at_bound _ _ _ _ E1) as Hb1. pose proof (align4_spec n).
  assert (Hgo : forall dst gw, gateway_loop fuel buf (off + align4 n) (i32 (len - align4 n)) dst gw <> NoFuel).
  { intros dst' gw'. destruct fuel; [|apply IH; lia]. lia. }
  pose proof (load_at_ends buf (off + 16 + 4) 1).
  destruct (negb (_ =? AF_INET)); cbn [mbind outcome_bind]; [cbn [Z.eqb Pos.eqb negb andb]; apply Hgo|].
  destruct (load_at buf (off + 16 + 4) 1); cbn [mbind outcome_bind]; try done.
  destruct (negb _); cbn [mbind outcome_bind]; [cbn [Z.eqb Pos.eqb negb andb]; apply Hgo|].
  pose proof (parse_attrs_ends buf max_attrs (off + 28) (i32 (n - 28)) dst gw ltac:(unfold max_attrs; lia) ltac:(unfold max_attrs; lia)) as Ha.
  destruct (parse_attrs _ _ _ _ _ _) as [[d g]| | |]; cbn [mbind outcome_bind]; try done.
  cbn [Z.eqb negb andb]. destruct (unle d =? 0); [done|apply Hgo].
Qed.

(** *** The netmask *)

Definition size (m : Z) : Z := if m =? 0 then 0 else Z.log2 m + 1.

Lemma size_shift m : 0 < m -> size (Z.shiftr m 1) = size m - 1.
Proof.
  intros Hm. unfold size. rewrite Z.shiftr_div_pow2 by lia. change (2 ^ 1) with 2.
  rewrite (proj2 (Z.eqb_neq m 0)) by lia. destruct (Z.eqb_spec (m / 2) 0) as [H|H].
  - assert (m = 1) as -> by (pose proof (Z.div_mod m 2); pose proof (Z.mod_pos_bound m 2); lia). done.
  - assert (1 <= m / 2) by (pose proof (Z.div_pos m 2); lia).
    assert (Z.log2 m = Z.succ (Z.log2 (m / 2))); [|lia].
    pose proof (Z.log2_shiftr m 1 Hm) as Hl. rewrite Z.shiftr_div_pow2 in Hl by lia. change (2 ^ 1) with 2 in Hl.
    pose proof (Z.log2_pos m ltac:(pose proof (Z.div_mod m 2); pose proof (Z.mod_pos_bound m 2); lia)). lia.
Qed.

Lemma mask_loop_size : forall fuel m n, 0 <= m < 2 ^ Z.of_nat fuel -> mask_loop (S fuel) m n = Ret (n - size m).
Proof.
  induction fuel as [|fuel IH]; intros m n Hm.
  - assert (m = 0) as -> by (cbn in Hm; lia). cbn. f_equal. lia.
  - change (mask_loop (S (S fuel)) m n) with (if m =? 0 then Ret n else mask_loop (S fuel) (Z.shiftr m 1) (n - 1)).
    destruct (Z.eqb_spec m 0) as [->|Hne]; [cbn; f_equal; lia|]. rewrite IH.
    + rewrite size_shift by lia. f_equal. lia.
    + rewrite Nat2Z.inj_succ, Z.pow_succ_r in Hm by lia. rewrite Z.shiftr_div_pow2 by lia. change (2 ^ 1) with 2.
      split; [apply Z.div_pos; lia|apply Z.div_lt_upper_bound; lia].
Qed.

Lemma size_bits m : 0 <= m -> (forall i, size m <= i -> Z.testbit m i = false) /\ (0 < size m -> Z.testbit m (size m - 1) = true).
Proof.
  intros Hm. unfold size. destruct (Z.eqb_spec m 0) as [->|Hne]; [split; [intros; apply Z.bits_0|lia]|]. split.
  - intros i Hi. apply Z.bits_above_log2; lia.
  - intros _. rewrite Z.add_simpl_r. apply Z.bit_log2. lia.
Qed.

Lemma le_unle n bs : length bs = n -> Forall (fun b => 0 <= b < 256) bs -> le n (unle bs) = bs.
Proof.
  revert n. induction bs as [|b bs IH]; intros n <- Hb; [done|]. apply Forall_cons in Hb as [Hb Hbs]. cbn [length le unle]. f_equal.
  - unfold u8. change (2 ^ 8) with 256. rewrite (Z.mul_comm 256), Z.mod_add by lia. apply Z.mod_small. lia.
  - rewrite (Z.mul_comm 256), Z.div_add, (Z.div_small b) by lia. by apply IH.
Qed.


(** *** The exchange with the kernel *)

Lemma store_at_off buf bs : (length bs <= length buf)%nat -> at_off (store_at buf 0 bs) 0 bs /\ length (store_at buf 0 bs) = length buf.
Proof.
  intros Hl. change (store_at buf 0 bs) with (bs ++ drop (length bs) buf). split.
  - split; [rewrite length_app; lia|]. by eexists.
  - rewrite length_app, length_drop. lia.
Qed.

(** The kernel answers the request with a dump whose first datagram has the
    routes, and perhaps the end of the dump. *)
Record answers (h : host) (sock pid : Z) (routes : list route) (done : option Z) : Prop := {
  an_socket : sock <> -1 /\ forall cs, h_ret h cs (Socket 16 2 0) = sock;
  an_pid : 0 <= pid < 2 ^ 32 /\ forall cs, h_ret h cs Getpid = pid;
  an_send : forall cs m, h_ret h cs (Send sock m) <> -1;
  an_recv : forall cs, h_ret h cs (Recv sock 8192) = Z.of_nat (length (datagram routes done)) /\
                       h_data h cs (Recv sock 8192) = datagram routes done;
}.

(** The header of a message in reply to the process [pid]: one of several. *)
Definition reply_to (pid : Z) (r : route) : Prop := rt_pid r = pid /\ 0 <= rt_nlflags r < 2 ^ 16 /\ Z.testbit (rt_nlflags r) 1 = true.

Lemma length_datagram l done : 28 * Z.of_nat (length l) <= Z.of_nat (length (datagram l done)).
Proof. unfold datagram. rewrite length_app, Nat2Z.inj_add. pose proof (length_dump l). lia. Qed.

Lemma readRoutes_dump h fuel sock pid r l done buf s :
  answers h sock pid (r :: l) done -> reply_to pid r -> length buf = Z.to_nat 8192 -> Z.of_nat (length (datagram (r :: l) done)) <= 8192 ->
  readRoutes h (S fuel) sock 8192 0 pid 0 0 buf s =
  Ok (Z.of_nat (length (datagram (r :: l) done)), store_at buf 0 (datagram (r :: l) done)) (upd_calls (fun cs => cs ++ [Recv sock 8192]) s).
Proof.
  intros [_ [Hpid _] _ Hrecv] (<- & Hfl & Hmulti) Hb Hlen. destruct (store_at_off buf (datagram (r :: l) done)) as [Ha Hl]; [lia|].
  pose proof (length_datagram (r :: l) done) as Hmin. cbn [length] in Hmin.
  assert (Hn : 28 + Z.of_nat (length (enc_attrs (rt_attrs r))) <= Z.of_nat (length (datagram (r :: l) done))).
  { unfold datagram, dump. cbn [map concat]. rewrite !length_app, <- length_enc_route. lia. }
  set (d := datagram (r :: l) done) in *. set (buf' := store_at buf 0 d) in *.
  assert (Ha' : at_off buf' 0 (enc_header (28 + Z.of_nat (length (enc_attrs (rt_attrs r)))) 24 (rt_nlflags r) (rt_pid r) ++
    ([rt_family r; rt_dst_len r; rt_src_len r; rt_tos r] ++ [rt_table r] ++ [rt_protocol r; rt_scope r; rt_type r] ++
    le 4 (rt_flags r) ++ enc_attrs (rt_attrs r)) ++ dump l ++ enc_done done)) by (rewrite !app_assoc in *; exact Ha).
  apply header_fields in Ha' as (H1 & T1 & T2 & T3 & T4); [|lia..]. clearbody d.
  cbn [readRoutes]. unfold mbind, prog_bind, sys_data. change (8192 - 0) with 8192. destruct (Hrecv (calls s)) as [-> ->].
  rewrite (proj2 (Z.eqb_neq _ _)), Nat2Z.id, take_ge by lia. fold buf'.
  unfold NLMSG_OK. rewrite u32_small by lia. rewrite (proj2 (Z.ltb_ge _ _)), H1 by lia. cbn [mbind outcome_bind of_outcome mret prog_ret].
  rewrite (proj2 (Z.leb_le _ _)), (proj2 (Z.leb_le _ _)) by lia. cbn [andb negb]. rewrite T1. cbn [of_outcome mret prog_ret].
  cbn [Z.eqb Pos.eqb NLMSG_ERROR NLMSG_DONE]. rewrite T2, T3, T4. cbn [of_outcome mret prog_ret].
  pose proof (land_bit (rt_nlflags r) 1 ltac:(lia)) as Hbit. change (Z.shiftl 1 1) with NLM_F_MULTI in Hbit. rewrite Hmulti in Hbit.
  apply negb_true_iff in Hbit. rewrite Hbit. by rewrite !Z.eqb_refl.
Qed.

Lemma get_gateway_dump h buf0 dest0 gw0 sock pid r l done s :
  answers h sock pid (r :: l) done -> reply_to pid r -> Forall route_ok (r :: l) ->
  length buf0 = Z.to_nat 8192 -> Z.of_nat (length (datagram (r :: l) done)) <= 8192 ->
  exists s', get_gateway h buf0 dest0 gw0 s = Ok (first_default (r :: l) dest0 gw0) s' /\ environ s' = environ s.
Proof.
  intros Han Hp Hok Hb Hlen. pose proof Han as [[Hs1 Hs2] [Hp1 Hp2] Hsend _].
  pose proof (length_datagram (r :: l) done) as Hmin. unfold get_gateway. unfold mbind, prog_bind. unfold sys at 1. rewrite Hs2.
  rewrite (proj2 (Z.eqb_neq _ _) Hs1). unfold sys at 1. rewrite Hp2. set (hdr := le 4 28 ++ _).
  destruct (store_at_off buf0 hdr) as [_ Hb1].
  { rewrite Hb. unfold hdr. rewrite !length_app, !length_le. lia. }
  unfold sys at 1. rewrite (proj2 (Z.eqb_neq _ _) (Hsend _ _)).
  change max_msgs with (S (Z.to_nat 512)). rewrite (readRoutes_dump _ _ _ _ r l done) by (done || congruence).
  destruct (store_at_off (store_at buf0 0 hdr) (datagram (r :: l) done)) as [Ha Hl]; [lia|].
  rewrite (proj2 (Z.eqb_neq _ _)) by (cbn [length] in *; lia).
  rewrite gateway_loop_dump; [|lia|done|exact Ha|lia]. cbn [of_outcome mret prog_ret].
  destruct (first_default (r :: l) dest0 gw0) as [ret gw]. by eexists.
Qed.

End NetlinkFacts.

(** ** Guarantees of the network set-up *)

Module LoaderProperties.
Import Host Wire FrameFacts Netlink NetlinkFacts.


(** The address of a route is only stored when the route has one, and is not
    reset between routes: a default route, which has none, is missed when it comes
    after a route of the main table with an address other than 0.0.0.0. *)
Theorem later_default_missed h buf0 dest0 gw0 sock pid r l done s :
  answers h sock pid (r :: l) done -> reply_to pid r -> Forall route_ok (r :: l) ->
  length buf0 = Z.to_nat 8192 -> Z.of_nat (length (datagram (r :: l) done)) <= 8192 ->
  main_ipv4 r = true -> unle (take_attrs (rt_attrs r) dest0 gw0).1 <> 0 ->
  Forall (fun r => Forall (fun a => a.1 <> RTA_DST) (rt_attrs r)) l ->
  exists gw s', get_gateway h buf0 dest0 gw0 s = Ok (-1, gw) s'.
Proof.
  intros Han Hp Hok Hb Hlen Hmain Hdst Hl.
  destruct (get_gateway_dump h buf0 dest0 gw0 sock pid r l done s Han Hp Hok Hb Hlen) as (s' & Hs & _). rewrite Hs.
  cbn [first_default]. rewrite Hmain. destruct (take_attrs (rt_attrs r) dest0 gw0) as [dst gw]. cbn [fst] in Hdst.
  rewrite (proj2 (Z.eqb_neq _ _) Hdst). clear -Hdst Hl. induction l as [|r' l IH] in dst, gw, Hdst, Hl |- *; [by eexists _, _|].
  apply Forall_cons in Hl as [Hr Hl]. cbn [first_default]. destruct (main_ipv4 r'); [|by apply IH].
  assert (Ht : forall l dst gw, Forall (fun a => a.1 <> RTA_DST) l -> (take_attrs l dst gw).1 = dst).
  { clear. induction l as [|[t d] l IH]; intros dst gw Hl; [done|]. apply Forall_cons in Hl as [Ht Hl]. cbn [take_attrs fst] in *.
    by rewrite (proj2 (Z.eqb_neq _ _) Ht), IH. }
  specialize (Ht _ dst gw Hr). destruct (take_attrs (rt_attrs r') dst gw) as [dst' gw']. cbn [fst] in Ht. subst dst'.
  rewrite (proj2 (Z.eqb_neq _ _) Hdst). by apply IH.
Qed.

(** The prefix length written to FIXED_MASK is the number of leading one bits
    of the netmask, whatever the netmask. *)
Theorem prefix_length_counts a b c d :
  Forall (fun x => 0 <= x < 256) [a; b; c; d] ->
  let mask := 2 ^ 24 * a + 2 ^ 16 * b + 2 ^ 8 * c + d in
  exists n, prefix_length [a; b; c; d] = Ret n /\ 0 <= n <= 32 /\
    (forall i, 32 - n <= i < 32 -> Z.testbit mask i = true) /\ (n < 32 -> Z.testbit mask (31 - n) = false).
Proof.
  intros Hb mask. pose proof Hb as [Ha [Hbb [Hc [Hd _]%Forall_cons]%Forall_cons]%Forall_cons]%Forall_cons.
  assert (Hm : htonl (unle [a; b; c; d]) = mask).
  { unfold htonl. rewrite le_unle by done. cbn. unfold mask. lia. }
  unfold prefix_length. rewrite Hm. set (m := u32 (Z.lnot mask)).
  assert (Hr : 0 <= m < 2 ^ 32) by (unfold m, u32; apply Z.mod_pos_bound; lia).
  rewrite (mask_loop_size 32) by exact Hr. exists (32 - size m). split; [done|].
  assert (Hbit : forall i, 0 <= i < 32 -> Z.testbit mask i = negb (Z.testbit m i)).
  { intros i Hi. unfold m, u32. rewrite Z.mod_pow2_bits_low, Z.lnot_spec by lia. by rewrite negb_involutive. }
  destruct (size_bits m ltac:(lia)) as [S1 S2].
  assert (Hs : 0 <= size m <= 32).
  { unfold size in *. destruct (Z.eqb_spec m 0) as [|Hne]; [lia|]. pose proof (Z.log2_nonneg m).
    assert (Z.log2 m < 32) by (apply Z.log2_lt_pow2; lia). lia. }
  split_and!; [lia|lia| |].
  - intros i Hi. rewrite Hbit, S1 by lia. done.
  - intros Hlt. rewrite Hbit by lia. replace (31 - (32 - size m)) with (size m - 1) by lia. by rewrite S2 by lia.
Qed.

(** *** Witnesses *)

(** A default route and the route of a network, as the kernel prints them: from
    the boot and from the kernel, of universe and of link scope, unicast. *)
Definition demo_default : route :=
  Route 2 77 2 0 0 0 254 3 0 1 0 [(15, [254; 0; 0; 0]); (RTA_GATEWAY, [172; 17; 0; 1]); (4, [2; 0; 0; 0])].
Definition demo_network : route :=
  Route 2 77 2 16 0 0 254 2 253 1 0 [(15, [254; 0; 0; 0]); (RTA_DST, [172; 17; 0; 0]); (7, [172; 17; 0; 2]); (4, [2; 0; 0; 0])].
Definition demo_routes : list route := [demo_default; demo_network].

Definition demo_host (routes : list route) (done : option Z) : host :=
  MkHost (fun _ c => match c with
                     | Socket _ _ _ => 5 | Getpid => 77 | Recv _ _ => Z.of_nat (length (datagram routes done)) | _ => 0
                     end)
         (fun _ c => match c with Recv _ _ => datagram routes done | _ => [] end) (fun _ _ => 0) (fun _ _ => 0).

Lemma demo_answers routes done : answers (demo_host routes done) 5 77 routes done.
Proof. split; try done. Qed.

Lemma demo_routes_ok : Forall route_ok demo_routes /\ Forall route_ok (rev demo_routes).
Proof. unfold demo_routes, route_ok, attr_ok. cbn [rev app]. repeat constructor; cbn; (done || lia). Qed.


Lemma later_default_missed_witness :
  exists gw s', get_gateway (demo_host (rev demo_routes) None) (repeat 0 (Z.to_nat 8192)) [0; 0; 0; 0] [0; 0; 0; 0] (state0 []) =
                  Ok (-1, gw) s'.
Proof.
  apply (later_default_missed (demo_host (rev demo_routes) None) (repeat 0 (Z.to_nat 8192)) [0; 0; 0; 0] [0; 0; 0; 0] 5 77
    demo_network [demo_default] None (state0 []));
    [apply demo_answers|done|apply demo_routes_ok|apply repeat_length|vm_compute; done|done|vm_compute; done|].
  repeat constructor; vm_compute; done.
Defined.

Lemma prefix_length_counts_witness :
  exists n, prefix_length [255; 255; 240; 0] = Ret n /\ n = 20.
Proof.
  destruct (prefix_length_counts 255 255 240 0) as (n & Hn & _); [repeat constructor; lia|].
  exists n. split; [exact Hn|]. vm_compute in Hn. injection Hn as <-. reflexivity.
Defined.

End LoaderProperties.
