(* ===== verification/Rexec.v ===== *)
(** * The loader: the command line, the sandbox and the execution of the program

    [tools/rexec.c], and the seccomp filter of [tools/linux.c].  [main] reads the
    command line and opens what it names, drops privileges, restricts the system
    calls to the descriptors that are open, describes the descriptors in the
    environment and executes the program, which [__franken_fdinit] (file [Boot])
    is the first part of.

    The configurations SECCOMP and EXECVEAT are a parameter; the system calls are
    those of x86_64.  libseccomp is a parameter too: the model records the rules
    that were added to the filter. *)

From S2P Require Import Prelude Libc Platform Fdtable Boot Spwire Loader.
From Stdlib Require Import ZArith Lia String.
From stdpp Require Import base numbers list.
Local Open Scope Z_scope.

#[local] Arguments lit _ : simpl never.

Module Sandbox.
Import Host.

Record config : Type := Config { seccomp : bool; execveat : bool }.

Definition ARCH_SET_FS : Z := 4098.
Definition SIGABRT : Z := 6.
Definition PROT_EXEC : Z := 4.
Definition O_RDONLY : Z := 0.
Definition O_WRONLY : Z := 1.
Definition O_RDWR : Z := 2.
Definition O_ACCMODE : Z := 3.
Definition O_CLOEXEC : Z := 524288.
Definition F_GETFL : Z := 3.
Definition BLKGETSIZE64 : Z := 2148012658.
Definition TUNGETIFF : Z := 2147767506.
Definition TUNSETIFF : Z := 1074025674.
Definition SIOCGIFHWADDR : Z := 35111.
Definition SIOCGIFNAME : Z := 35088.
Definition AT_EMPTY_PATH : Z := 4096.

(** A value as the 64-bit datum of a comparison. *)
Definition SCMP_A (n : nat) (v : Z) : scmp := SCMP_CMP_EQ n (u64 v).

Section Filter.
Variable h : host.
Variable cf : config.
(** The addresses of the empty string, the arguments and the environment. *)
Variable emptystring_addr argv_addr envp_addr : Z.

(** A rule that could not be added is not in the filter. *)
Definition seccomp_rule_add (r : rule) : prog Z :=
  ret ← sys h (Seccomp_rule_add r);
  _ ← modify (if ret <? 0 then id else upd_ctx (fun l => l ++ [r]));
  mret ret.

(** Rules one after the other, up to the first that fails. *)
Fixpoint add_rules (l : list rule) : prog Z :=
  match l with
  | [] => mret 0
  | r :: l => ret ← seccomp_rule_add r; if ret <? 0 then mret ret else add_rules l
  end.

(** The rules of [os_init]. *)
Definition base_rules (nx : bool) : list rule :=
  [Rule SYS_arch_prctl [SCMP_A 0 ARCH_SET_FS]; Rule SYS_exit []; Rule SYS_exit_group []; Rule SYS_clock_gettime [];
   Rule SYS_clock_getres []; Rule SYS_clock_nanosleep []; Rule SYS_getrandom [];
   Rule SYS_kill [SCMP_A 0 0; SCMP_A 1 SIGABRT];
   Rule SYS_mmap (if nx then [SCMP_CMP_MASKED_EQ 2 PROT_EXEC 0; SCMP_A 4 (-1)] else [SCMP_A 4 (-1)]);
   Rule SYS_mprotect (if nx then [SCMP_CMP_MASKED_EQ 2 PROT_EXEC 0] else []);
   Rule SYS_munmap []; Rule SYS_fstat []; Rule SYS_ppoll []].

Definition os_init (program : str) (nx : bool) : prog Z :=
  if negb (seccomp cf) then (if nx then exit 1 else mret 0)
  else
    ctx ← sys h Seccomp_init;
    if ctx =? 0 then mret (-1)
    else
      _ ← (if execveat cf then
             fd ← sys_or_exit h (Open program (Z.lor O_RDONLY O_CLOEXEC)); modify (upd_pfd (fun _ => fd))
           else mret tt);
      add_rules (base_rules nx).

(** Rules that all name the same descriptor. *)
Definition fd_rules (fd : Z) (l : list sysno) : list rule := map (fun n => Rule n [SCMP_A 0 fd]) l.

Definition is_mode (mode kind : Z) : bool := Z.land mode FdTable.S_IFMT =? kind.

Definition readable (flags : Z) : bool :=
  (Z.land flags O_ACCMODE =? O_RDONLY) || (Z.land flags O_ACCMODE =? O_RDWR).
Definition writable (flags : Z) : bool :=
  (Z.land flags O_ACCMODE =? O_WRONLY) || (Z.land flags O_ACCMODE =? O_RDWR).

(** The rules that do not depend on the flags. *)
Definition other_rules (fd mode : Z) : list rule :=
  [Rule SYS_fsync [SCMP_A 0 fd]; Rule SYS_fcntl [SCMP_A 0 fd; SCMP_A 1 F_GETFL]] ++
  (if is_mode mode FdTable.S_IFBLK then [Rule SYS_ioctl [SCMP_A 0 fd; SCMP_A 1 BLKGETSIZE64]] else []) ++
  (if is_mode mode FdTable.S_IFCHR then
     [Rule SYS_ioctl [SCMP_A 0 fd; SCMP_A 1 TUNGETIFF]; Rule SYS_ioctl [SCMP_A 0 fd; SCMP_A 1 TUNSETIFF];
      Rule SYS_ioctl [SCMP_A 0 fd; SCMP_A 1 SIOCGIFHWADDR]] else []) ++
  (if is_mode mode FdTable.S_IFSOCK then
     [Rule SYS_ioctl [SCMP_A 0 fd; SCMP_A 1 SIOCGIFHWADDR]; Rule SYS_ioctl [SCMP_A 0 fd; SCMP_A 1 SIOCGIFNAME];
      Rule SYS_getsockname [SCMP_A 0 fd]] else []).

(** [filter_fd]; the result of the last rule of the reads, and of the writes, is
    not looked at. *)
Definition filter_fd (fd flags mode : Z) : prog Z :=
  if negb (seccomp cf) then mret 0
  else
    ret ← (if readable flags then
             ret ← add_rules (fd_rules fd [SYS_read; SYS_pread64; SYS_readv]);
             if ret <? 0 then mret ret else _ ← seccomp_rule_add (Rule SYS_preadv [SCMP_A 0 fd]); mret 0
           else mret 0);
    if ret <? 0 then mret ret
    else
      ret ← (if writable flags then
               ret ← add_rules (fd_rules fd [SYS_write; SYS_pwrite64; SYS_writev]);
               if ret <? 0 then mret ret else _ ← seccomp_rule_add (Rule SYS_pwritev [SCMP_A 0 fd]); mret 0
             else mret 0);
      if ret <? 0 then mret ret
      else
        add_rules (other_rules fd mode).

(** Another program takes over, or the call fails. *)
Definition exec_ (c : oscall) (im : image) : prog Z := fun s =>
  if h_ret h (calls s) c =? -1 then Exit 1 (upd_calls (fun l => l ++ [c]) s) else Exec im (upd_calls (fun l => l ++ [c]) s).

Definition filter_load_exec (im : image) : prog Z :=
  if negb (seccomp cf) then exec_ (Execve im) im
  else
    s ← get;
    ret ← seccomp_rule_add
            (if execveat cf then
               Rule SYS_execveat [SCMP_A 0 (pfd s); SCMP_A 1 emptystring_addr; SCMP_A 2 argv_addr; SCMP_A 3 envp_addr; SCMP_A 4 AT_EMPTY_PATH]
             else Rule SYS_execve []);
    if ret <? 0 then mret ret
    else
      ret ← sys h Seccomp_load;
      if ret <? 0 then mret ret
      else
        _ ← sys_ h Seccomp_release;
        if execveat cf then exec_ (Execveat (pfd s) im) im else exec_ (Execve im) im.

(** [emptydir] of rexec.c; its result is not looked at. *)
Definition emptydir (O_DIRECTORY : Z) : prog unit :=
  dirfd ← sys h (Open (lit ".") O_DIRECTORY);
  if dirfd =? -1 then mret tt
  else
    '(r, dir) ← sys_data h (Mkdtemp (lit "/tmp/dirXXXXXX"));
    if r =? 0 then mret tt
    else
      r ← sys h (Chdir dir);
      if r =? -1 then mret tt
      else
        r ← sys h (Unlinkat dirfd dir);
        if r =? -1 then mret tt
        else
          r ← sys h (Close dirfd);
          if r =? -1 then mret tt
          else
            r ← sys h (Chroot (lit "."));
            if r =? 0 then
              r ← sys h (Chdir (lit "/"));
              if r =? -1 then mret tt else sys_ h (Chmod (lit ".") 0)
            else mret tt.

Definition os_emptydir : prog unit := if seccomp cf && execveat cf then emptydir 65536 else mret tt.

Definition os_dropcaps : prog unit := _ ← sys_or_exit h Capset; mret tt.

(** The random source, where [getrandom] is missing, and a socket. *)
Definition os_extrafiles : prog unit :=
  '(r, errno) ← sys_errno h Getrandom;
  _ ← (if (r =? -1) && (errno =? 38) then _ ← sys_or_exit h (Open (lit "/dev/urandom") O_RDONLY); mret tt else mret tt);
  '(_, socks) ← sys_data h Socketpair;
  sys_ h (Close (Wire.unle (take 4 (drop 4 socks)))).

End Filter.
End Sandbox.

Module Rexec.
Import Host Sandbox.

Definition FDINFO_NAME_CONFIGJSON : str := lit "__RUMP_FDINFO_CONFIGJSON".
Definition FDINFO_ENV_PREFIX_NET : str := lit "__RUMP_FDINFO_NET_".
Definition FDINFO_ENV_PREFIX_DISK : str := lit "__RUMP_FDINFO_DISK_".
Definition FDINFO_ENV_PREFIX_ROOT : str := lit "__RUMP_FDINFO_ROOT".

(** What the command line says. *)
Record opts : Type := Opts {
  program : option str;
  pargs : list str;                     (* pargs, up to p *)
  mode : Z;
  nx : bool;
  user : Z;
  group : Z;
}.

Definition opts0 : opts := Opts None [] O_RDWR false 0 0.
Definition set_program p o := Opts (Some p) (pargs o ++ [p]) (mode o) (nx o) (user o) (group o).
Definition set_mode m o := Opts (program o) (pargs o) m (nx o) (user o) (group o).
Definition set_nx o := Opts (program o) (pargs o) (mode o) true (user o) (group o).
Definition set_user u o := Opts (program o) (pargs o) (mode o) (nx o) u (group o).
Definition set_group g o := Opts (program o) (pargs o) (mode o) (nx o) (user o) g.

(** [atoi] of the host, and its conversion to [uid_t]. *)
Definition atoi (s : str) : prog Z :=
  Netlink.of_outcome (match Str.skip_spaces s with 43 :: s => Str.digits_from 1 0 s | _ => Str.atoi_bytes s end).
Definition atoi_uid (s : str) : prog Z := n ← atoi s; mret (u32 n).

(** [strchr(s, ':')]: what comes before and after it. *)
Fixpoint split_colon (s : str) : option (str * str) :=
  match s with
  | [] => None
  | c :: s => if c =? 58 then Some ([], s) else match split_colon s with Some (a, b) => Some (c :: a, b) | None => None end
  end.

(** [strtok] with [":"]: the parts that are not empty. *)
Fixpoint strtok_colon (cur : str) (s : str) : list str :=
  match s with
  | [] => if bool_decide (cur = []) then [] else [cur]
  | c :: s =>
      if c =? 58 then (if bool_decide (cur = []) then [] else [cur]) ++ strtok_colon [] s else strtok_colon (cur ++ [c]) s
  end.

(** What the loader asks of the host's own file (rexec.h): linux.c, freebsd.c,
    netbsd.c and darwin.c implement it; and the host's numbers for what rexec.c
    itself uses.  The results of [os_emptydir], [os_dropcaps], [os_extrafiles]
    and [os_pre] are not looked at. *)
Record os_ops : Type := OsOps {
  op_O_NONBLOCK : Z;
  op_O_CREAT : Z;
  op_O_APPEND : Z;
  op_FIONBIO : Z;
  op_stat_size : Z;                     (* sizeof(struct stat) *)
  op_init : str -> bool -> prog Z;
  op_emptydir : prog unit;
  op_dropcaps : prog unit;
  op_extrafiles : prog unit;
  op_pre : prog unit;
  op_open : str -> str -> prog Z;
  op_filter_fd : Z -> Z -> Z -> prog Z;
  op_load_exec : image -> prog Z;
}.

(** linux.c; [buf0], [dest0], [gw0] and [after_string] are in memory before it is
    written to (see [Netlink]). *)
Definition linux_os (h : host) (cf : config) (emptystring_addr argv_addr envp_addr : Z)
    (buf0 dest0 gw0 after_string : list Z) : os_ops := {|
  op_O_NONBLOCK := Netlink.O_NONBLOCK;
  op_O_CREAT := 64;
  op_O_APPEND := 1024;
  op_FIONBIO := 21537;
  op_stat_size := 144;
  op_init := os_init h cf;
  op_emptydir := os_emptydir h cf;
  op_dropcaps := os_dropcaps h;
  op_extrafiles := os_extrafiles h;
  op_pre := mret tt;
  op_open := Netlink.os_open h buf0 dest0 gw0 after_string;
  op_filter_fd := filter_fd h cf;
  op_load_exec := filter_load_exec h cf emptystring_addr argv_addr envp_addr;
|}.

Section Main.
Variable h : host.
Variable os : os_ops.

(** An entry of [fdinfo_list]: 64 names of 63 characters. *)
Definition record_fd (name : str) (fd : Z) : prog unit :=
  s ← get;
  if (64 <=? length name)%nat || (64 <=? length (fdinfo_list s))%nat then wild
  else modify (upd_fdinfo (fun l => l ++ [(name, fd)])).

Definition fdinfo_setenv : prog unit :=
  s ← get;
  modify (upd_environ (fun env =>
    fold_left (fun env e => setenv e.1 (snprintf 8 (Str.print_dec e.2)) true env) (fdinfo_list s) env)).

(** The file that backs a descriptor of the guest is made non-blocking. *)
Definition set_nonblock (fd : Z) : prog unit :=
  fl ← sys_or_exit h (Fcntl_getfl fd);
  _ ← sys_or_exit h (Fcntl_setfl fd (Z.lor fl (op_O_NONBLOCK os)));
  mret tt.

(** The console: a file for output, and nothing for input. *)
Definition console_open (post : str) : prog Z :=
  fd ← sys_or_exit h (Open post (Z.lor (Z.lor O_WRONLY (op_O_CREAT os)) (op_O_APPEND os)));
  _ ← sys_or_exit h (Dup2 fd 1);
  _ ← sys_or_exit h (Dup2 fd 2);
  _ ← sys_ h (Close fd);
  fd ← sys h (Open (lit "/dev/null") O_RDONLY);
  _ ← sys_or_exit h (Dup2 fd 0);
  _ ← sys_ h (Close fd);
  mret (-1).

Definition colon_open (pre post : str) (mode : Z) : prog Z :=
  if bool_decide (pre = lit "console") then console_open post
  else if bool_decide (pre = lit "config") then sys_or_exit h (Open post O_RDONLY)
  else if bool_decide (pre = lit "rootfs") then
    fd ← sys_or_exit h (Open post mode);
    _ ← set_nonblock fd;
    _ ← record_fd FDINFO_ENV_PREFIX_ROOT fd;
    mret fd
  else
    fd ← op_open os pre post;
    _ ← exit_if (fd =? -1);
    mret fd.

(** An argument that names a file or a device. *)
Definition open_arg (arg : str) (mode : Z) : prog unit :=
  match split_colon arg with
  | Some (pre, post) =>
      r ← sys h (Strdup pre);
      if r =? 0 then wild
      else
        fd ← colon_open pre post mode;
        if fd =? -1 then mret tt
        else if bool_decide (pre = lit "config") then record_fd FDINFO_NAME_CONFIGJSON fd
        else if bool_decide (pre = lit "tun") || bool_decide (pre = lit "tap") || bool_decide (pre = lit "packet") ||
                bool_decide (pre = lit "docker") then record_fd (FDINFO_ENV_PREFIX_NET ++ post) fd
        else mret tt
  | None =>
      fd ← sys_or_exit h (Open arg mode);
      _ ← set_nonblock fd;
      record_fd (FDINFO_ENV_PREFIX_DISK ++ arg) fd
  end.

Definition noroot : prog unit :=
  fd ← sys_or_exit h (Open (lit "/dev/null") O_RDONLY);
  exit_if (negb (fd =? 3)).

(** The loop over the arguments after the program: what the options say, and the
    arguments after ["--"]. *)
Fixpoint parse_args (args : list str) (o : opts) : prog (opts * list str) :=
  match args with
  | [] => mret (o, [])
  | arg :: args =>
      if bool_decide (arg = lit "-h") then exit 1
      else if bool_decide (arg = lit "-ro") then parse_args args (set_mode O_RDONLY o)
      else if bool_decide (arg = lit "-rw") then parse_args args (set_mode O_RDWR o)
      else if bool_decide (arg = lit "-nx") then parse_args args (set_nx o)
      else if bool_decide (arg = lit "-u") then
        match args with
        | [] => exit 1
        | a :: args => u ← atoi_uid a; _ ← exit_if (u =? 0); parse_args args (set_user u o)
        end
      else if bool_decide (arg = lit "-g") then
        match args with
        | [] => exit 1
        | a :: args => g ← atoi_uid a; _ ← exit_if (g =? 0); parse_args args (set_group g o)
        end
      else if bool_decide (arg = lit "-noroot") then _ ← noroot; parse_args args o
      else if bool_decide (arg = lit "--") then mret (o, args)
      else if bool_decide (arg = lit "-v") then
        match args with
        | [] => exit 1
        | a :: args => _ ← modify (upd_9pfs (fun _ => Some a)); parse_args args o
        end
      else _ ← open_arg arg (mode o); parse_args args o
  end.

(** The first argument is the program, whatever it is but ["-h"]. *)
Definition parse (args : list str) : prog (opts * list str) :=
  match args with
  | [] => exit 1
  | arg :: args => if bool_decide (arg = lit "-h") then exit 1 else parse_args args (set_program arg opts0)
  end.

(** [pargs] has [argc] entries: the arguments, then null pointers. *)
Definition finish_pargs (argc : nat) (l : list str) : prog (list (option str)) :=
  if (length l <? argc)%nat then mret (map Some l ++ repeat None (argc - length l)) else wild.

(** The search in PATH. *)
Fixpoint search_path (parts : list str) (program : str) : prog str :=
  match parts with
  | [] => exit 1
  | part :: parts =>
      if (length part + 1 + length program <? 4096)%nat then
        let prog := part ++ 47 :: program in
        r ← sys h (Access prog);
        if r =? 0 then mret prog else search_path parts program
      else search_path parts program
  end.

Definition find_program (program : str) : prog str :=
  if bool_decide (47 ∈ program) then mret program
  else
    s ← get;
    match getenv (lit "PATH") (environ s) with
    | None => exit 1
    | Some path =>
        r ← sys h (Strdup path);
        if r =? 0 then wild else search_path (strtok_colon [] path) program
    end.

(** The user to run as, and the change of identity. *)
Definition drop_privileges (o : opts) : prog unit :=
  user ← (if user o =? 0 then
            e ← sys h Geteuid;
            if e =? 0 then
              u ← sys h Getuid;
              if negb (u =? 0) then sys h Getuid else mret 0
            else mret 0
          else mret (user o));
  s ← get;
  user ← (if user =? 0 then match getenv (lit "SUDO_UID") (environ s) with Some v => atoi_uid v | None => mret user end
          else mret user);
  _ ← (if negb (group o =? 0) then _ ← sys_or_exit h (Setgid (group o)); mret tt else mret tt);
  if negb (user =? 0) then _ ← sys_or_exit h (Setuid user); mret tt else mret tt.

Definition open_9pfs : prog unit :=
  s ← get;
  match spec_9pfs s with
  | None => mret tt
  | Some spec =>
      match split_colon spec with
      | None => wild
      | Some (_, guest) =>
          sock ← sys h (Socket 2 1 0);
          _ ← exit_if (sock <? 0);
          _ ← sys_ h (Ioctl sock (op_FIONBIO os) (Wire.le 4 0));
          r ← sys h (Connect sock [127; 0; 0; 1] 5640);
          _ ← exit_if (negb (r =? 0));
          _ ← set_env (lit "9PFS_MNT") guest false;
          set_env (lit "9PFS_FD") (Str.print_dec sock) false
      end
  end.

(** The number of open descriptors is the number the next one gets. *)
Definition count_fds : prog Z :=
  nfds ← sys_or_exit h (Socket 1 1 0);
  _ ← sys_or_exit h (Close nfds);
  mret nfds.

(** The remains of a check: the calls are made, their results only reported. *)
Definition report_root : prog unit :=
  u ← sys h Getuid;
  _ ← (if u =? 0 then mret tt else sys_ h Geteuid);
  sys_ h (Setuid 0).

(** The flags and the mode of each descriptor. *)
Fixpoint fd_stats (fds : list Z) : prog (list (Z * Z * Z)) :=
  match fds with
  | [] => mret []
  | fd :: fds =>
      fl ← sys_or_exit h (Fcntl_getfl fd);
      '(r, mode) ← sys_mode h (Fstat fd);
      _ ← exit_if (r =? -1);
      l ← fd_stats fds;
      mret ((fd, fl, mode) :: l)
  end.

Fixpoint filter_fds (l : list (Z * Z * Z)) : prog unit :=
  match l with
  | [] => mret tt
  | (fd, fl, mode) :: l =>
      ret ← op_filter_fd os fd fl mode;
      _ ← exit_if (ret <? 0);
      filter_fds l
  end.

(** [uuid]: 16 random bytes in groups of 4, 2, 2, 2 and 6. *)
Definition hex_digit (n : Z) : Z := if n <? 10 then 48 + n else 87 + n.
Definition hex2 (b : Z) : str := [hex_digit (b / 16); hex_digit (b mod 16)].
Definition hex (l : list Z) : str := concat (map hex2 l).
Definition uuid_string (rd : list Z) : str :=
  hex (take 4 rd) ++ 45 :: hex (take 2 (drop 4 rd)) ++ 45 :: hex (take 2 (drop 6 rd)) ++ 45 ::
  hex (take 2 (drop 8 rd)) ++ 45 :: hex (take 6 (drop 10 rd)).

Definition uuid : prog unit :=
  s ← get;
  match getenv (lit "UUID") (environ s) with
  | Some _ => mret tt
  | None =>
      fd ← sys_or_exit h (Open (lit "/dev/urandom") O_RDONLY);
      '(count, rd) ← sys_data h (Read fd 16);
      _ ← exit_if (negb (count =? 16));
      _ ← sys_or_exit h (Close fd);
      set_env (lit "UUID") (uuid_string (take 16 rd)) false
  end.

(** The array of a descriptor's flags or status, which must be there. *)
Definition calloc_fds (size nfds : Z) : prog unit :=
  p ← sys h (Calloc size nfds);
  if (p =? 0) && (0 <? nfds) then wild else mret tt.

(** [argv] is the command line after the name of the loader. *)
Definition main (argv : list str) : prog unit :=
  _ ← exit_if (bool_decide (argv = []));
  _ ← uuid;
  '(o, rest) ← parse argv;
  args ← finish_pargs (S (length argv)) (pargs o ++ rest);
  match program o with
  | None => wild
  | Some name =>
      program ← find_program name;
      '(r, mode) ← sys_mode h (Stat program);
      _ ← exit_if (r =? -1);
      _ ← exit_if (negb (is_mode mode FdTable.S_IFREG));
      ret ← op_init os program (nx o);
      _ ← exit_if (ret <? 0);
      _ ← op_emptydir os;
      _ ← drop_privileges o;
      _ ← op_dropcaps os;
      _ ← open_9pfs;
      _ ← op_extrafiles os;
      nfds ← count_fds;
      _ ← report_root;
      _ ← calloc_fds 4 nfds;
      _ ← calloc_fds (op_stat_size os) nfds;
      stats ← fd_stats (map Z.of_nat (seq 0 (Z.to_nat nfds)));
      _ ← op_pre os;
      _ ← filter_fds stats;
      _ ← fdinfo_setenv;
      s ← get;
      ret ← op_load_exec os (Image program args (environ s));
      _ ← exit_if (ret <? 0);
      exit 0
  end.

End Main.
End Rexec.

(** ** Facts: runs that get to the execution of the program *)

Module RexecFacts.
Import Host Sandbox Rexec.

(** The names that are given to descriptors. *)
Definition fd_name (n : str) : Prop :=
  n = FDINFO_NAME_CONFIGJSON \/ n = FDINFO_ENV_PREFIX_ROOT \/ (exists x, n = FDINFO_ENV_PREFIX_NET ++ x) \/
  exists x, n = FDINFO_ENV_PREFIX_DISK ++ x.

Definition names_ok (s : state) : Prop := Forall (fun e => fd_name e.1) (fdinfo_list s).

(** What the loader has done and recorded stays. *)
Definition grown (s s1 : state) : Prop := calls s `prefix_of` calls s1 /\ fdinfo_list s `prefix_of` fdinfo_list s1.

Lemma grown_refl s : grown s s.
Proof. by split. Qed.

Lemma grown_trans s1 s2 s3 : grown s1 s2 -> grown s2 s3 -> grown s1 s3.
Proof. intros [? ?] [? ?]. split; by etrans. Qed.

(** The computation does not execute another program, leaves the filter as it is
    and records descriptors under the names above. *)
Definition plain {A} (m : prog A) : Prop :=
  forall s, match m s with
            | Ok _ s1 => ctx s1 = ctx s /\ (names_ok s -> names_ok s1) /\ grown s s1
            | Exec _ _ => False
            | _ => True
            end.

Lemma plain_ok {A} (m : prog A) s a s1 : plain m -> m s = Ok a s1 -> ctx s1 = ctx s.
Proof. intros Hm Hs. specialize (Hm s). by rewrite Hs in Hm; destruct Hm. Qed.

Lemma plain_names {A} (m : prog A) s a s1 : plain m -> m s = Ok a s1 -> names_ok s -> names_ok s1.
Proof. intros Hm Hs. specialize (Hm s). rewrite Hs in Hm. by destruct Hm as (_ & Hm & _). Qed.

Lemma plain_grown {A} (m : prog A) s a s1 : plain m -> m s = Ok a s1 -> grown s s1.
Proof. intros Hm Hs. specialize (Hm s). rewrite Hs in Hm. by destruct Hm as (_ & _ & Hm). Qed.

Lemma plain_bind {A B} (m : prog A) (f : A -> prog B) : plain m -> (forall a, plain (f a)) -> plain (a ← m; f a).
Proof.
  intros Hm Hf s. unfold mbind, prog_bind. specialize (Hm s). destruct (m s) as [a s1| | |]; try done.
  specialize (Hf a s1). destruct (f a s1); try done. destruct Hm as (? & ? & ?), Hf as (? & ? & ?).
  split_and!; [congruence|auto|by eapply grown_trans].
Qed.

Ltac plain_step := intros s; cbn; split_and!; try done; split; cbn; first [done|by apply prefix_app_r].

Lemma plain_ret {A} (a : A) : plain (mret a).
Proof. plain_step. Qed.
Lemma plain_exit {A} c : plain (exit (A := A) c).
Proof. done. Qed.
Lemma plain_wild {A} : plain (wild (A := A)).
Proof. done. Qed.
Lemma plain_get : plain get.
Proof. plain_step. Qed.
Lemma plain_exit_if b : plain (exit_if b).
Proof. destruct b; [done|plain_step]. Qed.
Lemma plain_env f : plain (modify (upd_environ f)).
Proof. plain_step. Qed.
Lemma plain_9pfs f : plain (modify (upd_9pfs f)).
Proof. plain_step. Qed.
Lemma plain_pfd f : plain (modify (upd_pfd f)).
Proof. plain_step. Qed.
Lemma plain_sys h c : plain (sys h c).
Proof. plain_step. Qed.
Lemma plain_sys_data h c : plain (sys_data h c).
Proof. plain_step. Qed.
Lemma plain_sys_mode h c : plain (sys_mode h c).
Proof. plain_step. Qed.
Lemma plain_sys_errno h c : plain (sys_errno h c).
Proof. plain_step. Qed.
Lemma plain_of_outcome {A} (o : outcome A) : plain (Netlink.of_outcome o).
Proof. by destruct o. Qed.

Create HintDb loader.
#[export] Hint Resolve plain_ret plain_exit plain_wild plain_get plain_exit_if plain_env plain_9pfs plain_pfd
  plain_sys plain_sys_data plain_sys_mode plain_sys_errno plain_of_outcome : loader.

Ltac plains := repeat first [solve [auto with loader]|apply plain_bind; [|intros ?]|case_match].

Lemma plain_sys_ h c : plain (sys_ h c).
Proof. unfold sys_. plains. Qed.
Lemma plain_sys_or_exit h c : plain (sys_or_exit h c).
Proof. unfold sys_or_exit. plains. Qed.
Lemma plain_or_fail h c k : (forall r, plain (k r)) -> plain (or_fail h c k).
Proof. intros Hk. unfold or_fail. plains. Qed.
Lemma plain_set_env n v b : plain (set_env n v b).
Proof. unfold set_env. plains. Qed.
#[export] Hint Resolve plain_sys_ plain_sys_or_exit plain_set_env : loader.

Lemma plain_packet_open h post : plain (Netlink.packet_open h post).
Proof.
  unfold Netlink.packet_open. apply plain_or_fail. intros sock. apply plain_bind; [auto with loader|]. intros [r ifr].
  case_match; [auto with loader|]. apply plain_or_fail. intros ?. apply plain_or_fail. intros ?. apply plain_or_fail. intros ?. plains.
Qed.

Lemma plain_tap_open h post : plain (Netlink.tap_open h post).
Proof.
  unfold Netlink.tap_open. apply plain_bind; [auto with loader|]. intros s. apply plain_or_fail. intros fd. apply plain_or_fail.
  intros ?. plains.
Qed.

Lemma plain_readRoutes h fuel sock size seq pid off len buf : plain (Netlink.readRoutes h fuel sock size seq pid off len buf).
Proof.
  induction fuel as [|fuel IH] in off, len, buf |- *; cbn [Netlink.readRoutes]; [auto with loader|].
  apply plain_bind; [auto with loader|]. intros [n d]. case_match; [auto with loader|].
  apply plain_bind; [auto with loader|]. intros ok. case_match; [auto with loader|].
  apply plain_bind; [auto with loader|]. intros t. case_match; [auto with loader|]. case_match; [auto with loader|].
  apply plain_bind; [auto with loader|]. intros f. case_match; [auto with loader|].
  apply plain_bind; [auto with loader|]. intros sq. apply plain_bind; [auto with loader|]. intros pd.
  case_match; [apply IH|auto with loader].
Qed.
#[export] Hint Resolve plain_packet_open plain_tap_open plain_readRoutes : loader.

Lemma plain_get_gateway h b d g : plain (Netlink.get_gateway h b d g).
Proof. unfold Netlink.get_gateway. plains. Qed.
#[export] Hint Resolve plain_get_gateway : loader.

Lemma plain_docker_open h b d g t post : plain (Netlink.docker_open h b d g t post).
Proof. unfold Netlink.docker_open. plains. Qed.
#[export] Hint Resolve plain_docker_open : loader.

Lemma plain_os_open h b d g t pre post : plain (Netlink.os_open h b d g t pre post).
Proof. unfold Netlink.os_open. plains. Qed.
#[export] Hint Resolve plain_os_open : loader.

Lemma plain_record_fd name fd : fd_name name -> plain (record_fd name fd).
Proof.
  intros Hn s. unfold record_fd, mbind, prog_bind. cbn. destruct (_ || _); [done|]. cbn. split_and!; [done| |].
  - unfold names_ok. cbn. intros Hs. apply Forall_app. split; [done|]. by constructor.
  - split; [done|]. by apply prefix_app_r.
Qed.

Lemma fd_name_config : fd_name FDINFO_NAME_CONFIGJSON.
Proof. by left. Qed.
Lemma fd_name_root : fd_name FDINFO_ENV_PREFIX_ROOT.
Proof. by right; left. Qed.
Lemma fd_name_net x : fd_name (FDINFO_ENV_PREFIX_NET ++ x).
Proof. right. right. left. by exists x. Qed.
Lemma fd_name_disk x : fd_name (FDINFO_ENV_PREFIX_DISK ++ x).
Proof. right. right. right. by exists x. Qed.
Lemma plain_set_nonblock h os fd : plain (set_nonblock h os fd).
Proof. unfold set_nonblock. plains. Qed.
#[export] Hint Resolve plain_record_fd plain_set_nonblock fd_name_config fd_name_root fd_name_net fd_name_disk : loader.

(** The host's opening of a device does no more than make calls. *)
Definition plain_opens (os : os_ops) : Prop := forall pre post, plain (op_open os pre post).

Lemma plain_colon_open h os pre post mode : plain_opens os -> plain (colon_open h os pre post mode).
Proof. intros Ho. unfold colon_open, console_open. specialize (Ho pre post). plains. Qed.
#[export] Hint Resolve plain_colon_open : loader.

Lemma plain_open_arg h os arg mode : plain_opens os -> plain (open_arg h os arg mode).
Proof. intros Ho. unfold open_arg. plains. Qed.
Lemma plain_noroot h : plain (noroot h).
Proof. unfold noroot. plains. Qed.
Lemma plain_atoi_uid s : plain (atoi_uid s).
Proof. unfold atoi_uid, atoi. plains. Qed.
#[export] Hint Resolve plain_open_arg plain_noroot plain_atoi_uid : loader.

Lemma plain_parse_args h os n : plain_opens os ->
  forall args o, (length args <= n)%nat -> plain (parse_args h os args o).
Proof.
  intros Ho.
  induction n as [|n IH]; intros [|arg args] o Hl; cbn [length] in Hl; try lia; [auto with loader..|].
  assert (Hgo : forall o, plain (parse_args h os args o)) by (intros; apply IH; lia).
  assert (Htl : forall a args' o, args = a :: args' -> plain (parse_args h os args' o)).
  { intros a args' o' ->. cbn [length] in Hl. apply IH. lia. }
  cbn [parse_args]. repeat (case_bool_decide; [first [done|apply Hgo|idtac]|]).
  - destruct args as [|a args']; [done|]. apply plain_bind; [auto with loader|]. intros u. apply plain_bind; [auto with loader|]. intros _. by eapply Htl.
  - destruct args as [|a args']; [done|]. apply plain_bind; [auto with loader|]. intros u. apply plain_bind; [auto with loader|]. intros _. by eapply Htl.
  - apply plain_bind; [auto with loader|]. intros _. apply Hgo.
  - destruct args as [|a args']; [done|]. apply plain_bind; [auto with loader|]. intros _. by eapply Htl.
  - apply plain_bind; [auto with loader|]. intros _. apply Hgo.
Qed.

Lemma plain_parse h os args : plain_opens os -> plain (parse h os args).
Proof. intros Ho. unfold parse. destruct args as [|a args]; [done|]. case_bool_decide; [done|]. by eapply plain_parse_args. Qed.

Lemma plain_opens_linux h cf es av ev b d g t : plain_opens (linux_os h cf es av ev b d g t).
Proof. intros pre post. apply plain_os_open. Qed.
#[export] Hint Resolve plain_opens_linux : loader.

Lemma plain_finish_pargs n l : plain (finish_pargs n l).
Proof. unfold finish_pargs. plains. Qed.

Lemma plain_find_program h p : plain (find_program h p).
Proof.
  assert (Hs : forall parts p, plain (search_path h parts p)).
  { induction parts as [|part parts IH]; intros q; cbn [search_path]; [auto with loader|]. case_match; [|apply IH].
    apply plain_bind; [auto with loader|]. intros r. case_match; [auto with loader|apply IH]. }
  unfold find_program. case_bool_decide; [auto with loader|]. apply plain_bind; [auto with loader|]. intros s.
  case_match; [|auto with loader]. apply plain_bind; [auto with loader|]. intros r. case_match; [auto with loader|apply Hs].
Qed.

Lemma plain_drop_privileges h o : plain (drop_privileges h o).
Proof. unfold drop_privileges. plains. Qed.
Lemma plain_open_9pfs h os : plain (open_9pfs h os).
Proof. unfold open_9pfs. plains. Qed.
Lemma plain_count_fds h : plain (count_fds h).
Proof. unfold count_fds. plains. Qed.
Lemma plain_report_root h : plain (report_root h).
Proof. unfold report_root. plains. Qed.
Lemma plain_calloc_fds h a b : plain (calloc_fds h a b).
Proof. unfold calloc_fds. plains. Qed.
Lemma plain_uuid h : plain (uuid h).
Proof. unfold uuid. plains. Qed.
Lemma plain_os_emptydir h cf : plain (os_emptydir h cf).
Proof. unfold os_emptydir, emptydir. plains. Qed.
Lemma plain_os_dropcaps h : plain (os_dropcaps h).
Proof. unfold os_dropcaps. plains. Qed.
Lemma plain_os_extrafiles h : plain (os_extrafiles h).
Proof. unfold os_extrafiles. plains. Qed.
Lemma plain_fdinfo_setenv : plain fdinfo_setenv.
Proof. unfold fdinfo_setenv. plains. Qed.
Lemma plain_fd_stats h fds : plain (fd_stats h fds).
Proof. induction fds as [|fd fds IH]; cbn [fd_stats]; plains. Qed.

#[export] Hint Resolve plain_parse plain_finish_pargs plain_find_program plain_drop_privileges plain_open_9pfs plain_count_fds
  plain_report_root plain_calloc_fds plain_uuid plain_os_emptydir plain_os_dropcaps plain_os_extrafiles plain_fdinfo_setenv
  plain_fd_stats : loader.

(** *** Rules *)

(** The computation does not execute another program, and leaves the loader's
    lists as they are. *)
Definition keeps {A} (m : prog A) : Prop :=
  forall s, match m s with
            | Ok _ s1 =>
                fdinfo_list s1 = fdinfo_list s /\ environ s1 = environ s /\ pfd s1 = pfd s /\ calls s `prefix_of` calls s1
            | Exec _ _ => False
            | _ => True
            end.

Lemma keeps_bind {A B} (m : prog A) (f : A -> prog B) : keeps m -> (forall a, keeps (f a)) -> keeps (a ← m; f a).
Proof.
  intros Hm Hf s. unfold mbind, prog_bind. specialize (Hm s). destruct (m s) as [a s1| | |]; try done.
  specialize (Hf a s1). destruct (f a s1); try done. destruct Hm as (? & ? & ? & ?), Hf as (? & ? & ? & ?).
  split_and!; [congruence..|by etrans].
Qed.

Lemma keeps_ok {A} (m : prog A) s a s1 :
  keeps m -> m s = Ok a s1 ->
  fdinfo_list s1 = fdinfo_list s /\ environ s1 = environ s /\ pfd s1 = pfd s /\ calls s `prefix_of` calls s1.
Proof. intros Hm Hs. specialize (Hm s). by rewrite Hs in Hm. Qed.

Lemma keeps_rule_add h r : keeps (seccomp_rule_add h r).
Proof.
  intros s. unfold seccomp_rule_add, mbind, prog_bind. cbn. destruct (_ <? 0); cbn; split_and!; try done; by apply prefix_app_r.
Qed.

Lemma keeps_add_rules h l : keeps (add_rules h l).
Proof.
  induction l as [|r l IH]; cbn [add_rules]; [done|]. apply keeps_bind; [apply keeps_rule_add|]. intros ret. by destruct (ret <? 0).
Qed.

Lemma keeps_filter_fd h cf fd fl mode : keeps (filter_fd h cf fd fl mode).
Proof.
  unfold filter_fd. destruct (negb _); [done|].
  assert (Hpart : forall b l r, keeps (if b : bool then ret ← add_rules h l; if ret <? 0 then mret ret else _ ← seccomp_rule_add h r; mret 0 else mret 0)).
  { intros b l r. destruct b; [|done]. apply keeps_bind; [apply keeps_add_rules|]. intros ret. destruct (ret <? 0); [done|].
    apply keeps_bind; [apply keeps_rule_add|done]. }
  apply keeps_bind; [apply Hpart|]. intros ret. destruct (ret <? 0); [done|].
  apply keeps_bind; [apply Hpart|]. intros ret2. destruct (ret2 <? 0); [done|]. apply keeps_add_rules.
Qed.

Lemma keeps_filter_fds os l : (forall fd fl mode, keeps (op_filter_fd os fd fl mode)) -> keeps (filter_fds os l).
Proof.
  intros Hk. induction l as [|[[fd fl] mode] l IH]; cbn [filter_fds]; [done|]. apply keeps_bind; [apply Hk|]. intros ret.
  apply keeps_bind; [by destruct (ret <? 0)|done].
Qed.

(** What is in the filter when the rules could be added. *)
Lemma rule_add_ctx h r s ret s1 :
  seccomp_rule_add h r s = Ok ret s1 -> ctx s1 = if ret <? 0 then ctx s else ctx s ++ [r].
Proof. unfold seccomp_rule_add, mbind, prog_bind. cbn. destruct (_ <? 0) eqn:E; intros [= <- <-]; by rewrite E. Qed.

Lemma add_rules_ctx h l s ret s1 : add_rules h l s = Ok ret s1 -> 0 <= ret -> ctx s1 = ctx s ++ l.
Proof.
  induction l as [|r l IH] in s |- *; cbn [add_rules].
  - intros [= <- <-] _. by rewrite app_nil_r.
  - unfold mbind, prog_bind. destruct (seccomp_rule_add h r s) as [ret1 s2| | |] eqn:E; [|done..].
    apply rule_add_ctx in E. destruct (Z.ltb_spec ret1 0) as [Hn|Hn]; [intros [= <- <-]; lia|].
    intros Hs Hr. rewrite (IH _ Hs Hr), E. by rewrite <- app_assoc.
Qed.

(** All the rules for a descriptor. *)
Definition all_rules (fd fl mode : Z) : list rule :=
  (if readable fl then fd_rules fd [SYS_read; SYS_pread64; SYS_readv; SYS_preadv] else []) ++
  (if writable fl then fd_rules fd [SYS_write; SYS_pwrite64; SYS_writev; SYS_pwritev] else []) ++ other_rules fd mode.

(** The filter has grown by rules of [all], of which only those that read or
    write several buffers at a position may be missing. *)
Definition grows (l all : list rule) (l' : list rule) : Prop :=
  exists new, l' = l ++ new /\ (forall r, r ∈ new -> r ∈ all) /\
    (forall r, r ∈ all -> rule_sys r <> SYS_preadv -> rule_sys r <> SYS_pwritev -> r ∈ new).

Lemma grows_refl l : grows l [] l.
Proof. exists []. rewrite app_nil_r. split_and!; [done|done|]. by intros r ?%elem_of_nil. Qed.

Lemma grows_all l all : grows l all (l ++ all).
Proof. by exists all. Qed.

Lemma grows_trans l1 l2 l3 a b : grows l1 a l2 -> grows l2 b l3 -> grows l1 (a ++ b) l3.
Proof.
  intros (n1 & -> & H1 & H2) (n2 & -> & H3 & H4). exists (n1 ++ n2). split; [by rewrite app_assoc|]. split.
  - intros r [Hr|Hr]%elem_of_app; apply elem_of_app; [left; by apply H1|right; by apply H3].
  - intros r [Hr|Hr]%elem_of_app Hp Hw; apply elem_of_app; [left; by apply H2|right; by apply H4].
Qed.

Lemma rw_rules_grow h (b : bool) fd l n s ret s1 :
  n = SYS_preadv \/ n = SYS_pwritev ->
  (if b then ret ← add_rules h (fd_rules fd l); if ret <? 0 then mret ret else _ ← seccomp_rule_add h (Rule n [SCMP_A 0 fd]); mret 0
   else mret 0) s = Ok ret s1 -> 0 <= ret ->
  grows (ctx s) (if b then fd_rules fd (l ++ [n]) else []) (ctx s1).
Proof.
  intros Hn. destruct b; [|intros [= <- <-] _; apply grows_refl]. unfold mbind, prog_bind.
  destruct (add_rules h (fd_rules fd l) s) as [ret1 s2| | |] eqn:E; [|done..]. intros Hs Hr.
  destruct (Z.ltb_spec ret1 0); [injection Hs as <- <-; lia|].
  pose proof (add_rules_ctx _ _ _ _ _ E ltac:(lia)) as Hc.
  destruct (seccomp_rule_add h (Rule n [SCMP_A 0 fd]) s2) as [ret2 s3| | |] eqn:E2; [|done..]. injection Hs as <- <-.
  apply rule_add_ctx in E2. unfold fd_rules. rewrite map_app. cbn [map]. fold (fd_rules fd l).
  eapply (grows_trans _ (ctx s2)); [rewrite Hc; apply grows_all|]. rewrite E2. destruct (ret2 <? 0); [|apply grows_all].
  exists []. rewrite app_nil_r. split_and!; [done|by intros r ?%elem_of_nil|].
  intros r ->%list_elem_of_singleton. cbn. destruct Hn as [->| ->]; congruence.
Qed.

Lemma filter_fd_grows h cf fd fl mode s ret s1 :
  seccomp cf = true -> filter_fd h cf fd fl mode s = Ok ret s1 -> 0 <= ret -> grows (ctx s) (all_rules fd fl mode) (ctx s1).
Proof.
  intros Hcf. unfold filter_fd, all_rules. rewrite Hcf. cbn [negb]. unfold mbind at 1, prog_bind at 1.
  match goal with |- match ?m with _ => _ end = _ -> _ => destruct m as [ret1 s2| | |] eqn:E1 end; [|done..].
  destruct (Z.ltb_spec ret1 0); [intros [= <- <-]; lia|]. unfold mbind at 1, prog_bind at 1.
  match goal with |- match ?m with _ => _ end = _ -> _ => destruct m as [ret2 s3| | |] eqn:E2 end; [|done..].
  destruct (Z.ltb_spec ret2 0); [intros [= <- <-]; lia|]. intros Hs Hr.
  eapply grows_trans; [eapply (rw_rules_grow h _ fd [SYS_read; SYS_pread64; SYS_readv]); [by left|exact E1|lia]|].
  eapply grows_trans; [eapply (rw_rules_grow h _ fd [SYS_write; SYS_pwrite64; SYS_writev]); [by right|exact E2|lia]|].
  rewrite (add_rules_ctx _ _ _ _ _ Hs Hr). apply grows_all.
Qed.

Lemma filter_fds_grow h cf es av ev b d g t l s s1 :
  seccomp cf = true -> filter_fds (linux_os h cf es av ev b d g t) l s = Ok tt s1 ->
  grows (ctx s) (concat (map (fun '(fd, fl, mode) => all_rules fd fl mode) l)) (ctx s1).
Proof.
  intros Hcf. induction l as [|[[fd fl] mode] l IH] in s |- *; cbn [filter_fds map concat]; [intros [= <-]; apply grows_refl|].
  unfold mbind, prog_bind. cbn [op_filter_fd linux_os].
  destruct (filter_fd h cf fd fl mode s) as [ret s2| | |] eqn:E; [|done..].
  unfold exit_if. destruct (Z.ltb_spec ret 0); [done|]. cbn. intros Hs.
  eapply grows_trans; [by eapply filter_fd_grows|by apply IH].
Qed.

(** The descriptors as the host describes them. *)
Lemma fd_stats_spec h fds s l s1 :
  fd_stats h fds s = Ok l s1 ->
  map (fun x => x.1.1) l = fds /\
  Forall (fun '(fd, fl, mode) => fl <> -1 /\ (exists cs, fl = h_ret h cs (Fcntl_getfl fd)) /\ exists cs, mode = h_mode h cs (Fstat fd)) l.
Proof.
  induction fds as [|fd fds IH] in s, l |- *; cbn [fd_stats]; [intros [= <- <-]; by split; [|constructor]|].
  unfold mbind, prog_bind, sys_or_exit, mbind, prog_bind, exit_if. cbn [sys].
  destruct (Z.eqb_spec (h_ret h (calls s) (Fcntl_getfl fd)) (-1)) as [|Hne]; [done|]. cbn.
  destruct (_ =? -1); [done|]. cbn.
  match goal with |- match fd_stats h fds ?x with _ => _ end = _ -> _ => destruct (fd_stats h fds x) as [l' s2| | |] eqn:E end; [|done..].
  intros [= <- <-]. destruct (IH _ _ E) as [H1 H2]. cbn [map fst snd]. split; [by rewrite H1|]. constructor; [|done].
  split_and!; [done|by eexists|by eexists].
Qed.

(** *** The whole run *)

Lemma bind_exec {A B} (m : prog A) (f : A -> prog B) s im s' :
  (forall im s', m s <> Exec im s') -> (a ← m; f a) s = Exec im s' -> exists a s1, m s = Ok a s1 /\ f a s1 = Exec im s'.
Proof.
  intros Hm. unfold mbind, prog_bind. destruct (m s) as [a s1| |im1 s1|] eqn:E; [|done| |done]; [by eexists _, _|].
  by destruct (Hm im1 s1).
Qed.

Lemma plain_noexec {A} (m : prog A) s im s' : plain m -> m s <> Exec im s'.
Proof. intros Hm Hs. specialize (Hm s). by rewrite Hs in Hm. Qed.

Lemma keeps_noexec {A} (m : prog A) s im s' : keeps m -> m s <> Exec im s'.
Proof. intros Hm Hs. specialize (Hm s). by rewrite Hs in Hm. Qed.

Lemma bind_ok {A B} (m : prog A) (f : A -> prog B) s b s' :
  (a ← m; f a) s = Ok b s' -> exists a s1, m s = Ok a s1 /\ f a s1 = Ok b s'.
Proof. unfold mbind, prog_bind. destruct (m s) as [a s1| | |]; [|done..]. by eexists _, _. Qed.

Lemma bind_noexec {A B} (m : prog A) (f : A -> prog B) s :
  (forall im s', m s <> Exec im s') -> (forall a s1 im s', f a s1 <> Exec im s') -> forall im s', (a ← m; f a) s <> Exec im s'.
Proof. intros Hm Hf im s'. unfold mbind, prog_bind. destruct (m s) as [a s1| |im1 s1|] eqn:E; [apply Hf|done| |done]. by destruct (Hm im1 s1). Qed.

Lemma plain_open_program h cf p :
  plain (if execveat cf then fd ← sys_or_exit h (Open p (Z.lor O_RDONLY O_CLOEXEC)); modify (upd_pfd (fun _ => fd)) else mret tt).
Proof. plains. Qed.
#[export] Hint Resolve plain_open_program : loader.

Lemma os_init_noexec h cf p nx s im s' : os_init h cf p nx s <> Exec im s'.
Proof.
  unfold os_init. destruct (negb _); [by destruct nx|]. apply bind_noexec; [intros; by apply plain_noexec, plain_sys|].
  intros a s1 im1 s2. destruct (a =? 0); [done|]. apply bind_noexec; [intros; by apply plain_noexec, plain_open_program|].
  intros. apply keeps_noexec, keeps_add_rules.
Qed.

Lemma os_init_ctx h cf p nx s ret s1 :
  seccomp cf = true -> os_init h cf p nx s = Ok ret s1 -> 0 <= ret -> ctx s1 = ctx s ++ base_rules nx.
Proof.
  intros Hcf. unfold os_init. rewrite Hcf. cbn [negb]. intros (a & s2 & E1 & H)%bind_ok Hr.
  destruct (a =? 0); [injection H as <- <-; lia|]. apply bind_ok in H as (u & s3 & E2 & H).
  rewrite (add_rules_ctx _ _ _ _ _ H Hr). rewrite (plain_ok _ _ _ _ (plain_open_program h cf p) E2).
  by rewrite (plain_ok _ _ _ _ (plain_sys h Seccomp_init) E1).
Qed.

Lemma os_init_names h cf p nx s ret s1 : os_init h cf p nx s = Ok ret s1 -> names_ok s -> names_ok s1.
Proof.
  unfold os_init. destruct (negb _); [destruct nx; [done|by intros [= _ <-]]|]. intros (a & s2 & E1 & H)%bind_ok Hn.
  apply (plain_names _ _ _ _ (plain_sys _ _) E1) in Hn. destruct (a =? 0); [by injection H as _ <-|].
  apply bind_ok in H as (u & s3 & E2 & H). apply (plain_names _ _ _ _ (plain_open_program h cf p) E2) in Hn.
  unfold names_ok in *. by destruct (keeps_ok _ _ _ _ (keeps_add_rules _ _) H) as (-> & _).
Qed.

Lemma os_init_grown h cf p nx s ret s1 : os_init h cf p nx s = Ok ret s1 -> grown s s1.
Proof.
  unfold os_init. destruct (negb _); [destruct nx; [done|by intros [= _ <-]]|]. intros (a & s2 & E1 & H)%bind_ok.
  apply plain_grown in E1; [|auto with loader]. destruct (a =? 0); [by injection H as _ <-|].
  apply bind_ok in H as (u & s3 & E2 & H). apply plain_grown in E2; [|auto with loader].
  destruct (keeps_ok _ _ _ _ (keeps_add_rules _ _) H) as (Hf & _ & _ & Hc).
  eapply grown_trans; [exact E1|]. eapply grown_trans; [exact E2|]. split; [done|]. by rewrite Hf.
Qed.

Definition exec_rule (cf : config) (pfd es av ev : Z) : rule :=
  if execveat cf then
    Rule SYS_execveat [SCMP_A 0 pfd; SCMP_A 1 es; SCMP_A 2 av; SCMP_A 3 ev; SCMP_A 4 AT_EMPTY_PATH]
  else Rule SYS_execve [].

Lemma filter_load_exec_spec h cf es av ev im s im' s' :
  filter_load_exec h cf es av ev im s = Exec im' s' ->
  im' = im /\ fdinfo_list s' = fdinfo_list s /\ calls s `prefix_of` calls s' /\ ctx s' = if seccomp cf then ctx s ++ [exec_rule cf (pfd s) es av ev] else ctx s.
Proof.
  unfold filter_load_exec, exec_. destruct (seccomp cf); cbn [negb].
  2:{ destruct (_ =? -1); [done|]. intros [= <- <-]. cbn. split_and!; try done. by apply prefix_app_r. }
  unfold mbind at 1, prog_bind at 1. cbn [get]. unfold mbind at 1, prog_bind at 1. fold (exec_rule cf (pfd s) es av ev).
  set (r := exec_rule _ _ _ _ _). destruct (seccomp_rule_add h r s) as [ret s1| | |] eqn:E; [|done..].
  pose proof (keeps_ok _ _ _ _ (keeps_rule_add h r) E) as (K1 & _ & _ & K2). apply rule_add_ctx in E.
  destruct (ret <? 0); [done|]. unfold mbind, prog_bind, sys_, mbind, prog_bind. cbn. destruct (_ <? 0); [done|]. cbn.
  destruct (execveat cf), (_ =? -1); try done; intros [= <- <-]; cbn; split_and!; try done; by do 3 apply prefix_app_r.
Qed.

Definition setenvs (l : list (str * Z)) (env : list str) : list str :=
  fold_left (fun env e => setenv e.1 (snprintf 8 (Str.print_dec e.2)) true env) l env.

(** The identity is given up after the files are open, the group first. *)
Definition dropped (h : host) (o : opts) (s1 s : state) : Prop :=
  user o <> 0 -> group o <> 0 -> exists c1 c2,
    calls s1 `prefix_of` c1 /\ calls s = c1 ++ [Setgid (group o); Setuid (user o); Capset] ++ c2 /\
    h_ret h c1 (Setgid (group o)) <> -1 /\ h_ret h (c1 ++ [Setgid (group o)]) (Setuid (user o)) <> -1 /\
    h_ret h (c1 ++ [Setgid (group o); Setuid (user o)]) Capset <> -1.

Lemma sys_or_exit_ok h c s r s1 :
  sys_or_exit h c s = Ok r s1 -> r = h_ret h (calls s) c /\ r <> -1 /\ s1 = upd_calls (fun l => l ++ [c]) s.
Proof.
  unfold sys_or_exit, mbind, prog_bind, exit_if. cbn. destruct (Z.eqb_spec (h_ret h (calls s) c) (-1)); [done|]. by intros [= <- <-].
Qed.

Lemma count_fds_spec h s n s1 : count_fds h s = Ok n s1 -> exists cs, n = h_ret h cs (Socket 1 1 0).
Proof.
  unfold count_fds. intros (r & s2 & E1 & H)%bind_ok. apply bind_ok in H as (r2 & s3 & _ & H). injection H as <- _.
  apply sys_or_exit_ok in E1 as (-> & _). by eexists.
Qed.

Lemma dropped_spec h o s1 u2 s2 u3 s3 s :
  drop_privileges h o s1 = Ok u2 s2 -> os_dropcaps h s2 = Ok u3 s3 -> calls s3 `prefix_of` calls s -> dropped h o s1 s.
Proof.
  intros H2 H3 Hp Hu Hg. apply Z.eqb_neq in Hu as Hub. apply Z.eqb_neq in Hg as Hgb.
  unfold drop_privileges in H2. rewrite Hub in H2. apply bind_ok in H2 as (u & s4 & E4 & H2). injection E4 as <- <-.
  apply bind_ok in H2 as (x & s5 & E5 & H2). injection E5 as -> <-. rewrite Hub in H2.
  apply bind_ok in H2 as (u & s6 & E6 & H2). injection E6 as <- <-. rewrite Hgb, Hub in H2. cbn [negb] in H2.
  apply bind_ok in H2 as (u & s7 & E7 & H2). apply bind_ok in E7 as (r7 & s8 & E7 & E8). injection E8 as _ <-.
  apply bind_ok in H2 as (r9 & s9 & E9 & E10). injection E10 as _ <-.
  unfold os_dropcaps in H3. apply bind_ok in H3 as (r10 & s10 & E11 & E12). injection E12 as _ <-.
  apply sys_or_exit_ok in E7 as (-> & N7 & ->), E9 as (-> & N9 & ->), E11 as (-> & N11 & ->).
  destruct Hp as [c2 Hp]. exists (calls x), c2. cbn in *. rewrite <- !app_assoc in *. cbn [app] in *. done.
Qed.

Lemma dropped_since h o s1 s2 s : grown s1 s2 -> dropped h o s2 s -> dropped h o s1 s.
Proof. intros [Hc _] Hd Hu Hg. destruct (Hd Hu Hg) as (c1 & c2 & Hp & H). exists c1, c2. split; [by etrans|done]. Qed.

(** What is known of a run that executes the program. *)
Record executed (h : host) (cf : config) (es av ev : Z) (argv : list str) (s0 s1 : state) (o : opts) (rest : list str)
    (stats : list (Z * Z * Z)) (im : image) (s : state) : Prop := {
  ex_args : (length (pargs o ++ rest) < S (length argv))%nat /\
    im_argv im = map Some (pargs o ++ rest) ++ repeat None (S (length argv) - length (pargs o ++ rest));
  ex_env : exists env, im_env im = setenvs (fdinfo_list s) env;
  ex_names : names_ok s0 -> names_ok s;
  ex_fds : exists cs, map (fun x => x.1.1) stats = map Z.of_nat (seq 0 (Z.to_nat (h_ret h cs (Socket 1 1 0))));
  ex_stats : Forall (fun '(fd, fl, mode) =>
    fl <> -1 /\ (exists cs, fl = h_ret h cs (Fcntl_getfl fd)) /\ exists cs, mode = h_mode h cs (Fstat fd)) stats;
  ex_recorded : fdinfo_list s1 `prefix_of` fdinfo_list s;
  ex_dropped : dropped h o s1 s;
  ex_filter : seccomp cf = true -> ctx s0 = [] -> exists fd,
    grows [] (base_rules (nx o) ++ concat (map (fun '(fd, fl, mode) => all_rules fd fl mode) stats) ++ [exec_rule cf fd es av ev]) (ctx s);
}.

Create HintDb noexec.
Lemma linux_filter_noexec h cf es av ev b d g t l s im s' :
  filter_fds (linux_os h cf es av ev b d g t) l s <> Exec im s'.
Proof. apply keeps_noexec, keeps_filter_fds. intros. apply keeps_filter_fd. Qed.

#[export] Hint Resolve os_init_noexec linux_filter_noexec : noexec.

Tactic Notation "exec_step" hyp(H) "as" simple_intropattern(x) ident(s) ident(E) :=
  apply bind_exec in H as (x & s & E & H);
  [|intros; first [by apply plain_noexec; auto with loader|by auto with noexec]].

Ltac grows_by :=
  repeat match goal with
         | |- grown ?s ?s => apply grown_refl
         | E : os_init _ _ _ _ _ = Ok _ ?s' |- grown _ ?s' => eapply grown_trans; [|exact (os_init_grown _ _ _ _ _ _ _ E)]
         | E : _ = Ok _ ?s' |- grown _ ?s' => eapply grown_trans; [|eapply plain_grown; [|exact E]; by auto with loader]
         end.

Ltac names_by :=
  repeat match goal with
         | E : os_init _ _ _ _ _ = Ok _ ?s' |- names_ok ?s' => apply (os_init_names _ _ _ _ _ _ _ E)
         | E : _ = Ok _ ?s' |- names_ok ?s' => eapply plain_names; [|exact E|]; [by auto with loader|]
         end.

Ltac ctx_by :=
  repeat match goal with
         | |- ctx ?s = ctx ?s => done
         | E : ?m _ = Ok _ ?s' |- ctx ?s' = _ => etrans; [eapply (plain_ok m); [|exact E]; by auto with loader|]
         end.

Lemma main_executed h cf es av ev b d g t argv s0 im s :
  let os := linux_os h cf es av ev b d g t in
  main h os argv s0 = Exec im s ->
  exists o rest stats s1 s2, parse h os argv s1 = Ok (o, rest) s2 /\ executed h cf es av ev argv s0 s2 o rest stats im s.
Proof.
  unfold main. cbn [op_stat_size op_init op_emptydir op_dropcaps op_extrafiles op_pre op_load_exec linux_os]. intros H.
  exec_step H as u1 s1 E1. exec_step H as u2 s2 E2. exec_step H as [o rest] s3 E3. exec_step H as args s4 E4.
  destruct (program o) as [name|]; [|done]. exec_step H as path s5 E5. exec_step H as [r m] s6 E6. exec_step H as u7 s7 E7.
  exec_step H as u8 s8 E8. exec_step H as ret s9 E9. exec_step H as u10 s10 E10. exec_step H as u11 s11 E11.
  exec_step H as u12 s12 E12. exec_step H as u13 s13 E13. exec_step H as u14 s14 E14. exec_step H as u15 s15 E15.
  exec_step H as nfds s16 E16. exec_step H as u17 s17 E17. exec_step H as u18 s18 E18. exec_step H as u19 s19 E19.
  exec_step H as stats s20 E20. exec_step H as up sp Ep. injection Ep as _ <-.
  exec_step H as u21 s21 E21. exec_step H as u22 s22 E22. exec_step H as s23 s24 E23. injection E23 as -> <-.
  assert (Hex : filter_load_exec h cf es av ev (Image path args (environ s23)) s23 = Exec im s).
  { unfold mbind at 1, prog_bind at 1 in H. destruct (filter_load_exec _ _ _ _ _ _ _) as [ret2 s25| |im2 s25|]; [|done| |done].
    - unfold mbind, prog_bind, exit_if in H. by destruct (ret2 <? 0).
    - by injection H as -> ->. }
  apply filter_load_exec_spec in Hex as (-> & Hfd & Hcalls & Hctx). exists o, rest, stats, s2, s3. split; [exact E3|].
  unfold finish_pargs in E4. destruct (Nat.ltb_spec (length (pargs o ++ rest)) (S (length argv))) as [Hl|]; [|done]. injection E4 as <- <-.
  unfold fdinfo_setenv in E22. cbn in E22. injection E22 as _ <-. cbn in Hfd, Hcalls.
  destruct (keeps_ok _ _ _ _ (keeps_filter_fds (linux_os h cf es av ev b d g t) _ (keeps_filter_fd h cf)) E21) as (Hfd21 & _ & _ & Hcalls21).
  assert (Hg11 : grown s3 s11) by grows_by. assert (Hg20 : grown s13 s20) by grows_by.
  assert (Hret : 0 <= ret) by (unfold exit_if in E10; destruct (Z.ltb_spec ret 0); [done|lia]).
  destruct (fd_stats_spec _ _ _ _ _ E20) as [Hmap Hst]. split.
  - by split.
  - exists (environ s21). unfold setenvs. by rewrite Hfd.
  - intros Hn. unfold names_ok. rewrite Hfd. rewrite Hfd21. fold (names_ok s20).
    names_by. exact Hn.
  - destruct (count_fds_spec _ _ _ _ E16) as [cs ->]. by exists cs.
  - done.
  - rewrite Hfd, Hfd21. etrans; [apply Hg11|]. etrans; [|apply Hg20]. 
    apply (grown_trans _ s12); [apply (plain_grown _ _ _ _ (plain_drop_privileges _ _) E12)|apply (plain_grown _ _ _ _ (plain_os_dropcaps _) E13)].
  - eapply dropped_since; [exact Hg11|]. eapply dropped_spec; [exact E12|exact E13|].
    etrans; [apply Hg20|]. by etrans.
  - intros Hcf H0. rewrite Hcf in Hctx. exists (pfd s21). destruct u21. pose proof (filter_fds_grow _ _ _ _ _ _ _ _ _ _ _ _ Hcf E21) as Hg.
    assert (Hc8 : ctx s8 = []) by (rewrite <- H0; ctx_by). assert (Hc20 : ctx s20 = ctx s9) by ctx_by.
    rewrite Hc20, (os_init_ctx _ _ _ _ _ _ _ Hcf E9 Hret), Hc8 in Hg. eapply grows_trans; [apply (grows_all [])|]. eapply grows_trans; [exact Hg|].
    rewrite Hctx. apply grows_all.
Qed.

End RexecFacts.

(** ** Facts: the environment, and the start of the program *)

Module EnvFacts.
Import Str Host Sandbox Rexec RexecFacts.

Lemma env_value_entry name v : env_value name (entry name v) = Some v.
Proof. induction name as [|x name IH]; [done|]. cbn. by rewrite Z.eqb_refl. Qed.

Lemma env_value_inv name e v : env_value name e = Some v -> e = entry name v.
Proof.
  induction name as [|x name IH] in e |- *; destruct e as [|y e]; cbn; try done.
  - destruct y as [|p|p]; try done. do 6 (destruct p as [p|p|]; try done). by intros [= ->].
  - destruct (Z.eqb_spec x y) as [->|]; [|done]. by intros ->%IH.
Qed.

Lemma entry_inj n v n' v' : 61 ∉ n -> 61 ∉ n' -> entry n v = entry n' v' -> n = n' /\ v = v'.
Proof.
  unfold entry. induction n as [|x n IH] in n' |- *; destruct n' as [|x' n']; cbn [app]; intros Hn Hn' H.
  - by injection H.
  - destruct Hn'. injection H as <- _. by left.
  - destruct Hn. injection H as -> _. by left.
  - apply not_elem_of_cons in Hn as [_ Hn], Hn' as [_ Hn']. injection H as -> H. by destruct (IH n' Hn Hn' H) as [-> ->].
Qed.

Lemma getenv_put_same name v env : getenv name (put_entry name v env) = Some v.
Proof.
  induction env as [|e env IH]; cbn [put_entry getenv]; [by rewrite env_value_entry|].
  destruct (env_value name e) eqn:E; cbn [getenv]; [by rewrite env_value_entry|]. by rewrite E.
Qed.

Lemma env_value_other n n' v : 61 ∉ n -> 61 ∉ n' -> n <> n' -> env_value n (entry n' v) = None.
Proof.
  intros Hn Hn' Hne. destruct (env_value n (entry n' v)) as [w|] eqn:E; [|done].
  apply env_value_inv in E. apply entry_inj in E as [-> _]; done.
Qed.

Lemma getenv_put_other n n' v env : 61 ∉ n -> 61 ∉ n' -> n <> n' -> getenv n (put_entry n' v env) = getenv n env.
Proof.
  intros Hn Hn' Hne. induction env as [|e env IH]; cbn [put_entry getenv]; [by rewrite env_value_other|].
  destruct (env_value n' e) as [w|] eqn:E; cbn [getenv]; [|by rewrite IH].
  apply env_value_inv in E as ->. by rewrite !env_value_other.
Qed.

Lemma getenv_setenv_other n n' v b env : 61 ∉ n -> n <> n' -> getenv n (setenv n' v b env) = getenv n env.
Proof.
  intros Hn Hne. unfold setenv. destruct (bool_decide_reflect (61 ∈ n')); [by rewrite orb_true_r|]. rewrite orb_false_r.
  case_bool_decide; [done|]. destruct (_ && _); [done|]. by apply getenv_put_other.
Qed.

(** The last entry of a name decides. *)
Lemma getenv_setenvs l1 name fd l2 env :
  name <> [] -> 61 ∉ name -> name ∉ map fst l2 ->
  getenv name (setenvs (l1 ++ (name, fd) :: l2) env) = Some (snprintf 8 (print_dec fd)).
Proof.
  intros Hne Heq Hl2. unfold setenvs. rewrite fold_left_app. cbn [fold_left]. set (env1 := fold_left _ l1 env). clearbody env1.
  assert (H1 : getenv name (setenv name (snprintf 8 (print_dec fd)) true env1) = Some (snprintf 8 (print_dec fd))).
  { unfold setenv. rewrite !bool_decide_false by done. cbn [orb negb andb]. apply getenv_put_same. }
  cbn [fst snd]. set (env2 := setenv name _ true env1) in *. clearbody env2. clear env1.
  induction l2 as [|[n f] l2 IH] in env2, H1, Hl2 |- *; [done|]. cbn [map fst] in Hl2. apply not_elem_of_cons in Hl2 as [Hn Hl2].
  cbn [fold_left fst snd]. apply IH; [done|]. by rewrite getenv_setenv_other.
Qed.

Lemma getenv_elem name env v : getenv name env = Some v -> entry name v ∈ env.
Proof.
  induction env as [|e env IH]; cbn [getenv]; [done|]. destruct (env_value name e) as [w|] eqn:E.
  - intros [= ->]. apply env_value_inv in E as ->. by left.
  - intros H. right. by apply IH.
Qed.

(** A descriptor's number is printed in one or two digits and read back. *)
Lemma small_fd_text fd : 0 <= fd < 64 -> snprintf 8 (print_dec fd) = print_dec fd /\ atoi_bytes (print_dec fd) = Ret fd.
Proof.
  intros Hfd. split; [|apply NumFacts.atoi_bytes_print; lia]. unfold snprintf. apply take_ge.
  assert (H : forallb (fun n => (length (print_dec (Z.of_nat n)) <=? 7)%nat) (seq 0 64) = true) by (vm_compute; reflexivity).
  rewrite forallb_forall in H. specialize (H (Z.to_nat fd) ltac:(apply in_seq; lia)). rewrite Z2Nat.id in H by lia.
  by apply Nat.leb_le in H.
Qed.

Lemma after_eq_entry name v : 61 ∉ name -> Boot.after_eq (entry name v) = Some v.
Proof.
  intros Hn. unfold entry. induction name as [|x name IH]; [done|]. apply not_elem_of_cons in Hn as [Hx Hn]. cbn.
  rewrite (proj2 (Z.eqb_neq _ _)) by done. by apply IH.
Qed.

(** The start-up code recognises the loader's names. *)
Lemma name_not_empty n : fd_name n -> n <> [].
Proof. intros [-> |[-> |[[x ->]|[x ->]]]]; vm_compute; done. Qed.

Lemma name_is_fdinfo n v : fd_name n -> FdinitFacts.is_fdinfo (entry n v) = true.
Proof. intros [-> |[-> |[[x ->]|[x ->]]]]; unfold entry; reflexivity. Qed.

Lemma name_is_net x v : FdinitFacts.is_net (entry (FDINFO_ENV_PREFIX_NET ++ x) v) = true.
Proof. unfold entry. reflexivity. Qed.

Lemma name_is_disk x v :
  FdinitFacts.is_disk (entry FDINFO_ENV_PREFIX_ROOT v) = true /\ FdinitFacts.is_disk (entry (FDINFO_ENV_PREFIX_DISK ++ x) v) = true.
Proof. unfold entry. split; reflexivity. Qed.

Lemma name_is_json v : FdinitFacts.is_json (entry FDINFO_NAME_CONFIGJSON v) = true.
Proof. unfold entry. reflexivity. Qed.

(** The devices the start-up code makes of the loader's names. *)
Lemma entry_calls_of name fd env cfg :
  61 ∉ name -> 0 <= fd < 64 ->
  let cs := FdinitFacts.entry_calls cfg env (entry name (print_dec fd)) in
  ((exists x, name = FDINFO_ENV_PREFIX_NET ++ x) -> Boot.NetdevRumpfdCreate fd ∈ cs) /\
  (name = FDINFO_ENV_PREFIX_ROOT \/ (exists x, name = FDINFO_ENV_PREFIX_DISK ++ x) -> Boot.DiskAdd fd ∈ cs) /\
  (name = FDINFO_NAME_CONFIGJSON -> cfg <> 0 -> Boot.LoadConfigJson fd ∈ cs).
Proof.
  intros Heq Hfd cs. unfold cs, FdinitFacts.entry_calls, FdinitFacts.entry_fd. rewrite after_eq_entry by done.
  cbn [FdinitFacts.number]. rewrite (proj2 (small_fd_text fd Hfd)). split_and!.
  - intros [x ->]. rewrite name_is_net. rewrite !elem_of_app. right. right. left. by left.
  - intros Hn. assert (FdinitFacts.is_disk (entry name (print_dec fd)) = true) as ->.
    { destruct Hn as [->|[x ->]]; apply name_is_disk. exact []. }
    rewrite !elem_of_app. right. left. by left.
  - intros -> Hc%Z.eqb_neq. rewrite name_is_json, Hc. rewrite !elem_of_app. left. by left.
Qed.

End EnvFacts.

(** ** Facts: what the filter lets through *)

Module FilterFacts.
Import Host Sandbox Rexec RexecFacts.

(** A comparison, and a rule, on the system call's arguments. *)
Definition holds (a : nat -> Z) (c : scmp) : Prop :=
  match c with SCMP_CMP_EQ i d => a i = d | SCMP_CMP_MASKED_EQ i m d => Z.land (a i) m = d end.

Definition matches (n : sysno) (a : nat -> Z) (r : rule) : Prop := rule_sys r = n /\ Forall (holds a) (rule_args r).

(** The control requests on a file of the given mode. *)
Definition ioctl_allowed (mode c : Z) : Prop :=
  is_mode mode FdTable.S_IFBLK = true /\ c = BLKGETSIZE64 \/
  is_mode mode FdTable.S_IFCHR = true /\ (c = TUNGETIFF \/ c = TUNSETIFF \/ c = SIOCGIFHWADDR) \/
  is_mode mode FdTable.S_IFSOCK = true /\ (c = SIOCGIFHWADDR \/ c = SIOCGIFNAME).

(** What a program may do that has the descriptors [stats], each with its flags
    and mode; [ex] is the rule for the execution itself. *)
Definition permitted (nx : bool) (stats : list (Z * Z * Z)) (ex : rule) (n : sysno) (a : nat -> Z) : Prop :=
  let on_fd (P : Z -> Z -> Prop) := exists fd fl mode, (fd, fl, mode) ∈ stats /\ a 0%nat = u64 fd /\ P fl mode in
  match n with
  | SYS_exit | SYS_exit_group | SYS_clock_gettime | SYS_clock_getres | SYS_clock_nanosleep | SYS_getrandom | SYS_munmap
  | SYS_fstat | SYS_ppoll => True
  | SYS_arch_prctl => a 0%nat = ARCH_SET_FS
  | SYS_kill => a 0%nat = 0 /\ a 1%nat = SIGABRT
  | SYS_mmap => a 4%nat = u64 (-1) /\ (nx = true -> Z.land (a 2%nat) PROT_EXEC = 0)
  | SYS_mprotect => nx = true -> Z.land (a 2%nat) PROT_EXEC = 0
  | SYS_read | SYS_pread64 | SYS_readv | SYS_preadv => on_fd (fun fl _ => readable fl = true)
  | SYS_write | SYS_pwrite64 | SYS_writev | SYS_pwritev => on_fd (fun fl _ => writable fl = true)
  | SYS_fsync => on_fd (fun _ _ => True)
  | SYS_fcntl => a 1%nat = F_GETFL /\ on_fd (fun _ _ => True)
  | SYS_ioctl => on_fd (fun _ mode => ioctl_allowed mode (a 1%nat))
  | SYS_getsockname => on_fd (fun _ mode => is_mode mode FdTable.S_IFSOCK = true)
  | SYS_execve | SYS_execveat => matches n a ex
  | SYS_other _ => False
  end.

Ltac rule_cases H :=
  repeat (apply elem_of_cons in H as [->|H]); try (by apply elem_of_nil in H).

Ltac args_cases H := repeat (apply Forall_cons in H as [?Ha H]); cbn [holds] in *.

Lemma base_permitted nx stats ex n a r : r ∈ base_rules nx -> matches n a r -> permitted nx stats ex n a.
Proof.
  intros Hr [<- Hm]. unfold base_rules in Hr. rule_cases Hr; cbn [rule_sys rule_args permitted] in *; try done;
    try (destruct nx); args_cases Hm; repeat split; intros; try done.
Qed.

Lemma fd_permitted nx stats ex n a r fd fl mode :
  (fd, fl, mode) ∈ stats -> r ∈ all_rules fd fl mode -> matches n a r -> permitted nx stats ex n a.
Proof.
  intros Hst Hr [<- Hm]. unfold all_rules, other_rules, fd_rules in Hr.
  repeat (apply elem_of_app in Hr as [Hr|Hr]);
    repeat match type of Hr with context [if ?b then _ else _] => destruct b eqn:?E end; try (by apply elem_of_nil in Hr);
    cbn [map] in Hr; rule_cases Hr; cbn [rule_sys rule_args permitted] in *; args_cases Hm;
    try (split; [done|]); exists fd, fl, mode; unfold ioctl_allowed; tauto.
Qed.

Ltac alls := repeat (apply Forall_nil_2 || (apply Forall_cons_2; [cbn [holds SCMP_A]; by auto|])).

Ltac find_rule := unfold base_rules; repeat (first [by left|right]).

Lemma all_rules_rw fd fl mode n :
  (n ∈ [SYS_read; SYS_pread64; SYS_readv; SYS_preadv] /\ readable fl = true) \/
  (n ∈ [SYS_write; SYS_pwrite64; SYS_writev; SYS_pwritev] /\ writable fl = true) -> Rule n [SCMP_A 0 fd] ∈ all_rules fd fl mode.
Proof.
  unfold all_rules. intros [[Hn ->]|[Hn ->]]; apply elem_of_app; [left|right; apply elem_of_app; left];
    unfold fd_rules; apply list_elem_of_fmap; by exists n.
Qed.

Lemma all_rules_other fd fl mode r : r ∈ other_rules fd mode -> r ∈ all_rules fd fl mode.
Proof. intros Hr. unfold all_rules. apply elem_of_app. right. apply elem_of_app. by right. Qed.

(** A rule for every control request that is permitted. *)
Lemma ioctl_rule mode x : ioctl_allowed mode x ->
  exists c, x = u64 c /\ forall fd, Rule SYS_ioctl [SCMP_A 0 fd; SCMP_A 1 c] ∈ other_rules fd mode.
Proof.
  intros H. exists x. split.
  { destruct H as [[_ ->]|[[_ [->|[->| ->]]]|[_ [->| ->]]]]; vm_compute; reflexivity. }
  intros fd. unfold other_rules. destruct H as [[-> ->]|[[-> H]|[-> H]]]; rewrite !elem_of_app.
  - right; left. by left.
  - right; right; left. destruct H as [->|[->| ->]]; [left|right; left|right; right; left].
  - right; right; right. destruct H as [->| ->]; [left|right; left].
Qed.

(** A rule for everything that is permitted. *)
Lemma permitted_rule nx stats ex n a :
  permitted nx stats ex n a ->
  (exists r, r ∈ base_rules nx /\ matches n a r) \/
  (exists fd fl mode, (fd, fl, mode) ∈ stats /\ exists r, r ∈ all_rules fd fl mode /\ matches n a r) \/ matches n a ex.
Proof.
  assert (Hone : forall l, Rule n l ∈ base_rules nx -> Forall (holds a) l -> exists r, r ∈ base_rules nx /\ matches n a r).
  { intros l Hr Hl. by exists (Rule n l). }
  assert (Hfd : forall fd fl mode l, (fd, fl, mode) ∈ stats -> Rule n l ∈ all_rules fd fl mode -> Forall (holds a) l ->
    exists fd fl mode, (fd, fl, mode) ∈ stats /\ exists r, r ∈ all_rules fd fl mode /\ matches n a r).
  { intros fd fl mode l Hst Hr Hl. exists fd, fl, mode. split; [done|]. by exists (Rule n l). }
  destruct n; cbn [permitted]; try done.
  all: try by (intros _; left; eapply (Hone []); [find_rule|done]).
  all: try by (intros (fd & fl & mode & Hst & Ha & Hr); right; left; eapply (Hfd fd fl mode [SCMP_A 0 fd]);
    [done|apply all_rules_rw; first [left; split; [find_rule|done]|right; split; [find_rule|done]]|alls]).
  - intros H. left. eapply (Hone [_]); [find_rule|alls].
  - intros [H1 H2]. left. eapply (Hone [_; _]); [find_rule|alls].
  - intros [H1 H2]. left. destruct nx.
    + eapply (Hone [_; _]); [find_rule|alls].
    + eapply (Hone [_]); [find_rule|alls].
  - intros H. left. destruct nx.
    + eapply (Hone [_]); [find_rule|alls].
    + eapply (Hone []); [find_rule|done].
  - intros (fd & fl & mode & Hst & Ha & _). right. left. eapply (Hfd fd fl mode [SCMP_A 0 fd]); [done| |alls].
    apply all_rules_other. by left.
  - intros (H1 & fd & fl & mode & Hst & Ha & _). right. left. eapply (Hfd fd fl mode [SCMP_A 0 fd; SCMP_A 1 F_GETFL]); [done| |alls].
    apply all_rules_other. right. by left.
  - intros (fd & fl & mode & Hst & Ha & Hm). right. left.
    apply ioctl_rule in Hm as (c & Hc & Hr). eapply (Hfd fd fl mode [SCMP_A 0 fd; SCMP_A 1 c]); [done| |alls].
    by apply all_rules_other, Hr.
  - intros (fd & fl & mode & Hst & Ha & Hm). right. left. eapply (Hfd fd fl mode [SCMP_A 0 fd]); [done| |alls].
    apply all_rules_other. unfold other_rules. rewrite Hm. apply elem_of_app. right. apply elem_of_app. right. apply elem_of_app. right. find_rule.
  - intros H. by right; right.
  - intros H. by right; right.
Qed.

End FilterFacts.

(** ** Facts: the command line *)

Module ArgFacts.
Import Host Sandbox Rexec RexecFacts.

(** The options that are followed by a value. *)
Definition takes_value (arg : str) : bool :=
  bool_decide (arg = lit "-u") || bool_decide (arg = lit "-g") || bool_decide (arg = lit "-v").

(** The arguments of the guest: what follows ["--"]. *)
Fixpoint guest_args (args : list str) : list str :=
  match args with
  | [] => []
  | arg :: args =>
      if bool_decide (arg = lit "--") then args
      else if takes_value arg then match args with [] => [] | _ :: args => guest_args args end
      else guest_args args
  end.

(** The files the command line names, each with the mode it is opened in. *)
Fixpoint disk_args (m : Z) (args : list str) : list (str * Z) :=
  match args with
  | [] => []
  | arg :: args =>
      if bool_decide (arg = lit "--") then []
      else if takes_value arg then match args with [] => [] | _ :: args => disk_args m args end
      else if bool_decide (arg = lit "-ro") then disk_args O_RDONLY args
      else if bool_decide (arg = lit "-rw") then disk_args O_RDWR args
      else if bool_decide (arg = lit "-nx") || bool_decide (arg = lit "-noroot") || bool_decide (58 ∈ arg) then disk_args m args
      else (arg, m) :: disk_args m args
  end.

(** The file is open and recorded as a disk. *)
Definition recorded (h : host) (s : state) (a : str * Z) : Prop :=
  exists fd cs, (FDINFO_ENV_PREFIX_DISK ++ a.1, fd) ∈ fdinfo_list s /\ fd = h_ret h cs (Open a.1 a.2) /\ fd <> -1.

Lemma recorded_grown h s s1 a : grown s s1 -> recorded h s a -> recorded h s1 a.
Proof.
  intros [_ [l Hl]] (fd & cs & Hin & H). exists fd, cs. split; [|done]. rewrite Hl. apply elem_of_app. by left.
Qed.

Lemma split_colon_none s : split_colon s = None <-> (58 ∉ s).
Proof.
  induction s as [|c s IH]; cbn [split_colon]; [split; [intros _ H; by apply elem_of_nil in H|done]|].
  destruct (Z.eqb_spec c 58) as [->|Hc]; [split; [done|intros H; destruct H; by left]|].
  rewrite not_elem_of_cons, <- IH. destruct (split_colon s) as [[a b]|]; [|done].
  split; [done|]. by intros [_ ?].
Qed.

Lemma open_arg_recorded h os arg m s u s1 :
  58 ∉ arg -> open_arg h os arg m s = Ok u s1 -> recorded h s1 (arg, m).
Proof.
  intros Hc%split_colon_none. unfold open_arg. rewrite Hc. intros (fd & s2 & E1 & H)%bind_ok.
  apply bind_ok in H as (u2 & s3 & _ & H). apply sys_or_exit_ok in E1 as (-> & Hne & ->).
  unfold record_fd, mbind, prog_bind in H. cbn in H. destruct (_ || _); [done|]. injection H as _ <-.
  eexists _, (calls s). split_and!; [|done|done]. cbn. apply elem_of_app. right. by left.
Qed.

(** What is known of the options and the descriptors after the command line. *)
Definition parsed (h : host) (args : list str) (o o' : opts) (rest : list str) (s' : state) : Prop :=
  pargs o' = pargs o /\ program o' = program o /\ rest = guest_args args /\ Forall (recorded h s') (disk_args (mode o) args).

Lemma parsed_later h (args args' : list str) o1 o o' rest s' :
  guest_args args = guest_args args' -> disk_args (mode o) args = disk_args (mode o1) args' ->
  pargs o1 = pargs o -> program o1 = program o -> parsed h args' o1 o' rest s' -> parsed h args o o' rest s'.
Proof. unfold parsed. intros -> -> <- <-. done. Qed.

Lemma parse_args_spec h os n : plain_opens os -> forall args o s o' rest s', (length args <= n)%nat ->
  parse_args h os args o s = Ok (o', rest) s' -> parsed h args o o' rest s'.
Proof.
  intros Hopen. induction n as [|n IH]; intros [|arg args] o s o' rest s' Hl; cbn [length] in Hl; try lia;
    [intros [= <- <- <-]; by split_and!; try constructor..|].
  assert (Hgo : forall o1 s1, parse_args h os args o1 s1 = Ok (o', rest) s' -> parsed h args o1 o' rest s')
    by (intros; eapply IH; [lia|done]).
  assert (Htl : forall a args' o1 s1, args = a :: args' -> parse_args h os args' o1 s1 = Ok (o', rest) s' -> parsed h args' o1 o' rest s').
  { intros a args' o1 s1 ->. cbn [length] in Hl. apply IH. lia. }
  cbn [parse_args]. case_bool_decide; [done|].
  do 3 (case_bool_decide; [subst arg; intros Hrun%Hgo; by eapply parsed_later, Hrun|]).
  do 2 (case_bool_decide; [subst arg; destruct args as [|a args']; [done|];
    intros (u & s1 & _ & Hrun)%bind_ok; apply bind_ok in Hrun as (u' & s2 & _ & Hrun); eapply Htl in Hrun; [|done];
    by eapply parsed_later, Hrun|]).
  case_bool_decide; [subst arg; intros (u & s1 & _ & Hrun%Hgo)%bind_ok; by eapply parsed_later, Hrun|].
  case_bool_decide; [subst arg; intros [= <- <- <-]; split_and!; try done; constructor|].
  case_bool_decide.
  { subst arg. destruct args as [|a args']; [done|]. intros (u & s1 & _ & Hrun)%bind_ok. eapply Htl in Hrun; [|done].
    by eapply parsed_later, Hrun. }
  intros (u & s1 & E1 & Hrun)%bind_ok. pose proof (Hgo _ _ Hrun) as (Hp & Hq & Hr & Hd).
  unfold parsed. cbn [guest_args disk_args]. unfold takes_value. rewrite !(bool_decide_false (arg = _)) by done. cbn [orb].
  split_and!; [done..|]. case_bool_decide; [done|]. constructor; [|done].
  eapply recorded_grown; [|by eapply open_arg_recorded]. eapply plain_grown; [|exact Hrun]. by eapply plain_parse_args.
Qed.

Lemma parse_spec h os argv s o rest s' :
  plain_opens os -> parse h os argv s = Ok (o, rest) s' -> exists p args, argv = p :: args /\ parsed h args (set_program p opts0) o rest s'.
Proof.
  intros Hopen. destruct argv as [|p args]; [done|]. cbn [parse]. case_bool_decide; [done|]. intros H1. exists p, args. split; [done|].
  by eapply parse_args_spec.
Qed.

End ArgFacts.

(** ** Facts: the identifier *)

Module UuidFacts.
Import Host Rexec.

(** The bytes that hexadecimal digits stand for. *)
Definition digit_value (c : Z) : Z := if c <? 58 then c - 48 else c - 87.
Fixpoint unhex (l : str) : list Z :=
  match l with
  | a :: b :: l => 16 * digit_value a + digit_value b :: unhex l
  | _ => []
  end.

Definition bytes (l : list Z) : Prop := Forall (fun b => 0 <= b < 256) l.

Lemma hex_digit_value n : 0 <= n < 16 -> digit_value (hex_digit n) = n /\ hex_digit n <> 45.
Proof. intros Hn. unfold hex_digit, digit_value. repeat case_cmp; lia. Qed.

Lemma hex_spec l : bytes l -> filter (.≠ 45) (hex l) = hex l /\ length (hex l) = (2 * length l)%nat /\ forall r, unhex (hex l ++ r) = l ++ unhex r.
Proof.
  induction 1 as [|b l Hb Hl (IH1 & IH2 & IH3)]; [done|].
  destruct (hex_digit_value (b / 16)) as [H1 H2]; [pose proof (Z.div_lt_upper_bound b 16 16); pose proof (Z.div_pos b 16); lia|].
  destruct (hex_digit_value (b mod 16)) as [H3 H4]; [apply Z.mod_pos_bound; lia|].
  unfold hex in *. cbn [map concat hex2 app length]. split_and!.
  - rewrite !filter_cons_True by done. by rewrite IH1.
  - rewrite IH2. lia.
  - intros r. cbn [unhex app]. rewrite IH3, H1, H3. f_equal. rewrite (Z.div_mod b 16) at 3 by lia. lia.
Qed.

Lemma filter_dash l : filter (.≠ 45) (45 :: l) = filter (.≠ 45) l.
Proof. by apply filter_cons_False; intros []. Qed.

Ltac all_bytes := repeat (apply Forall_nil_2 || (apply Forall_cons_2; [done|])).

Lemma uuid_string_spec rd :
  length rd = 16%nat -> bytes rd ->
  length (uuid_string rd) = 36%nat /\ unhex (filter (.≠ 45) (uuid_string rd)) = rd /\
  map (fun i => uuid_string rd !! i) [8%nat; 13%nat; 18%nat; 23%nat] = replicate 4 (Some 45).
Proof.
  intros Hl Hb. do 16 (destruct rd as [|? rd]; [done|]). destruct rd; [|done]. split_and!; [done| |done].
  unfold uuid_string. cbn [take drop]. unfold bytes in Hb.
  repeat match goal with H : Forall _ (_ :: _) |- _ => apply Forall_cons in H as [?H H] end.
  rewrite !filter_app, !filter_dash, !filter_app, !filter_dash, !filter_app, !filter_dash, !filter_app, !filter_dash.
  repeat match goal with |- context [filter _ (hex ?l)] =>
    rewrite (proj1 (hex_spec l ltac:(all_bytes))) end.
  repeat match goal with |- context [unhex (hex ?l ++ ?r)] =>
    rewrite (proj2 (proj2 (hex_spec l ltac:(all_bytes))) r) end.
  match goal with |- context [unhex (hex ?l)] => rewrite <- (app_nil_r (hex l)), (proj2 (proj2 (hex_spec l ltac:(all_bytes))) []) end.
  done.
Qed.

End UuidFacts.

(** ** Properties of the loader *)

Module RexecProperties.
Import Host Sandbox Rexec RexecFacts EnvFacts FilterFacts ArgFacts UuidFacts.

Section Run.
Variable h : host.
Variable cf : config.
Variable emptystring_addr argv_addr envp_addr : Z.
Variable buf0 dest0 gw0 after_string : list Z.
Variable argv : list str.
Variable env : list str.
Variable im : image.
Variable s : state.

Abbreviation os := (linux_os h cf emptystring_addr argv_addr envp_addr buf0 dest0 gw0 after_string).
Abbreviation run := (main h os argv (state0 env)).
Abbreviation parses := (parse h os argv).

(** C4. The sandbox: when the program is executed with the filter loaded, the
    filter lets a system call through only if it is one of the unconditional
    ones, or is on a descriptor the loader left open and asks for what its open
    mode and its kind allow; and it lets all of those through, apart from preadv
    and pwritev, whose rules may be missing. *)
Theorem sandbox_confines (verdict : list rule -> sysno -> (nat -> Z) -> bool) :
  (forall rules n a, verdict rules n a = true <-> Exists (matches n a) rules) ->
  seccomp cf = true -> run = Exec im s ->
  exists o rest s1 s2 stats fd cs,
    parses s1 = Ok (o, rest) s2 /\
    map (fun x => x.1.1) stats = map Z.of_nat (seq 0 (Z.to_nat (h_ret h cs (Socket 1 1 0)))) /\
    Forall (fun '(fd, fl, mode) => (exists cs, fl = h_ret h cs (Fcntl_getfl fd)) /\ exists cs, mode = h_mode h cs (Fstat fd)) stats /\
    let allowed := permitted (nx o) stats (exec_rule cf fd emptystring_addr argv_addr envp_addr) in
    forall n a,
      (verdict (ctx s) n a = true -> allowed n a) /\
      (allowed n a -> n <> SYS_preadv -> n <> SYS_pwritev -> verdict (ctx s) n a = true).
Proof.
  intros Hv Hcf Hrun. apply main_executed in Hrun as (o & rest & stats & s1 & s2 & Hp & Hex).
  destruct (ex_filter _ _ _ _ _ _ _ _ _ _ _ _ _ Hex Hcf eq_refl) as (fd & new & Hnew & Hsub & Hsup). cbn [app] in Hnew.
  destruct (ex_fds _ _ _ _ _ _ _ _ _ _ _ _ _ Hex) as [cs Hcs].
  exists o, rest, s1, s2, stats, fd, cs. split_and!; [done|done| |].
  { eapply Forall_impl; [apply (ex_stats _ _ _ _ _ _ _ _ _ _ _ _ _ Hex)|]. intros [[f fl] m]. by intros (_ & ? & ?). }
  intros allowed n a. rewrite Hv, Hnew. split.
  - intros (r & Hr & Hm)%Exists_exists. apply Hsub in Hr. rewrite !elem_of_app in Hr. destruct Hr as [Hr|[Hr|Hr]].
    + by eapply base_permitted.
    + apply list_elem_of_In, in_concat in Hr as (l & Hl & Hr). apply in_map_iff in Hl as ([[f fl] m] & <- & Hl).
      by eapply fd_permitted; [apply list_elem_of_In|apply list_elem_of_In|].
    + apply list_elem_of_singleton in Hr as ->. unfold allowed. destruct Hm as [<- Hm]. unfold exec_rule in *. by destruct (execveat cf).
  - intros Ha Hn1 Hn2. apply Exists_exists. apply permitted_rule in Ha as [(r & Hr & Hm)|[(f & fl & m & Hst & r & Hr & Hm)|Hm]].
    + exists r. split; [|done]. apply Hsup; [apply elem_of_app; by left|by destruct Hm as [-> _]..].
    + exists r. split; [|done]. apply Hsup; [|by destruct Hm as [-> _]..]. rewrite !elem_of_app. right. left.
      apply list_elem_of_In, in_concat. exists (all_rules f fl m). split; [|by apply list_elem_of_In].
      apply in_map_iff. exists (f, fl, m). split; [done|by apply list_elem_of_In].
    + eexists. split; [|exact Hm]. apply Hsup; [rewrite !elem_of_app; right; right; by left|by destruct Hm as [-> _]..].
Qed.

(** The program is given its path and the arguments after "--", in an array
    with one entry per argument of the loader, of which the rest is null. *)
Theorem program_gets_arguments :
  run = Exec im s ->
  exists p args n, argv = p :: args /\ (0 < n)%nat /\
    im_argv im = map Some (p :: guest_args args) ++ repeat None n /\ length (im_argv im) = S (length argv).
Proof.
  intros Hrun. apply main_executed in Hrun as (o & rest & stats & s1 & s2 & Hp & Hex).
  apply parse_spec in Hp as (p & args & -> & Hpa & _ & -> & _); [|auto with loader]. exists p, args.
  destruct (ex_args _ _ _ _ _ _ _ _ _ _ _ _ _ Hex) as [Hl Him]. rewrite Hpa in Hl, Him. cbn [set_program pargs opts0 app] in *.
  eexists. split_and!; [done| |exact Him|]; [lia|]. rewrite Him, length_app, length_map, repeat_length. lia.
Qed.

(** C18. Privileges are dropped in the right order: with -u and -g the group is
    set, then the user, then the capabilities are dropped; this is after every
    file of the command line is open, and each step was successful. *)
Theorem privileges_dropped :
  run = Exec im s ->
  exists o rest s1 s2, parses s1 = Ok (o, rest) s2 /\
    (user o <> 0 -> group o <> 0 -> exists c1 c2,
       calls s2 `prefix_of` c1 /\ calls s = c1 ++ [Setgid (group o); Setuid (user o); Capset] ++ c2 /\
       h_ret h c1 (Setgid (group o)) <> -1 /\ h_ret h (c1 ++ [Setgid (group o)]) (Setuid (user o)) <> -1 /\
       h_ret h (c1 ++ [Setgid (group o); Setuid (user o)]) Capset <> -1).
Proof.
  intros Hrun. apply main_executed in Hrun as (o & rest & stats & s1 & s2 & Hp & Hex). exists o, rest, s1, s2. split; [done|].
  apply (ex_dropped _ _ _ _ _ _ _ _ _ _ _ _ _ Hex).
Qed.

(** *** The program's side *)

Variable answer : list Boot.call -> Boot.call -> Z.
Variable fstat : FdTable.fdtab -> Z -> FdTable.stat -> outcome (Z * option Z * FdTable.stat).
Variable fcntl_getfl : Z -> Z.
Variable cfg_malloc : Z.
Variable host_stat : Z -> option FdTable.stat.

(** The platform's [fstat] reports what the host has. *)
Definition fstat_of_host : Prop := forall t fd, FdinitFacts.fresh t -> 0 <= fd < 64 ->
  fstat t fd FdTable.stat0 =
    match host_stat fd with Some st => Ret (0, None, st) | None => Ret (-1, Some EBADF, FdTable.stat0) end.

(** The start of the executed program. *)
Abbreviation guest_start := (Boot.__franken_fdinit answer fstat fcntl_getfl cfg_malloc (im_env im) Boot.state0).

(** The table has the descriptor, with the host's flags and status. *)
Definition in_table (fd : Z) (g : Boot.state) : Prop :=
  exists e, Boot.fds g !! Z.to_nat fd = Some e /\
    FdinitFacts.view e = (1, fcntl_getfl fd, default FdTable.stat0 (host_stat fd)).

Lemma recorded_in_env l1 name fd l2 :
  run = Exec im s -> fdinfo_list s = l1 ++ (name, fd) :: l2 -> name ∉ map fst l2 -> 61 ∉ name -> 0 <= fd < 64 ->
  fd_name name /\ entry name (Str.print_dec fd) ∈ im_env im.
Proof.
  intros Hrun Hl Hl2 Heq Hfd. apply main_executed in Hrun as (o & rest & stats & s1 & s2 & Hp & Hex).
  pose proof (ex_names _ _ _ _ _ _ _ _ _ _ _ _ _ Hex (Forall_nil_2 _)) as Hn. unfold names_ok in Hn. rewrite Hl in Hn.
  apply Forall_app in Hn as [_ [Hn _]%Forall_cons]. split; [done|].
  destruct (ex_env _ _ _ _ _ _ _ _ _ _ _ _ _ Hex) as [e0 ->]. rewrite Hl. apply getenv_elem.
  rewrite getenv_setenvs by (done || by apply name_not_empty). by rewrite (proj1 (small_fd_text fd Hfd)).
Qed.

Lemma env_reaches_guest name fd :
  fd_name name -> entry name (Str.print_dec fd) ∈ im_env im -> 61 ∉ name -> 0 <= fd < 64 ->
  fstat_of_host -> Forall (FdinitFacts.entry_ok (im_env im) host_stat) (im_env im) ->
  exists g, guest_start = Ret g /\ in_table fd g /\
    forall c, c ∈ FdinitFacts.entry_calls cfg_malloc (im_env im) (entry name (Str.print_dec fd)) -> c ∈ Boot.calls g.
Proof.
  intros Hn Hin Heq Hfd Hst Hok. set (e := entry name (Str.print_dec fd)) in *.
  destruct (BootProperties.fdinit_spec answer fstat fcntl_getfl cfg_malloc (im_env im) host_stat Hst Hok)
    as (g & Hg & [Hlen _] & Ht & Hc & _).
  exists g. split; [done|]. assert (Hv : e ∈ BootProperties.visited (im_env im)).
  { unfold BootProperties.visited. destruct (im_env im); [done|]. by right. }
  assert (Hnum : FdinitFacts.named_fd e = Some fd).
  { unfold FdinitFacts.named_fd, FdinitFacts.entry_fd, e. rewrite name_is_fdinfo, after_eq_entry by done.
    cbn. by rewrite (proj2 (small_fd_text fd Hfd)). }
  split.
  - destruct (Ht (Z.to_nat fd) FdTable.fdent0) as (x & Hx & Hview); [apply lookup_replicate; split; [done|lia]|].
    exists x. split; [done|]. rewrite Z2Nat.id, decide_True in Hview by
      (lia || unfold BootProperties.passed; rewrite !elem_of_app; do 3 right; apply list_elem_of_omap; by exists e).
    done.
  - intros c Hin'. rewrite Hc. apply list_elem_of_In, in_flat_map. exists e. split; by apply list_elem_of_In.
Qed.

(** C9. From the loader to the guest: a descriptor the loader recorded (last
    under its name, which has no equals sign) is marked valid in the descriptor
    table of the program it executes, with the host's flags and status, and is
    made the device that its name says. *)
Theorem descriptors_reach_guest l1 name fd l2 :
  run = Exec im s -> fdinfo_list s = l1 ++ (name, fd) :: l2 -> name ∉ map fst l2 -> 61 ∉ name -> 0 <= fd < 64 ->
  fstat_of_host -> Forall (FdinitFacts.entry_ok (im_env im) host_stat) (im_env im) ->
  exists g, guest_start = Ret g /\ in_table fd g /\
    ((exists x, name = FDINFO_ENV_PREFIX_NET ++ x) /\ Boot.NetdevRumpfdCreate fd ∈ Boot.calls g \/
     (name = FDINFO_ENV_PREFIX_ROOT \/ exists x, name = FDINFO_ENV_PREFIX_DISK ++ x) /\ Boot.DiskAdd fd ∈ Boot.calls g \/
     name = FDINFO_NAME_CONFIGJSON /\ (cfg_malloc <> 0 -> Boot.LoadConfigJson fd ∈ Boot.calls g)).
Proof.
  intros Hrun Hl Hl2 Heq Hfd Hst Hok. destruct (recorded_in_env _ _ _ _ Hrun Hl Hl2 Heq Hfd) as [Hn Hin].
  destruct (env_reaches_guest name fd Hn Hin Heq Hfd Hst Hok) as (g & Hg & Ht & Hc). exists g. split_and!; [done|done|].
  pose proof (entry_calls_of name fd (im_env im) cfg_malloc Heq Hfd) as (Hnet & Hdisk & Hjson).
  destruct Hn as [Hn|[Hn|[Hn|Hn]]]; [right; right|right; left..|left|right; left]; split; auto.
Qed.

(** C16. A file named on the command line is a disk of the guest: it was opened in
    the mode of the last -ro or -rw before it, and the program it is executed
    for finds the descriptor and adds it as a disk.  This is for a path without
    an equals sign, when no name is recorded twice, the recorded descriptors fit
    the guest's table of 64, and the entries the guest finds in its environment
    are well-formed. *)
Theorem file_argument_is_disk arg m :
  run = Exec im s -> (arg, m) ∈ disk_args O_RDWR (tail argv) -> 61 ∉ arg ->
  NoDup (map fst (fdinfo_list s)) -> (forall e, e ∈ fdinfo_list s -> 0 <= e.2 < 64) ->
  fstat_of_host -> Forall (FdinitFacts.entry_ok (im_env im) host_stat) (im_env im) ->
  exists fd cs g, fd = h_ret h cs (Open arg m) /\ guest_start = Ret g /\ in_table fd g /\ Boot.DiskAdd fd ∈ Boot.calls g.
Proof.
  intros Hrun Hin Harg Hnd Hfds Hst Hok.
  assert (Hrec : recorded h s (arg, m)).
  { apply main_executed in Hrun as (o & rest & stats & s1 & s2 & Hp & Hex).
    apply parse_spec in Hp as (p & args & -> & _ & _ & _ & Hd); [|auto with loader]. cbn [tail] in Hin. rewrite Forall_forall in Hd.
    destruct (Hd _ Hin) as (fd & cs & Hr & H). exists fd, cs. split; [|done].
    destruct (ex_recorded _ _ _ _ _ _ _ _ _ _ _ _ _ Hex) as [l ->]. apply elem_of_app. by left. }
  destruct Hrec as (fd & cs & Hr & -> & _). cbn [fst snd] in Hr. set (fd := h_ret h cs (Open arg m)) in *.
  assert (Heq : 61 ∉ FDINFO_ENV_PREFIX_DISK ++ arg).
  { rewrite elem_of_app. intros [H|H]; [|done]. revert H. by apply (bool_decide_unpack (61 ∉ FDINFO_ENV_PREFIX_DISK)). }
  apply list_elem_of_split in Hr as Hsp. destruct Hsp as (l1 & l2 & Hl). pose proof (Hfds _ Hr) as Hfd. cbn [snd] in Hfd.
  assert (Hl2 : FDINFO_ENV_PREFIX_DISK ++ arg ∉ map fst l2).
  { rewrite Hl, map_app in Hnd. apply NoDup_app in Hnd as (_ & _ & Hnd). cbn [map fst] in Hnd. by apply NoDup_cons in Hnd as [? _]. }
  destruct (recorded_in_env _ _ _ _ Hrun Hl Hl2 Heq Hfd) as [Hn Hen].
  destruct (env_reaches_guest _ fd Hn Hen Heq Hfd Hst Hok) as (g & Hg & Ht & Hc). exists fd, cs, g. split_and!; try done.
  apply Hc. apply entry_calls_of; [done|done|]. right. by exists arg.
Qed.

End Run.

(** C28. The identifier: where the environment has none, the loader adds one of
    36 characters in the form 8-4-4-4-12, whose digits are the 16 bytes that
    were read from the random source it had just opened; where it has one, that
    one stays and nothing is opened. *)
Theorem uuid_of_random_bytes h s s1 :
  uuid h s = Ok tt s1 ->
  (forall cs fd, h_ret h cs (Read fd 16) = 16 -> length (h_data h cs (Read fd 16)) = 16%nat /\ bytes (h_data h cs (Read fd 16))) ->
  match getenv (lit "UUID") (environ s) with
  | Some _ => s1 = s
  | None =>
      let open := Open (lit "/dev/urandom") O_RDONLY in
      let fd := h_ret h (calls s) open in
      exists v, getenv (lit "UUID") (environ s1) = Some v /\ length v = 36%nat /\
        map (fun i => v !! i) [8%nat; 13%nat; 18%nat; 23%nat] = replicate 4 (Some 45) /\
        unhex (filter (.≠ 45) v) = h_data h (calls s ++ [open]) (Read fd 16) /\
        calls s1 = calls s ++ [open; Read fd 16; Close fd]
  end.
Proof.
  intros Hrun Hrd. unfold uuid in Hrun. apply bind_ok in Hrun as (s2 & s3 & E1 & H). injection E1 as -> <-.
  destruct (getenv (lit "UUID") _) eqn:Hno; [by injection H as <-|]. cbv zeta.
  apply bind_ok in H as (fd & s4 & E2 & H). apply bind_ok in H as ([count rd] & s5 & E3 & H). cbn in E3. injection E3 as <- <- <-.
  apply bind_ok in H as (u & s6 & E4 & H). unfold exit_if in E4.
  destruct (Z.eqb_spec (h_ret h (calls s4) (Read fd 16)) 16) as [Hc|]; [|done]. injection E4 as _ <-.
  apply bind_ok in H as (r & s7 & E5 & H). apply sys_or_exit_ok in E5 as (_ & _ & ->). apply sys_or_exit_ok in E2 as (-> & _ & ->).
  destruct (Hrd _ _ Hc) as [Hlen Hb]. injection H as <-. cbn [upd_environ upd_calls environ calls] in *.
  rewrite firstn_all2 by lia. destruct (uuid_string_spec _ Hlen Hb) as (H1 & H2 & H3).
  eexists. split_and!; [|exact H1|exact H3|exact H2|by rewrite <- !app_assoc].
  unfold setenv. rewrite Hno. rewrite (bool_decide_false (is_Some None)) by (by intros []).
  cbn [negb andb]. apply getenv_put_same.
Qed.

(** *** A run *)

(** A host with one disk image, which opens as descriptor 3. *)
Definition demo_ret (_ : list oscall) (c : oscall) : Z :=
  match c with
  | Open path _ => if bool_decide (path = lit "d.img") then 3 else 9
  | Fcntl_getfl _ => 2
  | Read _ _ => 16
  | Socket _ _ _ => 4
  | Strdup _ | Calloc _ _ | Seccomp_init => 4096
  | _ => 0
  end.

Definition demo_data (_ : list oscall) (c : oscall) : list Z :=
  match c with Read _ _ => map Z.of_nat (seq 0 16) | Socketpair => repeat 0 8 | _ => [] end.

Definition demo_machine : host := MkHost demo_ret demo_data (fun _ _ => FdTable.S_IFREG) (fun _ _ => 0).

Definition demo_os : os_ops := linux_os demo_machine (Config true false) 0 0 0 [] [] [] [].

Definition demo_argv : list str :=
  [lit "/bin/p"; lit "-ro"; lit "d.img"; lit "-u"; lit "7"; lit "-g"; lit "8"; lit "--"; lit "x"; lit "-y"].

Definition demo_run : res unit :=
  main demo_machine demo_os demo_argv (state0 [lit "HOME=/"]).

Definition demo_image : image := Eval vm_compute in match demo_run with Exec im _ => im | _ => Image [] [] [] end.
Definition demo_end : state := Eval vm_compute in match demo_run with Exec _ s => s | _ => state0 [] end.

Lemma demo_executes :
  main demo_machine demo_os demo_argv (state0 [lit "HOME=/"]) = Exec demo_image demo_end.
Proof. vm_compute. reflexivity. Qed.

(** A filter as libseccomp describes it. *)
Definition holdsb (a : nat -> Z) (c : scmp) : bool :=
  match c with SCMP_CMP_EQ i d => a i =? d | SCMP_CMP_MASKED_EQ i m d => Z.land (a i) m =? d end.
Definition demo_verdict (rules : list rule) (n : sysno) (a : nat -> Z) : bool :=
  existsb (fun r => bool_decide (rule_sys r = n) && forallb (holdsb a) (rule_args r)) rules.

Lemma demo_verdict_spec rules n a : demo_verdict rules n a = true <-> Exists (matches n a) rules.
Proof.
  unfold demo_verdict. rewrite existsb_exists, Exists_exists. apply exist_proper. intros r. rewrite <- list_elem_of_In.
  apply and_iff_compat_l. rewrite andb_true_iff, bool_decide_eq_true, forallb_forall. unfold matches. apply and_iff_compat_l.
  rewrite Forall_forall. apply forall_proper. intros c. rewrite <- list_elem_of_In.
  destruct c; cbn; by rewrite Z.eqb_eq.
Qed.

Lemma sandbox_confines_witness :
  exists stats ex, demo_verdict (ctx demo_end) SYS_write (fun _ => 3) = true /\
    permitted false stats ex SYS_write (fun _ => 3) /\ demo_verdict (ctx demo_end) SYS_write (fun _ => 5) = false.
Proof.
  destruct (sandbox_confines demo_machine (Config true false) 0 0 0 [] [] [] [] demo_argv [lit "HOME=/"] demo_image demo_end
    demo_verdict demo_verdict_spec eq_refl demo_executes) as (o & rest & s1 & s2 & stats & fd & cs & Hp & _ & _ & H).
  exists stats, (exec_rule (Config true false) fd 0 0 0).
  assert (H1 : demo_verdict (ctx demo_end) SYS_write (fun _ => 3) = true) by (vm_compute; reflexivity).
  split; [exact H1|]. split; [|vm_compute; reflexivity]. apply (proj1 (H SYS_write (fun _ => 3)) H1).
Defined.

Lemma program_gets_arguments_witness :
  exists n, im_argv demo_image = map Some [lit "/bin/p"; lit "x"; lit "-y"] ++ repeat None n.
Proof.
  destruct (program_gets_arguments demo_machine (Config true false) 0 0 0 [] [] [] [] demo_argv [lit "HOME=/"] demo_image demo_end
    demo_executes) as (p & args & n & Ha & _ & Him & _).
  injection Ha as <- <-. exists n. exact Him.
Defined.

Lemma privileges_dropped_witness :
  exists o rest s1 s2, parse demo_machine demo_os demo_argv s1 = Ok (o, rest) s2 /\
    (user o <> 0 -> group o <> 0 -> Setuid (user o) ∈ calls demo_end).
Proof.
  destruct (privileges_dropped demo_machine (Config true false) 0 0 0 [] [] [] [] demo_argv [lit "HOME=/"] demo_image demo_end
    demo_executes) as (o & rest & s1 & s2 & Hp & H).
  exists o, rest, s1, s2. split; [exact Hp|]. intros Hu Hg. destruct (H Hu Hg) as (c1 & c2 & _ & -> & _).
  apply elem_of_app. right. right. left.
Defined.

(** The program's platform: every descriptor is open. *)
Definition demo_fstat (t : FdTable.fdtab) (fd : Z) (st : FdTable.stat) : outcome (Z * option Z * FdTable.stat) :=
  Ret (0, None, FdTable.stat0).

Lemma demo_fstat_host : fstat_of_host demo_fstat (fun _ => Some FdTable.stat0).
Proof. done. Qed.

Lemma demo_entries : Forall (FdinitFacts.entry_ok (im_env demo_image) (fun _ => Some FdTable.stat0)) (im_env demo_image).
Proof.
  apply Forall_forall. intros e He. repeat (apply elem_of_cons in He as [->|He]); [..|by apply elem_of_nil in He];
    unfold FdinitFacts.entry_ok; match goal with |- match ?x with _ => _ end =>
      let y := eval vm_compute in x in replace x with y by (vm_compute; reflexivity) end;
    eexists; (split; [vm_compute; reflexivity|]); (split; [intros Hf; first [discriminate Hf|split; [lia|by eexists]]|done]).
Qed.

Lemma descriptors_reach_guest_witness :
  exists g, Boot.__franken_fdinit (fun _ _ => 0) demo_fstat (fun _ => 2) 0 (im_env demo_image) Boot.state0 = Ret g /\
    in_table (fun _ => 2) (fun _ => Some FdTable.stat0) 3 g.
Proof.
  destruct (descriptors_reach_guest demo_machine (Config true false) 0 0 0 [] [] [] [] demo_argv [lit "HOME=/"] demo_image demo_end
    (fun _ _ => 0) demo_fstat (fun _ => 2) 0 (fun _ => Some FdTable.stat0) [] (FDINFO_ENV_PREFIX_DISK ++ lit "d.img") 3 []
    demo_executes eq_refl) as (g & Hg & Ht & _);
    [apply not_elem_of_nil|apply (bool_decide_unpack (61 ∉ _)); vm_compute; reflexivity|lia|exact demo_fstat_host|exact demo_entries|].
  exists g. split; [exact Hg|exact Ht].
Defined.

Lemma file_argument_is_disk_witness :
  exists g, Boot.__franken_fdinit (fun _ _ => 0) demo_fstat (fun _ => 2) 0 (im_env demo_image) Boot.state0 = Ret g /\
    Boot.DiskAdd 3 ∈ Boot.calls g.
Proof.
  destruct (file_argument_is_disk demo_machine (Config true false) 0 0 0 [] [] [] [] demo_argv [lit "HOME=/"] demo_image demo_end
    (fun _ _ => 0) demo_fstat (fun _ => 2) 0 (fun _ => Some FdTable.stat0) (lit "d.img") O_RDONLY
    demo_executes) as (fd & cs & g & Hfd & Hg & _ & Hd);
    [left|apply (bool_decide_unpack (61 ∉ _)); vm_compute; reflexivity
    |apply NoDup_singleton|intros e He; apply list_elem_of_singleton in He as ->; cbn; lia|exact demo_fstat_host|exact demo_entries|].
  exists g. split; [exact Hg|]. rewrite Hfd in Hd. exact Hd.
Defined.

Lemma uuid_of_random_bytes_witness :
  exists v s1, uuid demo_machine (state0 []) = Ok tt s1 /\ getenv (lit "UUID") (environ s1) = Some v /\
    unhex (filter (.≠ 45) v) = map Z.of_nat (seq 0 16).
Proof.
  destruct (uuid_of_random_bytes demo_machine (state0 []) (match uuid demo_machine (state0 []) with Ok _ s => s | _ => state0 [] end))
    as (v & H1 & _ & _ & H2 & _); [vm_compute; reflexivity| |].
  { intros cs fd _. split; [reflexivity|]. apply Forall_forall. intros x Hx. apply list_elem_of_fmap in Hx as (n & -> & Hn).
    apply list_elem_of_In, in_seq in Hn. lia. }
  exists v. eexists. split; [|split; [exact H1|exact H2]]. vm_compute. reflexivity.
Defined.

End RexecProperties.
