(* ===== verification/Bsd.v ===== *)
(** * The other hosts

    [FreeBSD], [NetBSD] and [Darwin] are the files of [platform/freebsd],
    [platform/netbsd] and [platform/darwin] that do more than make a system call.
    [FreeBSDLoader], [NetBSDLoader] and [DarwinLoader] are the parts of the loader
    in [tools/freebsd.c], [netbsd.c] and [darwin.c], as instances of what rexec.c
    asks of its host ([Rexec.os_ops]).  As in [LinuxHost], the answers of the host
    are parameters.  The three ports share the
    descriptor table and, where the code is the same, the definitions of the
    Linux port: struct pollfd, [poll] and the waking of threads. *)

From S2P Require Import Prelude Libc Platform Fdtable Spwire Loader Rexec.
From Stdlib Require Import ZArith Lia String.
From stdpp Require Import base numbers list gmap.
Local Open Scope Z_scope.

(** What the three hosts have in common. *)
Module BsdHost.
Import FdTable LinuxHost Timespec.

(** The fields of the host's struct stat that are read. *)
Record bsd_stat : Type := BStat { b_mode : Z; b_size : Z; b_rdev : Z }.

(** The time in milliseconds that [clock_nanosleep] gives to poll: computed in
    64 bits and stored in an int. *)
Definition poll_timeout (req : timespec) : outcome Z :=
  ms ← int64 (tv_sec req * 1000 + Z.quot (tv_nsec req) 1000000); Ret (i32 ms).

(** [clock_nanosleep] of FreeBSD and Darwin.  [nanosleep] and [sc_poll] are the
    two calls; the result is the return value, [errno] if it is set, the poll
    array and the threads woken. *)
Definition clock_nanosleep (nanosleep : timespec -> Z * option Z) (sc_poll : list pollfd -> Z -> outcome (Z * list pollfd))
    (flags rem : Z) (req : timespec) (p : platform) (t : fdtab) : outcome (Z * option Z * list pollfd * list Z) :=
  if negb (flags =? 0) || negb (rem =? 0) then Ret (-1, Some EINVAL, pollfds p, [])
  else if npoll p =? 0 then let '(r, e) := nanosleep req in Ret (r, e, pollfds p, [])
  else
    timeout ← poll_timeout req;
    let n := Z.to_nat (npoll p) in
    '(ret, ps) ← sc_poll (take n (pollfds p)) timeout;
    let all := ps ++ drop n (pollfds p) in
    if ret =? -1 then Ret (-1, Some EINVAL, all, [])
    else if ret =? 0 then Ret (0, None, all, [])
    else ws ← wake_ready t ps; Ret (0, None, all, ws).

(** [getrandom] of FreeBSD and NetBSD: the sysctl gives four bytes and their
    number.  The return value, [errno] if it is set, and what is stored. *)
Definition getrandom (sysctl : option (list Z * Z)) (size : Z) : Z * option Z * list Z :=
  match sysctl with
  | None => (-1, None, [])
  | Some (rand, lenp) =>
      if negb (lenp =? 4) then (-1, Some ENOSYS, [])
      else let size := if lenp <? size then lenp else size in (size, None, take (Z.to_nat size) rand)
  end.

(** [getpagesize]; [pgsize] is the static variable, which the result is. *)
Definition getpagesize (sysctl : option Z) (pgsize : Z) : outcome Z :=
  if 0 <? pgsize then Ret pgsize else match sysctl with None => Abort | Some n => Ret n end.

End BsdHost.

Module FreeBSD.
Import FdTable LinuxHost Timespec BsdHost Sandbox.

Record host : Type := Host {
  sys_fstat : Z -> option bsd_stat;
  ioctl_mediasize : Z -> option Z;         (* DIOCGMEDIASIZE *)
  ioctl_gifaddr : Z -> option (list Z);    (* SIOCGIFADDR of a tap device *)
}.

(** [fstat]; the size of a block device goes to the host's structure after its
    size has been copied.  Of what the request for the address stores, the six
    bytes of [st_hwaddr] are kept. *)
Definition fstat (h : host) (t : fdtab) (fd : Z) (s : stat) (p : platform) : outcome (Z * option Z * stat * platform) :=
  match sys_fstat h fd with
  | None => Ret (-1, Some EBADF, s, p)
  | Some fst =>
      let s := Stat (st_mode s) (b_size fst) (st_hwaddr s) in
      let kind := Z.land (b_mode fst) S_IFMT in
      let finish (fst : bsd_stat) (s : stat) p := Ret (0, None, Stat (st_mode_of (b_mode fst)) (st_size s) (st_hwaddr s), p) in
      if kind =? S_IFBLK then
        finish (match ioctl_mediasize h fd with Some n => BStat (b_mode fst) n (b_rdev fst) | None => fst end) s p
      else if kind =? S_IFCHR then
        match ioctl_gifaddr h fd with
        | Some a =>
            p ← add_poll fd p;
            finish (BStat S_IFSOCK (b_size fst) (b_rdev fst)) (Stat (st_mode s) (st_size s) (take 6 a)) p
        | None => finish fst s p
        end
      else if kind =? S_IFREG then
        blk ← (if fd =? 3 then Ret true else e ← fd_get fd t; Ret (mounted e =? 1));
        if (blk : bool) then finish (BStat (Z.lor (Z.land (b_mode fst) (Z.lnot S_IFMT)) S_IFBLK) (b_size fst) (b_rdev fst)) s p
        else finish fst s p
      else finish fst s p
  end.

Definition poll := LinuxHost.poll.

Definition clock_nanosleep (nanosleep : timespec -> Z * option Z) (sc_poll : list pollfd -> Z -> Z * list pollfd) :=
  BsdHost.clock_nanosleep nanosleep (fun fds timeout => Ret (sc_poll fds timeout)).

(** The sysctls are KERN_ARND and HW_PAGESIZE. *)
Definition getrandom := BsdHost.getrandom.
Definition getpagesize := BsdHost.getpagesize.

Definition fid_of (clk_id : Z) : option Z :=
  if clk_id =? CLOCK_REALTIME then Some 0 else if clk_id =? CLOCK_MONOTONIC then Some 4 else None.

Definition clock_gettime (sys : Z -> option timespec) (clk_id : Z) : Z * option Z * option timespec :=
  match fid_of clk_id with
  | None => (-1, Some EINVAL, None)
  | Some fid => match sys fid with None => (-1, Some EINVAL, None) | Some ts => (0, None, Some ts) end
  end.
Definition clock_getres := clock_gettime.

Definition FREEBSD_MAP_STACK : Z := 1024.
Definition FREEBSD_MAP_ALIGNED_SUPER : Z := MAP_ALIGNED 1.

(** The flags [mmap] passes on. *)
Definition mmap_flags (nflags : Z) : Z :=
  let flags := Z.land nflags (Z.lnot MAP_STACK) in
  let flags := if negb (Z.land nflags MAP_STACK =? 0) then Z.lor flags FREEBSD_MAP_STACK else flags in
  if Z.land nflags MAP_ALIGNMENT_MASK =? FREEBSD_MAP_ALIGNED_SUPER then Z.land flags (Z.lnot MAP_ALIGNMENT_MASK) else flags.

End FreeBSD.

Module NetBSD.
Import FdTable LinuxHost Timespec BsdHost.

Definition S_ISREG (mode : Z) : bool := Z.land mode S_IFMT =? S_IFREG.

(** [fstat]; the mode is the host's, permissions included. *)
Definition fstat (sys_fstat : Z -> option bsd_stat) (t : fdtab) (fd : Z) (s : stat) : outcome (Z * stat) :=
  match sys_fstat fd with
  | None => Ret (-1, s)
  | Some nst =>
      let s := Stat (st_mode s) (b_size nst) (st_hwaddr s) in
      blk ← (if S_ISREG (b_mode nst) then (if fd =? 3 then Ret true else e ← fd_get fd t; Ret (mounted e =? 1)) else Ret false);
      let mode := if (blk : bool) then Z.lor (Z.land (b_mode nst) (Z.lnot S_IFMT)) S_IFBLK else b_mode nst in
      Ret (0, Stat mode (st_size s) (st_hwaddr s))
  end.

(** The sysctls are KERN_URND and HW_PAGESIZE. *)
Definition getrandom := BsdHost.getrandom.
Definition getpagesize := BsdHost.getpagesize.

(** The two ways to sleep, with what they return and [errno]. *)
Inductive sleep_call : Type := ClockNanosleep | Nanosleep.

(** [clock_nanosleep]; [have_cns] is the static variable, [sysctl] the version of
    the kernel, [sys] what the calls give.  The result, [errno] if it is set, the
    variable afterwards and the calls. *)
Definition clock_nanosleep (sysctl : option Z) (sys : sleep_call -> Z * option Z) (have_cns : Z) :
    outcome (Z * option Z * Z * list sleep_call) :=
  have_cns ← (if have_cns =? -1 then
                match sysctl with None => Abort | Some version => Ret (if 7 <=? Z.quot version 100000000 then 1 else 0) end
              else Ret have_cns);
  let '(last, e) := sys Nanosleep in
  if negb (have_cns =? 0) then
    let '(ret, errno) := sys ClockNanosleep in
    if negb (ret =? -1) || negb (bool_decide (errno = Some ENOSYS)) then Ret (ret, errno, have_cns, [ClockNanosleep])
    else Ret (last, e, 0, [ClockNanosleep; Nanosleep])
  else Ret (last, e, have_cns, [Nanosleep]).

End NetBSD.

Module Darwin.
Import FdTable LinuxHost Timespec BsdHost.

Definition POLLOUT : Z := 4.

(** [fstat]; a block device is treated as on FreeBSD. *)
Definition fstat (sys_fstat : Z -> option bsd_stat) (ioctl_mediasize : Z -> option Z) (t : fdtab) (fd : Z) (s : stat) :
    outcome (Z * option Z * stat) :=
  match sys_fstat fd with
  | None => Ret (-1, Some EBADF, s)
  | Some dst =>
      let s := Stat (st_mode s) (b_size dst) (st_hwaddr s) in
      let kind := Z.land (b_mode dst) S_IFMT in
      let finish (dst : bsd_stat) := Ret (0, None, Stat (st_mode_of (b_mode dst)) (st_size s) (st_hwaddr s)) in
      if kind =? S_IFBLK then
        finish (match ioctl_mediasize fd with Some n => BStat (b_mode dst) n (b_rdev dst) | None => dst end)
      else if kind =? S_IFREG then
        e ← fd_get fd t;
        if mounted e =? 1 then finish (BStat (Z.lor (Z.land (b_mode dst) (Z.lnot S_IFMT)) S_IFBLK) (b_size dst) (b_rdev dst))
        else finish dst
      else finish dst
  end.

Definition major (x : Z) : Z := Z.land (Z.shiftr (u32 x) 24) 255.

(** The loop of [_start1] over the [k] descriptors from [fd] on. *)
Fixpoint scan_fds (sys_fstat : Z -> option bsd_stat) (k : nat) (fd : Z) (p : platform) : outcome platform :=
  match k with
  | O => Ret p
  | S k =>
      match sys_fstat fd with
      | None => Ret p
      | Some dst =>
          p ← (if (Z.land (b_mode dst) S_IFMT =? S_IFCHR) && (30 <? major (b_rdev dst)) then add_poll fd p else Ret p);
          scan_fds sys_fstat k (fd + 1) p
      end
  end.

(** *** poll on select *)

(** The words of an fd_set (platform/include/select.h), of 32 bits; the macros
    use one for 64 descriptors.  There are 1024, of which [FD_ZERO] clears
    [sizeof (fd_set) / sizeof (long)], which is half of them; the other half is
    not initialised and is left out, so that its use is undefined.  [FD_SET]
    computes in unsigned long and stores the low 32 bits; [FD_ISSET] extends the
    sign of the word. *)
Abbreviation fd_set := (list Z).
Definition fd_zero : fd_set := replicate 512 0.

Definition FD_SET (d : Z) (s : fd_set) : outcome fd_set :=
  if d <? 0 then UB
  else
    match s !! Z.to_nat (d / 64) with
    | None => UB
    | Some w => Ret (<[Z.to_nat (d / 64) := i32 (Z.lor (u64 w) (Z.shiftl 1 (d mod 64)))]> s)
    end.

Definition FD_ISSET (d : Z) (s : fd_set) : outcome bool :=
  if d <? 0 then UB
  else
    match s !! Z.to_nat (d / 64) with
    | None => UB
    | Some w => Ret (negb (Z.land (u64 w) (Z.shiftl 1 (d mod 64)) =? 0))
    end.

(** struct timeval. *)
Record timeval : Type := TV { tvsec : Z; tvusec : Z }.

Definition wants (ev : Z) (q : pollfd) : bool := negb (Z.land (events q) ev =? 0).

(** The loop that fills the sets and finds the largest descriptor. *)
Fixpoint poll_sets (fds : list pollfd) (r w : fd_set) (maxfd : Z) : outcome (fd_set * fd_set * Z) :=
  match fds with
  | [] => Ret (r, w, maxfd)
  | q :: fds =>
      r ← (if wants POLLIN q then FD_SET (pfd q) r else Ret r);
      w ← (if wants POLLOUT q then FD_SET (pfd q) w else Ret w);
      poll_sets fds r w (if maxfd <? pfd q then pfd q else maxfd)
  end.

(** The loop that reports the events. *)
Fixpoint poll_results (fds : list pollfd) (r w : fd_set) : outcome (list pollfd) :=
  match fds with
  | [] => Ret []
  | q :: fds =>
      br ← FD_ISSET (pfd q) r; bw ← FD_ISSET (pfd q) w;
      rest ← poll_results fds r w;
      Ret (Pollfd (pfd q) (events q) (Z.lor (if (br : bool) then POLLIN else 0) (if (bw : bool) then POLLOUT else 0)) :: rest)
  end.

(** [sc_poll]; [select] is the system call, with the sets it leaves. *)
Definition sc_poll (select : Z -> fd_set -> fd_set -> fd_set -> option timeval -> Z * fd_set * fd_set)
    (fds : list pollfd) (to : Z) : outcome (Z * list pollfd) :=
  tval ← (if 0 <=? to then
            us ← int32 (to * 1000);
            Ret (TV (Z.quot to 1000) (us - 1000 * 1000 * Z.quot to 1000))
          else Ret (TV 0 0));
  '(r, w, maxfd) ← poll_sets fds fd_zero fd_zero 0;
  if (to <? 0) && negb (to =? -1) then UB    (* the time is not initialised *)
  else
    let '(ret, r, w) := select (maxfd + 1) r w fd_zero (if to =? -1 then None else Some tval) in
    if 0 <? ret then fds ← poll_results fds r w; Ret (ret, fds) else Ret (ret, fds).

Definition poll := LinuxHost.poll.

Definition clock_nanosleep (nanosleep : timespec -> Z * option Z) select := BsdHost.clock_nanosleep nanosleep (sc_poll select).

(** *** Time *)

(** The page the kernel shares with every process; here, the values read from it.
    They are read one by one, and the loop that would start again when the page
    was updated in between is left by its break: they may be of different
    updates, and are then any five values. *)
Record commpage : Type := Commpage {
  TimeStamp_tick : Z;
  TimeStamp_sec : Z;
  TimeStamp_frac : Z;
  Ticks_scale : Z;
  Ticks_per_sec : Z;
}.

Definition multi_overflow (a b : Z) : Z := u64 (Z.shiftr (a * b) 64).

(** [__commpage_gettimeofday_internal]: the result, and the time if it is set. *)
Definition commpage_gettimeofday (c : commpage) (now : Z) : Z * option timeval :=
  if TimeStamp_tick c =? 0 then (1, None)
  else
    let delta := u64 (now - TimeStamp_tick c) in
    if Ticks_per_sec c <=? delta then (1, None)
    else
      let sec := i64 (TimeStamp_sec c) in
      let over := multi_overflow (Ticks_scale c) delta in
      let sec := if over =? 0 then sec else i64 (u64 sec + over) in
      let frac := u64 (TimeStamp_frac c + u64 (Ticks_scale c * delta)) in
      let sec := if frac <? TimeStamp_frac c then sec + 1 else sec in
      (0, Some (TV sec (Z.shiftr (u64 (1000000 * u32 (Z.shiftr frac 32))) 32))).

(** [__platform_gettimeofday]; [sys] is the system call, which gives its result
    and the time it stores, if it does. *)
Definition gettimeofday (c : commpage) (now : Z) (sys : Z * option timeval) : Z * option timeval :=
  let '(r, tv) := commpage_gettimeofday c now in if negb (r =? 0) then sys else (0, tv).

(** [clock_gettime]; a time that was not stored is not initialised. *)
Definition clock_gettime (c : commpage) (now : Z) (sys : Z * option timeval) (clk_id : Z) : outcome (Z * option Z * option timespec) :=
  if (clk_id =? CLOCK_REALTIME) || (clk_id =? CLOCK_MONOTONIC) then
    match (gettimeofday c now sys).2 with
    | None => UB
    | Some tv => Ret (0, None, Some (TS (tvsec tv) (tvusec tv * 1000)))
    end
  else Ret (-1, Some EINVAL, None).

Definition clock_getres (clk_id : Z) : Z * option Z * option timespec :=
  if clk_id =? CLOCK_MONOTONIC then (0, None, Some (TS 0 1000)) else (-1, Some EINVAL, None).

(** *** memset_pattern.c *)

(** The loop with a pattern of [k] bytes; whole patterns are copied while more
    than [most] bytes are left. *)
Fixpoint memset_pattern (fuel : nat) (k most : Z) (m : mem) (dst src len : Z) : outcome mem :=
  match fuel with
  | O => NoFuel
  | S fuel =>
      if 0 <? len then
        if most <? len then
          '(_, m) ← Str.memcpy m dst src k;
          memset_pattern fuel k most m (dst + k) src (u64 (len - k))
        else '(_, m) ← Str.memcpy m dst src len; Ret m
      else Ret m
  end.

Definition memset_pattern4 (fuel : nat) := memset_pattern fuel 4 3.
Definition memset_pattern8 (fuel : nat) := memset_pattern fuel 8 7.
Definition memset_pattern16 (fuel : nat) := memset_pattern fuel 16 16.

End Darwin.

(** ** The loader on these hosts

    What rexec.c asks of tools/freebsd.c, netbsd.c and darwin.c. *)

(** The device of a tap interface: its path goes to a buffer of 32 bytes. *)
Module TapDevice.
Import Host.

Definition O_NONBLOCK : Z := 4.
Definition O_RDWR : Z := 2.

Definition open_tap (h : host) (post : str) : prog Z :=
  if (26 <? length post)%nat then wild else sys h (Open (lit "/dev/" ++ post) (Z.lor O_RDWR O_NONBLOCK)).

End TapDevice.

Module FreeBSDLoader.
Import FdTable Host Rexec TapDevice.

Definition O_EXEC : Z := 262144.              (* 0x40000 *)
Definition O_CLOEXEC : Z := 1048576.          (* 0x100000 *)
Definition O_DIRECTORY : Z := 131072.         (* 0x20000 *)
Definition DIOCGMEDIASIZE : Z := 1074291841.  (* _IOR('d', 129, off_t) *)
Definition SIOCGIFADDR : Z := 3223349537.     (* _IOWR('i', 33, struct ifreq) *)
Definition CAP_FCNTL_GETFL : Z := 8.

Definition S_ISBLK (mode : Z) : bool := Z.land mode S_IFMT =? S_IFBLK.
Definition S_ISCHR (mode : Z) : bool := Z.land mode S_IFMT =? S_IFCHR.

(** The rights of a descriptor, by the switch on its access mode. *)
Definition rights_of (flags mode : Z) : option (list right) :=
  let acc := Z.land flags Sandbox.O_ACCMODE in
  if acc =? Sandbox.O_RDONLY then
    Some (if S_ISBLK mode || S_ISCHR mode then [CAP_READ; CAP_SEEK; CAP_FSYNC; CAP_FCNTL; CAP_FSTAT; CAP_IOCTL]
          else [CAP_READ; CAP_SEEK; CAP_FSYNC; CAP_FCNTL; CAP_FSTAT])
  else if acc =? Sandbox.O_WRONLY then
    Some (if S_ISBLK mode || S_ISCHR mode then [CAP_WRITE; CAP_SEEK; CAP_FSYNC; CAP_FCNTL; CAP_FSTAT; CAP_IOCTL]
          else [CAP_WRITE; CAP_SEEK; CAP_FSYNC; CAP_FCNTL; CAP_FSTAT])
  else if acc =? Sandbox.O_RDWR then
    Some (if S_ISBLK mode || S_ISCHR mode then [CAP_READ; CAP_WRITE; CAP_SEEK; CAP_FSYNC; CAP_FCNTL; CAP_FSTAT; CAP_IOCTL]
          else if S_ISCHR mode then [CAP_READ; CAP_WRITE; CAP_SEEK; CAP_FSYNC; CAP_FCNTL; CAP_FSTAT; CAP_IOCTL; CAP_EVENT]
          else [CAP_READ; CAP_WRITE; CAP_SEEK; CAP_FSYNC; CAP_FCNTL; CAP_FSTAT])
  else None.

(** The limits [filter_fd] sets, in order; [pfd] is the program's descriptor. *)
Definition fd_limits (pfd fd flags mode : Z) : option (list oscall) :=
  if fd =? pfd then Some [Cap_rights_limit pfd [CAP_READ; CAP_FEXECVE]]
  else
    match rights_of flags mode with
    | None => None
    | Some rights =>
        Some ([Cap_rights_limit fd rights] ++
              (if S_ISBLK mode then [Cap_ioctls_limit fd [DIOCGMEDIASIZE]]
               else if S_ISCHR mode then [Cap_ioctls_limit fd [SIOCGIFADDR]] else []) ++
              [Cap_fcntls_limit fd CAP_FCNTL_GETFL])
    end.

Section Loader.
Variable h : host.
(** Built without NOCAPSICUM. *)
Variable capsicum : bool.
(** sizeof(struct stat) *)
Variable stat_size : Z.

Definition os_init (program : str) (nx : bool) : prog Z :=
  if nx then exit 1
  else
    fd ← sys_or_exit h (Open program (Z.lor O_EXEC O_CLOEXEC));
    _ ← modify (upd_pfd (fun _ => fd));
    mret 0.

Definition os_pre : prog unit := if capsicum then _ ← sys_or_exit h Cap_enter; mret tt else mret tt.

(** Calls one after the other, up to the first that fails. *)
Fixpoint limits (l : list oscall) : prog Z :=
  match l with
  | [] => mret 0
  | c :: l => ret ← sys h c; if ret =? -1 then mret ret else limits l
  end.

(** An access mode that is none of the three ends the loader ([abort]). *)
Definition filter_fd (fd flags mode : Z) : prog Z :=
  if negb capsicum then mret 0
  else
    s ← get;
    match fd_limits (pfd s) fd flags mode with
    | None => exit 134
    | Some l => limits l
    end.

Definition filter_load_exec (im : image) : prog Z := s ← get; Sandbox.exec_ h (Fexecve (pfd s) im) im.

Definition os_open (pre post : str) : prog Z := if bool_decide (pre = lit "tap") then open_tap h post else exit 1.

Definition freebsd_os : os_ops := {|
  op_O_NONBLOCK := O_NONBLOCK;
  op_O_CREAT := 512;
  op_O_APPEND := 8;
  op_FIONBIO := 2147772030;             (* _IOW('f', 126, int) *)
  op_stat_size := stat_size;
  op_init := os_init;
  op_emptydir := Sandbox.emptydir h O_DIRECTORY;
  op_dropcaps := mret tt;
  op_extrafiles := mret tt;
  op_pre := os_pre;
  op_open := os_open;
  op_filter_fd := filter_fd;
  op_load_exec := filter_load_exec;
|}.

End Loader.
End FreeBSDLoader.

(** NetBSD has no sandbox and no devices. *)
Module NetBSDLoader.
Import Host Rexec.

Section Loader.
Variable h : host.
Variable stat_size : Z.

Definition os_init (program : str) (nx : bool) : prog Z := if nx then exit 1 else mret 0.
Definition filter_load_exec (im : image) : prog Z := Sandbox.exec_ h (Execve im) im.
Definition os_open (pre post : str) : prog Z := exit 1.

Definition netbsd_os : os_ops := {|
  op_O_NONBLOCK := TapDevice.O_NONBLOCK;
  op_O_CREAT := 512;
  op_O_APPEND := 8;
  op_FIONBIO := 2147772030;
  op_stat_size := stat_size;
  op_init := os_init;
  op_emptydir := mret tt;
  op_dropcaps := mret tt;
  op_extrafiles := mret tt;
  op_pre := mret tt;
  op_open := os_open;
  op_filter_fd := fun _ _ _ => mret 0;
  op_load_exec := filter_load_exec;
|}.

End Loader.
End NetBSDLoader.

Module DarwinLoader.
Import Host Rexec TapDevice.

Definition FIONBIO : Z := 2147772030.
Definition SIOCGIFFLAGS : Z := 3223349521.    (* _IOWR('i', 17, struct ifreq) *)
Definition SIOCSIFFLAGS : Z := 2149607696.    (* _IOW('i', 16, struct ifreq) *)
Definition IFF_UP : Z := 1.
Definition IFF_RUNNING : Z := 64.

Section Loader.
Variable h : host.
Variable stat_size : Z.

(** struct ifreq: the name in 16 bytes, of which the last stays 0, and the
    flags after it. *)
Definition ifreq_name (post : str) : list Z := take 15 (post ++ repeat 0 15) ++ [0].

(** The tap device is made non-blocking and the interface is brought up. *)
Definition tap_up (fd : Z) (post : str) : prog Z :=
  r ← sys h (Ioctl fd FIONBIO (Wire.le 4 1));
  if negb (r =? 0) then mret (-1)
  else
    ifd ← sys h (Socket 2 2 0);
    if ifd <? 0 then mret (-1)
    else
      '(r, ifr) ← sys_data h (Ioctl ifd SIOCGIFFLAGS (ifreq_name post ++ repeat 0 16));
      if r <? 0 then mret (-1)
      else
        let flags := Z.lor (Wire.unle (take 2 (drop 16 ifr))) (Z.lor IFF_UP IFF_RUNNING) in
        r ← sys h (Ioctl ifd SIOCSIFFLAGS (take 16 ifr ++ Wire.le 2 flags ++ drop 18 ifr));
        if r <? 0 then mret (-1)
        else _ ← sys_ h (Close ifd); mret fd.

Definition os_open (pre post : str) : prog Z :=
  if bool_decide (pre = lit "tap") then
    fd ← open_tap h post;
    if fd =? -1 then mret (-1) else tap_up fd post
  else exit 1.

Definition filter_load_exec (im : image) : prog Z := Sandbox.exec_ h (Execve im) im.

Definition darwin_os : os_ops := {|
  op_O_NONBLOCK := O_NONBLOCK;
  op_O_CREAT := 512;
  op_O_APPEND := 8;
  op_FIONBIO := FIONBIO;
  op_stat_size := stat_size;
  op_init := fun _ _ => mret 0;
  op_emptydir := mret tt;
  op_dropcaps := mret tt;
  op_extrafiles := mret tt;
  op_pre := mret tt;
  op_open := os_open;
  op_filter_fd := fun _ _ _ => mret 0;
  op_load_exec := filter_load_exec;
|}.

End Loader.
End DarwinLoader.

(** ** Facts: bits of a word *)

Module SelectFacts.
Import LinuxHost Darwin.

Lemma i32_testbit z i : 0 <= i < 32 -> Z.testbit (i32 z) i = Z.testbit z i.
Proof.
  intros Hi. rewrite <- (Z.mod_pow2_bits_low (i32 z) 32) by lia. rewrite <- (Z.mod_pow2_bits_low z 32) by lia. f_equal.
  unfold i32. rewrite Zminus_mod_idemp_l. f_equal. lia.
Qed.

Lemma i32_i32_range z : - 2 ^ 31 <= i32 z < 2 ^ 31.
Proof. unfold i32. pose proof (Z.mod_pos_bound (z + 2 ^ 31) (2 ^ 32) ltac:(lia)). lia. Qed.

Lemma i32_mod z : i32 (z mod 2 ^ 32) = i32 z.
Proof. unfold i32. by rewrite Zplus_mod_idemp_l. Qed.

Lemma u64_testbit z i : 0 <= i < 64 -> Z.testbit (u64 z) i = Z.testbit z i.
Proof. intros Hi. unfold u64. by rewrite Z.mod_pow2_bits_low by lia. Qed.

Lemma shiftl1_testbit d i : 0 <= d -> Z.testbit (Z.shiftl 1 d) i = bool_decide (i = d).
Proof.
  intros Hd. rewrite Z.shiftl_1_l. case_bool_decide; subst; [by apply Z.pow2_bits_true|by apply Z.pow2_bits_false].
Qed.

(** A set as select(2) describes it: descriptor [d] is bit [d mod 32] of word
    [d / 32]. *)
Definition in_set (d : Z) (s : fd_set) : bool :=
  match s !! Z.to_nat (d / 32) with Some w => Z.testbit w (d mod 32) | None => false end.

Definition set_ok (s : fd_set) : Prop := length s = 512%nat /\ Forall (fun w => - 2 ^ 31 <= w < 2 ^ 31) s.

Lemma fd_zero_ok : set_ok fd_zero.
Proof. split; [apply length_replicate|]. apply Forall_replicate. lia. Qed.

Lemma set_word0 s : set_ok s -> exists w, s !! 0%nat = Some w /\ - 2 ^ 31 <= w < 2 ^ 31.
Proof.
  intros [Hl Hf]. destruct (lookup_lt_is_Some_2 s 0%nat ltac:(lia)) as [w Hw]. exists w. split; [done|].
  exact (Forall_lookup_1 _ _ _ _ Hf Hw).
Qed.

Lemma low_word d : 0 <= d < 64 -> d / 64 = 0 /\ d mod 64 = d.
Proof. intros Hd. split; [by apply Z.div_small|by apply Z.mod_small]. Qed.

(** Below 32 the macros agree with select. *)
Lemma FD_SET_low d s : 0 <= d < 32 -> set_ok s ->
  exists s', FD_SET d s = Ret s' /\ set_ok s' /\ forall i, 0 <= i < 32 -> in_set i s' = in_set i s || bool_decide (i = d).
Proof.
  intros Hd Hs. destruct (set_word0 s Hs) as (w & Hw & _). destruct (low_word d ltac:(lia)) as [E1 E2].
  unfold FD_SET. destruct (Z.ltb_spec d 0); [lia|]. rewrite E1, E2. change (Z.to_nat 0) with 0%nat. rewrite Hw. eexists. split; [done|]. split.
  - destruct Hs as [Hl Hf]. split; [by rewrite length_insert|]. apply Forall_insert; [done|apply i32_i32_range].
  - intros i Hi. unfold in_set. rewrite (Z.div_small i 32), (Z.mod_small i 32) by lia. change (Z.to_nat 0) with 0%nat.
    rewrite list_lookup_insert_eq, Hw by (apply lookup_lt_Some in Hw; done).
    rewrite i32_testbit, Z.lor_spec, u64_testbit, shiftl1_testbit by lia. done.
Qed.

Lemma FD_ISSET_low d s : 0 <= d < 32 -> set_ok s -> FD_ISSET d s = Ret (in_set d s).
Proof.
  intros Hd Hs. destruct (set_word0 s Hs) as (w & Hw & _). destruct (low_word d ltac:(lia)) as [E1 E2].
  unfold FD_ISSET, in_set. destruct (Z.ltb_spec d 0); [lia|]. rewrite E1, E2, (Z.div_small d 32), (Z.mod_small d 32) by lia.
  change (Z.to_nat 0) with 0%nat. rewrite Hw. by rewrite land_bit, u64_testbit by lia.
Qed.

(** From 32 on the bit does not fit the word. *)
Lemma FD_SET_high d s : 32 <= d < 64 -> set_ok s -> FD_SET d s = Ret s.
Proof.
  intros Hd Hs. destruct (set_word0 s Hs) as (w & Hw & Hr). destruct (low_word d ltac:(lia)) as [E1 E2].
  unfold FD_SET. destruct (Z.ltb_spec d 0); [lia|]. rewrite E1, E2. change (Z.to_nat 0) with 0%nat. rewrite Hw.
  assert (i32 (Z.lor (u64 w) (Z.shiftl 1 d)) = w) as ->; [|by rewrite list_insert_id].
  rewrite <- (i32_small w) at 2 by lia. rewrite <- i32_mod, <- (i32_mod w). f_equal.
  apply Z.bits_inj'. intros i Hi. destruct (Z.lt_ge_cases i 32).
  - rewrite !Z.mod_pow2_bits_low by lia. rewrite Z.lor_spec, u64_testbit, shiftl1_testbit by lia.
    rewrite bool_decide_false by lia. by rewrite orb_false_r.
  - by rewrite !Z.mod_pow2_bits_high by lia.
Qed.

(** *** The two loops of sc_poll *)

(** An entry for the descriptor asks for the event. *)
Definition asked (ev d : Z) (fds : list pollfd) : bool := existsb (fun q => (pfd q =? d) && wants ev q) fds.

Lemma poll_sets_low fds : forall r w mx, Forall (fun q => 0 <= pfd q < 32) fds -> set_ok r -> set_ok w ->
  exists r' w' mx', poll_sets fds r w mx = Ret (r', w', mx') /\ set_ok r' /\ set_ok w' /\
    mx <= mx' <= Z.max mx 31 /\ Forall (fun q => pfd q <= mx') fds /\
    forall i, 0 <= i < 32 -> in_set i r' = in_set i r || asked POLLIN i fds /\ in_set i w' = in_set i w || asked POLLOUT i fds.
Proof.
  induction fds as [|q fds IH]; intros r w mx Hf Hr Hw; cbn [poll_sets].
  { exists r, w, mx. split_and!; try done; try lia. intros i _. cbn. by rewrite !orb_false_r. }
  apply Forall_cons in Hf as [Hq Hf].
  assert (Hset : forall ev s, set_ok s -> exists s', (if wants ev q then FD_SET (pfd q) s else Ret s) = Ret s' /\ set_ok s' /\
    forall i, 0 <= i < 32 -> in_set i s' = in_set i s || ((pfd q =? i) && wants ev q)).
  { intros ev s Hs. destruct (wants ev q).
    - destruct (FD_SET_low (pfd q) s Hq Hs) as (s' & -> & Hs' & H). exists s'. split_and!; [done|done|]. intros i Hi. rewrite H by done.
      rewrite andb_true_r. f_equal. destruct (Z.eqb_spec (pfd q) i); case_bool_decide; congruence.
    - exists s. split_and!; [done|done|]. intros i _. by rewrite andb_false_r, orb_false_r. }
  destruct (Hset POLLIN r Hr) as (r1 & -> & Hr1 & H1), (Hset POLLOUT w Hw) as (w1 & -> & Hw1 & H2). cbn [mbind outcome_bind].
  destruct (IH r1 w1 (if mx <? pfd q then pfd q else mx) Hf Hr1 Hw1) as (r' & w' & mx' & -> & Hr' & Hw' & Hmx & Hall & Hi).
  exists r', w', mx'. split_and!; try done.
  - destruct (Z.ltb_spec mx (pfd q)); lia.
  - destruct (Z.ltb_spec mx (pfd q)); lia.
  - constructor; [destruct (Z.ltb_spec mx (pfd q)); lia|done].
  - intros i Hr3. destruct (Hi i Hr3) as [-> ->]. rewrite H1, H2 by done. cbn [asked existsb]. by rewrite !orb_assoc.
Qed.

Lemma poll_sets_high fds : forall r w mx, Forall (fun q => 32 <= pfd q < 64) fds -> set_ok r -> set_ok w ->
  exists mx', mx <= mx' /\ poll_sets fds r w mx = Ret (r, w, mx').
Proof.
  induction fds as [|q fds IH]; intros r w mx Hf Hr Hw; cbn [poll_sets]; [exists mx; split; [lia|done]|].
  apply Forall_cons in Hf as [Hq Hf]. rewrite !FD_SET_high by done.
  destruct (IH r w (if mx <? pfd q then pfd q else mx) Hf Hr Hw) as (mx' & Hmx & Hrun). exists mx'.
  split; [destruct (Z.ltb_spec mx (pfd q)); lia|]. by destruct (wants POLLIN q), (wants POLLOUT q).
Qed.

Lemma poll_results_low fds r w : Forall (fun q => 0 <= pfd q < 32) fds -> set_ok r -> set_ok w ->
  poll_results fds r w = Ret (map (fun q => Pollfd (pfd q) (events q)
    (Z.lor (if in_set (pfd q) r then POLLIN else 0) (if in_set (pfd q) w then POLLOUT else 0))) fds).
Proof.
  intros Hf Hr Hw. induction Hf as [|q fds Hq Hf IH]; cbn [poll_results map]; [done|].
  rewrite !FD_ISSET_low by done. cbn [mbind outcome_bind]. by rewrite IH.
Qed.

Lemma in_set_zero d : in_set d (replicate 512 0) = false.
Proof.
  unfold in_set. destruct (_ !! _) as [w|] eqn:E; [|done]. apply lookup_replicate in E as [-> _]. apply Z.bits_0.
Qed.

(** When every descriptor has one entry, it is the entry that asks. *)
Lemma asked_nodup ev q fds : NoDup (map pfd fds) -> q ∈ fds -> asked ev (pfd q) fds = wants ev q.
Proof.
  intros Hn Hq. unfold asked. apply eq_true_iff_eq. rewrite existsb_exists. split.
  - intros (q' & Hq' & [He Hw]%andb_true_iff). apply Z.eqb_eq in He. apply list_elem_of_In in Hq'.
    assert (q' = q) as <-; [|done]. apply list_elem_of_lookup in Hq as [i Hi], Hq' as [j Hj].
    assert (j = i) as ->; [|congruence].
    eapply NoDup_lookup; [exact Hn|apply list_lookup_fmap_Some; eauto|apply list_lookup_fmap_Some; eauto].
  - intros Hw. exists q. split; [by apply list_elem_of_In|]. by rewrite Z.eqb_refl.
Qed.

(** *** select(2): the sets are cut down to the descriptors below [n] that are
    ready, and the result is the number of those left; without a time limit it
    returns only when there is one. *)

Definition members (n : Z) (s : fd_set) : nat := length (filter (fun d => in_set d s = true) (seqZ 0 n)).

Definition selects (select : Z -> fd_set -> fd_set -> fd_set -> option timeval -> Z * fd_set * fd_set) (ready_r ready_w : Z -> bool) : Prop :=
  forall n r w e tv, 0 <= n -> set_ok r -> set_ok w ->
  exists r' w', set_ok r' /\ set_ok w' /\
    (forall d, 0 <= d < n -> in_set d r' = in_set d r && ready_r d /\ in_set d w' = in_set d w && ready_w d) /\
    (is_Some tv \/ (0 < members n r' + members n w')%nat -> select n r w e tv = (Z.of_nat (members n r' + members n w'), r', w')).

(** The entries that ask for an event that is there. *)
Definition answered (ev : Z) (ready : Z -> bool) (fds : list pollfd) : nat :=
  length (filter (fun q => wants ev q && ready (pfd q) = true) fds).

Lemma members_answered ev ready n s fds :
  NoDup (map pfd fds) -> Forall (fun q => 0 <= pfd q < n) fds ->
  (forall d, 0 <= d < n -> in_set d s = asked ev d fds && ready d) -> members n s = answered ev ready fds.
Proof.
  intros Hn Hf Hs. unfold members, answered. rewrite <- (length_map pfd (filter _ fds)). apply Permutation_length, NoDup_Permutation.
  - apply NoDup_filter, NoDup_seqZ.
  - clear -Hn. induction fds as [|q fds IH]; [constructor|]. apply NoDup_cons in Hn as [Hq Hn]. rewrite filter_cons.
    case_decide; [|by apply IH]. apply NoDup_cons. split; [|by apply IH]. intros Hin. apply Hq.
    apply list_elem_of_In, in_map_iff in Hin as (q' & <- & Hq'). apply list_elem_of_In, in_map, list_elem_of_In.
    apply list_elem_of_In, list_elem_of_filter in Hq'. apply Hq'.
  - intros d. rewrite list_elem_of_filter, elem_of_seqZ. rewrite Forall_forall in Hf. split.
    + intros [Hd Hr]. rewrite Hs in Hd by lia. apply andb_true_iff in Hd as [Ha Hr']. unfold asked in Ha.
      apply existsb_exists in Ha as (q & Hq & [He Hw]%andb_true_iff). apply Z.eqb_eq in He. subst d.
      apply list_elem_of_In, in_map, list_elem_of_In, list_elem_of_filter. split; [by rewrite Hw, Hr'|by apply list_elem_of_In].
    + intros Hd. apply list_elem_of_In, in_map_iff in Hd as (q & <- & Hq). apply list_elem_of_In, list_elem_of_filter in Hq as [Hw Hq].
      specialize (Hf q Hq). split; [|lia]. rewrite Hs by lia. by rewrite asked_nodup.
Qed.

Lemma members_none n s : (forall d, 0 <= d < n -> in_set d s = false) -> members n s = 0%nat.
Proof.
  intros H. unfold members. destruct (filter _ _) as [|d l] eqn:E; [done|].
  assert (Hd : d ∈ filter (fun d => in_set d s = true) (seqZ 0 n)) by (rewrite E; by left).
  apply list_elem_of_filter in Hd as [Hd Hn%elem_of_seqZ]. by rewrite H in Hd by lia.
Qed.

(** A time in milliseconds, as select wants it. *)
Lemma poll_time to : -1 <= to <= 2147483 ->
  (if 0 <=? to then us ← int32 (to * 1000); Ret (TV (Z.quot to 1000) (us - 1000 * 1000 * Z.quot to 1000)) else Ret (TV 0 0)) =
  Ret (if to =? -1 then TV 0 0 else TV (to / 1000) (to mod 1000 * 1000)).
Proof.
  intros Hto. destruct (Z.leb_spec 0 to); destruct (Z.eqb_spec to (-1)); try lia; [|done].
  rewrite NumFacts.int32_in by lia. cbn [mbind outcome_bind]. rewrite Z.quot_div_nonneg by lia. do 2 f_equal.
  pose proof (Z.div_mod to 1000 ltac:(lia)). lia.
Qed.

End SelectFacts.

(** ** Facts: patterns *)

Module PatternFacts.
Import Str CopyFacts Darwin.

(** A copy of [n] bytes between places that are apart. *)
Lemma memcpy_copies m d s n :
  0 <= n -> range_mapped m s n -> range_mapped m d n -> apart d n s n -> mem_wf m ->
  exists m', memcpy m d s n = Ret (d, m') /\ mem_wf m' /\ same_outside m m' d n /\
    forall i, 0 <= i < n -> peek m' (d + i) = peek m (s + i).
Proof.
  intros Hn Hs Hd Ha Hw. rewrite memcpy_eq by done. eexists. split; [done|]. split; [by apply mem_wf_poke_list|]. split.
  - split; [apply mapped_poke_list|]. intros x Hx. apply peek_poke_list_ne. rewrite length_peeks, Z2Nat.id by lia. lia.
  - intros i Hi. rewrite <- (Z2Nat.id i) by lia. erewrite peek_poke_list_eq; [|apply lookup_peeks; lia]. by apply u8_small.
Qed.

Lemma same_outside_mapped m m' a n b k : same_outside m m' a n -> range_mapped m b k -> range_mapped m' b k.
Proof. intros [Hm _] H i Hi. unfold mapped_at. rewrite Hm. by apply H. Qed.

Lemma pattern_spec k most src : 0 < k -> k - 1 <= most <= k -> forall fuel m dst len,
  0 <= len < 2 ^ 64 -> (Z.to_nat len < fuel)%nat -> range_mapped m src k -> range_mapped m dst len ->
  apart dst len src k -> mem_wf m ->
  exists m', memset_pattern fuel k most m dst src len = Ret m' /\ same_outside m m' dst len /\
    forall i, 0 <= i < len -> peek m' (dst + i) = peek m (src + i mod k).
Proof.
  intros Hk Hmost. induction fuel as [|fuel IH]; intros m dst len Hlen Hf Hs Hd Ha Hw; [lia|]. cbn [memset_pattern].
  unfold apart in *. destruct (Z.ltb_spec 0 len) as [Hpos|].
  2:{ exists m. split; [done|]. split; [done|]. intros i Hi. lia. }
  destruct (Z.ltb_spec most len) as [Hbig|Hsmall].
  - destruct (memcpy_copies m dst src k) as (m1 & -> & Hw1 & Ho1 & Hc1);
      [lia|done|by eapply range_mapped_sub; [exact Hd|lia..]|unfold apart; lia|done|]. cbn [mbind outcome_bind].
    rewrite u64_small by lia.
    destruct (IH m1 (dst + k) (len - k)) as (m2 & -> & Ho2 & Hc2); try lia; try done.
    + by eapply same_outside_mapped.
    + eapply same_outside_mapped; [done|]. by eapply range_mapped_sub; [exact Hd|lia..].
    + exists m2. split; [done|]. destruct Ho1 as [M1 O1], Ho2 as [M2 O2]. split.
      { split; [congruence|]. intros x Hx. rewrite O2, O1 by lia. done. }
      intros i Hi. destruct (Z.lt_ge_cases i k).
      * rewrite O2, Hc1, Z.mod_small by lia. done.
      * replace (dst + i) with (dst + k + (i - k)) by lia. rewrite Hc2 by lia.
        replace (i mod k) with ((i - k) mod k) by (replace i with (i - k + 1 * k) at 2 by lia; rewrite Z_mod_plus_full; done).
        apply O1. pose proof (Z.mod_pos_bound (i - k) k Hk). lia.
  - destruct (memcpy_copies m dst src len) as (m1 & -> & _ & Ho1 & Hc1);
      [lia|by eapply range_mapped_sub; [exact Hs|lia..]|done|unfold apart; lia|done|]. exists m1. split; [done|]. split; [done|].
    intros i Hi. rewrite Hc1 by done. destruct (Z.eq_dec i k) as [->|]; [lia|]. by rewrite Z.mod_small by lia.
Qed.

End PatternFacts.

(** ** Facts: the shared page of Darwin *)

Module CommpageFacts.
Import Darwin.

(** A sum of 64-bit fractions: the carry is seen by the comparison. *)
Lemma frac_carry frac low : 0 <= frac < 2 ^ 64 -> 0 <= low < 2 ^ 64 ->
  exists k, frac + low = k * 2 ^ 64 + u64 (frac + low) /\ (k = 0 \/ k = 1) /\ (u64 (frac + low) <? frac) = (k =? 1).
Proof.
  intros Hf Hl. destruct (Z.lt_ge_cases (frac + low) (2 ^ 64)).
  - exists 0. rewrite u64_small by lia. split_and!; [lia|lia|]. destruct (Z.ltb_spec (frac + low) frac); [lia|done].
  - exists 1. assert (u64 (frac + low) = frac + low - 2 ^ 64) as -> by (unfold u64; symmetry; apply Z.mod_unique with 1; lia).
    split_and!; [lia|lia|]. destruct (Z.ltb_spec (frac + low - 2 ^ 64) frac); [done|lia].
Qed.

(** The microseconds of a fraction, computed from its upper half. *)
Lemma usec_close f : 0 <= f < 2 ^ 64 ->
  let us := Z.shiftr (u64 (1000000 * u32 (Z.shiftr f 32))) 32 in
  0 <= us < 1000000 /\ us <= 1000000 * f / 2 ^ 64 <= us + 1.
Proof.
  intros Hf us. unfold us. rewrite !Z.shiftr_div_pow2 by lia.
  pose proof (Z.div_mod f (2 ^ 32) ltac:(lia)). pose proof (Z.mod_pos_bound f (2 ^ 32) ltac:(lia)).
  assert (0 <= f / 2 ^ 32 < 2 ^ 32) by lia. rewrite u32_small, u64_small by lia.
  set (a := f / 2 ^ 32) in *. set (b := f mod 2 ^ 32) in *.
  pose proof (Z.div_mod (1000000 * a) (2 ^ 32) ltac:(lia)). pose proof (Z.mod_pos_bound (1000000 * a) (2 ^ 32) ltac:(lia)).
  pose proof (Z.div_mod (1000000 * f) (2 ^ 64) ltac:(lia)). pose proof (Z.mod_pos_bound (1000000 * f) (2 ^ 64) ltac:(lia)). lia.
Qed.

End CommpageFacts.

(** ** Facts: the sandbox of FreeBSD *)

Module RightFacts.
Import Host Rexec RexecFacts FreeBSDLoader.

Ltac has_right := rewrite ?elem_of_cons, ?elem_of_nil; intuition discriminate.

Lemma rights_spec flags mode rights : rights_of flags mode = Some rights ->
  (CAP_READ ∈ rights <-> Sandbox.readable flags = true) /\ (CAP_WRITE ∈ rights <-> Sandbox.writable flags = true) /\
  (CAP_IOCTL ∈ rights <-> S_ISBLK mode || S_ISCHR mode = true) /\ ~ CAP_FEXECVE ∈ rights /\ ~ CAP_EVENT ∈ rights.
Proof.
  unfold rights_of, Sandbox.readable, Sandbox.writable. generalize (Z.land flags Sandbox.O_ACCMODE). intros acc.
  destruct (Z.eqb_spec acc Sandbox.O_RDONLY) as [->|]; [|destruct (Z.eqb_spec acc Sandbox.O_WRONLY) as [->|];
    [|destruct (Z.eqb_spec acc Sandbox.O_RDWR) as [->|]; [|done]]].
  all: destruct (S_ISBLK mode), (S_ISCHR mode); cbn [orb]; intros [= <-]; split_and!; has_right.
Qed.










(** *** The run *)

Lemma plain_freebsd_open h c sz : plain_opens (freebsd_os h c sz).
Proof.
  intros pre post. cbn [op_open freebsd_os]. unfold os_open, TapDevice.open_tap. plains.
Qed.

Lemma plain_freebsd_init h p nx : plain (os_init h p nx).
Proof. unfold os_init. plains. Qed.

Lemma plain_freebsd_pre h c : plain (os_pre h c).
Proof. unfold os_pre. plains. Qed.

Lemma plain_emptydir h d : plain (Sandbox.emptydir h d).
Proof. unfold Sandbox.emptydir. plains. Qed.

Lemma plain_freebsd_filter h c sz l : plain (filter_fds (freebsd_os h c sz) l).
Proof.
  assert (Hl : forall l, plain (limits h l)) by (induction l0 as [|x l0 IH]; cbn [limits]; plains).
  induction l as [|[[fd fl] mode] l IH]; cbn [filter_fds]; [auto with loader|]. apply plain_bind.
  - cbn [op_filter_fd freebsd_os]. unfold filter_fd. destruct (negb c); [auto with loader|]. apply plain_bind; [auto with loader|].
    intros s. destruct (fd_limits _ _ _ _); [apply Hl|auto with loader].
  - intros ret. apply plain_bind; [auto with loader|]. by intros _.
Qed.

#[export] Hint Resolve plain_freebsd_open plain_freebsd_init plain_freebsd_pre plain_emptydir plain_freebsd_filter : loader.

(** Computations that leave the program's descriptor as it is. *)
Definition keeps_pfd {A} (m : prog A) : Prop := forall s a s1, m s = Ok a s1 -> pfd s1 = pfd s.

Lemma keeps_pfd_bind {A B} (m : prog A) (f : A -> prog B) : keeps_pfd m -> (forall a, keeps_pfd (f a)) -> keeps_pfd (a ← m; f a).
Proof. intros Hm Hf s b s2 (a & s1 & H1 & H2)%bind_ok. rewrite (Hf a _ _ _ H2). by eapply Hm. Qed.

Lemma keeps_ret {A} (a : A) : keeps_pfd (mret a).
Proof. by intros s b s1 [= _ <-]. Qed.
Lemma keeps_exit {A} c : keeps_pfd (exit (A := A) c).
Proof. done. Qed.
Lemma keeps_wild {A} : keeps_pfd (wild (A := A)).
Proof. done. Qed.
Lemma keeps_get : keeps_pfd get.
Proof. by intros s b s1 [= _ <-]. Qed.
Lemma keeps_exit_if b : keeps_pfd (exit_if b).
Proof. destruct b; [done|apply keeps_ret]. Qed.
Lemma keeps_env f : keeps_pfd (modify (upd_environ f)).
Proof. by intros s b s1 [= _ <-]. Qed.
Lemma keeps_sys h c : keeps_pfd (sys h c).
Proof. by intros s b s1 [= _ <-]. Qed.
Lemma keeps_sys_data h c : keeps_pfd (sys_data h c).
Proof. by intros s b s1 [= _ <-]. Qed.
Lemma keeps_sys_mode h c : keeps_pfd (sys_mode h c).
Proof. by intros s b s1 [= _ <-]. Qed.

#[export] Hint Resolve keeps_ret keeps_exit keeps_wild keeps_get keeps_exit_if keeps_env keeps_sys keeps_sys_data keeps_sys_mode : loader.

Ltac keeps := repeat first [solve [auto with loader]|apply keeps_pfd_bind; [|intros ?]|case_match].

Lemma keeps_sys_ h c : keeps_pfd (sys_ h c).
Proof. unfold sys_. keeps. Qed.
Lemma keeps_sys_or_exit h c : keeps_pfd (sys_or_exit h c).
Proof. unfold sys_or_exit. keeps. Qed.
Lemma keeps_atoi_uid v : keeps_pfd (atoi_uid v).
Proof. unfold atoi_uid, atoi, Netlink.of_outcome. keeps. Qed.
#[export] Hint Resolve keeps_sys_ keeps_sys_or_exit keeps_atoi_uid : loader.

Lemma keeps_emptydir h d : keeps_pfd (Sandbox.emptydir h d).
Proof. unfold Sandbox.emptydir. keeps. Qed.
Lemma keeps_drop_privileges h o : keeps_pfd (drop_privileges h o).
Proof. unfold drop_privileges. keeps. Qed.
Lemma keeps_open_9pfs h os : keeps_pfd (open_9pfs h os).
Proof. unfold open_9pfs, set_env. keeps. Qed.
Lemma keeps_count_fds h : keeps_pfd (count_fds h).
Proof. unfold count_fds. keeps. Qed.
Lemma keeps_report_root h : keeps_pfd (report_root h).
Proof. unfold report_root. keeps. Qed.
Lemma keeps_calloc_fds h n m : keeps_pfd (calloc_fds h n m).
Proof. unfold calloc_fds. keeps. Qed.
Lemma keeps_fd_stats h l : keeps_pfd (fd_stats h l).
Proof. induction l as [|fd l IH]; cbn [fd_stats]; keeps. Qed.
#[export] Hint Resolve keeps_emptydir keeps_drop_privileges keeps_open_9pfs keeps_count_fds keeps_report_root keeps_calloc_fds
  keeps_fd_stats : loader.






End RightFacts.

(** ** Properties of the other hosts *)

Module BsdProperties.
Import FdTable LinuxHost Timespec BsdHost CommpageFacts SelectFacts PatternFacts RightFacts.

(** C30. The clock of Darwin: when the values read from the shared page are of one
    update of it, with the time in units of 2^-64 seconds, the seconds are exact
    in spite of the 64-bit arithmetic, the microseconds are below a million and
    at most one below the exact value. *)
Theorem commpage_time_exact tick sec frac scale per now :
  0 <= sec -> 0 <= frac < 2 ^ 64 -> 0 <= scale < 2 ^ 64 -> 0 < tick <= now -> now < 2 ^ 64 -> now - tick < per ->
  let exact := sec * 2 ^ 64 + frac + scale * (now - tick) in
  exact / 2 ^ 64 < 2 ^ 63 ->
  exists us, Darwin.commpage_gettimeofday (Darwin.Commpage tick sec frac scale per) now = (0, Some (Darwin.TV (exact / 2 ^ 64) us)) /\
    0 <= us < 1000000 /\ us <= 1000000 * (exact mod 2 ^ 64) / 2 ^ 64 <= us + 1.
Proof.
  intros Hsec Hfrac Hscale Htick Hnow Hper exact Hmax. unfold Darwin.commpage_gettimeofday.
  cbn [Darwin.TimeStamp_tick Darwin.TimeStamp_sec Darwin.TimeStamp_frac Darwin.Ticks_scale Darwin.Ticks_per_sec].
  destruct (Z.eqb_spec tick 0); [lia|]. rewrite (u64_small (now - tick)) by lia. destruct (Z.leb_spec per (now - tick)); [lia|].
  unfold Darwin.multi_overflow. rewrite (Z.shiftr_div_pow2 (scale * _)) by lia.
  set (prod := scale * (now - tick)) in *. assert (Hprod : 0 <= prod < 2 ^ 64 * 2 ^ 64) by (unfold prod; nia).
  pose proof (Z.div_mod prod (2 ^ 64) ltac:(lia)) as Hdm. pose proof (Z.mod_pos_bound prod (2 ^ 64) ltac:(lia)) as Hlow.
  set (over := prod / 2 ^ 64) in *. change (u64 prod) with (prod mod 2 ^ 64). set (low := prod mod 2 ^ 64) in *.
  assert (Hover : 0 <= over < 2 ^ 64) by lia. rewrite (u64_small over) by lia.
  destruct (frac_carry frac low Hfrac Hlow) as (k & Hk & Hk01 & ->). pose proof (u64_range (frac + low)) as Hr.
  set (f := u64 (frac + low)) in *.
  assert (Hex : exact / 2 ^ 64 = sec + over + k /\ exact mod 2 ^ 64 = f).
  { assert (exact = 2 ^ 64 * (sec + over + k) + f) by (unfold exact; lia).
    split; symmetry; [apply Z.div_unique with f|apply Z.mod_unique with (sec + over + k)]; lia. }
  destruct Hex as [Hd Hm]. rewrite Hd in Hmax |- *. rewrite Hm. eexists. split; [|exact (usec_close f Hr)]. repeat f_equal.
  rewrite (i64_small sec), (u64_small sec) by lia.
  destruct (Z.eqb_spec over 0) as [->|]; [|rewrite i64_small by lia]; destruct Hk01 as [-> | ->]; cbn [Z.eqb Pos.eqb]; lia.
Qed.

Lemma commpage_time_exact_witness :
  exists us, Darwin.commpage_gettimeofday (Darwin.Commpage 1000 77 (2 ^ 64 - 1) (2 ^ 34) 1000000000) (1000 + 2 ^ 29) = (0, Some (Darwin.TV 78 us)) /\ us < 1000000.
Proof.
  destruct (commpage_time_exact 1000 77 (2 ^ 64 - 1) (2 ^ 34) 1000000000 (1000 + 2 ^ 29)) as (us & H & Hu & _); [lia..|vm_compute; reflexivity|].
  exists us. split; [exact H|apply Hu].
Defined.

(** A pattern of 4, 8 or 16 bytes fills a range: byte i of it is byte i
    modulo the length of the pattern, and no other byte changes. *)
Theorem memset_pattern_fills fuel m dst src len k f :
  (k, f) ∈ [(4, Darwin.memset_pattern4); (8, Darwin.memset_pattern8); (16, Darwin.memset_pattern16)] ->
  0 <= len < 2 ^ 64 -> (Z.to_nat len < fuel)%nat -> range_mapped m src k -> range_mapped m dst len -> apart dst len src k -> mem_wf m ->
  exists m', f fuel m dst src len = Ret m' /\ same_outside m m' dst len /\
    forall i, 0 <= i < len -> peek m' (dst + i) = peek m (src + i mod k).
Proof.
  rewrite !elem_of_cons, elem_of_nil. intros [[= -> ->]|[[= -> ->]|[[= -> ->]|[]]]] ??????; apply pattern_spec; done || lia.
Qed.


(** The right to wait for events is never given: the branch for character
    devices that has it comes after one that takes them all. *)
Theorem event_right_unreachable flags mode rights :
  FreeBSDLoader.rights_of flags mode = Some rights -> ~ Host.CAP_EVENT ∈ rights.
Proof. intros H. by apply rights_spec in H as (_ & _ & _ & _ & H). Qed.

(** The name of a tap device goes to a buffer of 32 bytes with no check: a name
    of 27 or more characters is written past its end. *)
Theorem tap_name_overflows h capsicum stat_size post :
  (27 <= length post)%nat -> forall s,
  Rexec.colon_open h (FreeBSDLoader.freebsd_os h capsicum stat_size) (lit "tap") post Sandbox.O_RDWR s = Host.Wild /\
  Rexec.colon_open h (DarwinLoader.darwin_os h stat_size) (lit "tap") post Sandbox.O_RDWR s = Host.Wild.
Proof.
  intros Hp s. unfold Rexec.colon_open. cbn [Rexec.op_open FreeBSDLoader.freebsd_os DarwinLoader.darwin_os].
  unfold FreeBSDLoader.os_open, DarwinLoader.os_open, TapDevice.open_tap.
  rewrite !(bool_decide_false (lit "tap" = _)) by done. rewrite bool_decide_true by done.
  destruct (Nat.ltb_spec 26 (length post)); [done|lia].
Qed.

(** On FreeBSD and Darwin the size of a block device is not its media size:
    the size the host's fstat gives is reported whatever the ioctl says. *)
Theorem block_size_lost h media t fd s p b :
  FreeBSD.sys_fstat h fd = Some b -> Z.land (b_mode b) S_IFMT = S_IFBLK ->
  let st := Stat S_IFBLK (b_size b) (st_hwaddr s) in
  FreeBSD.fstat h t fd s p = Ret (0, None, st, p) /\ Darwin.fstat (FreeBSD.sys_fstat h) media t fd s = Ret (0, None, st).
Proof.
  intros Hb Hk st. unfold FreeBSD.fstat, Darwin.fstat. rewrite Hb, Hk. cbn [Z.eqb]. rewrite Z.eqb_refl.
  assert (Hm : st_mode_of (b_mode b) = S_IFBLK) by (unfold st_mode_of; by rewrite Hk).
  split; [destruct (FreeBSD.ioctl_mediasize h fd)|destruct (media fd)]; cbn [b_mode b_size st_size st_hwaddr]; by rewrite Hm.
Qed.

(** C38. On FreeBSD every call of fstat for a tap device takes another entry of
    the poll array, and the 65th writes past its end. *)
Theorem repeated_fstat_overflows h t fd s b a :
  FreeBSD.sys_fstat h fd = Some b -> Z.land (b_mode b) S_IFMT = S_IFCHR -> FreeBSD.ioctl_gifaddr h fd = Some a ->
  (forall p, 0 <= npoll p < MAXFD -> exists p' st, FreeBSD.fstat h t fd s p = Ret (0, None, st, p') /\ npoll p' = npoll p + 1) /\
  (forall p, npoll p = MAXFD -> FreeBSD.fstat h t fd s p = UB).
Proof.
  intros Hb Hk Ha. unfold FreeBSD.fstat. rewrite Hb, Hk, Ha. change (S_IFCHR =? S_IFBLK) with false. rewrite Z.eqb_refl. unfold add_poll. split.
  - intros p Hp. destruct (Z.leb_spec 0 (npoll p)), (Z.ltb_spec (npoll p) MAXFD); try lia. cbn [andb mbind outcome_bind]. eexists _, _. split; done.
  - intros p ->. done.
Qed.

(** C31. On Darwin a poll of descriptors below 32, each in one entry, reports for
    each of them the events that were asked for and are there, and returns their
    number: select is given the right sets, and its sets are read back
    correctly.  When there are none the entries stay as they were.  The time
    is at most 2147483 milliseconds, or -1 when there is something to report. *)
Theorem sc_poll_reports select ready_r ready_w fds to :
  let found := (answered POLLIN ready_r fds + answered Darwin.POLLOUT ready_w fds)%nat in
  selects select ready_r ready_w -> Forall (fun q => 0 <= pfd q < 32) fds -> NoDup (map pfd fds) ->
  0 <= to <= 2147483 \/ to = -1 /\ (0 < found)%nat ->
  Darwin.sc_poll select fds to = Ret (Z.of_nat found, if decide (found = 0%nat) then fds else
    map (fun q => Pollfd (pfd q) (events q)
      (Z.lor (if Darwin.wants POLLIN q && ready_r (pfd q) then POLLIN else 0)
             (if Darwin.wants Darwin.POLLOUT q && ready_w (pfd q) then Darwin.POLLOUT else 0))) fds).
Proof.
  intros found Hsel Hf Hn Hto. unfold Darwin.sc_poll. rewrite poll_time by lia. cbn [mbind outcome_bind].
  destruct (poll_sets_low fds Darwin.fd_zero Darwin.fd_zero 0 Hf fd_zero_ok fd_zero_ok) as (r & w & mx & -> & Hr & Hw & H0 & Hmx & Hin).
  cbn [mbind outcome_bind]. set (lim := if to =? -1 then None else _).
  assert ((to <? 0) && negb (to =? -1) = false) as -> by (destruct (Z.ltb_spec to 0), (Z.eqb_spec to (-1)); done || lia).
  destruct (Hsel (mx + 1) r w Darwin.fd_zero lim ltac:(lia) Hr Hw) as (r' & w' & Hr' & Hw' & Hd & Hret).
  assert (Hin' : forall d, 0 <= d < mx + 1 -> in_set d r' = asked POLLIN d fds && ready_r d /\ in_set d w' = asked Darwin.POLLOUT d fds && ready_w d).
  { intros d Hdm. destruct (Hd d Hdm) as [-> ->], (Hin d ltac:(lia)) as [-> ->]. unfold Darwin.fd_zero. by rewrite !in_set_zero. }
  assert (Hfd : Forall (fun q => 0 <= pfd q < mx + 1) fds).
  { rewrite Forall_forall in Hf, Hmx |- *. intros q Hq. specialize (Hf q Hq). specialize (Hmx q Hq). cbn in *. lia. }
  rewrite (members_answered POLLIN ready_r _ r' fds), (members_answered Darwin.POLLOUT ready_w _ w' fds) in Hret by (done || apply Hin').
  fold found in Hret. rewrite Hret by (unfold lim; destruct (Z.eqb_spec to (-1)); [right; lia|left; done]).
  destruct (decide (found = 0%nat)) as [->|Hne]; [done|]. destruct (Z.ltb_spec 0 (Z.of_nat found)); [|lia].
  rewrite poll_results_low by done. cbn [mbind outcome_bind]. do 2 f_equal.
  apply map_ext_in. intros q Hq. apply list_elem_of_In in Hq. rewrite Forall_forall in Hfd. destruct (Hin' (pfd q) (Hfd q Hq)) as [-> ->].
  by rewrite !asked_nodup.
Qed.

(** C37. On Darwin a poll of descriptors from 32 to 63 waits for none of them,
    with no time limit or any of up to 2147483 milliseconds: select is called
    with empty sets, because a set has words of 32 bits and the macros put 64
    descriptors in a word.  With a time limit the poll finds nothing, whatever is
    ready. *)
Theorem high_descriptors_not_polled select ready_r ready_w fds to :
  Forall (fun q => 32 <= pfd q < 64) fds -> -1 <= to <= 2147483 ->
  (exists n, Darwin.sc_poll select fds to =
    let '(ret, r, w) := select n Darwin.fd_zero Darwin.fd_zero Darwin.fd_zero
      (if to =? -1 then None else Some (Darwin.TV (to / 1000) (to mod 1000 * 1000))) in
    if 0 <? ret then fds ← Darwin.poll_results fds r w; Ret (ret, fds) else Ret (ret, fds)) /\
  (selects select ready_r ready_w -> 0 <= to -> Darwin.sc_poll select fds to = Ret (0, fds)).
Proof.
  intros Hf Hto.
  assert (Hrun : exists n, 0 <= n /\ Darwin.sc_poll select fds to =
    let '(ret, r, w) := select n Darwin.fd_zero Darwin.fd_zero Darwin.fd_zero
      (if to =? -1 then None else Some (Darwin.TV (to / 1000) (to mod 1000 * 1000))) in
    if 0 <? ret then fds ← Darwin.poll_results fds r w; Ret (ret, fds) else Ret (ret, fds)).
  { unfold Darwin.sc_poll. rewrite poll_time by lia. cbn [mbind outcome_bind].
    destruct (poll_sets_high fds Darwin.fd_zero Darwin.fd_zero 0 Hf fd_zero_ok fd_zero_ok) as (mx & Hmx & ->). cbn [mbind outcome_bind].
    assert ((to <? 0) && negb (to =? -1) = false) as -> by (destruct (Z.ltb_spec to 0), (Z.eqb_spec to (-1)); done || lia).
    exists (mx + 1). split; [lia|]. by destruct (to =? -1). }
  destruct Hrun as (n & Hn & ->). split; [by exists n|]. intros Hsel H0.
  destruct (Hsel n _ _ Darwin.fd_zero (if to =? -1 then None else Some (Darwin.TV (to / 1000) (to mod 1000 * 1000))) Hn fd_zero_ok fd_zero_ok)
    as (r' & w' & _ & _ & Hd & Hret).
  assert (Hz : members n r' = 0%nat /\ members n w' = 0%nat).
  { split; apply members_none; intros d Hd'; destruct (Hd d Hd') as [Hdr Hdw]; [rewrite Hdr|rewrite Hdw]; unfold Darwin.fd_zero;
      by rewrite in_set_zero. }
  destruct Hz as [-> ->] in Hret. rewrite Hret by (destruct (Z.eqb_spec to (-1)); [lia|by left]). done.
Qed.

(** A sleep with network devices on FreeBSD and Darwin is in whole
    milliseconds, rounded down; one of 2^31 to 2^32 milliseconds becomes a
    negative time. *)
Theorem sleep_timeout_wraps sec nsec :
  0 <= sec -> 0 <= nsec < 1000000000 ->
  let ms := sec * 1000 + nsec / 1000000 in
  (ms < 2 ^ 31 -> poll_timeout (TS sec nsec) = Ret ms) /\
  (2 ^ 31 <= ms < 2 ^ 32 -> exists t, poll_timeout (TS sec nsec) = Ret t /\ t < 0).
Proof.
  intros Hs Hn ms. unfold poll_timeout. cbn [tv_sec tv_nsec]. rewrite Z.quot_div_nonneg by lia. fold ms.
  pose proof (Z.div_pos nsec 1000000 ltac:(lia) ltac:(lia)) as Hq. unfold int64.
  split; intros Hms; (destruct (Z.leb_spec (- 2 ^ 63) ms), (Z.ltb_spec ms (2 ^ 63)); try lia; cbn [andb mbind outcome_bind]).
  - by rewrite i32_small by lia.
  - eexists. split; [done|]. unfold i32. rewrite <- (Z.mod_unique (ms + 2 ^ 31) (2 ^ 32) 1 (ms - 2 ^ 31)) by lia. lia.
Qed.

(** On NetBSD the choice between the two ways to sleep is made once: after a
    call the variable is 0 or 1, it only changes from 1 to 0, and from then on
    the older system call is the only one made. *)
Theorem netbsd_sleep_settles sysctl sys have r e have' calls :
  have = -1 \/ have = 0 \/ have = 1 -> NetBSD.clock_nanosleep sysctl sys have = Ret (r, e, have', calls) ->
  (have' = 0 \/ have' = 1) /\ (have = 0 -> have' = 0) /\
  forall sysctl2 sys2, have' = 0 -> NetBSD.clock_nanosleep sysctl2 sys2 have' = Ret (sys2 NetBSD.Nanosleep, 0, [NetBSD.Nanosleep]).
Proof.
  intros Hh H. assert (Hlast : forall sysctl2 sys2, NetBSD.clock_nanosleep sysctl2 sys2 0 = Ret (sys2 NetBSD.Nanosleep, 0, [NetBSD.Nanosleep])).
  { intros sysctl2 sys2. unfold NetBSD.clock_nanosleep. cbn. by destruct (sys2 NetBSD.Nanosleep). }
  split; [|split; [|by intros ? ? ->; apply Hlast]].
  2:{ intros ->. rewrite Hlast in H. by destruct (sys NetBSD.Nanosleep); injection H. }
  assert (Hcase : forall x, x = 0 \/ x = 1 -> NetBSD.clock_nanosleep sysctl sys x = Ret (r, e, have', calls) -> have' = 0 \/ have' = 1).
  { intros x Hx H'. destruct Hx as [-> | ->]; [rewrite Hlast in H'; destruct (sys NetBSD.Nanosleep); injection H'; auto|].
    unfold NetBSD.clock_nanosleep in H'. cbn in H'. destruct (sys NetBSD.Nanosleep), (sys NetBSD.ClockNanosleep).
    destruct (_ || _); injection H'; auto. }
  destruct Hh as [-> |Hh]; [|by apply (Hcase have)]. destruct sysctl as [v|]; [|done].
  destruct (7 <=? Z.quot v 100000000) eqn:Ev; [apply (Hcase 1); [auto|]|apply (Hcase 0); [auto|]];
    unfold NetBSD.clock_nanosleep in *; cbn in *; by rewrite Ev in H.
Qed.

(** *** Examples *)

Lemma sleep_timeout_wraps_witness : exists t, poll_timeout (TS 2147484 0) = Ret t /\ t < 0.
Proof. apply (sleep_timeout_wraps 2147484 0); [lia|lia|]. vm_compute. split; [discriminate|reflexivity]. Defined.

Lemma netbsd_sleep_settles_witness : NetBSD.clock_nanosleep None (fun _ => (0, None)) 0 = Ret (0, None, 0, [NetBSD.Nanosleep]).
Proof.
  destruct (netbsd_sleep_settles (Some 699000000) (fun _ => (0, None)) (-1) 0 None 0 [NetBSD.Nanosleep] (or_introl eq_refl) eq_refl) as (_ & _ & H).
  exact (H None (fun _ => (0, None)) eq_refl).
Defined.

Definition demo_page : mem := poke_list (Mem [(4096, 256)] ∅) 4096 (lit "abcdefghijklmnop").

Lemma demo_page_mapped a n : 4096 <= a -> a + n <= 4352 -> range_mapped demo_page a n.
Proof.
  intros Ha Hn i Hi. unfold demo_page. rewrite mapped_at_poke_list. unfold mapped_at, in_range. cbn [mapped existsb fst snd].
  rewrite orb_false_r. apply andb_true_iff. split; [apply Z.leb_le|apply Z.ltb_lt]; lia.
Qed.

Lemma memset_pattern_fills_witness :
  exists m', Darwin.memset_pattern16 40 demo_page 4200 4096 35 = Ret m' /\ peek m' 4234 = peek demo_page 4098.
Proof.
  destruct (memset_pattern_fills 40 demo_page 4200 4096 35 16 Darwin.memset_pattern16) as (m' & H1 & _ & H2);
    [right; right; left|lia|vm_compute; lia|apply demo_page_mapped; lia|apply demo_page_mapped; lia|unfold apart; lia|apply mem_wf_poke_list, mem_wf_fresh|].
  exists m'. split; [exact H1|]. exact (H2 34 ltac:(lia)).
Defined.

(** The loader with a disk image, on a machine where every call succeeds. *)
Definition demo_freebsd : Rexec.os_ops := FreeBSDLoader.freebsd_os RexecProperties.demo_machine true 224.




Lemma event_right_unreachable_witness :
  ~ Host.CAP_EVENT ∈ [Host.CAP_READ; Host.CAP_WRITE; Host.CAP_SEEK; Host.CAP_FSYNC; Host.CAP_FCNTL; Host.CAP_FSTAT; Host.CAP_IOCTL].
Proof. apply (event_right_unreachable 2 S_IFCHR). reflexivity. Defined.

Lemma tap_name_overflows_witness :
  Rexec.colon_open RexecProperties.demo_machine demo_freebsd (lit "tap") (repeat 97 27) Sandbox.O_RDWR (Host.state0 []) = Host.Wild.
Proof. apply (tap_name_overflows RexecProperties.demo_machine true 224 (repeat 97 27)). rewrite repeat_length. lia. Defined.

(** A disk of a megabyte whose fstat gives the size 0, and a tap device. *)
Definition demo_bsd : FreeBSD.host :=
  FreeBSD.Host (fun fd => if fd =? 3 then Some (BStat (S_IFBLK + 420) 0 0) else if fd =? 4 then Some (BStat S_IFCHR 0 0) else None)
    (fun _ => Some 1048576) (fun _ => Some [2; 0; 0; 0; 0; 1]).

Lemma block_size_lost_witness : FreeBSD.fstat demo_bsd __franken_fd 3 stat0 plat0 = Ret (0, None, Stat S_IFBLK 0 (repeat 0 6), plat0).
Proof. apply (block_size_lost demo_bsd (fun _ => None) __franken_fd 3 stat0 plat0 (BStat (S_IFBLK + 420) 0 0)); reflexivity. Defined.

Lemma repeated_fstat_overflows_witness : FreeBSD.fstat demo_bsd __franken_fd 4 stat0 (Plat (-1) (-1) 64 (replicate 64 (Pollfd 4 3 0)) []) = UB.
Proof.
  apply (repeated_fstat_overflows demo_bsd __franken_fd 4 stat0 (BStat S_IFCHR 0 0) [2; 0; 0; 0; 0; 1]); reflexivity.
Defined.

(** Everything can be read, nothing can be written. *)
Definition demo_select (n : Z) (r w e : Darwin.fd_set) (tv : option Darwin.timeval) : Z * Darwin.fd_set * Darwin.fd_set :=
  (Z.of_nat (members n r), r, Darwin.fd_zero).

Lemma demo_selects : selects demo_select (fun _ => true) (fun _ => false).
Proof.
  intros n r w e tv Hn Hr _. exists r, Darwin.fd_zero. split_and!; [exact Hr|exact fd_zero_ok| |].
  - intros d _. rewrite andb_true_r, andb_false_r. split; [reflexivity|apply in_set_zero].
  - intros _. unfold demo_select. rewrite (members_none n Darwin.fd_zero) by (intros; apply in_set_zero). by rewrite Nat.add_0_r.
Qed.

Lemma sc_poll_reports_witness :
  Darwin.sc_poll demo_select [Pollfd 31 (Z.lor POLLIN POLLPRI) 0; Pollfd 5 Darwin.POLLOUT 0] 10000 =
  Ret (1, [Pollfd 31 3 POLLIN; Pollfd 5 Darwin.POLLOUT 0]).
Proof.
  apply (sc_poll_reports demo_select (fun _ => true) (fun _ => false) [Pollfd 31 (Z.lor POLLIN POLLPRI) 0; Pollfd 5 Darwin.POLLOUT 0] 10000
    demo_selects); [repeat constructor; cbn; lia|apply (bool_decide_unpack _); exact I|lia].
Defined.

Lemma high_descriptors_not_polled_witness : Darwin.sc_poll demo_select [Pollfd 40 POLLIN 0] 10000 = Ret (0, [Pollfd 40 POLLIN 0]).
Proof.
  apply (high_descriptors_not_polled demo_select (fun _ => true) (fun _ => false) [Pollfd 40 POLLIN 0] 10000);
    [repeat constructor; cbn; lia|lia|exact demo_selects|lia].
Defined.

End BsdProperties.
